(** * ccan/tal: the hierarchical allocator of [ccan/tal/tal.c]

    A shallow embedding of the allocator in a typed object heap.

    - Pointers are integers ([Z]), [0] is [NULL]; [size_t] is 64 bits wide
      and its arithmetic wraps ([wrap]).
    - The heap maps the address of every live C object to its contents
      ([object]); [blocks] records the extent of every block handed out by
      the backend, so that releasing or reallocating a block invalidates
      everything stored inside it (the embedded [struct length] included).
    - The backend hooks ([allocfn], [resizefn], [freefn], [errorfn]) and the
      user callbacks behind notifier function pointers are the observable
      events of a run; they are recorded in [trace].
    - The embedding is of the build with [NDEBUG] defined and [TAL_DEBUG]
      undefined: [update_bounds] is empty, [in_bounds] is constantly true
      (so [check_bounds] never reports), [debug_tal] is the identity and
      [assert] expands to nothing.
    - Payload bytes are not tracked: [memset] and [memcpy] on the payload
      leave the model state unchanged. *)

From stdpp Require Import gmap strings list.
From Stdlib Require Import ZArith Lia.

Open Scope Z_scope.

(** ** Machine constants (LP64) *)

Definition SIZE_MOD : Z := 2 ^ 64.
Definition SIZE_MAX : Z := SIZE_MOD - 1.
Definition wrap (z : Z) : Z := z mod SIZE_MOD.

Definition NULL : Z := 0.

Definition sizeof_tal_hdr : Z := 32.
Definition sizeof_prop_hdr : Z := 16.
Definition sizeof_children : Z := 40.
Definition sizeof_length : Z := 24.
Definition sizeof_notifier : Z := 32.
Definition alignof_length : Z := 8.
(** [offsetof(struct children, children)]: the list head inside the
    children property. *)
Definition offsetof_children : Z := 24.

(** [#define NOTIFY_IS_DESTRUCTOR 512] *)
Definition NOTIFY_IS_DESTRUCTOR : Z := 512.

(** Modelled from the spec: [enum tal_notify_type] is declared in
    [ccan/tal/tal.h], which is not among the sources; the lifecycle events
    of the spec's section 4.7 are single bits, in that order, all below
    [NOTIFY_IS_DESTRUCTOR]. *)
Definition TAL_NOTIFY_FREE : Z := 1.
Definition TAL_NOTIFY_STEAL : Z := 2.
Definition TAL_NOTIFY_MOVE : Z := 4.
Definition TAL_NOTIFY_RESIZE : Z := 8.
Definition TAL_NOTIFY_RENAME : Z := 16.
Definition TAL_NOTIFY_ADD_CHILD : Z := 32.
Definition TAL_NOTIFY_DEL_CHILD : Z := 64.
Definition TAL_NOTIFY_ADD_NOTIFIER : Z := 128.
Definition TAL_NOTIFY_DEL_NOTIFIER : Z := 256.

(** ** Data model *)

(** [enum prop_type] *)
Inductive prop_type := CHILDREN | NAME | NOTIFIER | LENGTH.

Global Instance prop_type_eq_dec : EqDecision prop_type.
Proof. solve_decision. Defined.

Definition prop_type_tag (ty : prop_type) : Z :=
  match ty with
  | CHILDREN => 0x00c1d500
  | NAME => 0x00111100
  | NOTIFIER => 0x00071f00
  | LENGTH => 0x00515300
  end.

(** [struct list_node] of ccan/list *)
Record list_node := ListNode { next : Z; prev : Z }.

(** [struct tal_hdr]; the field [list] is spelt [hlist] here, [list] being
    the type of lists. *)
Record tal_hdr := TalHdr {
  hlist : list_node;
  prop : Z;
  parent_child : Z
}.

(** The C objects the allocator reads and writes.  Every property starts
    with its [struct prop_hdr]: the type tag is the constructor, [next] is
    the first argument. *)
Inductive object :=
| Hdr (h : tal_hdr)
| Children (nxt : Z) (parent : Z) (children : list_node)
| Name (nxt : Z) (name : string)
| Notifier (nxt : Z) (types : Z) (fn : Z)
| Length (nxt : Z) (count : Z)
| Str (s : string).

Global Instance list_node_eq_dec : EqDecision list_node.
Proof. solve_decision. Defined.
Global Instance tal_hdr_eq_dec : EqDecision tal_hdr.
Proof. solve_decision. Defined.
Global Instance object_eq_dec : EqDecision object.
Proof. solve_decision. Defined.

(** What the outside world sees of a run. *)
Inductive event :=
| EvError (msg : string)
| EvAlloc (size ret : Z)
| EvRealloc (p size ret : Z)
| EvRelease (p : Z)
| EvAtexit
| EvNotify (fn ctx type info : Z)
| EvDestroy (fn ctx : Z).

Global Instance event_eq_dec : EqDecision event.
Proof. solve_decision. Defined.

Record state := State {
  heap : gmap Z object;
  blocks : gmap Z Z;
  backend : list Z;
  backend_errno : Z;
  error_aborts : bool;
  initialized : bool;
  notifiers : Z;
  errno : Z;
  takenarr : list Z;
  trace : list event
}.

Definition set_heap (f : gmap Z object → gmap Z object) (s : state) : state :=
  State (f (heap s)) (blocks s) (backend s) (backend_errno s) (error_aborts s) (initialized s)
        (notifiers s) (errno s) (takenarr s) (trace s).
Definition set_blocks (f : gmap Z Z → gmap Z Z) (s : state) : state :=
  State (heap s) (f (blocks s)) (backend s) (backend_errno s) (error_aborts s) (initialized s)
        (notifiers s) (errno s) (takenarr s) (trace s).
Definition set_backend (l : list Z) (s : state) : state :=
  State (heap s) (blocks s) l (backend_errno s) (error_aborts s) (initialized s)
        (notifiers s) (errno s) (takenarr s) (trace s).
Definition set_initialized (b : bool) (s : state) : state :=
  State (heap s) (blocks s) (backend s) (backend_errno s) (error_aborts s) b
        (notifiers s) (errno s) (takenarr s) (trace s).
Definition set_notifiers (n : Z) (s : state) : state :=
  State (heap s) (blocks s) (backend s) (backend_errno s) (error_aborts s) (initialized s)
        n (errno s) (takenarr s) (trace s).
Definition set_errno (e : Z) (s : state) : state :=
  State (heap s) (blocks s) (backend s) (backend_errno s) (error_aborts s) (initialized s)
        (notifiers s) e (takenarr s) (trace s).
Definition set_takenarr (l : list Z) (s : state) : state :=
  State (heap s) (blocks s) (backend s) (backend_errno s) (error_aborts s) (initialized s)
        (notifiers s) (errno s) l (trace s).
Definition log (e : event) (s : state) : state :=
  State (heap s) (blocks s) (backend s) (backend_errno s) (error_aborts s) (initialized s)
        (notifiers s) (errno s) (takenarr s) (trace s ++ [e]).

(** ** The monad of C executions *)

Inductive result (A : Type) :=
| Ok (a : A) (s : state)       (* normal return *)
| Abort (s : state)            (* [abort()] was reached *)
| Undef                        (* undefined behaviour *)
| OutOfFuel.                   (* the fuel of the model ran out *)
Arguments Ok {A} a s.
Arguments Abort {A} s.
Arguments Undef {A}.
Arguments OutOfFuel {A}.

Definition M (A : Type) : Type := state → result A.

Definition ret {A} (a : A) : M A := λ s, Ok a s.
Definition bind {A B} (m : M A) (k : A → M B) : M B :=
  λ s, match m s with
       | Ok a s' => k a s'
       | Abort s' => Abort s'
       | Undef => Undef
       | OutOfFuel => OutOfFuel
       end.
Definition undef {A} : M A := λ _, Undef.
Definition out_of_fuel {A} : M A := λ _, OutOfFuel.
Definition abort {A} : M A := λ s, Abort s.
Definition get : M state := λ s, Ok s s.
Definition modify (f : state → state) : M unit := λ s, Ok tt (f s).

Notation "'let*' x := m 'in' k" := (bind m (λ x, k))
  (at level 10, x name, m at level 100, k at level 200,
   format "'[v' 'let*'  x  :=  m  'in' '/' k ']'").
Notation "'do*' m 'in' k" := (bind m (λ _, k))
  (at level 10, m at level 100, k at level 200,
   format "'[v' 'do*'  m  'in' '/' k ']'").

(** ** Memory *)

Definition first_byte (s : string) : Z :=
  match s with
  | EmptyString => 0
  | String a _ => Z.of_nat (Ascii.nat_of_ascii a)
  end.

Definition sizeof_obj (o : object) : Z :=
  match o with
  | Hdr _ => sizeof_tal_hdr
  | Children _ _ _ => sizeof_children
  | Name _ n => sizeof_prop_hdr + Z.of_nat (String.length n) + 1
  | Notifier _ _ _ => sizeof_notifier
  | Length _ _ => sizeof_length
  | Str n => Z.of_nat (String.length n) + 1
  end.

(** Reading through a pointer: [NULL] and addresses that hold no live
    object are undefined. *)
Definition load (p : Z) : M object :=
  λ s, if p =? 0 then Undef
       else match heap s !! p with Some o => Ok o s | None => Undef end.

(** A write that changes fields of an object that is already there. *)
Definition store (p : Z) (o : object) : M unit :=
  do* load p in modify (set_heap <[p := o]>).

(** [q .. q+len) lies inside one live block of the backend. *)
Definition in_block (q len : Z) (bl : gmap Z Z) : Prop :=
  map_Exists (λ b sz, b ≤ q ∧ q + len ≤ b + sz) bl.

(** The first write to fresh memory: it brings the object at [q] into
    being, and is defined only inside a live block. *)
Definition emplace (q : Z) (o : object) : M unit :=
  λ s, if bool_decide (in_block q (sizeof_obj o) (blocks s))
       then Ok tt (set_heap <[q := o]> s)
       else Undef.

Definition load_hdr (t : Z) : M tal_hdr :=
  let* o := load t in
  match o with Hdr h => ret h | _ => undef end.

Definition store_hdr (t : Z) (h : tal_hdr) : M unit := store t (Hdr h).

Definition obj_type (o : object) : option prop_type :=
  match o with
  | Children _ _ _ => Some CHILDREN
  | Name _ _ => Some NAME
  | Notifier _ _ _ => Some NOTIFIER
  | Length _ _ => Some LENGTH
  | Hdr _ | Str _ => None
  end.

Definition obj_next (o : object) : option Z :=
  match o with
  | Children n _ _ | Name n _ | Notifier n _ _ | Length n _ => Some n
  | Hdr _ | Str _ => None
  end.

Definition with_next (n : Z) (o : object) : object :=
  match o with
  | Children _ p c => Children n p c
  | Name _ s => Name n s
  | Notifier _ t f => Notifier n t f
  | Length _ c => Length n c
  | Hdr _ | Str _ => o
  end.

(** [p->type] *)
Definition load_type (p : Z) : M prop_type :=
  let* o := load p in
  match obj_type o with Some ty => ret ty | None => undef end.

(** [p->next] *)
Definition load_next (p : Z) : M Z :=
  let* o := load p in
  match obj_next o with Some n => ret n | None => undef end.

(** A [struct prop_hdr **]: the address of the [prop] field of a header or
    of the [next] field of a property. *)
Inductive ploc := PropOf (t : Z) | NextOf (p : Z).

Global Instance ploc_eq_dec : EqDecision ploc.
Proof. solve_decision. Defined.

Definition load_ploc (l : ploc) : M Z :=
  match l with
  | PropOf t => let* h := load_hdr t in ret (prop h)
  | NextOf p => load_next p
  end.

Definition store_ploc (l : ploc) (v : Z) : M unit :=
  match l with
  | PropOf t =>
      let* h := load_hdr t in
      store_hdr t (TalHdr (hlist h) v (parent_child h))
  | NextOf p =>
      let* o := load p in
      match obj_next o with
      | Some _ => store p (with_next v o)
      | None => undef
      end
  end.

(** A [struct list_node *] is the address of a header (its first member)
    or of the list head inside a children property. *)
Definition load_node (q : Z) : M list_node :=
  λ s, match heap s !! q with
       | Some (Hdr h) => Ok (hlist h) s
       | _ => match heap s !! (q - offsetof_children) with
              | Some (Children _ _ n) => Ok n s
              | _ => Undef
              end
       end.

Definition store_node (q : Z) (n : list_node) : M unit :=
  λ s, match heap s !! q with
       | Some (Hdr h) =>
           Ok tt (set_heap <[q := Hdr (TalHdr n (prop h) (parent_child h))]> s)
       | _ => match heap s !! (q - offsetof_children) with
              | Some (Children nx pa _) =>
                  Ok tt (set_heap <[q - offsetof_children := Children nx pa n]> s)
              | _ => Undef
              end
       end.

Definition set_next (q v : Z) : M unit :=
  let* n := load_node q in store_node q (ListNode v (prev n)).
Definition set_prev (q v : Z) : M unit :=
  let* n := load_node q in store_node q (ListNode (next n) v).

(** ** The intrusive list of ccan/list *)

(** Modelled from the spec: [ccan/list/list.h] is not among the sources.
    The spec's "intrusive sibling list" is the doubly-linked circular list
    of ccan: [list_add] pushes at the head of the list
    ([n->next = h->n.next; n->prev = &h->n; h->n.next->prev = n;
    h->n.next = n]). *)
Definition list_add (h n : Z) : M unit :=
  let* hn := load_node h in
  do* set_next n (next hn) in
  do* set_prev n h in
  let* hn' := load_node h in
  do* set_prev (next hn') n in
  set_next h n.

(** Modelled from the spec: [list_del] unlinks a node by joining its two
    neighbours ([n->next->prev = n->prev; n->prev->next = n->next]); the
    node's own links are left as they were (no [CCAN_LIST_DEBUG]). *)
Definition list_del (n : Z) : M unit :=
  let* a := load_node n in
  do* set_prev (next a) (prev a) in
  let* b := load_node n in
  set_next (prev b) (next b).

(** Modelled from the spec: [list_top] is the first entry of the list, or
    [NULL] when the head points to itself; the list node is the first
    member of [struct tal_hdr]. *)
Definition list_top (h : Z) : M Z :=
  let* hn := load_node h in
  if next hn =? h then ret NULL else ret (next hn).

(** [list_head_init] *)
Definition list_head_init (h : Z) : M unit :=
  store_node h (ListNode h h).

(** ** Backend hooks *)

Definition free_range (b sz : Z) (h : gmap Z object) : gmap Z object :=
  filter (λ kv, ¬ (b ≤ kv.1 < b + sz)) h.

(** [allocfn]: the next answer of the backend; [0] is a failed request. *)
Definition allocfn (size : Z) : M Z :=
  λ s, match backend s with
       | [] => Ok NULL (log (EvAlloc size NULL) s)
       | a :: rest =>
           let s' := log (EvAlloc size a) (set_backend rest s) in
           if a =? 0 then Ok NULL s'
           else Ok a (set_blocks <[a := size]> s')
       end.

(** [resizefn]: on success the block at [p] is gone with all it held, and
    the object at its base is found again at the new address. *)
Definition resizefn (p size : Z) : M Z :=
  λ s, match blocks s !! p, heap s !! p with
       | Some old, Some o =>
           match backend s with
           | [] => Ok NULL (log (EvRealloc p size NULL) s)
           | a :: rest =>
               let s' := log (EvRealloc p size a) (set_backend rest s) in
               if a =? 0 then Ok NULL s'
               else Ok a (set_heap (λ h, <[a := o]> (free_range p old h))
                            (set_blocks (λ b, <[a := size]> (delete p b)) s'))
           end
       | _, _ => Undef
       end.

Section Tal.

(** The user code behind a notifier's function pointer, at the invocation
    an event describes. *)
Variable callback : event → M unit.

(** [freefn]: releasing what is not a live block is undefined; the hook
    leaves [backend_errno] in [errno]. *)
Definition freefn (p : Z) : M unit :=
  λ s, match blocks s !! p with
       | Some sz =>
           Ok tt (set_errno (backend_errno s)
                   (set_heap (free_range p sz)
                     (set_blocks (delete p) (log (EvRelease p) s))))
       | None => Undef
       end.

(** [errorfn] *)
Definition call_error (msg : string) : M unit :=
  λ s, if error_aborts s then Abort (log (EvError msg) s)
       else Ok tt (log (EvError msg) s).

(** ** tal.c *)

Definition get_destroying_bit (parent_child : Z) : bool :=
  negb (Z.land parent_child 1 =? 0).

Definition set_destroying_bit (t : Z) : M unit :=
  let* h := load_hdr t in
  store_hdr t (TalHdr (hlist h) (prop h) (Z.lor (parent_child h) 1)).

Definition ignore_destroying_bit (parent_child : Z) : Z :=
  Z.land parent_child (SIZE_MAX - 1).

(** The sentinel root [null_parent]: a static header and its children
    property. *)
Definition null_parent_hdr : Z := 64.
Definition null_parent_c : Z := null_parent_hdr + sizeof_tal_hdr.

Definition null_parent_heap : gmap Z object :=
  <[null_parent_hdr :=
      Hdr (TalHdr (ListNode null_parent_hdr null_parent_hdr) null_parent_c NULL)]>
  (<[null_parent_c :=
      Children NULL null_parent_hdr
        (ListNode (null_parent_c + offsetof_children)
                  (null_parent_c + offsetof_children))]> ∅).

Definition is_literal (p : Z) : M bool :=
  let* o := load p in
  match o with
  | Str s => ret (negb (first_byte s =? 0))
  | Hdr _ => undef
  | _ => ret false
  end.

Definition to_tal_hdr (ctx : Z) : M Z :=
  let t := ctx - sizeof_tal_hdr in
  let* h := load_hdr t in
  do* (if prop h =? 0 then ret false else is_literal (prop h)) in
  ret t.

Definition to_tal_hdr_or_null (ctx : Z) : M Z :=
  if ctx =? 0 then ret null_parent_hdr else to_tal_hdr ctx.

Definition from_tal_hdr (hdr : Z) : Z := hdr + sizeof_tal_hdr.

(** A notifier's function pointer is called. *)
Definition invoke (ev : event) : M unit :=
  do* modify (log ev) in callback ev.

Fixpoint notify_from (fuel : nat) (p ctx type info : Z) : M unit :=
  match fuel with
  | O => out_of_fuel
  | S f =>
      if p =? 0 then ret tt else
      let* lit := is_literal p in
      if lit then ret tt else
      let* ty := load_type p in
      do* (if decide (ty = NOTIFIER) then
             let* o := load p in
             match o with
             | Notifier _ types fn =>
                 if Z.land types type =? 0 then ret tt
                 else if Z.land types NOTIFY_IS_DESTRUCTOR =? 0
                      then invoke (EvNotify fn (from_tal_hdr ctx) type info)
                      else invoke (EvDestroy fn (from_tal_hdr ctx))
             | _ => undef
             end
           else ret tt) in
      let* nx := load_next p in
      notify_from f nx ctx type info
  end.

Definition notify (fuel : nat) (ctx type info : Z) : M unit :=
  let* h := load_hdr ctx in
  notify_from fuel (prop h) ctx type info.

Definition allocate (size : Z) : M Z :=
  let* r := allocfn size in
  do* (if r =? 0 then call_error "allocation failed" else ret tt) in
  ret r.

Fixpoint find_property_ptr_from (fuel : nat) (p : ploc) (type : prop_type)
  : M (option ploc) :=
  match fuel with
  | O => out_of_fuel
  | S f =>
      let* v := load_ploc p in
      if v =? 0 then ret None else
      let* lit := is_literal v in
      if lit then ret (if decide (type = NAME) then Some p else None) else
      let* ty := load_type v in
      if decide (ty = type) then ret (Some p)
      else find_property_ptr_from f (NextOf v) type
  end.

Definition find_property_ptr (fuel : nat) (t : Z) (type : prop_type)
  : M (option ploc) :=
  find_property_ptr_from fuel (PropOf t) type.

Definition find_property (fuel : nat) (parent : Z) (type : prop_type) : M Z :=
  let* p := find_property_ptr fuel parent type in
  match p with
  | Some l => load_ploc l
  | None => ret NULL
  end.

(** The fields of a property before the caller has filled them in. *)
Definition blank (type : prop_type) (nx : Z) : object :=
  match type with
  | CHILDREN => Children nx 0 (ListNode 0 0)
  | NAME => Name nx ""
  | NOTIFIER => Notifier nx 0 0
  | LENGTH => Length nx 0
  end.

Definition init_property (hdr parent : Z) (type : prop_type) : M unit :=
  let* h := load_hdr parent in
  do* emplace hdr (blank type (prop h)) in
  store_hdr parent (TalHdr (hlist h) hdr (parent_child h)).

Definition add_notifier_property (t types fn : Z) : M Z :=
  let* p := allocate sizeof_notifier in
  do* (if p =? 0 then ret tt else
         do* init_property p t NOTIFIER in
         let* nx := load_next p in
         store p (Notifier nx types fn)) in
  ret p.

Fixpoint del_notifier_property_from (fuel : nat) (p : ploc) (fn : Z) : M Z :=
  match fuel with
  | O => out_of_fuel
  | S f =>
      let* v := load_ploc p in
      if v =? 0 then ret 0 else
      let* lit := is_literal v in
      if lit then ret 0 else
      let* ty := load_type v in
      if decide (ty = NOTIFIER) then
        let* o := load v in
        match o with
        | Notifier nx types fn' =>
            if fn' =? fn then
              do* store_ploc p nx in
              do* freefn v in
              ret (Z.land types (Z.lnot NOTIFY_IS_DESTRUCTOR))
            else del_notifier_property_from f (NextOf v) fn
        | _ => undef
        end
      else del_notifier_property_from f (NextOf v) fn
  end.

Definition del_notifier_property (fuel : nat) (t fn : Z) : M Z :=
  del_notifier_property_from fuel (PropOf t) fn.

Definition add_child_property (parent child : Z) : M Z :=
  let* p := allocate sizeof_children in
  do* (if p =? 0 then ret tt else
         do* init_property p parent CHILDREN in
         let* nx := load_next p in
         do* store p (Children nx parent (ListNode 0 0)) in
         list_head_init (p + offsetof_children)) in
  ret p.

Definition add_child (fuel : nat) (parent child : Z) : M bool :=
  let* found := find_property fuel parent CHILDREN in
  let* children :=
    (if found =? 0 then
       let* s := get in
       do* (if initialized s then ret tt
            else do* modify (log EvAtexit) in modify (set_initialized true)) in
       add_child_property parent child
     else ret found) in
  if children =? 0 then ret false else
  do* list_add (children + offsetof_children) child in
  let* h := load_hdr child in
  do* store_hdr child (TalHdr (hlist h) (prop h) children) in
  ret true.

(** The loop freeing the properties of a dying node:
    [for (p = t->prop; p && !is_literal(p); p = next)]. *)
Fixpoint free_props (fuel : nat) (p : Z) : M unit :=
  match fuel with
  | O => out_of_fuel
  | S f =>
      if p =? 0 then ret tt else
      let* lit := is_literal p in
      if lit then ret tt else
      let* nx := load_next p in
      let* ty := load_type p in
      do* (if decide (ty = LENGTH) then ret tt else freefn p) in
      free_props f nx
  end.

(** The loop over the children of a dying node:
    [while ((i = list_top(&c->children, ...)))]. *)
Fixpoint del_children (rec : Z → M unit) (fuel : nat) (c : Z) : M unit :=
  match fuel with
  | O => out_of_fuel
  | S f =>
      let* i := list_top (c + offsetof_children) in
      if i =? 0 then ret tt else
      do* list_del i in
      do* rec i in
      del_children rec f c
  end.

Fixpoint del_tree (fuel : nat) (t orig : Z) : M unit :=
  match fuel with
  | O => out_of_fuel
  | S f =>
      let* h := load_hdr t in
      if get_destroying_bit (parent_child h) then ret tt else
      do* set_destroying_bit t in
      do* notify f t TAL_NOTIFY_FREE orig in
      let* cp := find_property_ptr f t CHILDREN in
      do* (match cp with
           | Some l =>
               let* c := load_ploc l in
               del_children (λ i, del_tree f i orig) f c
           | None => ret tt
           end) in
      let* h' := load_hdr t in
      do* free_props f (prop h') in
      freefn t
  end.

Definition tal_alloc_ (fuel : nat) (ctx size : Z) (clear : bool) (label : Z)
  : M Z :=
  let* parent := to_tal_hdr_or_null ctx in
  let* child := allocate (wrap (sizeof_tal_hdr + size)) in
  if child =? 0 then ret NULL else
  do* emplace child (Hdr (TalHdr (ListNode 0 0) label 0)) in
  let* ok := add_child fuel parent child in
  if negb ok then do* freefn child in ret NULL else
  let* s := get in
  do* (if notifiers s =? 0 then ret tt
       else notify fuel parent TAL_NOTIFY_ADD_CHILD (from_tal_hdr child)) in
  ret (from_tal_hdr child).

(** [adjust_size] works on [*size]; here it returns the new value beside
    its verdict.  A division by zero is undefined. *)
Definition adjust_size (size count : Z) : M (bool * Z) :=
  let extra := sizeof_tal_hdr + sizeof_length * 2 in
  let overflow (sz : Z) : M (bool * Z) :=
    do* call_error "allocation size overflow" in ret (false, sz) in
  (* Multiplication wrap *)
  let* wrapped :=
    (if count =? 0 then ret false
     else if size =? 0 then undef
     else ret (negb (wrap (size * count) / size =? count))) in
  if (wrapped : bool) then overflow size else
  let size' := wrap (size * count) in
  (* Make sure we don't wrap adding header/tailer. *)
  if wrap (size' + extra) <? extra then overflow size'
  else ret (true, size').

Definition extra_for_length (size : Z) : Z :=
  let align := alignof_length in
  let extra :=
    wrap (Z.land (wrap (size + align - 1)) (SIZE_MAX - (align - 1)) - size) in
  wrap (extra + sizeof_length).

Definition tal_alloc_arr_ (fuel : nat) (ctx size count : Z)
    (clear add_count : bool) (label : Z) : M Z :=
  let* a := adjust_size size count in
  if negb (fst a) then ret NULL else
  let size := snd a in
  let size := if add_count then wrap (size + extra_for_length size) else size in
  let* r := tal_alloc_ fuel ctx size clear label in
  if r =? 0 then ret r else
  do* (if add_count then
         let lprop := r + size - sizeof_length in
         let* t := to_tal_hdr r in
         do* init_property lprop t LENGTH in
         let* nx := load_next lprop in
         store lprop (Length nx count)
       else ret tt) in
  ret r.

Definition tal_free (fuel : nat) (ctx : Z) : M Z :=
  if ctx =? 0 then ret NULL else
  let* s := get in
  let saved_errno := errno s in
  let* t := to_tal_hdr ctx in
  do* (if notifiers s =? 0 then ret tt else
         let* h := load_hdr t in
         let* c := load (ignore_destroying_bit (parent_child h)) in
         match c with
         | Children _ parent _ => notify fuel parent TAL_NOTIFY_DEL_CHILD ctx
         | _ => undef
         end) in
  do* list_del t in
  do* del_tree fuel t ctx in
  do* modify (set_errno saved_errno) in
  ret NULL.

(** [ignore_destroying_bit(t->parent_child)->parent] *)
Definition parent_of (t : Z) : M Z :=
  let* h := load_hdr t in
  let* c := load (ignore_destroying_bit (parent_child h)) in
  match c with
  | Children _ parent _ => ret parent
  | _ => undef
  end.

Definition tal_steal_ (fuel : nat) (new_parent ctx : Z) : M Z :=
  if ctx =? 0 then ret ctx else
  let* newpar := to_tal_hdr_or_null new_parent in
  let* t := to_tal_hdr ctx in
  (* Unlink it from old parent. *)
  do* list_del t in
  let* old_parent := parent_of t in
  let* ok := add_child fuel newpar t in
  if negb ok then
    let* ok' := add_child fuel old_parent t in
    if negb ok' then abort else ret NULL
  else
    let* s := get in
    do* (if notifiers s =? 0 then ret tt
         else notify fuel t TAL_NOTIFY_STEAL new_parent) in
    ret ctx.

Definition tal_add_destructor_ (ctx destroy : Z) : M bool :=
  let* t := to_tal_hdr ctx in
  let* n := add_notifier_property t
              (Z.lor TAL_NOTIFY_FREE NOTIFY_IS_DESTRUCTOR) destroy in
  ret (negb (n =? 0)).

Definition tal_add_notifier_ (fuel : nat) (ctx types callback_fn : Z) : M bool :=
  let* t := to_tal_hdr ctx in
  (* Don't call notifier about itself: set types after! *)
  let* n := add_notifier_property t 0 callback_fn in
  if n =? 0 then ret false else
  let* s := get in
  do* (if notifiers s =? 0 then ret tt
       else notify fuel t TAL_NOTIFY_ADD_NOTIFIER callback_fn) in
  let* o := load n in
  match o with
  | Notifier nx _ fn =>
      do* store n (Notifier nx types fn) in
      do* (if types =? TAL_NOTIFY_FREE then ret tt
           else modify (λ s, set_notifiers (wrap (notifiers s + 1)) s)) in
      ret true
  | _ => undef
  end.

Definition tal_del_notifier_ (fuel : nat) (ctx callback_fn : Z) : M bool :=
  let* t := to_tal_hdr ctx in
  let* types := del_notifier_property fuel t callback_fn in
  if types =? 0 then ret false else
  do* notify fuel t TAL_NOTIFY_DEL_NOTIFIER callback_fn in
  do* (if types =? TAL_NOTIFY_FREE then ret tt
       else modify (λ s, set_notifiers (wrap (notifiers s - 1)) s)) in
  ret true.

Definition tal_del_destructor_ (fuel : nat) (ctx destroy : Z) : M bool :=
  tal_del_notifier_ fuel ctx destroy.

Definition tal_count (fuel : nat) (ptr : Z) : M Z :=
  let* t := to_tal_hdr ptr in
  let* l := find_property fuel t LENGTH in
  if l =? 0 then ret 0 else
  let* o := load l in
  match o with
  | Length _ count => ret count
  | _ => undef
  end.

Definition tal_parent (ctx : Z) : M Z :=
  if ctx =? 0 then ret NULL else
  let* t := to_tal_hdr ctx in
  let* parent := parent_of t in
  if parent =? null_parent_hdr then ret NULL else ret (from_tal_hdr parent).

(** [tal_resize_] takes the address of the caller's pointer; here it takes
    the pointer and returns its new value beside the verdict. *)
Definition tal_resize_ (fuel : nat) (ctx size count : Z) : M (bool * Z) :=
  let* old_t := to_tal_hdr ctx in
  let* a := adjust_size size count in
  if negb (fst a) then ret (false, ctx) else
  let size := snd a in
  let* lenp := find_property_ptr fuel old_t LENGTH in
  (* Copy here, in case we're shrinking! *)
  let* len :=
    (match lenp with
     | Some l => let* q := load_ploc l in load q
     | None => ret (Length 0 0)
     end) in
  let extra := match lenp with Some _ => extra_for_length size | None => 0 end in
  let total := wrap (wrap (sizeof_tal_hdr + size) + extra) in
  let* t := resizefn old_t total in
  if t =? 0 then do* call_error "Reallocation failure" in ret (false, ctx) else
  (* Copy length to end. *)
  do* (match lenp with
       | Some l =>
           let new_len := t + sizeof_tal_hdr + size in
           match len with
           | Length nx _ =>
               do* emplace new_len (Length nx count) in
               (* Be careful replacing next ptr; could be old hdr. *)
               if decide (l = PropOf old_t) then store_ploc (PropOf t) new_len
               else store_ploc l new_len
           | _ => undef
           end
       | None => ret tt
       end) in
  let* s := get in
  (* If it didn't move, we're done! *)
  let* ctx' :=
    (if t =? old_t then ret ctx else
       (* Fix up linked list pointers. *)
       let* n := load_node t in
       do* set_next (prev n) t in
       let* n' := load_node t in
       do* set_prev (next n') t in
       (* Fix up child property's parent pointer. *)
       let* child := find_property fuel t CHILDREN in
       do* (if child =? 0 then ret tt else
              let* o := load child in
              match o with
              | Children nx _ hd => store child (Children nx t hd)
              | _ => undef
              end) in
       do* (if notifiers s =? 0 then ret tt
            else notify fuel t TAL_NOTIFY_MOVE (from_tal_hdr old_t)) in
       ret (from_tal_hdr t)) in
  let* s' := get in
  do* (if notifiers s' =? 0 then ret tt
       else notify fuel t TAL_NOTIFY_RESIZE size) in
  ret (true, ctx').

(** Modelled from the spec: [taken] belongs to [ccan/take], which is not
    among the sources.  A pointer marked as taken is consumed by the
    callee: [taken(p)] answers whether [p] carries the mark and clears
    it. *)
Definition taken (p : Z) : M bool :=
  let* s := get in
  if bool_decide (p ∈ takenarr s)
  then do* modify (set_takenarr (filter (λ q, q ≠ p) (takenarr s))) in ret true
  else ret false.

Definition tal_expand_ (fuel : nat) (ctx src size count : Z) : M (bool * Z) :=
  let* t := to_tal_hdr ctx in
  let* l := find_property fuel t LENGTH in
  let* o := load l in
  match o with
  | Length _ old_count =>
      let* r :=
        (* Check for additive overflow *)
        (if wrap (old_count + count) <? count then
           do* call_error "dup size overflow" in ret (false, ctx)
         else tal_resize_ fuel ctx size (wrap (old_count + count))) in
      let* tk := taken src in
      do* (if (tk : bool) then do* tal_free fuel src in ret tt else ret tt) in
      ret r
  | _ => undef
  end.

(** Reading the NUL-terminated string at [q]: a string object of its own,
    or the [name] array of a name property ([sizeof_prop_hdr] bytes into
    it). *)
Definition load_string (q : Z) : M string :=
  λ s, if q =? 0 then Undef
       else match heap s !! q with
            | Some (Str str) => Ok str s
            | _ => match heap s !! (q - sizeof_prop_hdr) with
                   | Some (Name _ str) => Ok str s
                   | _ => Undef
                   end
            end.

Definition add_name_property (t name : Z) : M Z :=
  let* str := load_string name in
  let* p := allocate (wrap (sizeof_prop_hdr + Z.of_nat (String.length str) + 1)) in
  do* (if p =? 0 then ret tt else
         do* init_property p t NAME in
         let* nx := load_next p in
         (* strcpy(prop->name, name) *)
         store p (Name nx str)) in
  ret p.

(** The loop of [tal_set_name_] that finds where a literal goes: it
    starts at the [prop] field of the header and follows the [next] fields
    until the place holds [NULL] or a literal. *)
Fixpoint literal_slot (fuel : nat) (p : ploc) : M ploc :=
  match fuel with
  | O => out_of_fuel
  | S f =>
      let* v := load_ploc p in
      if v =? 0 then ret p else
      let* lit := is_literal v in
      if lit then ret p else literal_slot f (NextOf v)
  end.

Definition tal_set_name_ (fuel : nat) (ctx name : Z) (literal : bool) : M bool :=
  let* t := to_tal_hdr ctx in
  let* prop := find_property_ptr fuel t NAME in
  (* Get rid of any old name *)
  do* (match prop with
       | Some l =>
           let* old := load_ploc l in
           let* lit := is_literal old in
           if lit then store_ploc l NULL
           else
             let* nx := load_next old in
             do* store_ploc l nx in
             freefn old
       | None => ret tt
       end) in
  let* nonempty :=
    (if literal then
       let* str := load_string name in ret (negb (first_byte str =? 0))
     else ret false) in
  let* ok :=
    (if (nonempty : bool) then
       (* Append literal. *)
       let* p := literal_slot fuel (PropOf t) in
       do* store_ploc p name in
       ret true
     else
       let* n := add_name_property t name in
       ret (negb (n =? 0))) in
  if negb ok then ret false else
  let* s := get in
  do* (if notifiers s =? 0 then ret tt
       else notify fuel t TAL_NOTIFY_RENAME name) in
  ret true.

Definition tal_name (fuel : nat) (t : Z) : M Z :=
  let* h := to_tal_hdr t in
  let* n := find_property fuel h NAME in
  if n =? 0 then ret NULL else
  let* lit := is_literal n in
  if lit then ret n else ret (n + sizeof_prop_hdr).

Definition first_child (fuel : nat) (parent : Z) : M Z :=
  let* child := find_property fuel parent CHILDREN in
  if child =? 0 then ret NULL
  else list_top (child + offsetof_children).

Definition tal_first (fuel : nat) (root : Z) : M Z :=
  let* t := to_tal_hdr_or_null root in
  let* c := first_child fuel t in
  if c =? 0 then ret NULL else ret (from_tal_hdr c).

(** The loop of [tal_next] that looks for a next sibling, going up:
    [do { ... } while (t != top)]. *)
Fixpoint tal_next_up (fuel : nat) (t top : Z) : M Z :=
  match fuel with
  | O => out_of_fuel
  | S f =>
      let* h := load_hdr t in
      let end_ := ignore_destroying_bit (parent_child h) + offsetof_children in
      let nxt := next (hlist h) in
      if negb (nxt =? end_) then ret (from_tal_hdr nxt) else
      (* OK, go back to parent. *)
      let* t' := parent_of t in
      if t' =? top then ret NULL else tal_next_up f t' top
  end.

Definition tal_next (fuel : nat) (root prev : Z) : M Z :=
  let* t := to_tal_hdr prev in
  (* Children? *)
  let* c := first_child fuel t in
  if negb (c =? 0) then ret (from_tal_hdr c) else
  let* top := to_tal_hdr_or_null root in
  tal_next_up fuel t top.

(** [tal_steal(ctx, p)] of [ccan/tal/tal.h] is [tal_steal_(ctx, p)] with a
    cast; the bytes [memcpy] copies are not tracked. *)
Definition tal_dup_ (fuel : nat) (ctx p size n extra : Z) (add_count : bool)
    (label : Z) : M Z :=
  let free_if_taken : M unit :=
    let* tk := taken p in
    if (tk : bool) then do* tal_free fuel p in ret tt else ret tt in
  let* a := adjust_size size n in
  if negb (fst a) then do* free_if_taken in ret NULL else
  (* Beware addition overflow! *)
  if wrap (n + extra) <? n then
    do* call_error "dup size overflow" in
    do* free_if_taken in
    ret NULL
  else
  let* tk := taken p in
  if (tk : bool) then
    if p =? 0 then ret NULL else
    let* r := tal_resize_ fuel p size (wrap (n + extra)) in
    if negb (fst r) then tal_free fuel (snd r) else
    let* st := tal_steal_ fuel ctx (snd r) in
    if st =? 0 then tal_free fuel (snd r) else
    ret (snd r)
  else
    tal_alloc_arr_ fuel ctx size (wrap (n + extra)) false add_count label.

End Tal.

(** ** Callbacks and initial states *)

(** User code that does not call back into the allocator. *)
Definition passive : event → M unit := λ _, ret tt.

(** The state of a fresh process, for a given backend. *)
Definition init_state (answers : list Z) (noise : Z) (hook_aborts : bool)
  : state :=
  State null_parent_heap ∅ answers noise hook_aborts false 0 0 [] [].

(** ** Vocabulary of the specification *)

(** A literal name: a caller-owned string whose first byte is not zero,
    or no name at all. *)
Definition literal_at (hp : gmap Z object) (lit : Z) : Prop :=
  lit = 0 ∨ ∃ s, hp !! lit = Some (Str s) ∧ first_byte s ≠ 0.

(** [chain hp p l lit]: starting at [p], the property chain consists of the
    properties [l] (address and contents, in chain order) and ends at
    [lit]. *)
Fixpoint chain (hp : gmap Z object) (p : Z) (l : list (Z * object)) (lit : Z)
  : Prop :=
  match l with
  | [] => p = lit ∧ literal_at hp lit
  | (q, o) :: l' =>
      p = q ∧ q ≠ 0 ∧ hp !! q = Some o ∧
      match obj_next o with
      | Some nx => chain hp nx l' lit
      | None => False
      end
  end.

(** What one property does when its node is notified of [type]. *)
Definition fire (ctx type info : Z) (qo : Z * object) : list event :=
  match qo.2 with
  | Notifier _ types fn =>
      if Z.land types type =? 0 then []
      else if Z.land types NOTIFY_IS_DESTRUCTOR =? 0
           then [EvNotify fn (from_tal_hdr ctx) type info]
           else [EvDestroy fn (from_tal_hdr ctx)]
  | _ => []
  end.

(** The invocations a dispatch over the chain [l] makes, in order. *)
Definition fired (ctx type info : Z) (l : list (Z * object)) : list event :=
  flat_map (fire ctx type info) l.

Definition add_trace (evs : list event) (s : state) : state :=
  State (heap s) (blocks s) (backend s) (backend_errno s) (error_aborts s)
        (initialized s) (notifiers s) (errno s) (takenarr s) (trace s ++ evs).

(** The first property of a given type on a chain, with the place that
    points to it. *)
Fixpoint first_of_type (ty : prop_type) (l : list (Z * object)) (from : ploc)
  : option (ploc * Z * object) :=
  match l with
  | [] => None
  | (q, o) :: l' =>
      if decide (obj_type o = Some ty) then Some (from, q, o)
      else first_of_type ty l' (NextOf q)
  end.

(** *** The notifier counter *)

(** A notifier the counter is meant to count: its mask, with the internal
    destructor flag removed, is not exactly [TAL_NOTIFY_FREE]. *)
Definition non_destructor (o : object) : bool :=
  match o with
  | Notifier _ types _ =>
      negb (Z.land types (Z.lnot NOTIFY_IS_DESTRUCTOR) =? TAL_NOTIFY_FREE)
  | _ => false
  end.

(** The same, reading the mask as it is stored. *)
Definition not_exactly_free (o : object) : bool :=
  match o with
  | Notifier _ types _ => negb (types =? TAL_NOTIFY_FREE)
  | _ => false
  end.

(** The number of live objects that satisfy [P]. *)
Definition count_in (P : object → bool) (hp : gmap Z object) : nat :=
  size (filter (λ kv, P kv.2 = true) hp).

Definition live_count (P : object → bool) (s : state) : nat :=
  count_in P (heap s).

Definition counter_exact (s : state) : Prop :=
  notifiers s = Z.of_nat (live_count non_destructor s).

(** The four operations that install and remove notifiers. *)
Inductive notifier_op :=
| OpAddNotifier (ctx types fn : Z)
| OpDelNotifier (ctx fn : Z)
| OpAddDestructor (ctx fn : Z)
| OpDelDestructor (ctx fn : Z).

Definition run_notifier_op (fuel : nat) (op : notifier_op) : M bool :=
  match op with
  | OpAddNotifier ctx types fn => tal_add_notifier_ passive fuel ctx types fn
  | OpDelNotifier ctx fn => tal_del_notifier_ passive fuel ctx fn
  | OpAddDestructor ctx fn => tal_add_destructor_ ctx fn
  | OpDelDestructor ctx fn => tal_del_destructor_ passive fuel ctx fn
  end.

(** What [tal_add_notifier_] asserts of its mask: some event, and events
    only. *)
Definition valid_op (op : notifier_op) : Prop :=
  match op with
  | OpAddNotifier _ types _ => 0 < types < NOTIFY_IS_DESTRUCTOR
  | _ => True
  end.

(** Between public operations every notifier has an event in its mask,
    and is a block of its own. *)
Definition notifiers_ok (s : state) : Prop :=
  (∀ k nx types fn, heap s !! k = Some (Notifier nx types fn) →
     Z.land types (Z.lnot NOTIFY_IS_DESTRUCTOR) ≠ 0) ∧
  (∀ k nx types fn, heap s !! k = Some (Notifier nx types fn) →
     blocks s !! k = Some sizeof_notifier) ∧
  (∀ b sz k nx types fn, blocks s !! b = Some sz →
     heap s !! k = Some (Notifier nx types fn) → ¬ (b < k < b + sz)).

(** The backend hands out memory that holds no live object. *)
Definition backend_fresh (s : state) : Prop :=
  ∀ a, a ∈ backend s → heap s !! a = None.

(** Two states that differ in their traces only. *)
Definition same_mem (s s' : state) : Prop :=
  ∃ evs, s' = add_trace evs s.

(** *** Sibling links *)

(** An object with its sibling links blanked: what remains is what the
    list operations never write. *)
Definition erase_links (o : object) : object :=
  match o with
  | Hdr h => Hdr (TalHdr (ListNode 0 0) (prop h) (parent_child h))
  | Children nx pa _ => Children nx pa (ListNode 0 0)
  | _ => o
  end.

(** Two heaps that differ in sibling links only. *)
Definition links_only (hp hp' : gmap Z object) : Prop :=
  ∀ k, erase_links <$> hp' !! k = erase_links <$> hp !! k.

(** Every property and every string of [hp] is still there in [hp'],
    sibling links apart. *)
Definition props_kept (hp hp' : gmap Z object) : Prop :=
  ∀ k o, hp !! k = Some o → (∀ h, o ≠ Hdr h) →
    ∃ o', hp' !! k = Some o' ∧ erase_links o' = erase_links o.

(** The header at [t] is still there in [hp'], with the same chain. *)
Definition hdr_kept (t : Z) (hp hp' : gmap Z object) : Prop :=
  ∀ h, hp !! t = Some (Hdr h) →
    ∃ h', hp' !! t = Some (Hdr h') ∧ prop h' = prop h.

(** Two states that differ in sibling links only. *)
Definition relinked (s s' : state) : Prop :=
  links_only (heap s) (heap s') ∧
  s' = set_heap (λ _, heap s') s.

(** [q] is the address of a list node: of a header, or of the list head
    of a children property. *)
Definition readable (hp : gmap Z object) (q : Z) : Prop :=
  (∃ h, hp !! q = Some (Hdr h)) ∨
  ((∀ h, hp !! q ≠ Some (Hdr h)) ∧
   ∃ nx pa n, hp !! (q - offsetof_children) = Some (Children nx pa n)).

(** The list node stored at [q]. *)
Definition node_at (hp : gmap Z object) (q : Z) : option list_node :=
  match hp !! q with
  | Some (Hdr h) => Some (hlist h)
  | _ => match hp !! (q - offsetof_children) with
         | Some (Children _ _ n) => Some n
         | _ => None
         end
  end.

(** Every list node points to list nodes. *)
Definition links_closed (hp : gmap Z object) : Prop :=
  ∀ q n, node_at hp q = Some n →
    is_Some (node_at hp (next n)) ∧ is_Some (node_at hp (prev n)).

Definition pure {A} (m : M A) : Prop := ∀ s a s', m s = Ok a s' → s' = s.

(** A request the backend refuses: the error hook hears of it. *)
Definition refused (s : state) : Prop :=
  backend s = [] ∨ ∃ rest, backend s = 0 :: rest.

(** The state right after [add_notifier_property t 0 fn]: the new property
    sits at the head of the chain of [t], with an empty mask. *)
Definition with_notifier (t : Z) (h : tal_hdr) (a types fn : Z) (rest : list Z)
    (s : state) : state :=
  set_heap (λ hp, <[a := Notifier (prop h) types fn]>
                    (<[t := Hdr (TalHdr (hlist h) a (parent_child h))]> hp))
    (set_blocks <[a := sizeof_notifier]>
       (log (EvAlloc sizeof_notifier a) (set_backend rest s))).

(** Read-only code whose answer depends on properties only. *)
Definition stable {A} (m : M A) : Prop :=
  ∀ s s1 a, m s = Ok a s → props_kept (heap s) (heap s1) → m s1 = Ok a s1.

(** The state after a refused request for a children property. *)
Definition after_refusal (s : state) : state :=
  add_trace [EvAlloc sizeof_children NULL; EvError "allocation failed"]
    (set_backend (tail (backend s))
       (if initialized s then s else set_initialized true (log EvAtexit s))).

(** The state after a children property has been created at [a] for
    [parent], with an empty list. *)
Definition with_children (parent : Z) (hp : tal_hdr) (a : Z) (rest : list Z)
    (s : state) : state :=
  set_heap (λ h, <[a := Children (prop hp) parent
                          (ListNode (a + offsetof_children)
                                    (a + offsetof_children))]>
                   (<[parent := Hdr (TalHdr (hlist hp) a (parent_child hp))]> h))
    (set_blocks <[a := sizeof_children]>
       (log (EvAlloc sizeof_children a)
          (set_backend rest
             (if initialized s then s
              else set_initialized true (log EvAtexit s))))).

(** *** The ownership tree *)

(** The header of the parent of the node with header [t]: the owner of
    the children property its parent reference leads to. *)
Definition parent_hdr (hp : gmap Z object) (t : Z) : option Z :=
  match hp !! t with
  | Some (Hdr h) =>
      let c := ignore_destroying_bit (parent_child h) in
      if c =? 0 then None
      else match hp !! c with
           | Some (Children _ pa _) => Some pa
           | _ => None
           end
  | _ => None
  end.

(** The [n]-th ancestor of [t]. *)
Fixpoint ancestor (hp : gmap Z object) (n : nat) (t : Z) : option Z :=
  match n with
  | O => Some t
  | S n' =>
      match parent_hdr hp t with
      | Some p => ancestor hp n' p
      | None => None
      end
  end.




(** *** Resizing *)

(** The same property, the owner and the list head of a children property
    apart. *)
Definition same_property (o o' : object) : Prop :=
  match o with
  | Children nx _ _ => ∃ pa n, o' = Children nx pa n
  | _ => o' = o
  end.

(** The node with header [a] has a chain of [n] properties whose first
    LENGTH property sits at [new_len] and records [count]. *)
Definition records_count (a new_len count : Z) (n : nat) (hp : gmap Z object)
  : Prop :=
  ∃ h l lit loc nx,
    hp !! a = Some (Hdr h) ∧ chain hp (prop h) l lit ∧ length l = n ∧
    first_of_type LENGTH l (PropOf a) = Some (loc, new_len, Length nx count).

(** Every property and string of [hp] is still there in [hp'], owners and
    list heads of children properties apart. *)
Definition props_touched (hp hp' : gmap Z object) : Prop :=
  ∀ k o, hp !! k = Some o → (∀ h, o ≠ Hdr h) →
    ∃ o', hp' !! k = Some o' ∧ same_property o o'.

(** *** Subtrees *)

(** A node with its property chain (addresses and contents, list heads and
    owners of children properties apart), the literal that ends the chain,
    and its children in list order. *)
#[local] Unset Elimination Schemes.
Inductive tree := Node (t : Z) (props : list (Z * object)) (lit : Z)
                       (kids : list tree).

#[local] Set Elimination Schemes.

Definition root (tr : tree) : Z := match tr with Node t _ _ _ => t end.

(** The addresses of the objects of a subtree. *)
Fixpoint footprint (tr : tree) : list Z :=
  match tr with
  | Node t props _ kids => t :: props.*1 ++ flat_map footprint kids
  end.

(** The blocks a chain owns: LENGTH records live in the block of the
    header. *)
Definition releases (props : list (Z * object)) : list event :=
  flat_map (λ po, if decide (obj_type po.2 = Some LENGTH) then []
                  else [EvRelease po.1]) props.

(** What the destruction of a subtree does, in order. *)
Fixpoint dying_trace (orig : Z) (tr : tree) : list event :=
  match tr with
  | Node t props _ kids =>
      fired t TAL_NOTIFY_FREE orig props
      ++ flat_map (dying_trace orig) kids
      ++ releases props ++ [EvRelease t]
  end.

(** Fuel that suffices to destroy a subtree. *)
Fixpoint need (tr : tree) : nat :=
  match tr with
  | Node t props _ kids =>
      S (S (S (length props)) + length kids + sum_list_with need kids)
  end.

(** [fwd hp from ks head]: following the [next] links from [from] visits
    the headers [ks] and ends at [head]. *)
Fixpoint fwd (hp : gmap Z object) (from : Z) (ks : list Z) (head : Z) : Prop :=
  match ks with
  | [] => from = head
  | k :: ks' =>
      from = k ∧ k ≠ head ∧
      ∃ h, hp !! k = Some (Hdr h) ∧ fwd hp (next (hlist h)) ks' head
  end.

(** The children property at [c] lists the headers [ks]. *)
Definition lists (hp : gmap Z object) (c : Z) (ks : list Z) : Prop :=
  hp !! (c + offsetof_children) = None ∧
  ∃ nx pa n, hp !! c = Some (Children nx pa n) ∧
    fwd hp (next n) ks (c + offsetof_children) ∧
    match ks with
    | k :: _ => ∃ h, hp !! k = Some (Hdr h) ∧
                     prev (hlist h) = c + offsetof_children
    | [] => True
    end.

(** [repr hp bl c tr]: the heap [hp] and the blocks [bl] hold the subtree
    [tr], whose root refers to the children property [c] of its parent. *)
Fixpoint repr (hp : gmap Z object) (bl : gmap Z Z) (c : Z) (tr : tree) : Prop :=
  match tr with
  | Node t props lit kids =>
      0 < t ∧ get_destroying_bit c = false ∧
      (∃ h sz props',
         hp !! t = Some (Hdr h) ∧ parent_child h = c ∧
         chain hp (prop h) props' lit ∧
         Forall2 (λ x y : Z * object, x.1 = y.1 ∧ same_property x.2 y.2)
                 props props' ∧
         bl !! t = Some sz ∧ 0 < sz ∧
         (∀ k, t ≤ k < t + sz → is_Some (hp !! k) →
               k = t ∨ ∃ o, (k, o) ∈ props ∧ obj_type o = Some LENGTH) ∧
         (∀ p o, (p, o) ∈ props →
            if decide (obj_type o = Some LENGTH) then t < p < t + sz
            else ∃ szp, bl !! p = Some szp ∧ 0 < szp ∧
                        ∀ k, p ≤ k < p + szp → is_Some (hp !! k) → k = p)) ∧
      match first_of_type CHILDREN props (PropOf t) with
      | Some (_, c', _) =>
          lists hp c' (root <$> kids) ∧
          foldr (λ k P, repr hp bl c' k ∧ P) True kids
      | None => kids = []
      end
  end.

(** The neighbours of a list node point past it. *)
Definition unlinked (hp : gmap Z object) (n : list_node) : Prop :=
  (∃ n1, node_at hp (next n) = Some n1 ∧ prev n1 = prev n) ∧
  (∃ n2, node_at hp (prev n) = Some n2 ∧ next n2 = next n).

(** [q] is a list node of its own outside [fp]: a header, or the list
    head of a children property. *)
Definition outside_node (hp : gmap Z object) (fp : list Z) (q : Z) : Prop :=
  (∃ hq, hp !! q = Some (Hdr hq) ∧ q ∉ fp) ∨
  (hp !! q = None ∧ (q ∉ fp) ∧ ((q - offsetof_children) ∉ fp) ∧
   ∃ nx pa n, hp !! (q - offsetof_children) = Some (Children nx pa n)).

(** A node under destruction: flagged, out of its sibling list, not yet
    released. *)
Definition dying (s : state) (y : Z) : Prop :=
  0 < y ∧
  ∃ h, heap s !! y = Some (Hdr h) ∧
       get_destroying_bit (parent_child h) = true ∧
       (prop h = 0 ∨ ∃ o, heap s !! prop h = Some o ∧ ∀ h', o ≠ Hdr h') ∧
       unlinked (heap s) (hlist h).

(** Two states with the same memory outside [fp] and the same counter. *)
Definition agree_outside (fp : list Z) (s s' : state) : Prop :=
  (∀ k, k ∉ fp → heap s' !! k = heap s !! k) ∧ notifiers s' = notifiers s.

(** Two states with the same backend, hooks, counter and taken
    pointers. *)
Definition same_env (s s' : state) : Prop :=
  backend s' = backend s ∧ backend_errno s' = backend_errno s ∧
  error_aborts s' = error_aborts s ∧ initialized s' = initialized s ∧
  notifiers s' = notifiers s ∧ takenarr s' = takenarr s.

(** The state [s'] is [s] with the subtree [tr] destroyed: its objects are
    gone, nothing else has changed, and the trace tells what was done. *)
Definition destroyed (orig : Z) (tr : tree) (s s' : state) : Prop :=
  (∀ k, k ∈ footprint tr → heap s' !! k = None) ∧
  (∀ k, k ∉ footprint tr → heap s' !! k = heap s !! k) ∧
  (∀ k, k ∉ footprint tr → blocks s' !! k = blocks s !! k) ∧
  trace s' = trace s ++ dying_trace orig tr ∧
  errno s' = backend_errno s ∧
  same_env s s'.

Section Quiet.
Variable cb : event → M unit.
Variable orig : Z.
Variable N : Z.

(** The callbacks a destruction invokes return without touching the
    state, as long as the nodes on the way from the root of the freed
    subtree are under destruction. *)
Fixpoint quiet (anc : list Z) (tr : tree) : Prop :=
  match tr with
  | Node t props _ kids =>
      (∀ ev s1, ev ∈ fired t TAL_NOTIFY_FREE orig props →
                Forall (dying s1) (t :: anc) → notifiers s1 = N →
                cb ev s1 = Ok tt s1) ∧
      foldr (λ k P, quiet (t :: anc) k ∧ P) True kids
  end.
End Quiet.

(** A callback that frees the node its script names for the function
    called, and whose own callbacks do the same ([n] bounds the nesting,
    [fuel] is the fuel of the inner calls). *)
Fixpoint reentrant (script : Z → option Z) (fuel n : nat) (ev : event)
  : M unit :=
  match n with
  | O => out_of_fuel
  | S n' =>
      match ev with
      | EvDestroy fn _ | EvNotify fn _ _ _ =>
          match script fn with
          | Some target =>
              do* tal_free (reentrant script fuel n') fuel target in ret tt
          | None => ret tt
          end
      | _ => ret tt
      end
  end.

(** The script of a reentrant callback names, for the FREE notifiers and
    destructors of a subtree, only nodes on the way from the root of the
    subtree to the node that carries them. *)
Fixpoint script_ok (script : Z → option Z) (anc : list Z) (tr : tree) : Prop :=
  match tr with
  | Node t props _ kids =>
      (∀ q nx types fn, (q, Notifier nx types fn) ∈ props →
         Z.land types TAL_NOTIFY_FREE ≠ 0 →
         match script fn with
         | Some target => ∃ y, y ∈ t :: anc ∧ target = from_tal_hdr y
         | None => True
         end) ∧
      foldr (λ k P, script_ok script (t :: anc) k ∧ P) True kids
  end.

(** The blocks a trace gives back to the backend, in order. *)
Definition released (evs : list event) : list Z :=
  omap (λ ev, match ev with EvRelease p => Some p | _ => None end) evs.


(** *** Checking a given heap *)

(** The list node at [q], if any, points to list nodes. *)
Definition closed_at (hp : gmap Z object) (q : Z) : bool :=
  match node_at hp q with
  | Some n => bool_decide (is_Some (node_at hp (next n)))
              && bool_decide (is_Some (node_at hp (prev n)))
  | None => true
  end.

(** *** Example programs *)

(** The state a run ends in (the fresh state when it does not end). *)
Definition state_of {A} (r : result A) : state :=
  match r with
  | Ok _ s => s
  | _ => init_state [] 0 false
  end.

Definition value_of {A} (d : A) (r : result A) : A :=
  match r with
  | Ok a _ => a
  | _ => d
  end.

(** [a = tal_alloc_(NULL, 8, false, NULL)], with the backend answering
    1000, 2000, ...: the header of [a] is at 1000, [a] is 1032. *)
Definition one_node : state :=
  state_of (tal_alloc_ passive 10 NULL 8 false 0
              (init_state [1000; 2000; 3000; 4000; 5000; 6000] 0 false)).

(** [a], then [b = tal_alloc_(NULL, ...)] with its header at 2000. *)
Definition two_nodes : state :=
  state_of (tal_alloc_ passive 10 NULL 8 false 0 one_node).

(** [a], then [c = tal_alloc_(a, ...)]: the header of [c] is at 2000, the
    children property of [a] at 3000. *)
Definition parent_and_child : state :=
  state_of (tal_alloc_ passive 10 1032 8 false 0 one_node).

(** [a] with a notifier 555 for [TAL_NOTIFY_ADD_NOTIFIER], at 2000. *)
Definition listened_node : state :=
  state_of (tal_add_notifier_ passive 10 1032 TAL_NOTIFY_ADD_NOTIFIER 555
              one_node).

(** [v = tal_alloc_arr_(NULL, 4, 10, false, true, NULL)]: an array of ten
    elements of four bytes with an embedded length record. *)
Definition arr_node : state :=
  state_of (tal_alloc_arr_ passive 10 NULL 4 10 false true 0
              (init_state [1000; 2000; 3000; 4000; 5000; 6000] 0 false)).

(** The array [v] with a notifier 555 for [TAL_NOTIFY_RESIZE], at 2000:
    the length record is no longer the head of the chain. *)
Definition listened_arr : state :=
  state_of (tal_add_notifier_ passive 10 1032 TAL_NOTIFY_RESIZE 555 arr_node).

(** A parent [p] (1032) with a notifier 555 for [TAL_NOTIFY_DEL_CHILD] and
    a child [x] (3032) with a destructor 777. *)
Definition watched_parent : state :=
  state_of ((do* tal_add_notifier_ passive 10 1032 TAL_NOTIFY_DEL_CHILD 555 in
             do* tal_alloc_ passive 10 1032 8 false 0 in
             tal_add_destructor_ 3032 777) one_node).

(** The same without the notifier of the parent (the child is 2032). *)
Definition unwatched_parent : state :=
  state_of ((do* tal_alloc_ passive 10 1032 8 false 0 in
             tal_add_destructor_ 2032 777) one_node).

(** The destructor 777 frees the node [x]. *)
Definition frees (x : Z) (fn : Z) : option Z :=
  if fn =? 777 then Some x else None.

(** *** Editing a chain *)

(** The place that ends the chain [l] that starts at the place [from]:
    [from] itself, or the [next] field of the last property. *)
Fixpoint end_of (l : list (Z * object)) (from : ploc) : ploc :=
  match l with
  | [] => from
  | (q, _) :: l' => end_of l' (NextOf q)
  end.

(** The object that holds a place. *)
Definition owner (l : ploc) : Z :=
  match l with PropOf t => t | NextOf q => q end.

(** The object [o] with [v] stored in its place: the [prop] field of a
    header, the [next] field of a property. *)
Definition put (v : Z) (o : object) : object :=
  match o with
  | Hdr h => Hdr (TalHdr (hlist h) v (parent_child h))
  | _ => with_next v o
  end.

(** The chain [l] with [v] stored in the [next] field of its last
    property. *)
Fixpoint relast (v : Z) (l : list (Z * object)) : list (Z * object) :=
  match l with
  | [] => []
  | (q, o) :: l' =>
      match l' with
      | [] => [(q, with_next v o)]
      | _ :: _ => (q, o) :: relast v l'
      end
  end.

(** The place [from] holds [p]. *)
Definition reads (hp : gmap Z object) (from : ploc) (p : Z) : Prop :=
  match from with
  | PropOf t => t ≠ 0 ∧ ∃ h, hp !! t = Some (Hdr h) ∧ prop h = p
  | NextOf q => q ≠ 0 ∧ ∃ o, hp !! q = Some o ∧ obj_next o = Some p
  end.

(** *** Names *)

(** The number of names a chain carries: its name properties and the
    literal at its end. *)
Definition names (l : list (Z * object)) (lit : Z) : nat :=
  (length (filter (λ qo, obj_type qo.2 = Some NAME) l)
   + if (lit =? 0)%Z then 0 else 1)%nat.

(** The object at [q] is a block of its own. *)
Definition alone (s : state) (q : Z) : Prop :=
  ∃ sz, blocks s !! q = Some sz ∧ 0 < sz ∧
        ∀ k, q ≤ k < q + sz → is_Some (heap s !! k) → k = q.

(** [ctx] is what a caller passes for the node with header [parent]:
    [NULL] for the sentinel root, the address past the header for any
    other node. *)
Definition context_of (ctx parent : Z) : Prop :=
  (ctx = NULL ∧ parent = null_parent_hdr) ∨
  (ctx ≠ NULL ∧ parent = ctx - sizeof_tal_hdr ∧ parent ≠ null_parent_hdr).

(** Whether [hp] and [bl] hold the subtree [tr]: [repr], computed. *)
Definition same_property_b (o o' : object) : bool :=
  match o with
  | Children nx _ _ =>
      match o' with
      | Children nx' _ _ => bool_decide (nx' = nx)
      | _ => false
      end
  | _ => bool_decide (o' = o)
  end.

Fixpoint chain_b (hp : gmap Z object) (p : Z) (l : list (Z * object)) (lit : Z)
  : bool :=
  match l with
  | [] =>
      bool_decide (p = lit)
      && (bool_decide (lit = 0)
          || match hp !! lit with
             | Some (Str s) => negb (first_byte s =? 0)
             | _ => false
             end)
  | (q, o) :: l' =>
      bool_decide (p = q) && negb (q =? 0) && bool_decide (hp !! q = Some o)
      && match obj_next o with
         | Some nx => chain_b hp nx l' lit
         | None => false
         end
  end.

Fixpoint fwd_b (hp : gmap Z object) (from : Z) (ks : list Z) (head : Z) : bool :=
  match ks with
  | [] => bool_decide (from = head)
  | k :: ks' =>
      bool_decide (from = k) && negb (k =? head)
      && match hp !! k with
         | Some (Hdr h) => fwd_b hp (next (hlist h)) ks' head
         | _ => false
         end
  end.

Definition lists_b (hp : gmap Z object) (c : Z) (ks : list Z) : bool :=
  bool_decide (hp !! (c + offsetof_children) = None)
  && match hp !! c with
     | Some (Children _ _ n) =>
         fwd_b hp (next n) ks (c + offsetof_children)
         && match ks with
            | k :: _ =>
                match hp !! k with
                | Some (Hdr h) =>
                    bool_decide (prev (hlist h) = c + offsetof_children)
                | _ => false
                end
            | [] => true
            end
     | _ => false
     end.

(** The objects of [hp] in [lo, lo + sz) are at [lo] or at one of [ok]. *)
Definition alone_b (hp : gmap Z object) (lo sz : Z) (ok : list Z) : bool :=
  bool_decide (map_Forall (λ k _, lo ≤ k < lo + sz → k = lo ∨ k ∈ ok) hp).

Definition lengths (props : list (Z * object)) : list Z :=
  (filter (λ qo, obj_type qo.2 = Some LENGTH) props).*1.

Fixpoint repr_b (hp : gmap Z object) (bl : gmap Z Z) (c : Z) (tr : tree) : bool :=
  match tr with
  | Node t props lit kids =>
      bool_decide (0 < t) && negb (get_destroying_bit c)
      && match hp !! t, bl !! t with
         | Some (Hdr h), Some sz =>
             bool_decide (parent_child h = c)
             && chain_b hp (prop h)
                  ((λ qo, (qo.1, default qo.2 (hp !! qo.1))) <$> props) lit
             && forallb (λ qo, same_property_b qo.2 (default qo.2 (hp !! qo.1)))
                  props
             && bool_decide (0 < sz)
             && alone_b hp t sz (lengths props)
             && forallb
                  (λ qo, if decide (obj_type qo.2 = Some LENGTH)
                         then bool_decide (t < qo.1 < t + sz)
                         else match bl !! qo.1 with
                              | Some szp => bool_decide (0 < szp)
                                            && alone_b hp qo.1 szp []
                              | None => false
                              end)
                  props
         | _, _ => false
         end
      && match first_of_type CHILDREN props (PropOf t) with
         | Some (_, c', _) =>
             lists_b hp c' (root <$> kids) && forallb (repr_b hp bl c') kids
         | None => match kids with [] => true | _ => false end
         end
  end.

(** The node [a] of [one_node] as [del_tree] has it after the first steps
    of its destruction: off its sibling list and flagged. *)
Definition half_destroyed : state :=
  state_of ((do* list_del 1000 in set_destroying_bit 1000) one_node).

(** Two strings of the caller, "point" at 7000 and "line" at 7100, beside
    what [s] holds. *)
Definition with_strings (s : state) : state :=
  set_heap (λ hp, <[7000 := Str "point"]> (<[7100 := Str "line"]> hp)) s.

(** The node [a] named by a copy of "point": the name property is at
    2000, the name at 2016. *)
Definition copied_name : state :=
  state_of (tal_set_name_ passive 10 1032 7000 false (with_strings one_node)).

(** The node [a] with a notifier 555 for [TAL_NOTIFY_ADD_NOTIFIER] at 2000
    and, added later, a destructor 777 at 3000. *)
Definition two_listeners : state :=
  state_of (tal_add_destructor_ 1032 777 listened_node).

(** *** Walking a tree *)

(** The nodes below the root of a subtree: every node before its
    children, the children in list order. *)
Fixpoint below (tr : tree) : list Z :=
  match tr with
  | Node _ _ _ kids => flat_map (λ k, root k :: below k) kids
  end.

(** The nodes of a list of subtrees, in the same order. *)
Definition walk (kids : list tree) : list Z :=
  flat_map (λ k, root k :: below k) kids.

(** Every children property of the subtree is at an address that fits
    [size_t] and names the node that carries it as the parent. *)
Fixpoint back_links (hp : gmap Z object) (tr : tree) : Prop :=
  match tr with
  | Node t props _ kids =>
      match first_of_type CHILDREN props (PropOf t) with
      | Some (_, c, _) =>
          0 ≤ c < SIZE_MOD ∧
          (∃ nx n, hp !! c = Some (Children nx t n)) ∧
          foldr (λ k P, back_links hp k ∧ P) True kids
      | None => True
      end
  end.

(** The node [a] with two children, [b] (2032) and then [c] (4032), and a
    child [d] (5032) of [b]: the children property of [a] is at 3000,
    that of [b] at 6000. *)
Definition family : state :=
  state_of ((do* tal_alloc_ passive 10 1032 8 false 0 in
             do* tal_alloc_ passive 10 1032 8 false 0 in
             tal_alloc_ passive 10 2032 8 false 0) one_node).

(** *** Children lists *)

(** The list node at [x] points forward to [y], and [y] points back to
    [x]. *)
Definition linked (hp : gmap Z object) (x y : Z) : Prop :=
  ∃ nx ny, node_at hp x = Some nx ∧ node_at hp y = Some ny ∧
           next nx = y ∧ prev ny = x.

(** Every node of [qs] is linked to the one that follows it. *)
Fixpoint path (hp : gmap Z object) (qs : list Z) : Prop :=
  match qs with
  | x :: r =>
      match r with
      | y :: _ => linked hp x y ∧ path hp r
      | [] => True
      end
  | [] => True
  end.

(** [child_list hp c ks]: the list of the children property [c] holds the
    headers [ks], in this order: from the list head the [next] links visit
    [ks] and come back to the head, and the [prev] links do the same
    backwards. *)
Definition child_list (hp : gmap Z object) (c : Z) (ks : list Z) : Prop :=
  (∃ nx pa n, hp !! c = Some (Children nx pa n)) ∧
  hp !! (c + offsetof_children) = None ∧
  Forall (λ k, ∃ h, hp !! k = Some (Hdr h)) ks ∧ NoDup ks ∧
  path hp ((c + offsetof_children) :: ks ++ [c + offsetof_children]).

(** [hp'] is [hp] with the node at [t] given the parent reference [c]:
    sibling links apart, nothing else differs. *)
Definition reparented (hp hp' : gmap Z object) (t c : Z) : Prop :=
  (∀ k, k ≠ t → erase_links <$> hp' !! k = erase_links <$> hp !! k) ∧
  ∃ h h', hp !! t = Some (Hdr h) ∧ hp' !! t = Some (Hdr h') ∧
          prop h' = prop h ∧ parent_child h' = c.

(** Whether [c] is a children property whose list holds [ks]: [child_list],
    computed. *)
Definition linked_b (hp : gmap Z object) (x y : Z) : bool :=
  match node_at hp x, node_at hp y with
  | Some nx, Some ny => (next nx =? y) && (prev ny =? x)
  | _, _ => false
  end.

Fixpoint path_b (hp : gmap Z object) (qs : list Z) : bool :=
  match qs with
  | x :: r => match r with y :: _ => linked_b hp x y && path_b hp r | [] => true end
  | [] => true
  end.

Definition child_list_b (hp : gmap Z object) (c : Z) (ks : list Z) : bool :=
  match hp !! c with Some (Children _ _ _) => true | _ => false end
  && bool_decide (hp !! (c + offsetof_children) = None)
  && forallb (λ k, match hp !! k with Some (Hdr _) => true | _ => false end) ks
  && bool_decide (NoDup ks)
  && path_b hp ((c + offsetof_children) :: ks ++ [c + offsetof_children]).

(** A node whose parent reference carries the destroying flag and that
    has not been released. *)
Definition flagged (s : state) (y : Z) : Prop :=
  0 < y ∧
  ∃ h, heap s !! y = Some (Hdr h) ∧
       get_destroying_bit (parent_child h) = true ∧
       (prop h = 0 ∨ ∃ o, heap s !! prop h = Some o ∧ ∀ h', o ≠ Hdr h').

(** The node [b] of [two_nodes] with the destroying flag set, still in
    the list of its siblings. *)
Definition flagged_sibling : state :=
  state_of (set_destroying_bit 2000 two_nodes).

(** * Basic facts *)

Lemma bind_Ok {A B} (m : M A) (k : A → M B) s a s1 :
  m s = Ok a s1 → bind m k s = k a s1.
Proof. intros H. unfold bind. by rewrite H. Qed.

Arguments bind_Ok {A B m k s a s1} _.

Lemma bind_inv_Ok {A B} (m : M A) (k : A → M B) s b s2 :
  bind m k s = Ok b s2 → ∃ a s1, m s = Ok a s1 ∧ k a s1 = Ok b s2.
Proof. unfold bind. destruct (m s); try discriminate. eauto. Qed.

Lemma bind_assoc {A B C} (m : M A) (f : A → M B) (g : B → M C) s :
  bind (bind m f) g s = bind m (λ x, bind (f x) g) s.
Proof. unfold bind. by destruct (m s). Qed.

Lemma bind_ret_l {A B} (a : A) (k : A → M B) s : bind (ret a) k s = k a s.
Proof. reflexivity. Qed.

Lemma bind_Undef {A B} (m : M A) (k : A → M B) s :
  m s = Undef → bind m k s = Undef.
Proof. intros H. unfold bind. by rewrite H. Qed.

Ltac inv_bind H :=
  let a := fresh "a" in
  let s1 := fresh "s" in
  let H1 := fresh H in
  apply bind_inv_Ok in H; destruct H as (a & s1 & H1 & H).

Tactic Notation "bind_inv" hyp(H) "as" ident(a) ident(s1) ident(H1) :=
  apply bind_inv_Ok in H; destruct H as (a & s1 & H1 & H).

Lemma ret_inv {A} (a b : A) s s' : ret a s = Ok b s' → b = a ∧ s' = s.
Proof. by intros [= -> ->]. Qed.

Lemma SIZE_MOD_eq : SIZE_MOD = 18446744073709551616.
Proof. reflexivity. Qed.

Lemma wrap_small z : 0 ≤ z < SIZE_MOD → wrap z = z.
Proof. intros. unfold wrap. by apply Z.mod_small. Qed.

Lemma wrap_range z : 0 ≤ wrap z < SIZE_MOD.
Proof. unfold wrap. apply Z.mod_pos_bound. reflexivity. Qed.

(** ** adjust_size *)

(** With a non-zero element size the two wrap checks of [adjust_size] are
    exact: it succeeds with the product when the product and the
    header-plus-tailer padding fit in [size_t], and reports
    "allocation size overflow" otherwise. *)
Lemma adjust_size_exact size count s :
  0 < size < SIZE_MOD → 0 ≤ count < SIZE_MOD →
  adjust_size size count s =
    if size * count + (sizeof_tal_hdr + sizeof_length * 2) <? SIZE_MOD
    then Ok (true, size * count) s
    else bind (call_error "allocation size overflow")
           (λ _, ret (false, if size * count <? SIZE_MOD
                             then size * count else size)) s.
Proof.
  intros Hs Hc. unfold adjust_size.
  change (sizeof_tal_hdr + sizeof_length * 2) with 80.
  pose proof SIZE_MOD_eq as HM.
  destruct (Z.eqb_spec count 0) as [->|Hc0].
  - rewrite Z.mul_0_r. simpl. reflexivity.
  - assert ((size =? 0) = false) as -> by lia.
    unfold bind at 1. unfold ret at 1.
    destruct (Z.ltb_spec (size * count) SIZE_MOD) as [Hlt|Hge].
    + assert (Hw : wrap (size * count) = size * count)
        by (apply wrap_small; nia).
      rewrite Hw.
      replace (size * count / size) with count
        by (rewrite Z.mul_comm, Z.div_mul; lia).
      rewrite Z.eqb_refl. simpl.
      destruct (Z.ltb_spec (size * count + 80) SIZE_MOD) as [Hlt'|Hge'].
      * rewrite wrap_small by nia.
        assert ((size * count + 80 <? 80) = false) as -> by nia. done.
      * assert ((wrap (size * count + 80) <? 80) = true) as ->; [|done].
        apply Z.ltb_lt. unfold wrap.
        replace (size * count + 80)
          with (size * count + 80 - SIZE_MOD + 1 * SIZE_MOD) by ring.
        rewrite Z.mod_add by lia.
        rewrite Z.mod_small; lia.
    + assert ((size * count + 80 <? SIZE_MOD) = false) as -> by lia.
      assert ((wrap (size * count) / size =? count) = false) as ->; [|done].
      apply Z.eqb_neq. intros Heq.
      pose proof (wrap_range (size * count)) as Hr.
      assert (wrap (size * count) / size ≤ (SIZE_MOD - 1) / size)
        by (apply Z.div_le_mono; lia).
      assert ((SIZE_MOD - 1) / size * size ≤ SIZE_MOD - 1)
        by (rewrite Z.mul_comm; apply Z.mul_div_le; lia).
      nia.
Qed.

(** On overflow [tal_alloc_arr_] reports through the error hook and
    returns [NULL] without asking the backend for memory. *)
Lemma tal_alloc_arr_overflow cb fuel ctx size count clear add_count label s :
  0 < size < SIZE_MOD → 0 ≤ count < SIZE_MOD →
  SIZE_MOD ≤ size * count + (sizeof_tal_hdr + sizeof_length * 2) →
  tal_alloc_arr_ cb fuel ctx size count clear add_count label s =
    bind (call_error "allocation size overflow") (λ _, ret NULL) s.
Proof.
  intros Hs Hc Hov. unfold tal_alloc_arr_.
  unfold bind at 1. rewrite adjust_size_exact by done.
  assert ((size * count + (sizeof_tal_hdr + sizeof_length * 2) <? SIZE_MOD)
          = false) as -> by lia.
  unfold bind, ret, call_error. by destruct (error_aborts s).
Qed.

Lemma adjust_size_zero_size count s :
  count ≠ 0 → adjust_size 0 count s = Undef.
Proof.
  intros Hc. unfold adjust_size.
  destruct (Z.eqb_spec count 0); [done|]. reflexivity.
Qed.

(** C4.  For an element size that is not zero, [adjust_size] computes
    [size * count], and array allocation reports "allocation size
    overflow" through the error hook, allocates nothing and returns
    [NULL] exactly when the product, or the product plus the header and
    length padding, does not fit [size_t].  For an element size of zero
    and a count that is not zero the overflow test divides by zero:
    [adjust_size], [tal_alloc_arr_] and [tal_resize_] have no defined
    result there. *)
Theorem tal_alloc_arr_size_check cb fuel ctx size count clear add_count label s :
  0 ≤ count < SIZE_MOD →
  (0 < size < SIZE_MOD →
     adjust_size size count s
     = (if size * count + (sizeof_tal_hdr + sizeof_length * 2) <? SIZE_MOD
        then Ok (true, size * count) s
        else bind (call_error "allocation size overflow")
               (λ _, ret (false, if size * count <? SIZE_MOD
                                 then size * count else size)) s) ∧
     (SIZE_MOD ≤ size * count + (sizeof_tal_hdr + sizeof_length * 2) →
      tal_alloc_arr_ cb fuel ctx size count clear add_count label s
      = bind (call_error "allocation size overflow") (λ _, ret NULL) s)) ∧
  (count ≠ 0 →
     adjust_size 0 count s = Undef ∧
     tal_alloc_arr_ cb fuel ctx 0 count clear add_count label s = Undef ∧
     ∀ t, to_tal_hdr ctx s = Ok t s →
          tal_resize_ cb fuel ctx 0 count s = Undef).
Proof.
  intros Hc. split.
  - intros Hs. split; [by apply adjust_size_exact|].
    intros Hov. by apply tal_alloc_arr_overflow.
  - intros Hc0. split; [by apply adjust_size_zero_size|]. split.
    + unfold tal_alloc_arr_. apply bind_Undef. by apply adjust_size_zero_size.
    + intros t Ht. unfold tal_resize_. rewrite (bind_Ok Ht).
      apply bind_Undef. by apply adjust_size_zero_size.
Qed.

(** ** Read-only code *)

Lemma pure_ret {A} (a : A) : pure (ret a).
Proof. intros s b s' [= _ ->]. done. Qed.

Lemma pure_undef {A} : pure (@undef A).
Proof. intros s b s' [=]. Qed.

Lemma pure_out_of_fuel {A} : pure (@out_of_fuel A).
Proof. intros s b s' [=]. Qed.

Lemma pure_bind {A B} (m : M A) (k : A → M B) :
  pure m → (∀ a, pure (k a)) → pure (bind m k).
Proof.
  intros Hm Hk s b s' H. inv_bind H.
  apply Hm in H0 as ->. by apply Hk in H.
Qed.

Lemma pure_load p : pure (load p).
Proof.
  intros s a s'. unfold load.
  destruct (p =? 0); [done|]. destruct (heap s !! p); [|done].
  by intros [= _ ->].
Qed.

Lemma pure_load_hdr t : pure (load_hdr t).
Proof.
  apply pure_bind; [apply pure_load|].
  intros []; auto using pure_ret, pure_undef.
Qed.

Lemma pure_load_type p : pure (load_type p).
Proof.
  apply pure_bind; [apply pure_load|].
  intros o. destruct (obj_type o); auto using pure_ret, pure_undef.
Qed.

Lemma pure_load_next p : pure (load_next p).
Proof.
  apply pure_bind; [apply pure_load|].
  intros o. destruct (obj_next o); auto using pure_ret, pure_undef.
Qed.

Lemma pure_load_ploc l : pure (load_ploc l).
Proof.
  destruct l; simpl; [|apply pure_load_next].
  apply pure_bind; [apply pure_load_hdr|]. intros; apply pure_ret.
Qed.

Lemma pure_is_literal p : pure (is_literal p).
Proof.
  apply pure_bind; [apply pure_load|].
  intros []; auto using pure_ret, pure_undef.
Qed.

Lemma pure_to_tal_hdr ctx : pure (to_tal_hdr ctx).
Proof.
  apply pure_bind; [apply pure_load_hdr|]. intros h.
  apply pure_bind; [|intros; apply pure_ret].
  destruct (prop h =? 0); auto using pure_ret, pure_is_literal.
Qed.

Lemma pure_find_property_ptr_from fuel : ∀ l ty,
  pure (find_property_ptr_from fuel l ty).
Proof.
  induction fuel as [|f IH]; intros l ty; simpl; [apply pure_out_of_fuel|].
  apply pure_bind; [apply pure_load_ploc|]. intros v.
  destruct (v =? 0); [apply pure_ret|].
  apply pure_bind; [apply pure_is_literal|]. intros [|]; [apply pure_ret|].
  apply pure_bind; [apply pure_load_type|]. intros ty'.
  destruct (decide (ty' = ty)); [apply pure_ret|apply IH].
Qed.

Lemma pure_find_property fuel t ty : pure (find_property fuel t ty).
Proof.
  apply pure_bind; [apply pure_find_property_ptr_from|].
  intros [l|]; [apply pure_load_ploc|apply pure_ret].
Qed.

Lemma pure_load_node q : pure (load_node q).
Proof.
  intros s a s'. unfold load_node.
  repeat case_match; congruence.
Qed.

Lemma pure_list_top h : pure (list_top h).
Proof.
  apply pure_bind; [apply pure_load_node|]. intros n.
  destruct (next n =? h); apply pure_ret.
Qed.

Lemma pure_parent_of t : pure (parent_of t).
Proof.
  apply pure_bind; [apply pure_load_hdr|]. intros h.
  apply pure_bind; [apply pure_load|].
  intros []; auto using pure_ret, pure_undef.
Qed.

Lemma pure_tal_count fuel ptr : pure (tal_count fuel ptr).
Proof.
  apply pure_bind; [apply pure_to_tal_hdr|]. intros t.
  apply pure_bind; [apply pure_find_property|]. intros l.
  destruct (l =? 0); [apply pure_ret|].
  apply pure_bind; [apply pure_load|].
  intros []; auto using pure_ret, pure_undef.
Qed.

Lemma pure_tal_parent ctx : pure (tal_parent ctx).
Proof.
  unfold tal_parent. destruct (ctx =? 0); [apply pure_ret|].
  apply pure_bind; [apply pure_to_tal_hdr|]. intros t.
  apply pure_bind; [apply pure_parent_of|]. intros p.
  destruct (p =? null_parent_hdr); apply pure_ret.
Qed.

Lemma load_NULL s : load NULL s = Undef.
Proof. reflexivity. Qed.

Lemma load_Some p o s : p ≠ 0 → heap s !! p = Some o → load p s = Ok o s.
Proof.
  intros Hp Hl. unfold load.
  destruct (Z.eqb_spec p 0); [done|]. by rewrite Hl.
Qed.

Lemma load_inv p o s s' :
  load p s = Ok o s' → s' = s ∧ p ≠ 0 ∧ heap s !! p = Some o.
Proof.
  unfold load. destruct (Z.eqb_spec p 0); [done|].
  destruct (heap s !! p) eqn:E; [|done]. by intros [= -> ->].
Qed.

(** ** Property chains *)

Lemma add_trace_nil s : add_trace [] s = s.
Proof. destruct s. unfold add_trace. simpl. by rewrite app_nil_r. Qed.

Lemma add_trace_app e1 e2 s :
  add_trace e2 (add_trace e1 s) = add_trace (e1 ++ e2) s.
Proof. unfold add_trace. simpl. by rewrite app_assoc. Qed.

Lemma log_add_trace e s : log e s = add_trace [e] s.
Proof. reflexivity. Qed.

Lemma literal_at_agree hp hp' lit :
  literal_at hp lit → (lit ≠ 0 → hp' !! lit = hp !! lit) → literal_at hp' lit.
Proof.
  intros [->|(s & Hs & Hb)] Hag; [by left|].
  destruct (decide (lit = 0)) as [->|Hne]; [by left|].
  right. exists s. by rewrite Hag.
Qed.

Lemma chain_agree hp hp' : ∀ l p lit,
  chain hp p l lit →
  (∀ q o, (q, o) ∈ l → hp' !! q = Some o) →
  (lit ≠ 0 → hp' !! lit = hp !! lit) →
  chain hp' p l lit.
Proof.
  induction l as [|[q o] l IH]; intros p lit Hc Hl Hlit; simpl in *.
  - destruct Hc as [-> Hc]. split; [done|]. by eapply literal_at_agree.
  - destruct Hc as (-> & Hq & Ho & Hn). repeat split; [done| |].
    + apply Hl. left.
    + destruct (obj_next o); [|done]. apply IH; [done| |done].
      intros q' o' Hin. apply Hl. by right.
Qed.

Lemma is_literal_prop p o s :
  p ≠ 0 → heap s !! p = Some o → is_Some (obj_next o) →
  is_literal p s = Ok false s.
Proof.
  intros Hp Ho [nx Hn]. unfold is_literal.
  rewrite (bind_Ok (load_Some _ _ _ Hp Ho)).
  by destruct o.
Qed.

Lemma is_literal_Str p str s :
  p ≠ 0 → heap s !! p = Some (Str str) → first_byte str ≠ 0 →
  is_literal p s = Ok true s.
Proof.
  intros Hp Ho Hb. unfold is_literal.
  rewrite (bind_Ok (load_Some _ _ _ Hp Ho)).
  unfold ret. by destruct (Z.eqb_spec (first_byte str) 0).
Qed.

Lemma load_type_prop p o ty s :
  p ≠ 0 → heap s !! p = Some o → obj_type o = Some ty →
  load_type p s = Ok ty s.
Proof.
  intros Hp Ho Hty. unfold load_type.
  rewrite (bind_Ok (load_Some _ _ _ Hp Ho)). by rewrite Hty.
Qed.

Lemma load_next_prop p o nx s :
  p ≠ 0 → heap s !! p = Some o → obj_next o = Some nx →
  load_next p s = Ok nx s.
Proof.
  intros Hp Ho Hn. unfold load_next.
  rewrite (bind_Ok (load_Some _ _ _ Hp Ho)). by rewrite Hn.
Qed.

Lemma obj_next_type o nx : obj_next o = Some nx → is_Some (obj_type o).
Proof. destruct o; simpl; intros [=]; eauto. Qed.

(** A dispatch with passive callbacks leaves the heap alone and invokes,
    in chain order, the notifiers whose mask has the event's bit. *)
Lemma notify_from_passive fuel : ∀ l p lit ctx type info s,
  chain (heap s) p l lit → (length l < fuel)%nat →
  notify_from passive fuel p ctx type info s
  = Ok tt (add_trace (fired ctx type info l) s).
Proof.
  induction fuel as [|f IH]; intros l p lit ctx type info s Hc Hf; [lia|].
  destruct l as [|[q o] l]; simpl in Hc.
  - destruct Hc as [-> Hlit]. simpl. rewrite add_trace_nil.
    destruct Hlit as [->|(str & Hs & Hb)]; [done|].
    destruct (Z.eqb_spec lit 0) as [->|Hne]; [done|].
    by rewrite (bind_Ok (is_literal_Str _ _ _ Hne Hs Hb)).
  - destruct Hc as (-> & Hq & Ho & Hn).
    destruct (obj_next o) as [nx|] eqn:Hnx; [|done].
    destruct (obj_next_type _ _ Hnx) as [ty Hty].
    cbn [notify_from]. destruct (Z.eqb_spec q 0); [done|].
    rewrite (bind_Ok (is_literal_prop _ _ _ Hq Ho (mk_is_Some _ _ Hnx))).
    rewrite (bind_Ok (load_type_prop _ _ _ _ Hq Ho Hty)).
    assert (Hstep : ∀ s', heap s' = heap s →
      (let* nx0 := load_next q in notify_from passive f nx0 ctx type info) s'
      = Ok tt (add_trace (fired ctx type info l) s')).
    { intros s' Hs'.
      rewrite (bind_Ok (a:=nx) (s1:=s'));
        [|apply (load_next_prop _ o); by rewrite ?Hs'].
      apply (IH l nx lit); [by rewrite Hs'|simpl in Hf; lia]. }
    unfold fired. cbn [flat_map]. fold (fired ctx type info l).
    destruct (decide (ty = NOTIFIER)) as [->|Hnot].
    + destruct o; try discriminate. unfold fire; cbn [snd].
      rewrite bind_assoc, (bind_Ok (load_Some _ _ _ Hq Ho)).
      destruct (Z.land types type =? 0).
      { rewrite bind_ret_l. by rewrite Hstep. }
      destruct (Z.land types NOTIFY_IS_DESTRUCTOR =? 0);
        unfold invoke, passive; rewrite bind_assoc;
        unfold modify at 1, bind at 1; rewrite bind_ret_l;
        rewrite Hstep by done; by rewrite log_add_trace, add_trace_app.
    + rewrite bind_ret_l. rewrite Hstep by done.
      destruct o; try discriminate; try done.
      simpl in Hty. congruence.
Qed.

Lemma load_ploc_NextOf q o nx s :
  q ≠ 0 → heap s !! q = Some o → obj_next o = Some nx →
  load_ploc (NextOf q) s = Ok nx s.
Proof. apply load_next_prop. Qed.

Lemma load_hdr_Some t h s :
  t ≠ 0 → heap s !! t = Some (Hdr h) → load_hdr t s = Ok h s.
Proof.
  intros Ht Hh. unfold load_hdr. by rewrite (bind_Ok (load_Some _ _ _ Ht Hh)).
Qed.

Lemma load_hdr_inv t h s s' :
  load_hdr t s = Ok h s' → s' = s ∧ t ≠ 0 ∧ heap s !! t = Some (Hdr h).
Proof.
  unfold load_hdr. intros H. inv_bind H.
  apply load_inv in H0 as (-> & Ht & Ho).
  destruct a; try discriminate. by injection H as -> ->.
Qed.

Lemma load_ploc_PropOf t h s :
  t ≠ 0 → heap s !! t = Some (Hdr h) → load_ploc (PropOf t) s = Ok (prop h) s.
Proof.
  intros Ht Hh. simpl. by rewrite (bind_Ok (load_hdr_Some _ _ _ Ht Hh)).
Qed.

(** Looking a property up by type (other than [NAME]) finds the first
    property of that type on the chain. *)
Lemma find_property_ptr_from_chain ty fuel : ∀ l from p lit s,
  ty ≠ NAME →
  load_ploc from s = Ok p s → chain (heap s) p l lit → (length l < fuel)%nat →
  find_property_ptr_from fuel from ty s
  = Ok (fst ∘ fst <$> first_of_type ty l from) s.
Proof.
  induction fuel as [|f IH]; intros l from p lit s Hty Hfrom Hc Hf; [lia|].
  cbn [find_property_ptr_from]. rewrite (bind_Ok Hfrom).
  destruct l as [|[q o] l]; simpl in Hc.
  - destruct Hc as [-> Hlit]. simpl.
    destruct Hlit as [->|(str & Hs & Hb)]; [done|].
    destruct (Z.eqb_spec lit 0) as [->|Hne]; [done|].
    rewrite (bind_Ok (is_literal_Str _ _ _ Hne Hs Hb)).
    by destruct (decide (ty = NAME)).
  - destruct Hc as (-> & Hq & Ho & Hn).
    destruct (obj_next o) as [nx|] eqn:Hnx; [|done].
    destruct (obj_next_type _ _ Hnx) as [ty' Hty'].
    destruct (Z.eqb_spec q 0); [done|].
    rewrite (bind_Ok (is_literal_prop _ _ _ Hq Ho (mk_is_Some _ _ Hnx))).
    rewrite (bind_Ok (load_type_prop _ _ _ _ Hq Ho Hty')).
    cbn [first_of_type]. rewrite Hty'.
    destruct (decide (ty' = ty)) as [->|Hne].
    + by rewrite decide_True.
    + rewrite decide_False by congruence.
      apply (IH l (NextOf q) nx lit); [done| |done|simpl in Hf; lia].
      by apply (load_ploc_NextOf _ o).
Qed.

Lemma first_of_type_elem ty : ∀ l from loc q o,
  first_of_type ty l from = Some (loc, q, o) →
  (q, o) ∈ l ∧ obj_type o = Some ty.
Proof.
  induction l as [|[q' o'] l IH]; intros from loc q o; simpl; [done|].
  destruct (decide (obj_type o' = Some ty)).
  - intros [= <- <- <-]. split; [left|done].
  - intros H. apply IH in H as [? ?]. split; [by right|done].
Qed.

Lemma chain_elem hp : ∀ l p lit q o,
  chain hp p l lit → (q, o) ∈ l → q ≠ 0 ∧ hp !! q = Some o.
Proof.
  induction l as [|[q' o'] l IH]; intros p lit q o Hc Hin; simpl in Hc.
  - by apply elem_of_nil in Hin.
  - destruct Hc as (-> & Hq & Ho & Hn).
    apply elem_of_cons in Hin as [[= -> ->]|Hin]; [done|].
    destruct (obj_next o'); [|done]. by eapply IH.
Qed.

(** The place found by [first_of_type] holds the address of the property
    it found. *)
Lemma first_of_type_loc ty s : ∀ l from p lit loc q o,
  load_ploc from s = Ok p s → chain (heap s) p l lit →
  first_of_type ty l from = Some (loc, q, o) →
  load_ploc loc s = Ok q s.
Proof.
  induction l as [|[q' o'] l IH]; intros from p lit loc q o Hfrom Hc;
    simpl in *; [done|].
  destruct Hc as (-> & Hq & Ho & Hn).
  destruct (obj_next o') as [nx|] eqn:Hnx; [|done].
  destruct (decide (obj_type o' = Some ty)).
  - by intros [= <- <- <-].
  - apply (IH (NextOf q') nx lit); [|done].
    by apply (load_ploc_NextOf _ o').
Qed.

Lemma find_property_chain ty fuel l t h lit s :
  ty ≠ NAME → t ≠ 0 → heap s !! t = Some (Hdr h) →
  chain (heap s) (prop h) l lit → (length l < fuel)%nat →
  find_property fuel t ty s
  = Ok (match first_of_type ty l (PropOf t) with
        | Some (_, q, _) => q
        | None => NULL
        end) s.
Proof.
  intros Hty Ht Hh Hc Hf. unfold find_property, find_property_ptr.
  pose proof (load_ploc_PropOf _ _ _ Ht Hh) as Hfrom.
  rewrite (bind_Ok (find_property_ptr_from_chain ty fuel l _ _ lit s
                      Hty Hfrom Hc Hf)).
  destruct (first_of_type ty l (PropOf t)) as [[[loc q] o]|] eqn:E; [|done].
  simpl. by eapply first_of_type_loc.
Qed.

(** ** Running the primitives *)

Lemma bind_runs {A B} (m : M A) (k : A → M B) s a s1 r :
  m s = Ok a s1 → k a s1 = r → bind m k s = r.
Proof. intros H <-. by apply bind_Ok. Qed.

Ltac st_simpl :=
  cbn [heap blocks backend backend_errno error_aborts initialized notifiers
       errno takenarr trace set_heap set_blocks set_backend set_initialized
       set_notifiers set_errno set_takenarr log add_trace] in *.

Lemma store_ok p o s :
  p ≠ 0 → is_Some (heap s !! p) → store p o s = Ok tt (set_heap <[p := o]> s).
Proof.
  intros Hp [o' Ho]. unfold store.
  by rewrite (bind_Ok (load_Some _ _ _ Hp Ho)).
Qed.

Lemma store_hdr_ok t h s :
  t ≠ 0 → is_Some (heap s !! t) →
  store_hdr t h s = Ok tt (set_heap <[t := Hdr h]> s).
Proof. apply store_ok. Qed.

Lemma in_block_insert a sz len bl : 0 ≤ len ≤ sz → in_block a len (<[a := sz]> bl).
Proof.
  intros. unfold in_block. apply map_Exists_lookup. exists a, sz.
  rewrite lookup_insert_eq. split; [done|lia].
Qed.

Lemma in_block_lookup b sz q len bl :
  bl !! b = Some sz → b ≤ q → q + len ≤ b + sz → in_block q len bl.
Proof. intros. unfold in_block. apply map_Exists_lookup. by exists b, sz. Qed.

Lemma emplace_ok q o s :
  in_block q (sizeof_obj o) (blocks s) →
  emplace q o s = Ok tt (set_heap <[q := o]> s).
Proof. intros H. unfold emplace. by rewrite bool_decide_eq_true_2. Qed.

Lemma allocfn_ok size a rest s :
  backend s = a :: rest → a ≠ 0 →
  allocfn size s
  = Ok a (set_blocks <[a := size]> (log (EvAlloc size a) (set_backend rest s))).
Proof.
  intros Hb Ha. unfold allocfn. rewrite Hb.
  by destruct (Z.eqb_spec a 0).
Qed.

Lemma allocate_ok size a rest s :
  backend s = a :: rest → a ≠ 0 →
  allocate size s
  = Ok a (set_blocks <[a := size]> (log (EvAlloc size a) (set_backend rest s))).
Proof.
  intros Hb Ha. unfold allocate. rewrite (bind_Ok (allocfn_ok _ _ _ _ Hb Ha)).
  by destruct (Z.eqb_spec a 0).
Qed.

Lemma allocate_refused size s :
  refused s → error_aborts s = false →
  allocate size s
  = Ok NULL (add_trace [EvAlloc size NULL; EvError "allocation failed"]
               (set_backend (tail (backend s)) s)).
Proof.
  intros Hr He. unfold allocate, allocfn, bind, call_error.
  destruct Hr as [Hb|[rest Hb]]; rewrite Hb; simpl; rewrite He;
    unfold ret; f_equal; destruct s; simpl in *; subst;
    unfold add_trace, log, set_backend; simpl; by rewrite <- app_assoc.
Qed.

Lemma freefn_ok p sz s :
  blocks s !! p = Some sz →
  freefn p s
  = Ok tt (set_errno (backend_errno s)
            (set_heap (free_range p sz)
              (set_blocks (delete p) (log (EvRelease p) s)))).
Proof. intros H. unfold freefn. by rewrite H. Qed.

Lemma free_range_lookup b sz hp k :
  free_range b sz hp !! k = if decide (b ≤ k < b + sz) then None else hp !! k.
Proof.
  unfold free_range. rewrite map_lookup_filter.
  destruct (hp !! k) as [o|] eqn:E; simpl.
  - destruct (decide (b ≤ k < b + sz)).
    + by rewrite option_guard_False by (simpl; tauto).
    + by rewrite option_guard_True.
  - by destruct (decide (b ≤ k < b + sz)).
Qed.

Lemma free_range_lookup_out b sz hp k :
  ¬ (b ≤ k < b + sz) → free_range b sz hp !! k = hp !! k.
Proof. intros. rewrite free_range_lookup. by rewrite decide_False. Qed.

Lemma free_range_lookup_in b sz hp k :
  b ≤ k < b + sz → free_range b sz hp !! k = None.
Proof. intros. rewrite free_range_lookup. by rewrite decide_True. Qed.

Lemma load_node_hdr q h s :
  heap s !! q = Some (Hdr h) → load_node q s = Ok (hlist h) s.
Proof. intros H. unfold load_node. by rewrite H. Qed.

Lemma load_node_head c nx pa n s :
  heap s !! (c + offsetof_children) = None →
  heap s !! c = Some (Children nx pa n) →
  load_node (c + offsetof_children) s = Ok n s.
Proof.
  intros H1 H2. unfold load_node. rewrite H1.
  replace (c + offsetof_children - offsetof_children) with c by lia.
  by rewrite H2.
Qed.

Lemma store_node_hdr q h n s :
  heap s !! q = Some (Hdr h) →
  store_node q n s
  = Ok tt (set_heap <[q := Hdr (TalHdr n (prop h) (parent_child h))]> s).
Proof. intros H. unfold store_node. by rewrite H. Qed.

Lemma store_node_head c nx pa n0 n s :
  heap s !! (c + offsetof_children) = None →
  heap s !! c = Some (Children nx pa n0) →
  store_node (c + offsetof_children) n s
  = Ok tt (set_heap <[c := Children nx pa n]> s).
Proof.
  intros H1 H2. unfold store_node. rewrite H1.
  replace (c + offsetof_children - offsetof_children) with c by lia.
  by rewrite H2.
Qed.

Lemma add_notifier_property_ok t h types fn s a rest :
  t ≠ 0 → heap s !! t = Some (Hdr h) → backend s = a :: rest → a ≠ 0 → a ≠ t →
  add_notifier_property t types fn s = Ok a
    (set_heap (λ hp, <[a := Notifier (prop h) types fn]>
                       (<[t := Hdr (TalHdr (hlist h) a (parent_child h))]> hp))
       (set_blocks <[a := sizeof_notifier]>
          (log (EvAlloc sizeof_notifier a) (set_backend rest s)))).
Proof.
  intros Ht Hh Hb Ha Hat. unfold add_notifier_property.
  eapply bind_runs; [by apply allocate_ok|].
  destruct (Z.eqb_spec a 0) as [|_]; [done|].
  eapply bind_runs; [|reflexivity].
  eapply bind_runs.
  { unfold init_property.
    eapply bind_runs; [apply load_hdr_Some; [done|by st_simpl]|].
    eapply bind_runs.
    { apply emplace_ok. st_simpl. by apply in_block_insert. }
    apply store_hdr_ok; [done|]. st_simpl.
    rewrite lookup_insert_ne by done. by rewrite Hh. }
  eapply bind_runs.
  { eapply (load_next_prop _ (Notifier (prop h) 0 0)); [done| |done].
    st_simpl. rewrite lookup_insert_ne by done. apply lookup_insert_eq. }
  rewrite store_ok; [|done|].
  - f_equal. destruct s; unfold set_heap; simpl. f_equal.
    apply map_eq. intros k.
    destruct (decide (k = a)) as [->|]; [by rewrite !lookup_insert_eq|].
    rewrite !(lookup_insert_ne _ a) by done.
    destruct (decide (k = t)) as [->|]; [by rewrite !lookup_insert_eq|].
    by rewrite !lookup_insert_ne by done.
  - st_simpl. rewrite lookup_insert_ne by done. rewrite lookup_insert_eq. eauto.
Qed.

Lemma chain_elem_next hp : ∀ l p lit q o,
  chain hp p l lit → (q, o) ∈ l → is_Some (obj_next o).
Proof.
  induction l as [|[q' o'] l IH]; intros p lit q o Hc Hin; simpl in Hc.
  - by apply elem_of_nil in Hin.
  - destruct Hc as (-> & Hq & Ho & Hn).
    destruct (obj_next o') eqn:E; [|done].
    apply elem_of_cons in Hin as [[= -> ->]|Hin]; [eauto|].
    by eapply IH.
Qed.

(** Writing a header, or writing where nothing was, leaves every property
    chain as it is. *)
Lemma chain_insert_hdr hp k o' l p lit :
  chain hp p l lit →
  (hp !! k = None ∨ ∃ h, hp !! k = Some (Hdr h)) →
  chain (<[k := o']> hp) p l lit.
Proof.
  intros Hc Hk. eapply chain_agree; [done| |].
  - intros q o Hin.
    destruct (chain_elem _ _ _ _ _ _ Hc Hin) as [Hq Ho].
    destruct (chain_elem_next _ _ _ _ _ _ Hc Hin) as [nx Hnx].
    rewrite lookup_insert_ne; [done|].
    intros ->. destruct Hk as [Hk|[h Hk]]; rewrite Hk in Ho; [done|].
    injection Ho as <-. done.
  - intros Hlit. rewrite lookup_insert_ne; [done|]. intros ->.
    assert (Hl : literal_at hp lit).
    { clear -Hc. revert p Hc. induction l as [|[q o] l IH]; intros p Hc;
        simpl in Hc; [tauto|].
      destruct Hc as (_ & _ & _ & Hn). destruct (obj_next o); [eauto|done]. }
    destruct Hl as [?|(str & Hs & _)]; [done|].
    destruct Hk as [Hk|[h Hk]]; rewrite Hk in Hs; done.
Qed.

Lemma chain_head_literal hp p l lit s :
  hp = heap s → chain hp p l lit →
  (if p =? 0 then ret false else is_literal p) s
  = Ok (match l with [] => negb (p =? 0) | _ => false end) s.
Proof.
  intros -> Hc. destruct l as [|[q o] l]; simpl in Hc.
  - destruct Hc as [-> [->|(str & Hs & Hb)]]; [done|].
    destruct (Z.eqb_spec lit 0) as [->|Hne]; [done|].
    by apply is_literal_Str with str.
  - destruct Hc as (-> & Hq & Ho & Hn).
    destruct (Z.eqb_spec q 0); [done|].
    destruct (obj_next o) eqn:E; [|done]. by eapply is_literal_prop.
Qed.

Lemma to_tal_hdr_ok ctx h l lit s :
  ctx - sizeof_tal_hdr ≠ 0 →
  heap s !! (ctx - sizeof_tal_hdr) = Some (Hdr h) →
  chain (heap s) (prop h) l lit →
  to_tal_hdr ctx s = Ok (ctx - sizeof_tal_hdr) s.
Proof.
  intros Ht Hh Hc. unfold to_tal_hdr.
  eapply bind_runs; [by apply load_hdr_Some|].
  eapply bind_runs; [by eapply chain_head_literal|]. done.
Qed.

(** ** Expanding an array *)

(** C10.  [tal_expand_] reads the old count through the result of the
    lookup of the LENGTH property without testing it.  On a node whose
    chain has no LENGTH property the lookup answers [NULL] and the read
    has no defined result; on a node that has one, the old count is the
    count of that property, and the operation goes on to the overflow
    test and to [tal_resize_] with it. *)
Theorem tal_expand_needs_length cb fuel ctx src size count s h l lit :
  let t := ctx - sizeof_tal_hdr in
  t ≠ 0 → heap s !! t = Some (Hdr h) →
  chain (heap s) (prop h) l lit → (length l < fuel)%nat →
  find_property fuel t LENGTH s
  = Ok (match first_of_type LENGTH l (PropOf t) with
        | Some (_, q, _) => q
        | None => NULL
        end) s ∧
  (first_of_type LENGTH l (PropOf t) = None →
     tal_expand_ cb fuel ctx src size count s = Undef) ∧
  (∀ loc q nx old_count,
     first_of_type LENGTH l (PropOf t) = Some (loc, q, Length nx old_count) →
     tal_expand_ cb fuel ctx src size count s
     = (let* r :=
          (if wrap (old_count + count) <? count then
             do* call_error "dup size overflow" in ret (false, ctx)
           else tal_resize_ cb fuel ctx size (wrap (old_count + count))) in
        let* tk := taken src in
        do* (if (tk : bool) then do* tal_free cb fuel src in ret tt
             else ret tt) in
        ret r) s).
Proof.
  intros t Ht Hh Hc Hf.
  pose proof (find_property_chain LENGTH fuel l t h lit s
                ltac:(done) Ht Hh Hc Hf) as Hfind.
  pose proof (to_tal_hdr_ok ctx h l lit s Ht Hh Hc) as Hto.
  split; [done|]. split.
  - intros Hnone. rewrite Hnone in Hfind. unfold tal_expand_.
    rewrite (bind_Ok Hto). fold t. rewrite (bind_Ok Hfind).
    apply bind_Undef, load_NULL.
  - intros loc q nx old_count Hsome. rewrite Hsome in Hfind.
    apply first_of_type_elem in Hsome as [Hin _].
    destruct (chain_elem _ _ _ _ _ _ Hc Hin) as [Hq Hl].
    unfold tal_expand_.
    rewrite (bind_Ok Hto). fold t. rewrite (bind_Ok Hfind).
    by rewrite (bind_Ok (load_Some _ _ _ Hq Hl)).
Qed.

Lemma notify_passive fuel t h l lit type info s :
  t ≠ 0 → heap s !! t = Some (Hdr h) →
  chain (heap s) (prop h) l lit → (length l < fuel)%nat →
  notify passive fuel t type info s = Ok tt (add_trace (fired t type info l) s).
Proof.
  intros Ht Hh Hc Hf. unfold notify.
  eapply bind_runs; [by apply load_hdr_Some|].
  by eapply notify_from_passive.
Qed.

(** ** Installing a notifier *)

Lemma chain_with_notifier t h a types fn rest s l lit :
  heap s !! t = Some (Hdr h) → heap s !! a = None → a ≠ 0 →
  chain (heap s) (prop h) l lit →
  chain (heap (with_notifier t h a types fn rest s)) a
        ((a, Notifier (prop h) types fn) :: l) lit.
Proof.
  intros Hh Ha Ha0 Hc. unfold with_notifier. st_simpl.
  assert (a ≠ t) by (intros ->; congruence).
  simpl. repeat split; [done|apply lookup_insert_eq|].
  apply chain_insert_hdr.
  - apply chain_insert_hdr; [done|]. right. eauto.
  - left. by rewrite lookup_insert_ne.
Qed.

(** C7. [tal_add_notifier_] creates the notifier property with an empty
    mask, then dispatches [TAL_NOTIFY_ADD_NOTIFIER] on the node (when the
    counter is not zero), then assigns the requested mask and increments
    the counter unless the mask is exactly [TAL_NOTIFY_FREE].  The
    dispatch invokes exactly what the chain held before the installation
    ([fired] over the old chain [l]): the new notifier is not called for
    its own birth, whatever its mask. *)
Theorem tal_add_notifier_no_birth_event fuel ctx types fn s h l lit a rest :
  let t := ctx - sizeof_tal_hdr in
  t ≠ 0 → heap s !! t = Some (Hdr h) →
  chain (heap s) (prop h) l lit → (S (length l) < fuel)%nat →
  backend s = a :: rest → a ≠ 0 → heap s !! a = None →
  let s1 := with_notifier t h a 0 fn rest s in
  let s2 := add_trace (if notifiers s =? 0 then []
                       else fired t TAL_NOTIFY_ADD_NOTIFIER fn l) s1 in
  add_notifier_property t 0 fn s = Ok a s1 ∧
  heap s1 !! a = Some (Notifier (prop h) 0 fn) ∧
  (if notifiers s =? 0 then ret tt
   else notify passive fuel t TAL_NOTIFY_ADD_NOTIFIER fn) s1 = Ok tt s2 ∧
  tal_add_notifier_ passive fuel ctx types fn s
  = Ok true
      (set_notifiers (if types =? TAL_NOTIFY_FREE then notifiers s
                      else wrap (notifiers s + 1))
         (set_heap <[a := Notifier (prop h) types fn]> s2)).
Proof.
  intros t Ht Hh Hc Hf Hb Ha Hfresh s1 s2.
  assert (Hat : a ≠ t) by (intros ->; congruence).
  pose proof (add_notifier_property_ok t h 0 fn s a rest Ht Hh Hb Ha Hat) as Hadd.
  fold (with_notifier t h a 0 fn rest s) in Hadd. fold s1 in Hadd.
  pose proof (chain_with_notifier t h a 0 fn rest s l lit Hh Hfresh Ha Hc) as Hc1.
  fold s1 in Hc1.
  assert (Hh1 : heap s1 !! t
                = Some (Hdr (TalHdr (hlist h) a (parent_child h)))).
  { unfold s1, with_notifier. st_simpl.
    rewrite lookup_insert_ne by done. apply lookup_insert_eq. }
  assert (Ha1 : heap s1 !! a = Some (Notifier (prop h) 0 fn)).
  { unfold s1, with_notifier. st_simpl. apply lookup_insert_eq. }
  assert (Hn1 : notifiers s1 = notifiers s) by done.
  assert (Hdisp :
    (if notifiers s =? 0 then ret tt
     else notify passive fuel t TAL_NOTIFY_ADD_NOTIFIER fn) s1 = Ok tt s2).
  { unfold s2. destruct (notifiers s =? 0).
    - by rewrite add_trace_nil.
    - rewrite (notify_passive fuel t _ _ lit _ _ s1 Ht Hh1 Hc1)
        by (simpl; lia).
      unfold fired. simpl. unfold fire at 1. simpl. done. }
  repeat split; [done..|].
  unfold tal_add_notifier_.
  eapply bind_runs; [by eapply to_tal_hdr_ok|]. fold t.
  eapply bind_runs; [exact Hadd|].
  destruct (Z.eqb_spec a 0) as [|_]; [done|].
  eapply bind_runs; [reflexivity|]. cbn beta.
  rewrite Hn1. eapply bind_runs; [exact Hdisp|].
  assert (Ha2 : heap s2 !! a = Some (Notifier (prop h) 0 fn)) by done.
  eapply bind_runs; [by apply load_Some|].
  eapply bind_runs; [apply store_ok; [done|by rewrite Ha2]|].
  assert (Hn2 : notifiers s2 = notifiers s) by done.
  destruct (types =? TAL_NOTIFY_FREE).
  - rewrite bind_ret_l. unfold ret. f_equal.
  - unfold modify, bind, ret. f_equal.
Qed.

(** ** The notifier counter *)

Lemma same_mem_refl s : same_mem s s.
Proof. exists []. by rewrite add_trace_nil. Qed.

Lemma same_mem_trans s1 s2 s3 : same_mem s1 s2 → same_mem s2 s3 → same_mem s1 s3.
Proof. intros [e1 ->] [e2 ->]. exists (e1 ++ e2). apply add_trace_app. Qed.

Lemma pure_same_mem {A} (m : M A) s a s' : pure m → m s = Ok a s' → same_mem s s'.
Proof. intros Hp H. apply Hp in H as ->. apply same_mem_refl. Qed.

(** Whatever the chain, a dispatch to passive callbacks only adds to the
    trace. *)
Lemma notify_from_passive_same_mem fuel : ∀ p ctx type info s u s',
  notify_from passive fuel p ctx type info s = Ok u s' → same_mem s s'.
Proof.
  induction fuel as [|f IH]; intros p ctx type info s u s' H; [done|].
  cbn [notify_from] in H.
  destruct (p =? 0); [apply ret_inv in H as [_ ->]; apply same_mem_refl|].
  bind_inv H as lit s1 Hlit. apply pure_is_literal in Hlit as ->.
  destruct lit; [apply ret_inv in H as [_ ->]; apply same_mem_refl|].
  bind_inv H as ty s1 Hty. apply pure_load_type in Hty as ->.
  bind_inv H as u0 s1 Hcall. bind_inv H as nx s2 Hnx.
  apply pure_load_next in Hnx as ->.
  apply IH in H. eapply same_mem_trans; [|done].
  destruct (decide (ty = NOTIFIER));
    [|apply ret_inv in Hcall as [_ ->]; apply same_mem_refl].
  bind_inv Hcall as o s2 Ho. apply pure_load in Ho as ->.
  destruct o; try done.
  destruct (Z.land types type =? 0);
    [apply ret_inv in Hcall as [_ ->]; apply same_mem_refl|].
  destruct (Z.land types NOTIFY_IS_DESTRUCTOR =? 0);
    unfold invoke, passive, modify, bind, ret in Hcall;
    injection Hcall as _ <-; eexists; apply log_add_trace.
Qed.

Lemma notify_passive_same_mem fuel ctx type info s u s' :
  notify passive fuel ctx type info s = Ok u s' → same_mem s s'.
Proof.
  unfold notify. intros H. bind_inv H as h s1 Hh.
  apply pure_load_hdr in Hh as ->.
  by eapply notify_from_passive_same_mem.
Qed.

Lemma live_count_same_mem P s s' : same_mem s s' → live_count P s' = live_count P s.
Proof. by intros [evs ->]. Qed.

Lemma count_in_insert P k o hp :
  Z.of_nat (count_in P (<[k := o]> hp))
  = Z.of_nat (count_in P hp)
    - (match hp !! k with Some o' => if P o' then 1 else 0 | None => 0 end)
    + (if P o then 1 else 0).
Proof.
  unfold count_in.
  set (Q := λ kv : Z * object, P kv.2 = true).
  assert (Hdel : ∀ m : gmap Z object,
    Z.of_nat (size (filter Q (delete k m)))
    = Z.of_nat (size (filter Q m))
      - match m !! k with Some o' => if P o' then 1 else 0 | None => 0 end).
  { intros m. rewrite map_filter_delete.
    destruct (m !! k) as [o'|] eqn:E.
    - destruct (P o') eqn:EP.
      + assert (filter Q m !! k = Some o')
          by (apply map_lookup_filter_Some; done).
        rewrite map_size_delete. rewrite H.
        assert (size (filter Q m) ≠ 0%nat).
        { intros Hz. apply map_size_empty_inv in Hz. rewrite Hz in H. done. }
        lia.
      + rewrite delete_id; [lia|].
        apply map_lookup_filter_None. right. intros o'' Ho''.
        unfold Q. simpl. congruence.
    - rewrite delete_id; [lia|].
      apply map_lookup_filter_None. by left. }
  rewrite <- (insert_delete_eq hp k o), <- Hdel.
  destruct (P o) eqn:EP.
  - rewrite map_filter_insert_True by done.
    rewrite map_size_insert_None; [lia|].
    rewrite map_filter_delete. apply lookup_delete_eq.
  - rewrite map_filter_insert_False by (unfold Q; simpl; congruence).
    rewrite delete_delete_eq. lia.
Qed.

Lemma count_in_free_range P b sz hp :
  (∀ k o, hp !! k = Some o → b < k < b + sz → P o = false) →
  0 < sz →
  Z.of_nat (count_in P (free_range b sz hp))
  = Z.of_nat (count_in P hp)
    - (match hp !! b with Some o' => if P o' then 1 else 0 | None => 0 end).
Proof.
  intros Hin Hsz.
  assert (Heq : filter (λ kv : Z * object, P kv.2 = true) (free_range b sz hp)
                = filter (λ kv : Z * object, P kv.2 = true) (delete b hp)).
  { apply map_eq. intros k. rewrite !map_lookup_filter.
    rewrite free_range_lookup.
    destruct (decide (k = b)) as [->|Hne].
    - rewrite decide_True by lia. by rewrite lookup_delete_eq.
    - rewrite lookup_delete_ne by done.
      destruct (decide (b ≤ k < b + sz)) as [Hr|]; [|done].
      destruct (hp !! k) as [o|] eqn:E; [|done]. simpl.
      rewrite option_guard_False; [done|].
      simpl. rewrite (Hin k o E) by lia. done. }
  unfold count_in. rewrite Heq. fold (count_in P (delete b hp)).
  destruct (hp !! b) as [o|] eqn:E.
  - pose proof (count_in_insert P b o (delete b hp)) as Hi.
    rewrite insert_delete_id in Hi by done. rewrite lookup_delete_eq in Hi.
    fold (count_in P hp). lia.
  - rewrite delete_id by done. fold (count_in P hp). lia.
Qed.

Lemma non_destructor_with_next v o : non_destructor (with_next v o) = non_destructor o.
Proof. by destruct o. Qed.

Lemma land_strip_destructor types :
  0 ≤ types < NOTIFY_IS_DESTRUCTOR →
  Z.land types (Z.lnot NOTIFY_IS_DESTRUCTOR) = types.
Proof.
  intros Hr. apply Z.bits_inj'. intros n Hn.
  rewrite Z.land_spec, Z.lnot_spec by done.
  destruct (Z.testbit types n) eqn:E; [|done]. simpl.
  destruct (decide (n = 9)) as [->|Hne].
  - exfalso. destruct (decide (types = 0)) as [->|]; [by rewrite Z.bits_0 in E|].
    rewrite Z.bits_above_log2 in E; [done|lia|].
    apply Z.log2_lt_pow2; [lia|]. unfold NOTIFY_IS_DESTRUCTOR in Hr. lia.
  - change NOTIFY_IS_DESTRUCTOR with (2 ^ 9).
    rewrite Z.pow2_bits_false; [done|lia].
Qed.

Lemma call_error_inv msg s u s' :
  call_error msg s = Ok u s' → s' = log (EvError msg) s.
Proof. unfold call_error. destruct (error_aborts s); by intros [=]. Qed.

(** The two outcomes of [allocate]. *)
Lemma allocate_inv size s p s' :
  allocate size s = Ok p s' →
  (p = 0 ∧ heap s' = heap s ∧ blocks s' = blocks s ∧ notifiers s' = notifiers s
   ∧ backend s' = tail (backend s)) ∨
  (p ≠ 0 ∧ ∃ rest, backend s = p :: rest ∧
     s' = set_blocks <[p := size]> (log (EvAlloc size p) (set_backend rest s))).
Proof.
  unfold allocate. intros H. bind_inv H as r s0 Ha. bind_inv H as u s1 He.
  apply ret_inv in H as [-> ->].
  unfold allocfn in Ha. destruct (backend s) as [|a rest] eqn:Hb.
  - injection Ha as <- <-. left. simpl in He.
    apply call_error_inv in He as ->. st_simpl. by rewrite Hb.
  - destruct (Z.eqb_spec a 0) as [->|Hne]; injection Ha as <- <-.
    + left. simpl in He. apply call_error_inv in He as ->. done.
    + right. destruct (Z.eqb_spec a 0); [done|].
      apply ret_inv in He as [_ ->]. eauto.
Qed.

Lemma add_notifier_property_inv t types fn s n s1 :
  backend_fresh s → add_notifier_property t types fn s = Ok n s1 →
  (n = 0 ∧ heap s1 = heap s ∧ blocks s1 = blocks s ∧ notifiers s1 = notifiers s) ∨
  (n ≠ 0 ∧ heap s !! n = None ∧ ∃ h rest,
     t ≠ 0 ∧ heap s !! t = Some (Hdr h) ∧ s1 = with_notifier t h n types fn rest s).
Proof.
  intros Hfresh H. pose proof H as H'.
  unfold add_notifier_property in H. bind_inv H as p s0 Ha.
  bind_inv H as u s2 Hinit. apply ret_inv in H as [-> ->].
  apply allocate_inv in Ha as [(-> & Hh & Hb & Hn & _)|(Hp & rest & Hb & ->)].
  - left. simpl in Hinit. apply ret_inv in Hinit as [_ ->]. done.
  - right. assert (Hnone : heap s !! p = None).
    { apply Hfresh. rewrite Hb. left. }
    split; [done|]. split; [done|].
    destruct (Z.eqb_spec p 0); [done|].
    bind_inv Hinit as u' s3 Hi. unfold init_property in Hi.
    bind_inv Hi as h s4 Hh. apply load_hdr_inv in Hh as (-> & Ht & Hh).
    st_simpl. exists h, rest. split; [done|]. split; [done|].
    assert (p ≠ t) by (intros ->; congruence).
    rewrite (add_notifier_property_ok t h types fn s p rest) in H'; try done.
    by injection H' as <-.
Qed.

Lemma store_ploc_inv l v s u s' :
  store_ploc l v s = Ok u s' →
  ∃ k o o', heap s !! k = Some o ∧ s' = set_heap <[k := o']> s ∧
            non_destructor o' = non_destructor o ∧
            (∀ nx ty f, o' = Notifier nx ty f → ∃ nx', o = Notifier nx' ty f).
Proof.
  destruct l as [t|p]; simpl; intros H.
  - bind_inv H as h s0 Hh. apply load_hdr_inv in Hh as (-> & Ht & Hh).
    unfold store_hdr, store in H. bind_inv H as o s1 Ho.
    apply load_inv in Ho as (-> & _ & _). injection H as <-.
    eexists t, _, _. split; [exact Hh|]. split; [done|]. split; [done|].
    intros ???; done.
  - bind_inv H as o s0 Ho. apply load_inv in Ho as (-> & Hp & Ho).
    destruct (obj_next o) eqn:E; [|done].
    unfold store in H. bind_inv H as o1 s1 Ho1.
    apply load_inv in Ho1 as (-> & _ & _). injection H as <-.
    eexists p, o, _. split; [done|]. split; [done|].
    split; [apply non_destructor_with_next|].
    intros nx ty f. destruct o; simpl; try done. intros [= <- <- <-]. eauto.
Qed.

(** Removing a notifier: either nothing is found and nothing changes, or
    one notifier is unlinked and released, and its mask (without the
    destructor flag) is returned. *)
Lemma del_notifier_property_from_inv fuel : ∀ l fn s types' s1,
  notifiers_ok s →
  del_notifier_property_from fuel l fn s = Ok types' s1 →
  (types' = 0 ∧ s1 = s) ∨
  (∃ v nx types, heap s !! v = Some (Notifier nx types fn) ∧
     types' = Z.land types (Z.lnot NOTIFY_IS_DESTRUCTOR) ∧
     notifiers s1 = notifiers s ∧
     Z.of_nat (count_in non_destructor (heap s1))
     = Z.of_nat (count_in non_destructor (heap s))
       - (if non_destructor (Notifier nx types fn) then 1 else 0) ∧
     (if non_destructor (Notifier nx types fn)
      then (0 < count_in non_destructor (heap s))%nat else True)).
Proof.
  induction fuel as [|f IH]; intros l fn s types' s1 Hok H; [done|].
  cbn [del_notifier_property_from] in H.
  bind_inv H as v s0 Hv. apply pure_load_ploc in Hv as ->.
  destruct (Z.eqb_spec v 0) as [Hv0|Hv0];
    [apply ret_inv in H as [-> ->]; by left|].
  bind_inv H as lit s0 Hlit. apply pure_is_literal in Hlit as ->.
  destruct lit; [apply ret_inv in H as [-> ->]; by left|].
  bind_inv H as ty s0 Hty. apply pure_load_type in Hty as ->.
  destruct (decide (ty = NOTIFIER)); [|by apply IH in H].
  bind_inv H as o s0 Ho. apply load_inv in Ho as (-> & _ & Ho).
  destruct o as [| | |nx types fn'| |]; try done.
  destruct (Z.eqb_spec fn' fn) as [->|Hne]; [|by apply IH in H].
  right. bind_inv H as u s2 Hst. bind_inv H as u' s3 Hfree.
  apply ret_inv in H as [-> ->].
  apply store_ploc_inv in Hst as (k & o & o' & Hk & -> & Hnd & Hnot).
  destruct Hok as (Hmask & Hown & Hblk).
  pose proof (Hown _ _ _ _ Ho) as Hbl.
  unfold freefn in Hfree. st_simpl. rewrite Hbl in Hfree.
  injection Hfree as _ <-.
  exists v, nx, types. split; [done|]. split; [done|]. split; [done|]. st_simpl.
  assert (Hv' : ∃ o1, <[k:=o']> (heap s) !! v = Some o1
                      ∧ non_destructor o1 = non_destructor (Notifier nx types fn)).
  { destruct (decide (k = v)) as [->|Hkv].
    - rewrite lookup_insert_eq. exists o'. split; [done|]. rewrite Hnd. congruence.
    - rewrite lookup_insert_ne by done. eauto. }
  destruct Hv' as (o1 & Ho1 & Hnd1).
  rewrite count_in_free_range; [| |done].
  - rewrite Ho1, Hnd1. rewrite count_in_insert. rewrite Hk, Hnd.
    split; [destruct (non_destructor o); lia|].
    destruct (non_destructor (Notifier nx types fn)) eqn:E; [|done].
    pose proof (count_in_insert non_destructor v (Notifier nx types fn)
                  (delete v (heap s))) as Hi.
    rewrite insert_delete_id, lookup_delete_eq, E in Hi by done. lia.
  - intros k' o'' Hk' Hr.
    destruct (decide (k' = k)) as [->|Hne].
    + rewrite lookup_insert_eq in Hk'. injection Hk' as <-.
      destruct o'; try done.
      destruct (Hnot _ _ _ eq_refl) as [nx' ->].
      exfalso. eapply Hblk; [exact Hbl|exact Hk|done].
    + rewrite lookup_insert_ne in Hk' by done.
      destruct o''; try done.
      exfalso. eapply Hblk; [exact Hbl|exact Hk'|done].
Qed.


Lemma count_with_notifier t h a types fn rest s :
  heap s !! t = Some (Hdr h) → heap s !! a = None →
  Z.of_nat (live_count non_destructor (with_notifier t h a types fn rest s))
  = Z.of_nat (live_count non_destructor s)
    + (if non_destructor (Notifier (prop h) types fn) then 1 else 0).
Proof.
  intros Hh Ha. unfold live_count, with_notifier. st_simpl.
  assert (a ≠ t) by (intros ->; congruence).
  rewrite count_in_insert, lookup_insert_ne, Ha by done.
  rewrite count_in_insert, Hh. simpl. lia.
Qed.

(** X22.  Each of [tal_add_notifier_], [tal_del_notifier_],
    [tal_add_destructor_] and [tal_del_destructor_] keeps the counter equal
    to the number of live notifiers whose mask, the internal destructor
    flag left aside, is not exactly [TAL_NOTIFY_FREE]. *)
Theorem notifier_ops_keep_counter_exact fuel op s r s' :
  valid_op op → notifiers_ok s → backend_fresh s →
  notifiers s + 1 < SIZE_MOD →
  counter_exact s →
  run_notifier_op fuel op s = Ok r s' →
  counter_exact s'.
Proof.
  intros Hvalid Hok Hfresh Hbound Hexact Hrun.
  unfold counter_exact in *.
  assert (Hdel : ∀ ctx fn, tal_del_notifier_ passive fuel ctx fn s = Ok r s' →
                 notifiers s' = Z.of_nat (live_count non_destructor s')).
  { clear Hrun. intros ctx fn H. unfold tal_del_notifier_ in H.
    bind_inv H as t s0 Ht. apply pure_to_tal_hdr in Ht as ->.
    bind_inv H as types' s1 Hd.
    apply (del_notifier_property_from_inv _ _ _ _ _ _ Hok) in Hd
      as [[-> ->]|(v & nx & types & Hv & -> & Hn & Hcount & Hpos)].
    { apply ret_inv in H as [_ ->]. done. }
    destruct Hok as (Hmask & _).
    destruct (Z.eqb_spec (Z.land types (Z.lnot NOTIFY_IS_DESTRUCTOR)) 0)
      as [Hz|Hnz].
    { apply ret_inv in H as [_ ->]. exfalso.
      (* a notifier without any event in its mask is excluded *)
      by apply (Hmask _ _ _ _ Hv). }
    bind_inv H as u s2 Hnotify. apply notify_passive_same_mem in Hnotify.
    bind_inv H as u' s3 Hcnt. apply ret_inv in H as [_ ->].
    destruct Hnotify as [evs ->].
    change (non_destructor (Notifier nx types fn))
      with (negb (Z.land types (Z.lnot NOTIFY_IS_DESTRUCTOR) =? TAL_NOTIFY_FREE))
      in Hcount, Hpos.
    unfold live_count in *.
    destruct (Z.land types (Z.lnot NOTIFY_IS_DESTRUCTOR) =? TAL_NOTIFY_FREE);
      cbn [negb] in Hcount, Hpos.
    - apply ret_inv in Hcnt as [_ ->]. st_simpl. lia.
    - injection Hcnt as _ <-. st_simpl. rewrite wrap_small; lia. }
  destruct op as [ctx types fn|ctx fn|ctx fn|ctx fn]; simpl in Hrun, Hvalid;
    [| by eapply Hdel | | by eapply Hdel].
  - (* tal_add_notifier_ *)
    unfold tal_add_notifier_ in Hrun.
    bind_inv Hrun as t s0 Ht. apply pure_to_tal_hdr in Ht as ->.
    bind_inv Hrun as n s1 Hadd.
    apply (add_notifier_property_inv _ _ _ _ _ _ Hfresh) in Hadd
      as [(-> & Hh & _ & Hn)|(Hn0 & Hnone & h & rest & Ht0 & Hh & ->)].
    { apply ret_inv in Hrun as [_ ->]. unfold live_count. by rewrite Hh, Hn. }
    destruct (Z.eqb_spec n 0); [done|].
    bind_inv Hrun as s1 s1' Hget. injection Hget as <- <-.
    bind_inv Hrun as u s2 Hnotify.
    assert (Hsm : same_mem (with_notifier t h n 0 fn rest s) s2).
    { destruct (notifiers _ =? 0).
      - apply ret_inv in Hnotify as [_ ->]. apply same_mem_refl.
      - by eapply notify_passive_same_mem. }
    destruct Hsm as [evs ->].
    bind_inv Hrun as o s3 Ho. apply load_inv in Ho as (-> & _ & Ho).
    unfold with_notifier in Ho. st_simpl. rewrite lookup_insert_eq in Ho.
    injection Ho as <-.
    bind_inv Hrun as u' s3 Hst. unfold store in Hst.
    bind_inv Hst as o s4 Ho. apply load_inv in Ho as (-> & _ & _).
    injection Hst as _ <-.
    bind_inv Hrun as u'' s3 Hcnt. apply ret_inv in Hrun as [_ ->].
    pose proof (count_with_notifier t h n types fn rest s Hh Hnone) as Hc.
    assert (Hheap : ∀ s3, heap s3 = heap (with_notifier t h n types fn rest s) →
                    live_count non_destructor s3
                    = live_count non_destructor (with_notifier t h n types fn rest s)).
    { intros s3' E. unfold live_count. by rewrite E. }
    assert (Hfinal : <[n:=Notifier (prop h) types fn]>
                       (heap (with_notifier t h n 0 fn rest s))
                     = heap (with_notifier t h n types fn rest s)).
    { unfold with_notifier. st_simpl. apply insert_insert_eq. }
    change (non_destructor (Notifier (prop h) types fn))
      with (negb (Z.land types (Z.lnot NOTIFY_IS_DESTRUCTOR) =? TAL_NOTIFY_FREE))
      in Hc.
    rewrite land_strip_destructor in Hc by lia.
    destruct (types =? TAL_NOTIFY_FREE); cbn [negb] in Hc.
    + apply ret_inv in Hcnt as [_ ->]. rewrite Hheap by exact Hfinal.
      rewrite Hc. unfold with_notifier. st_simpl. lia.
    + injection Hcnt as _ <-. rewrite Hheap by exact Hfinal.
      rewrite Hc. unfold with_notifier. st_simpl. rewrite wrap_small; lia.
  - (* tal_add_destructor_ *)
    unfold tal_add_destructor_ in Hrun.
    bind_inv Hrun as t s0 Ht. apply pure_to_tal_hdr in Ht as ->.
    bind_inv Hrun as n s1 Hadd. apply ret_inv in Hrun as [_ ->].
    apply (add_notifier_property_inv _ _ _ _ _ _ Hfresh) in Hadd
      as [(-> & Hh & _ & Hn)|(Hn0 & Hnone & h & rest & Ht0 & Hh & ->)].
    { unfold live_count. by rewrite Hh, Hn. }
    rewrite (count_with_notifier t h n _ fn rest s Hh Hnone).
    simpl. change (notifiers (with_notifier t h n _ fn rest s)) with (notifiers s).
    lia.
Qed.

(** ** Sibling links *)

Lemma links_only_refl hp : links_only hp hp.
Proof. by intros k. Qed.

Lemma links_only_sym hp hp' : links_only hp hp' → links_only hp' hp.
Proof. intros H k. by rewrite H. Qed.

Lemma links_only_trans hp1 hp2 hp3 :
  links_only hp1 hp2 → links_only hp2 hp3 → links_only hp1 hp3.
Proof. intros H1 H2 k. by rewrite H2, H1. Qed.

Lemma links_only_lookup hp hp' k o :
  links_only hp hp' → hp !! k = Some o →
  ∃ o', hp' !! k = Some o' ∧ erase_links o' = erase_links o.
Proof.
  intros H Ho. specialize (H k). rewrite Ho in H.
  destruct (hp' !! k) as [o'|]; [|done]. injection H as H. eauto.
Qed.

Lemma links_only_None hp hp' k :
  links_only hp hp' → hp !! k = None → hp' !! k = None.
Proof.
  intros H Ho. specialize (H k). rewrite Ho in H.
  by destruct (hp' !! k).
Qed.

Lemma erase_links_Hdr o h :
  erase_links o = erase_links (Hdr h) →
  ∃ h', o = Hdr h' ∧ prop h' = prop h ∧ parent_child h' = parent_child h.
Proof.
  destruct o as [h'| | | | |]; simpl; try done.
  intros [= Hp Hpc]. eauto.
Qed.

Lemma erase_links_Children o nx pa n :
  erase_links o = erase_links (Children nx pa n) →
  ∃ n', o = Children nx pa n'.
Proof. destruct o; simpl; try done. intros [= -> ->]. eauto. Qed.

Lemma erase_links_other o o' :
  erase_links o' = erase_links o →
  (∀ h, o ≠ Hdr h) → (∀ nx pa n, o ≠ Children nx pa n) → o' = o.
Proof.
  intros H H1 H2. destruct o; try (by destruct (H1 h));
    try (by destruct (H2 nxt parent children)); destruct o'; simpl in H; done.
Qed.

Lemma erase_links_type o o' :
  erase_links o' = erase_links o → obj_type o' = obj_type o.
Proof. destruct o, o'; simpl; intros [=]; subst; done. Qed.

Lemma erase_links_next o o' :
  erase_links o' = erase_links o → obj_next o' = obj_next o.
Proof. destruct o, o'; simpl; intros [=]; subst; done. Qed.

Lemma links_only_insert_hdr hp k h n :
  hp !! k = Some (Hdr h) →
  links_only hp (<[k := Hdr (TalHdr n (prop h) (parent_child h))]> hp).
Proof.
  intros Hk k'. destruct (decide (k' = k)) as [->|Hne].
  - by rewrite lookup_insert_eq, Hk.
  - by rewrite lookup_insert_ne.
Qed.

Lemma links_only_insert_children hp c nx pa n0 n :
  hp !! c = Some (Children nx pa n0) →
  links_only hp (<[c := Children nx pa n]> hp).
Proof.
  intros Hk k'. destruct (decide (k' = c)) as [->|Hne].
  - by rewrite lookup_insert_eq, Hk.
  - by rewrite lookup_insert_ne.
Qed.

Lemma relinked_refl s : relinked s s.
Proof. split; [apply links_only_refl|]. by destruct s. Qed.

Lemma relinked_trans s1 s2 s3 : relinked s1 s2 → relinked s2 s3 → relinked s1 s3.
Proof.
  intros [H1 E1] [H2 E2]. split; [by eapply links_only_trans|].
  rewrite E2 at 1. rewrite E1. done.
Qed.

Lemma load_node_node_at q s :
  load_node q s = match node_at (heap s) q with
                  | Some n => Ok n s
                  | None => Undef
                  end.
Proof. unfold load_node, node_at. repeat case_match; done. Qed.

Lemma store_node_cases q n s u s' :
  store_node q n s = Ok u s' →
  (∃ h, heap s !! q = Some (Hdr h) ∧
        s' = set_heap <[q := Hdr (TalHdr n (prop h) (parent_child h))]> s) ∨
  ((∀ h, heap s !! q ≠ Some (Hdr h)) ∧
   ∃ nx pa n0, heap s !! (q - offsetof_children) = Some (Children nx pa n0) ∧
     s' = set_heap <[q - offsetof_children := Children nx pa n]> s).
Proof.
  unfold store_node. intros H.
  destruct (heap s !! q) as [[h| | | | |]|] eqn:Hq;
    [left; injection H as _ <-; eauto|..];
    (right; split; [done|];
     destruct (heap s !! (q - offsetof_children)) as [[]|]; try done;
     injection H as _ <-; eauto).
Qed.

Lemma store_node_relinked q n s u s' :
  store_node q n s = Ok u s' →
  relinked s s' ∧ node_at (heap s') q = Some n ∧
  (∀ q', q' ≠ q → node_at (heap s') q' = node_at (heap s) q').
Proof.
  intros H. apply store_node_cases in H
    as [(h & Hq & ->)|(Hq & nx & pa & n0 & Hc & ->)]; st_simpl.
  - split; [|split].
    + split; [|done]. st_simpl. by apply links_only_insert_hdr.
    + unfold node_at. by rewrite lookup_insert_eq.
    + intros q' Hne. unfold node_at.
      rewrite lookup_insert_ne by done.
      destruct (decide (q' - offsetof_children = q)) as [Heq|Hne'].
      * rewrite Heq, lookup_insert_eq, Hq. done.
      * by rewrite lookup_insert_ne.
  - assert (Hne : q ≠ q - offsetof_children) by (unfold offsetof_children; lia).
    split; [|split].
    + split; [|done]. st_simpl. by eapply links_only_insert_children.
    + unfold node_at. rewrite lookup_insert_ne by done.
      rewrite lookup_insert_eq.
      destruct (heap s !! q) as [[h| | | | |]|] eqn:E; try done.
      by destruct (Hq h).
    + intros q' Hne'. unfold node_at.
      destruct (decide (q' = q - offsetof_children)) as [->|Hne2].
      * rewrite lookup_insert_eq, Hc.
        rewrite lookup_insert_ne by (unfold offsetof_children; lia). done.
      * rewrite lookup_insert_ne by done.
        rewrite (lookup_insert_ne _ (q - offsetof_children)) by lia. done.
Qed.

Lemma pure_load_node_at q s n s' :
  load_node q s = Ok n s' → s' = s ∧ node_at (heap s) q = Some n.
Proof.
  rewrite load_node_node_at. destruct (node_at (heap s) q); [|done].
  by intros [= -> ->].
Qed.

Lemma set_next_relinked q v s u s' :
  set_next q v s = Ok u s' →
  relinked s s' ∧
  (∃ n, node_at (heap s) q = Some n ∧
        node_at (heap s') q = Some (ListNode v (prev n))) ∧
  (∀ q', q' ≠ q → node_at (heap s') q' = node_at (heap s) q').
Proof.
  unfold set_next. intros H. bind_inv H as n s0 Hn.
  apply pure_load_node_at in Hn as [-> Hn].
  apply store_node_relinked in H as (? & ? & ?). eauto.
Qed.

Lemma set_prev_relinked q v s u s' :
  set_prev q v s = Ok u s' →
  relinked s s' ∧
  (∃ n, node_at (heap s) q = Some n ∧
        node_at (heap s') q = Some (ListNode (next n) v)) ∧
  (∀ q', q' ≠ q → node_at (heap s') q' = node_at (heap s) q').
Proof.
  unfold set_prev. intros H. bind_inv H as n s0 Hn.
  apply pure_load_node_at in Hn as [-> Hn].
  apply store_node_relinked in H as (? & ? & ?). eauto.
Qed.

Lemma list_del_relinked n s u s' : list_del n s = Ok u s' → relinked s s'.
Proof.
  unfold list_del. intros H.
  bind_inv H as a s0 Ha. apply pure_load_node in Ha as ->.
  bind_inv H as u1 s1 H1. apply set_prev_relinked in H1 as (R1 & _).
  bind_inv H as b s2 Hb. apply pure_load_node in Hb as ->.
  apply set_next_relinked in H as (R2 & _).
  by eapply relinked_trans.
Qed.

Lemma list_add_relinked h n s u s' : list_add h n s = Ok u s' → relinked s s'.
Proof.
  unfold list_add. intros H.
  bind_inv H as a s0 Ha. apply pure_load_node in Ha as ->.
  bind_inv H as u1 s1 H1. apply set_next_relinked in H1 as (R1 & _).
  bind_inv H as u2 s2 H2. apply set_prev_relinked in H2 as (R2 & _).
  bind_inv H as b s3 Hb. apply pure_load_node in Hb as ->.
  bind_inv H as u3 s3 H3. apply set_prev_relinked in H3 as (R3 & _).
  apply set_next_relinked in H as (R4 & _).
  eauto using relinked_trans.
Qed.

Lemma props_kept_refl hp : props_kept hp hp.
Proof. intros k o Ho _. eauto. Qed.

Lemma props_kept_trans hp1 hp2 hp3 :
  props_kept hp1 hp2 → props_kept hp2 hp3 → props_kept hp1 hp3.
Proof.
  intros H1 H2 k o Ho Hn.
  destruct (H1 _ _ Ho Hn) as (o2 & Ho2 & He2).
  destruct (H2 k o2 Ho2) as (o3 & Ho3 & He3).
  { intros h ->. destruct o; simpl in He2; try done. by destruct (Hn h0). }
  exists o3. split; [done|]. congruence.
Qed.

Lemma links_only_props_kept hp hp' : links_only hp hp' → props_kept hp hp'.
Proof. intros H k o Ho _. by eapply links_only_lookup. Qed.

Lemma links_only_hdr_kept t hp hp' : links_only hp hp' → hdr_kept t hp hp'.
Proof.
  intros H h Hh. destruct (links_only_lookup _ _ _ _ H Hh) as (o & Ho & He).
  apply erase_links_Hdr in He as (h' & -> & Hp & _). eauto.
Qed.

Lemma hdr_kept_refl t hp : hdr_kept t hp hp.
Proof. intros h Hh. eauto. Qed.

(** Writing a header keeps every property. *)
Lemma props_kept_insert_hdr hp k h :
  (hp !! k = None ∨ ∃ h0, hp !! k = Some (Hdr h0)) →
  props_kept hp (<[k := Hdr h]> hp).
Proof.
  intros Hk k' o Ho Hn. rewrite lookup_insert_ne; [eauto|].
  intros ->. destruct Hk as [Hk|[h0 Hk]]; rewrite Hk in Ho; [done|].
  injection Ho as <-. by destruct (Hn h0).
Qed.

(** Writing where nothing was keeps every property. *)
Lemma props_kept_insert_fresh hp k o :
  hp !! k = None → props_kept hp (<[k := o]> hp).
Proof.
  intros Hk k' o' Ho _. rewrite lookup_insert_ne; [eauto|]. intros ->. congruence.
Qed.

Lemma stable_ret {A} (a : A) : stable (ret a).
Proof. intros s s1 b [= <-] _. done. Qed.

Lemma stable_undef {A} : stable (@undef A).
Proof. intros s s1 b [=]. Qed.

Lemma stable_out_of_fuel {A} : stable (@out_of_fuel A).
Proof. intros s s1 b [=]. Qed.

Lemma stable_bind {A B} (m : M A) (k : A → M B) :
  pure m → stable m → (∀ a, stable (k a)) → stable (bind m k).
Proof.
  intros Hp Hm Hk s s1 b H HL. bind_inv H as a s0 Ha.
  pose proof (Hp _ _ _ Ha) as ->.
  rewrite (bind_Ok (Hm _ _ _ Ha HL)). by eapply Hk.
Qed.

(** A reader that looks at one property or string through a link-blind
    function, and is undefined on headers. *)
Lemma stable_load_via {A} (p : Z) (f : object → M A) :
  (∀ o o', erase_links o' = erase_links o → f o' = f o) →
  (∀ h s, f (Hdr h) s = Undef) →
  (∀ o, stable (f o)) →
  stable (bind (load p) f).
Proof.
  intros Hf Hh Hs s s1 a H HL. bind_inv H as o s0 Ho.
  apply load_inv in Ho as (-> & Hp & Ho).
  destruct (HL _ _ Ho) as (o1 & Ho1 & He).
  { intros h ->. by rewrite Hh in H. }
  rewrite (bind_Ok (load_Some _ _ _ Hp Ho1)). rewrite (Hf _ _ He). by eapply Hs.
Qed.

Lemma stable_is_literal p : stable (is_literal p).
Proof.
  apply stable_load_via.
  - intros o o' He. destruct o, o'; simpl in He; try done. by injection He as ->.
  - done.
  - intros []; auto using stable_ret, stable_undef.
Qed.

Lemma stable_load_type p : stable (load_type p).
Proof.
  apply stable_load_via.
  - intros o o' He. by rewrite (erase_links_type _ _ He).
  - done.
  - intros o. destruct (obj_type o); auto using stable_ret, stable_undef.
Qed.

Lemma stable_load_next p : stable (load_next p).
Proof.
  apply stable_load_via.
  - intros o o' He. by rewrite (erase_links_next _ _ He).
  - done.
  - intros o. destruct (obj_next o); auto using stable_ret, stable_undef.
Qed.

(** The lookup loop, once its starting place is known to read the same. *)
Lemma find_property_ptr_from_kept fuel : ∀ l ty s s1 r,
  find_property_ptr_from fuel l ty s = Ok r s →
  props_kept (heap s) (heap s1) →
  (∀ v, load_ploc l s = Ok v s → load_ploc l s1 = Ok v s1) →
  find_property_ptr_from fuel l ty s1 = Ok r s1 ∧
  (∀ l', r = Some l' →
         ∀ v, load_ploc l' s = Ok v s → load_ploc l' s1 = Ok v s1).
Proof.
  induction fuel as [|f IH]; intros l ty s s1 r H HK Hl; [done|].
  cbn [find_property_ptr_from] in *.
  bind_inv H as v s0 Hv. pose proof (pure_load_ploc _ _ _ _ Hv) as ->.
  rewrite (bind_Ok (Hl _ Hv)).
  destruct (v =? 0); [by apply ret_inv in H as [-> _]|].
  bind_inv H as lit s0 Hlit. pose proof (pure_is_literal _ _ _ _ Hlit) as ->.
  rewrite (bind_Ok (stable_is_literal _ _ _ _ Hlit HK)).
  destruct lit.
  { apply ret_inv in H as [-> _]. split; [done|].
    intros l'. destruct (decide (ty = NAME)); [|done]. by intros [= <-]. }
  bind_inv H as ty' s0 Hty. pose proof (pure_load_type _ _ _ _ Hty) as ->.
  rewrite (bind_Ok (stable_load_type _ _ _ _ Hty HK)).
  destruct (decide (ty' = ty)).
  { apply ret_inv in H as [-> _]. split; [done|]. by intros l' [= <-]. }
  apply (IH _ _ s); [done|done|].
  intros v' Hv'. by apply (stable_load_next v s s1 v' Hv' HK).
Qed.

Lemma load_ploc_PropOf_kept t s s1 v :
  hdr_kept t (heap s) (heap s1) →
  load_ploc (PropOf t) s = Ok v s → load_ploc (PropOf t) s1 = Ok v s1.
Proof.
  intros HH H. simpl in *. bind_inv H as h s0 Hh.
  apply load_hdr_inv in Hh as (-> & Ht & Hh). apply ret_inv in H as [-> _].
  destruct (HH _ Hh) as (h' & Hh' & Hp).
  rewrite (bind_Ok (load_hdr_Some _ _ _ Ht Hh')). by rewrite Hp.
Qed.

Lemma load_ploc_kept l t s s1 v :
  props_kept (heap s) (heap s1) → hdr_kept t (heap s) (heap s1) →
  (∀ t', l = PropOf t' → t' = t) →
  load_ploc l s = Ok v s → load_ploc l s1 = Ok v s1.
Proof.
  intros HK HH Hl H. destruct l as [t'|p].
  - rewrite (Hl t' eq_refl) in *. by eapply load_ploc_PropOf_kept.
  - by eapply stable_load_next.
Qed.

Lemma find_property_kept fuel t ty s s1 r :
  find_property fuel t ty s = Ok r s →
  props_kept (heap s) (heap s1) → hdr_kept t (heap s) (heap s1) →
  find_property fuel t ty s1 = Ok r s1.
Proof.
  unfold find_property, find_property_ptr. intros H HK HH.
  bind_inv H as l s0 Hl.
  pose proof (pure_find_property_ptr_from _ _ _ _ _ _ Hl) as ->.
  destruct (find_property_ptr_from_kept _ _ _ _ s1 _ Hl HK
              (λ v, load_ploc_PropOf_kept _ _ _ _ HH)) as [Hfind Hloc].
  rewrite (bind_Ok Hfind).
  destruct l as [l|]; [|by apply ret_inv in H as [-> _]].
  by apply (Hloc l eq_refl).
Qed.

Lemma to_tal_hdr_kept ctx s s1 t :
  to_tal_hdr ctx s = Ok t s →
  props_kept (heap s) (heap s1) → hdr_kept t (heap s) (heap s1) →
  to_tal_hdr ctx s1 = Ok t s1.
Proof.
  unfold to_tal_hdr. intros H HK HH.
  bind_inv H as h s0 Hh. apply load_hdr_inv in Hh as (-> & Ht & Hh).
  bind_inv H as lit s0 Hlit. apply ret_inv in H as [-> ->].
  destruct (HH _ Hh) as (h' & Hh' & Hp).
  rewrite (bind_Ok (load_hdr_Some _ _ _ Ht Hh')). rewrite Hp.
  destruct (prop h =? 0); [done|].
  by rewrite (bind_Ok (stable_is_literal _ _ _ _ Hlit HK)).
Qed.

(** The parent of a node does not depend on sibling links. *)
Lemma parent_of_links_only t s s1 a :
  parent_of t s = Ok a s → links_only (heap s) (heap s1) →
  parent_of t s1 = Ok a s1.
Proof.
  unfold parent_of. intros H HL.
  bind_inv H as h s0 Hh. apply load_hdr_inv in Hh as (-> & Ht & Hh).
  bind_inv H as c s0 Hc. apply load_inv in Hc as (-> & Hc0 & Hc).
  destruct c as [|nx pa n| | | |]; try done. apply ret_inv in H as [-> _].
  destruct (links_only_lookup _ _ _ _ HL Hh) as (o1 & Ho1 & He1).
  apply erase_links_Hdr in He1 as (h' & -> & _ & Hpc).
  destruct (links_only_lookup _ _ _ _ HL Hc) as (o2 & Ho2 & He2).
  apply erase_links_Children in He2 as (n' & ->).
  rewrite (bind_Ok (load_hdr_Some _ _ _ Ht Ho1)). rewrite Hpc.
  by rewrite (bind_Ok (load_Some _ _ _ Hc0 Ho2)).
Qed.

(** A dispatch to passive callbacks makes the same invocations in any
    state that kept the properties. *)
Lemma notify_from_passive_kept fuel : ∀ p ctx type info s u s',
  notify_from passive fuel p ctx type info s = Ok u s' →
  ∃ evs, s' = add_trace evs s ∧
    ∀ s1, props_kept (heap s) (heap s1) →
      notify_from passive fuel p ctx type info s1 = Ok u (add_trace evs s1).
Proof.
  induction fuel as [|f IH]; intros p ctx type info s u s' H; [done|].
  cbn [notify_from] in *.
  destruct (p =? 0).
  { apply ret_inv in H as [-> ->]. exists []. rewrite add_trace_nil.
    split; [done|]. intros s1 _. by rewrite add_trace_nil. }
  bind_inv H as lit s0 Hlit. pose proof (pure_is_literal _ _ _ _ Hlit) as ->.
  destruct lit.
  { apply ret_inv in H as [-> ->]. exists []. rewrite add_trace_nil.
    split; [done|]. intros s1 HL.
    rewrite (bind_Ok (stable_is_literal _ _ _ _ Hlit HL)).
    by rewrite add_trace_nil. }
  bind_inv H as ty s0 Hty. pose proof (pure_load_type _ _ _ _ Hty) as ->.
  bind_inv H as u0 s2 Hcall. bind_inv H as nx s3 Hnx.
  pose proof (pure_load_next _ _ _ _ Hnx) as ->.
  apply IH in H as (evs2 & -> & Hrest).
  assert (Hc : ∃ evs1, s2 = add_trace evs1 s ∧
    ∀ s1, props_kept (heap s) (heap s1) →
      (if decide (ty = NOTIFIER)
       then let* o := load p in
            match o with
            | Notifier _ types fn =>
                if Z.land types type =? 0 then ret ()
                else if Z.land types NOTIFY_IS_DESTRUCTOR =? 0
                     then invoke passive (EvNotify fn (from_tal_hdr ctx) type info)
                     else invoke passive (EvDestroy fn (from_tal_hdr ctx))
            | _ => undef
            end
       else ret ()) s1 = Ok u0 (add_trace evs1 s1)).
  { destruct (decide (ty = NOTIFIER)).
    - bind_inv Hcall as o s4 Ho. apply load_inv in Ho as (-> & Hp0 & Ho).
      destruct o as [| | |nx' types fn| |]; try done.
      assert (Hload : ∀ s1, props_kept (heap s) (heap s1) →
                load p s1 = Ok (Notifier nx' types fn) s1).
      { intros s1 HL. destruct (HL _ _ Ho) as (o1 & Ho1 & He); [done|].
        apply load_Some; [done|]. rewrite Ho1. f_equal.
        apply erase_links_other; done. }
      destruct (Z.land types type =? 0) eqn:E1.
      { apply ret_inv in Hcall as [-> ->]. exists []. rewrite add_trace_nil.
        split; [done|]. intros s1 HL. rewrite (bind_Ok (Hload _ HL)), E1.
        by rewrite add_trace_nil. }
      destruct (Z.land types NOTIFY_IS_DESTRUCTOR =? 0) eqn:E2;
        unfold invoke, passive, modify, bind, ret in Hcall;
        injection Hcall as Hu Hs; subst u0 s2;
        (eexists [_]; split; [apply log_add_trace|];
         intros s1 HL; by rewrite (bind_Ok (Hload _ HL)), E1, E2).
    - apply ret_inv in Hcall as [-> ->]. exists []. rewrite add_trace_nil.
      split; [done|]. intros s1 _. by rewrite add_trace_nil. }
  destruct Hc as (evs1 & -> & Hcall1).
  exists (evs1 ++ evs2). split; [by rewrite add_trace_app|].
  intros s1 HL.
  rewrite (bind_Ok (stable_is_literal _ _ _ _ Hlit HL)).
  rewrite (bind_Ok (stable_load_type _ _ _ _ Hty HL)).
  rewrite (bind_Ok (Hcall1 _ HL)).
  assert (HL' : props_kept (heap (add_trace evs1 s)) (heap (add_trace evs1 s1)))
    by done.
  rewrite (bind_Ok (stable_load_next _ _ _ _ Hnx HL')).
  rewrite (Hrest _ HL'). by rewrite add_trace_app.
Qed.

Lemma notify_passive_kept fuel ctx type info s u s' :
  notify passive fuel ctx type info s = Ok u s' →
  ∃ evs, s' = add_trace evs s ∧
    ∀ s1, props_kept (heap s) (heap s1) → hdr_kept ctx (heap s) (heap s1) →
      notify passive fuel ctx type info s1 = Ok u (add_trace evs s1).
Proof.
  unfold notify. intros H. bind_inv H as h s0 Hh.
  apply load_hdr_inv in Hh as (-> & Ht & Hh).
  apply notify_from_passive_kept in H as (evs & -> & Hrest).
  exists evs. split; [done|]. intros s1 HK HH.
  destruct (HH _ Hh) as (h' & Hh' & Hp).
  rewrite (bind_Ok (load_hdr_Some _ _ _ Ht Hh')). rewrite Hp. by apply Hrest.
Qed.


(** ** List operations on closed link structures *)

Lemma node_at_links_only hp hp' q :
  links_only hp hp' → is_Some (node_at hp q) → is_Some (node_at hp' q).
Proof.
  intros HL [n Hn]. unfold node_at in *.
  destruct (hp !! q) as [o|] eqn:Hq.
  - destruct (links_only_lookup _ _ _ _ HL Hq) as (o' & Ho' & He).
    rewrite Ho'. destruct o as [h|nx pa n0| | | |];
      [apply erase_links_Hdr in He as (h' & -> & _); eauto|..];
      (destruct (hp !! (q - offsetof_children)) as [oc|] eqn:Hc; [|done];
       destruct oc as [|nx' pa' n'| | | |]; try done;
       destruct (links_only_lookup _ _ _ _ HL Hc) as (oc' & Hoc' & Hec);
       apply erase_links_Children in Hec as (n'' & ->);
       rewrite Hoc'; destruct o'; simpl in He; try done; eauto).
  - rewrite (links_only_None _ _ _ HL Hq).
    destruct (hp !! (q - offsetof_children)) as [oc|] eqn:Hc; [|done].
    destruct oc as [|nx' pa' n'| | | |]; try done.
    destruct (links_only_lookup _ _ _ _ HL Hc) as (oc' & Hoc' & Hec).
    apply erase_links_Children in Hec as (n'' & ->). rewrite Hoc'. eauto.
Qed.

Lemma load_node_ok q n s : node_at (heap s) q = Some n → load_node q s = Ok n s.
Proof. intros H. by rewrite load_node_node_at, H. Qed.

Lemma store_node_ok q n s :
  is_Some (node_at (heap s) q) → ∃ s', store_node q n s = Ok tt s'.
Proof.
  intros [n0 Hn]. unfold node_at in Hn. unfold store_node.
  destruct (heap s !! q) as [[]|]; eauto;
    destruct (heap s !! (q - offsetof_children)) as [[]|]; try done; eauto.
Qed.






(** ** Adopting a child *)

Lemma node_at_head hp c nx pa n :
  hp !! c = Some (Children nx pa n) → is_Some (node_at hp (c + offsetof_children)).
Proof.
  intros Hc. unfold node_at.
  replace (c + offsetof_children - offsetof_children) with c by lia.
  rewrite Hc. destruct (hp !! (c + offsetof_children)) as [[]|]; eauto.
Qed.

Lemma node_at_hdr hp t h : hp !! t = Some (Hdr h) → node_at hp t = Some (hlist h).
Proof. intros Ht. unfold node_at. by rewrite Ht. Qed.

(** Writing the parent reference of a header changes no list node. *)
Lemma node_at_insert_parent_child hp t h pc q :
  hp !! t = Some (Hdr h) →
  node_at (<[t := Hdr (TalHdr (hlist h) (prop h) pc)]> hp) q = node_at hp q.
Proof.
  intros Ht. unfold node_at.
  destruct (decide (q = t)) as [->|Hne].
  - by rewrite lookup_insert_eq, Ht.
  - rewrite lookup_insert_ne by done.
    destruct (decide (q - offsetof_children = t)) as [->|Hne'].
    + by rewrite lookup_insert_eq, Ht.
    + by rewrite lookup_insert_ne.
Qed.

Lemma links_closed_insert_parent_child hp t h pc :
  hp !! t = Some (Hdr h) → links_closed hp →
  links_closed (<[t := Hdr (TalHdr (hlist h) (prop h) pc)]> hp).
Proof.
  intros Ht Hcl q n. rewrite (node_at_insert_parent_child _ _ _ _ _ Ht).
  intros Hn. destruct (Hcl _ _ Hn).
  by rewrite !(node_at_insert_parent_child _ _ _ _ _ Ht).
Qed.


(** The parent has no children property and the backend refuses one: the
    child is not adopted and nothing in memory changes. *)
Lemma add_child_refused fuel parent child s :
  find_property fuel parent CHILDREN s = Ok NULL s →
  refused s → error_aborts s = false →
  add_child fuel parent child s = Ok false (after_refusal s).
Proof.
  intros Hfind Href Herr. unfold add_child.
  rewrite (bind_Ok Hfind). change (NULL =? 0) with true. cbn beta iota.
  assert (Hinner :
    (let* s0 := get in
     do* (if initialized s0 then ret ()
          else do* modify (log EvAtexit) in modify (set_initialized true)) in
     add_child_property parent child) s = Ok NULL (after_refusal s)).
  { eapply bind_runs; [reflexivity|]. cbn beta.
    set (s0 := if initialized s then s else set_initialized true (log EvAtexit s)).
    assert (Hs0 : (if initialized s then ret ()
                   else do* modify (log EvAtexit) in modify (set_initialized true)) s
                  = Ok tt s0).
    { unfold s0. by destruct (initialized s). }
    rewrite (bind_Ok Hs0). unfold add_child_property.
    assert (Href0 : refused s0).
    { unfold s0. destruct (initialized s); [done|].
      destruct Href as [Hb|[rest Hb]]; [left|right; exists rest]; done. }
    assert (Herr0 : error_aborts s0 = false)
      by (unfold s0; by destruct (initialized s)).
    rewrite (bind_Ok (allocate_refused _ _ Href0 Herr0)).
    change (NULL =? 0) with true. cbn beta iota. rewrite bind_ret_l.
    unfold ret, after_refusal. f_equal. fold s0.
    assert (backend s0 = backend s) as -> by (unfold s0; by destruct (initialized s)).
    done. }
  by rewrite (bind_Ok Hinner).
Qed.

(** ** The destroying flag *)

Lemma ignore_destroying_bit_idem pc :
  ignore_destroying_bit (ignore_destroying_bit pc) = ignore_destroying_bit pc.
Proof.
  unfold ignore_destroying_bit. by rewrite <- Z.land_assoc, Z.land_diag.
Qed.

Lemma relinked_fields s s' :
  relinked s s' →
  blocks s' = blocks s ∧ backend s' = backend s ∧
  error_aborts s' = error_aborts s ∧ initialized s' = initialized s ∧
  notifiers s' = notifiers s ∧ trace s' = trace s ∧ errno s' = errno s.
Proof. intros [_ ->]. done. Qed.

Lemma parent_of_ok t h c nx pa n s :
  t ≠ 0 → heap s !! t = Some (Hdr h) →
  ignore_destroying_bit (parent_child h) = c → c ≠ 0 →
  heap s !! c = Some (Children nx pa n) →
  parent_of t s = Ok pa s.
Proof.
  intros Ht Hh Hc Hc0 Hch. unfold parent_of.
  rewrite (bind_Ok (load_hdr_Some _ _ _ Ht Hh)). rewrite Hc.
  by rewrite (bind_Ok (load_Some _ _ _ Hc0 Hch)).
Qed.

Lemma add_child_property_ok parent child hp a rest s :
  parent ≠ 0 → heap s !! parent = Some (Hdr hp) →
  backend s = a :: rest → a ≠ 0 →
  heap s !! a = None → heap s !! (a + offsetof_children) = None →
  (let* s0 := get in
   do* (if initialized s0 then ret ()
        else do* modify (log EvAtexit) in modify (set_initialized true)) in
   add_child_property parent child) s
  = Ok a (with_children parent hp a rest s).
Proof.
  intros Hp0 Hp Hb Ha Hfresh Hfresh'.
  assert (Hap : a ≠ parent) by (intros ->; congruence).
  assert (Hap' : a + offsetof_children ≠ parent) by (intros E; congruence).
  eapply bind_runs; [reflexivity|]. cbn beta.
  set (s0 := if initialized s then s else set_initialized true (log EvAtexit s)).
  assert (Hs0 : (if initialized s then ret ()
                 else do* modify (log EvAtexit) in modify (set_initialized true)) s
                = Ok tt s0).
  { unfold s0. by destruct (initialized s). }
  rewrite (bind_Ok Hs0).
  assert (Hheap0 : heap s0 = heap s) by (unfold s0; by destruct (initialized s)).
  assert (Hb0 : backend s0 = a :: rest)
    by (unfold s0; by destruct (initialized s)).
  unfold add_child_property.
  eapply bind_runs; [by apply allocate_ok|].
  destruct (Z.eqb_spec a 0) as [|_]; [done|].
  eapply bind_runs; [|reflexivity].
  eapply bind_runs.
  { unfold init_property.
    eapply bind_runs; [apply load_hdr_Some; [done|st_simpl; by rewrite Hheap0]|].
    eapply bind_runs.
    { apply emplace_ok. st_simpl. by apply in_block_insert. }
    apply store_hdr_ok; [done|]. st_simpl.
    rewrite lookup_insert_ne by done. rewrite Hheap0, Hp. eauto. }
  eapply bind_runs.
  { eapply (load_next_prop _ (Children (prop hp) 0 (ListNode 0 0))); [done| |done].
    st_simpl. rewrite lookup_insert_ne by done. apply lookup_insert_eq. }
  eapply bind_runs.
  { apply store_ok; [done|]. st_simpl.
    rewrite lookup_insert_ne by done. rewrite lookup_insert_eq. eauto. }
  unfold list_head_init.
  erewrite store_node_head; st_simpl.
  - f_equal. unfold with_children. fold s0. unfold set_heap; st_simpl.
    rewrite Hheap0. f_equal.
    apply map_eq. intros k.
    destruct (decide (k = a)) as [->|]; [by rewrite !lookup_insert_eq|].
    rewrite !(lookup_insert_ne _ a) by done.
    destruct (decide (k = parent)) as [->|]; [by rewrite !lookup_insert_eq|].
    by rewrite !lookup_insert_ne by done.
  - rewrite !lookup_insert_ne by (try done; unfold offsetof_children; lia).
    by rewrite Hheap0.
  - apply lookup_insert_eq.
Qed.

Lemma node_at_with_children parent hp a rest s q :
  heap s !! parent = Some (Hdr hp) →
  heap s !! a = None → heap s !! (a + offsetof_children) = None →
  node_at (heap (with_children parent hp a rest s)) q
  = if decide (q = a + offsetof_children)
    then Some (ListNode (a + offsetof_children) (a + offsetof_children))
    else node_at (heap s) q.
Proof.
  intros Hp Hfresh Hfresh'.
  assert (Hap : a ≠ parent) by (intros ->; congruence).
  assert (Hap' : a + offsetof_children ≠ parent) by (intros E; congruence).
  assert (Hh : heap (if initialized s then s
                     else set_initialized true (log EvAtexit s)) = heap s)
    by by destruct (initialized s).
  unfold with_children, node_at. st_simpl. rewrite Hh.
  destruct (decide (q = a + offsetof_children)) as [->|Hq].
  - rewrite !lookup_insert_ne by (try done; unfold offsetof_children; lia).
    rewrite Hfresh'.
    replace (a + offsetof_children - offsetof_children) with a by lia.
    by rewrite lookup_insert_eq.
  - destruct (decide (q = a)) as [->|Hqa].
    + rewrite lookup_insert_eq, Hfresh.
      rewrite !lookup_insert_ne by (unfold offsetof_children; lia).
      destruct (decide (a - offsetof_children = parent)) as [E|E].
      * rewrite E, lookup_insert_eq, Hp. done.
      * by rewrite lookup_insert_ne.
    + rewrite (lookup_insert_ne _ a) by done.
      destruct (decide (q = parent)) as [->|Hqp].
      * by rewrite lookup_insert_eq, Hp.
      * rewrite lookup_insert_ne by done.
        rewrite (lookup_insert_ne _ a) by lia.
        destruct (decide (q - offsetof_children = parent)) as [E|E].
        -- rewrite E, lookup_insert_eq, Hp. done.
        -- by rewrite lookup_insert_ne.
Qed.



(** ** Ancestors *)

Lemma ancestor_add hp : ∀ a b x,
  ancestor hp (a + b) x = ancestor hp a x ≫= ancestor hp b.
Proof.
  induction a as [|a IH]; intros b x; simpl; [done|].
  destruct (parent_hdr hp x); [apply IH|done].
Qed.

Lemma ancestor_S_r hp n x :
  ancestor hp (S n) x = ancestor hp n x ≫= parent_hdr hp.
Proof.
  replace (S n) with (n + 1)%nat by lia. rewrite ancestor_add.
  destruct (ancestor hp n x) as [y|]; simpl; [|done].
  by destruct (parent_hdr hp y).
Qed.


Section Reparent.

Context (hp hp' : gmap Z object) (t newpar : Z).

(** Away from [t], the new heap has no parent edge the old one lacks. *)
Hypothesis Hedges : ∀ x p, x ≠ t →
  parent_hdr hp' x = Some p → parent_hdr hp x = Some p.




End Reparent.




Lemma heap_with_children parent hp a rest s :
  heap (with_children parent hp a rest s)
  = <[a := Children (prop hp) parent
             (ListNode (a + offsetof_children) (a + offsetof_children))]>
      (<[parent := Hdr (TalHdr (hlist hp) a (parent_child hp))]> (heap s)).
Proof. unfold with_children. st_simpl. by destruct (initialized s). Qed.



(** ** Reparenting *)

Section Steal.

Context (fuel : nat) (new_parent ctx : Z) (s : state).
Context (ht : tal_hdr) (lt : list (Z * object)) (litt : Z).
Context (newpar p0 nx0 : Z) (hd0 : list_node).

Let t := ctx - sizeof_tal_hdr.
Let c0 := ignore_destroying_bit (parent_child ht).

(** [ctx] is a live node whose parent reference leads to the children
    property [c0] of its parent [p0]. *)
Hypothesis Hctx : ctx ≠ 0.
Hypothesis Ht0 : t ≠ 0.
Hypothesis Hht : heap s !! t = Some (Hdr ht).
Hypothesis Hchain : chain (heap s) (prop ht) lt litt.
Hypothesis Hfuel : (S (length lt) < fuel)%nat.
Hypothesis Hnewpar : to_tal_hdr_or_null new_parent s = Ok newpar s.
Hypothesis Hclosed : links_closed (heap s).
Hypothesis Hc0 : c0 ≠ 0.
Hypothesis Hc0obj : heap s !! c0 = Some (Children nx0 p0 hd0).



Lemma relinked_hdr s1 k h :
  relinked s s1 → heap s !! k = Some (Hdr h) →
  ∃ h', heap s1 !! k = Some (Hdr h') ∧ prop h' = prop h
        ∧ parent_child h' = parent_child h.
Proof.
  intros [HL _] Hc. destruct (links_only_lookup _ _ _ _ HL Hc) as (o & Ho & He).
  apply erase_links_Hdr in He as (h' & -> & ? & ?). eauto.
Qed.

(** The STEAL dispatch in a state that kept the properties of [ctx],
    possibly with a fresh children property in front of them. *)
Lemma steal_notify s3 h3 :
  props_kept (heap s) (heap s3) → heap s3 !! t = Some (Hdr h3) →
  (prop h3 = prop ht ∨
   prop h3 ≠ 0 ∧ ∃ pa n, heap s3 !! prop h3 = Some (Children (prop ht) pa n)) →
  notify passive fuel t TAL_NOTIFY_STEAL new_parent s3
  = Ok tt (add_trace (fired t TAL_NOTIFY_STEAL new_parent lt) s3).
Proof.
  intros HK Hh3 Hprop.
  destruct fuel as [|f] eqn:Ef; [lia|].
  assert (Hfrom : ∀ s', props_kept (heap s) (heap s') →
            notify_from passive f (prop ht) t TAL_NOTIFY_STEAL new_parent s'
            = Ok tt (add_trace (fired t TAL_NOTIFY_STEAL new_parent lt) s')).
  { intros s' HK'.
    pose proof (notify_from_passive f lt (prop ht) litt t TAL_NOTIFY_STEAL
                  new_parent s Hchain ltac:(lia)) as Hn.
    apply notify_from_passive_kept in Hn as (evs & Hevs & Hn).
    assert (evs = fired t TAL_NOTIFY_STEAL new_parent lt) as ->.
    { apply (f_equal trace) in Hevs. simpl in Hevs.
      by apply app_inv_head in Hevs. }
    by apply Hn. }
  unfold notify. rewrite (bind_Ok (load_hdr_Some _ _ _ Ht0 Hh3)).
  destruct Hprop as [->|(Hp0 & pa & n & Hc)].
  - pose proof (notify_from_passive (S f) lt (prop ht) litt t TAL_NOTIFY_STEAL
                  new_parent s Hchain ltac:(lia)) as Hn.
    apply notify_from_passive_kept in Hn as (evs & Hevs & Hn).
    assert (evs = fired t TAL_NOTIFY_STEAL new_parent lt) as ->.
    { apply (f_equal trace) in Hevs. simpl in Hevs.
      by apply app_inv_head in Hevs. }
    by apply Hn.
  - cbn [notify_from]. destruct (Z.eqb_spec (prop h3) 0); [done|].
    rewrite (bind_Ok (is_literal_prop _ _ _ Hp0 Hc (mk_is_Some _ _ eq_refl))).
    rewrite (bind_Ok (load_type_prop _ _ CHILDREN _ Hp0 Hc eq_refl)).
    rewrite decide_False by done. rewrite bind_ret_l.
    rewrite (bind_Ok (load_next_prop _ _ (prop ht) _ Hp0 Hc eq_refl)).
    by apply Hfrom.
Qed.

Hypothesis Hold : find_property fuel p0 CHILDREN s = Ok c0 s.
Hypothesis Herr : error_aborts s = false.






End Steal.

(** ** Resizing an array *)

Lemma same_property_refl o : same_property o o.
Proof. destruct o; simpl; eauto. Qed.

Lemma same_property_next o o' : same_property o o' → obj_next o' = obj_next o.
Proof. destruct o; simpl; try by intros ->. by intros (pa & n & ->). Qed.

Lemma same_property_type o o' : same_property o o' → obj_type o' = obj_type o.
Proof. destruct o; simpl; try by intros ->. by intros (pa & n & ->). Qed.

Lemma erase_links_same_property o o' :
  erase_links o' = erase_links o → (∀ h, o ≠ Hdr h) → same_property o o'.
Proof.
  intros He Hh. destruct o; simpl in *; try (by destruct o'); [by destruct (Hh h)|].
  destruct o'; try done. simpl in He. injection He as -> ->. eauto.
Qed.

Lemma chain_not_hdr hp : ∀ l p lit q o,
  chain hp p l lit → (q, o) ∈ l → ∀ h, o ≠ Hdr h.
Proof.
  intros l p lit q o Hc Hin h ->.
  by destruct (chain_elem_next _ _ _ _ _ _ Hc Hin) as [nx Hnx].
Qed.

Lemma chain_same_property hp hp' : ∀ l p lit,
  chain hp p l lit →
  (∀ q o, (q, o) ∈ l → ∃ o', hp' !! q = Some o' ∧ same_property o o') →
  (lit ≠ 0 → hp' !! lit = hp !! lit) →
  ∃ l', chain hp' p l' lit ∧
        Forall2 (λ x y, x.1 = y.1 ∧ same_property x.2 y.2) l l'.
Proof.
  induction l as [|[q o] l IH]; intros p lit Hc Hl Hlit; simpl in Hc.
  - exists []. destruct Hc as [-> Hc]. split; [|constructor].
    split; [done|]. by eapply literal_at_agree.
  - destruct Hc as (-> & Hq & Ho & Hn).
    destruct (obj_next o) as [nx|] eqn:Hnx; [|done].
    destruct (IH nx lit Hn) as (l' & Hc' & HF); [|done|].
    { intros q' o' Hin. apply Hl. by right. }
    destruct (Hl q o) as (o1 & Ho1 & Hsp); [left|].
    exists ((q, o1) :: l'). split; [|by constructor].
    simpl. repeat split; [done|done|].
    by rewrite (same_property_next _ _ Hsp), Hnx.
Qed.

Lemma first_of_type_same_property ty : ∀ l l' from loc q o,
  Forall2 (λ x y : Z * object, x.1 = y.1 ∧ same_property x.2 y.2) l l' →
  first_of_type ty l from = Some (loc, q, o) →
  ∃ o', first_of_type ty l' from = Some (loc, q, o') ∧ same_property o o'.
Proof.
  induction l as [|[k o0] l IH]; intros l' from loc q o HF; [done|].
  inversion HF as [|? [k' o1] ? l1 [Hk Hsp] HF']; subst. simpl in *. subst k'.
  rewrite (same_property_type _ _ Hsp).
  destruct (decide (obj_type o0 = Some ty)).
  - intros [= <- <- <-]. eauto.
  - by apply IH.
Qed.

Lemma first_of_type_cases ty : ∀ l from loc q o,
  first_of_type ty l from = Some (loc, q, o) →
  (loc = from ∧ ∃ l2, l = (q, o) :: l2) ∨
  (∃ k ok, loc = NextOf k ∧ (k, ok) ∈ l ∧ obj_type ok ≠ Some ty).
Proof.
  induction l as [|[k o0] l IH]; intros from loc q o; simpl; [done|].
  destruct (decide (obj_type o0 = Some ty)).
  - intros [= <- <- <-]. left. eauto.
  - intros H. right. apply IH in H as [[-> _]|(k' & ok & -> & Hin & Hty)].
    + exists k, o0. split; [done|]. split; [left|done].
    + exists k', ok. split; [done|]. split; [by right|done].
Qed.

(** Redirecting the pointer to the first LENGTH property of a chain, from
    the property [p] before it, to a new record at [new_len]. *)
Lemma chain_splice hp hp' p q nx cnt new_len count lit : ∀ l from p0,
  chain hp p0 l lit →
  first_of_type LENGTH l from = Some (NextOf p, q, Length nx cnt) →
  NoDup l.*1 → from ≠ NextOf p →
  (∀ k o, (k, o) ∈ l → k ≠ p → k ≠ q → hp' !! k = Some o) →
  (∀ op, hp !! p = Some op → hp' !! p = Some (with_next new_len op)) →
  hp' !! new_len = Some (Length nx count) → new_len ≠ 0 →
  (lit ≠ 0 → hp' !! lit = hp !! lit) →
  ∃ l3, chain hp' p0 l3 lit ∧ length l3 = length l ∧
        first_of_type LENGTH l3 from
        = Some (NextOf p, new_len, Length nx count).
Proof.
  induction l as [|[k o] l IH]; intros from p0 Hc Hf Hnd Hfrom Hkeep Hp Hnew Hn0
    Hlit; [done|].
  simpl in Hc. destruct Hc as (-> & Hk & Ho & Hn).
  destruct (obj_next o) as [n1|] eqn:Hn1; [|done].
  simpl in Hf. destruct (decide (obj_type o = Some LENGTH)) as [Hty|Hty].
  { by injection Hf as -> _ _. }
  apply NoDup_cons in Hnd as [Hnin Hnd]. simpl in Hnin.
  assert (Hq : hp !! q = Some (Length nx cnt)).
  { apply first_of_type_elem in Hf as [Hin _].
    by destruct (chain_elem _ _ _ _ _ _ Hn Hin). }
  assert (Hkq : k ≠ q).
  { intros ->. rewrite Hq in Ho. injection Ho as <-. by destruct Hty. }
  destruct (decide (k = p)) as [->|Hkp].
  - destruct (first_of_type_cases _ _ _ _ _ _ Hf)
      as [[_ [l2 ->]]|(k' & ok & [= <-] & Hin & _)];
      [|by destruct Hnin; apply (list_elem_of_fmap_2 fst _ (p, ok))].
    simpl in Hn. destruct Hn as (-> & Hq0 & _ & Hn).
    exists ((p, with_next new_len o) :: (new_len, Length nx count) :: l2).
    split; [|split; [done|]].
    + simpl. split; [done|]. split; [done|]. split; [by apply Hp|].
      assert (obj_next (with_next new_len o) = Some new_len) as ->
        by (by destruct o).
      repeat split; [done|done|].
      eapply chain_agree; [done| |done].
      intros k' o' Hin. apply Hkeep; [by do 2 right| |].
      * intros ->. apply Hnin. right. by apply (list_elem_of_fmap_2 fst _ (p, o')).
      * intros ->. apply NoDup_cons in Hnd as [Hnin' _]. apply Hnin'.
        by apply (list_elem_of_fmap_2 fst _ (q, o')).
    + simpl. assert (obj_type (with_next new_len o) = obj_type o) as ->
        by (by destruct o).
      by rewrite decide_False by done.
  - destruct (IH (NextOf k) n1 Hn Hf Hnd) as (l3 & Hc3 & Hlen & Hf3);
      [congruence| |done|done|done|done|].
    { intros k' o' Hin. apply Hkeep. by right. }
    exists ((k, o) :: l3). split; [|split; [simpl; lia|]].
    + simpl. repeat split; [done| |by rewrite Hn1].
      apply Hkeep; [left|done|done].
    + simpl. by rewrite decide_False.
Qed.

Lemma extra_for_length_bounds b :
  0 ≤ b → b + 80 < SIZE_MOD →
  sizeof_length ≤ extra_for_length b ≤ sizeof_length + 7.
Proof.
  intros Hb Hfit. pose proof SIZE_MOD_eq as HM. unfold extra_for_length.
  change alignof_length with 8. change sizeof_length with 24.
  replace (b + 8 - 1) with (b + 7) by lia. replace (8 - 1) with 7 by lia.
  rewrite (wrap_small (b + 7)) by lia.
  assert (Hmask : Z.land (b + 7) (SIZE_MAX - 7) = 8 * ((b + 7) / 8)).
  { change (SIZE_MAX - 7) with (Z.land (Z.lnot (Z.ones 3)) (Z.ones 64)).
    rewrite Z.land_assoc, <- Z.ldiff_land, Z.ldiff_ones_r by lia.
    rewrite Z.land_ones by lia.
    rewrite Z.shiftr_div_pow2, Z.shiftl_mul_pow2 by lia.
    change (2 ^ 3) with 8. change (2 ^ 64) with SIZE_MOD.
    pose proof (Z.div_mod (b + 7) 8 ltac:(lia)).
    pose proof (Z.mod_pos_bound (b + 7) 8 ltac:(lia)).
    rewrite Z.mod_small by lia. lia. }
  rewrite Hmask.
  pose proof (Z.div_mod (b + 7) 8 ltac:(lia)).
  pose proof (Z.mod_pos_bound (b + 7) 8 ltac:(lia)).
  rewrite (wrap_small (8 * ((b + 7) / 8) - b)) by lia.
  rewrite wrap_small by lia. lia.
Qed.

Lemma props_touched_refl hp : props_touched hp hp.
Proof. intros k o Ho _. exists o. split; [done|apply same_property_refl]. Qed.

Lemma links_only_props_touched hp hp' : links_only hp hp' → props_touched hp hp'.
Proof.
  intros HL k o Ho Hh.
  destruct (links_only_lookup _ _ _ _ HL Ho) as (o' & Ho' & He).
  exists o'. split; [done|]. by apply erase_links_same_property.
Qed.

Lemma records_count_touched a new_len count n hp hp' h h' :
  records_count a new_len count n hp →
  props_touched hp hp' →
  hp !! a = Some (Hdr h) → hp' !! a = Some (Hdr h') → prop h' = prop h →
  records_count a new_len count n hp'.
Proof.
  intros (h0 & l & lit & loc & nx & Ha & Hc & Hn & Hf) HT Hh Hh' Hp.
  rewrite Ha in Hh. injection Hh as ->.
  destruct (chain_same_property hp hp' l (prop h) lit Hc) as (l' & Hc' & HF).
  - intros q o Hin. destruct (chain_elem _ _ _ _ _ _ Hc Hin) as [_ Ho].
    apply HT; [done|]. by eapply chain_not_hdr.
  - intros Hlit.
    assert (Hl : literal_at hp lit).
    { clear -Hc. revert Hc. generalize (prop h).
      induction l as [|[q o] l IH]; intros p Hc; simpl in Hc; [tauto|].
      destruct Hc as (_ & _ & _ & Hn). destruct (obj_next o); [eauto|done]. }
    destruct Hl as [?|(str & Hs & _)]; [done|].
    destruct (HT _ _ Hs) as (o' & Ho' & Hsp); [done|].
    simpl in Hsp. by rewrite Hs, Ho', Hsp.
  - destruct (first_of_type_same_property _ _ _ _ _ _ _ HF Hf)
      as (o' & Hf' & Hsp).
    simpl in Hsp. subst o'.
    exists h', l', lit, loc, nx. rewrite Hp.
    split; [done|]. split; [done|]. split; [|done].
    by rewrite <- (Forall2_length _ _ _ HF).
Qed.

Lemma records_count_tal_count fuel a new_len count n s :
  a ≠ 0 → (n < fuel)%nat →
  records_count a new_len count n (heap s) →
  tal_count fuel (from_tal_hdr a) s = Ok count s.
Proof.
  intros Ha Hf (h & l & lit & loc & nx & Hh & Hc & Hn & Hfirst).
  assert (Hat : from_tal_hdr a - sizeof_tal_hdr = a)
    by (unfold from_tal_hdr; lia).
  unfold tal_count.
  rewrite (bind_Ok (to_tal_hdr_ok (from_tal_hdr a) h l lit s
                      ltac:(by rewrite Hat) ltac:(by rewrite Hat) Hc)).
  rewrite Hat.
  rewrite (bind_Ok (find_property_chain LENGTH fuel l a h lit s
                      ltac:(done) Ha Hh Hc ltac:(lia))).
  rewrite Hfirst.
  apply first_of_type_elem in Hfirst as [Hin _].
  destruct (chain_elem _ _ _ _ _ _ Hc Hin) as [Hq Hl].
  destruct (Z.eqb_spec new_len 0); [done|].
  by rewrite (bind_Ok (load_Some _ _ _ Hq Hl)).
Qed.

Lemma records_count_notify fuel a new_len count n type info (skip : bool) s :
  a ≠ 0 → (n < fuel)%nat →
  records_count a new_len count n (heap s) →
  ∃ s', (if skip then ret tt else notify passive fuel a type info) s
        = Ok tt s' ∧
        heap s' = heap s.
Proof.
  intros Ha Hf (h & l & lit & loc & nx & Hh & Hc & Hn & Hfirst).
  destruct skip; [by exists s|].
  eexists. split; [eapply notify_passive; [done|done|done|lia]|]. done.
Qed.

Lemma props_touched_insert_children hp c nx pa n pa' n' :
  hp !! c = Some (Children nx pa n) →
  props_touched hp (<[c := Children nx pa' n']> hp).
Proof.
  intros Hc k o Ho _. destruct (decide (k = c)) as [->|Hk].
  - rewrite Hc in Ho. injection Ho as <-. rewrite lookup_insert_eq.
    eexists. split; [done|]. simpl. eauto.
  - rewrite lookup_insert_ne by done. exists o.
    split; [done|apply same_property_refl].
Qed.

Lemma sizeof_obj_pos o : 0 < sizeof_obj o.
Proof. destruct o; simpl; unfold sizeof_prop_hdr; try done; lia. Qed.

Lemma chain_literal hp : ∀ l p lit, chain hp p l lit → literal_at hp lit.
Proof.
  induction l as [|[q o] l IH]; intros p lit Hc; simpl in Hc; [tauto|].
  destruct Hc as (_ & _ & _ & Hn). destruct (obj_next o); [eauto|done].
Qed.

Lemma first_of_type_from ty l from from' loc q o :
  first_of_type ty l from = Some (loc, q, o) → loc ≠ from →
  first_of_type ty l from' = Some (loc, q, o).
Proof.
  destruct l as [|[k o0] l]; simpl; [done|].
  destruct (decide (obj_type o0 = Some ty)); [|done].
  by intros [= <- <- <-].
Qed.

Lemma set_next_runs q v s :
  is_Some (node_at (heap s) q) →
  ∃ s', set_next q v s = Ok tt s' ∧ relinked s s' ∧
        (∀ q', is_Some (node_at (heap s) q') → is_Some (node_at (heap s') q')) ∧
        (∀ q', q' ≠ q → node_at (heap s') q' = node_at (heap s) q').
Proof.
  intros [n Hn]. unfold set_next.
  destruct (store_node_ok q (ListNode v (prev n)) s) as [s' Hs']; [eauto|].
  exists s'. rewrite (bind_Ok (load_node_ok _ _ _ Hn)). split; [done|].
  assert (H : set_next q v s = Ok tt s').
  { unfold set_next. by rewrite (bind_Ok (load_node_ok _ _ _ Hn)). }
  apply set_next_relinked in H as (R & _ & Hother).
  split; [done|]. split; [|done].
  intros q' Hq'. eapply node_at_links_only; [apply R|done].
Qed.

Lemma set_prev_runs q v s :
  is_Some (node_at (heap s) q) →
  ∃ s', set_prev q v s = Ok tt s' ∧ relinked s s' ∧
        (∀ q', is_Some (node_at (heap s) q') → is_Some (node_at (heap s') q')) ∧
        (∀ q', q' ≠ q → node_at (heap s') q' = node_at (heap s) q').
Proof.
  intros [n Hn]. unfold set_prev.
  destruct (store_node_ok q (ListNode (next n) v) s) as [s' Hs']; [eauto|].
  exists s'. rewrite (bind_Ok (load_node_ok _ _ _ Hn)). split; [done|].
  assert (H : set_prev q v s = Ok tt s').
  { unfold set_prev. by rewrite (bind_Ok (load_node_ok _ _ _ Hn)). }
  apply set_prev_relinked in H as (R & _ & Hother).
  split; [done|]. split; [|done].
  intros q' Hq'. eapply node_at_links_only; [apply R|done].
Qed.

Lemma node_at_cases hp q :
  is_Some (node_at hp q) →
  (∃ h, hp !! q = Some (Hdr h)) ∨
  (∃ nx pa n, hp !! (q - offsetof_children) = Some (Children nx pa n)).
Proof.
  intros [n Hn]. unfold node_at in Hn.
  destruct (hp !! q) as [[]|]; eauto;
    destruct (hp !! (q - offsetof_children)) as [[]|]; try done; eauto.
Qed.

Lemma bind_get {B} (k : state → M B) s : bind get k s = k s s.
Proof. reflexivity. Qed.

Section Resize.

Context (fuel : nat) (ctx size count : Z) (s : state).
Context (h : tal_hdr) (l : list (Z * object)) (lit : Z).
Context (loc : ploc) (q nx cnt old a : Z) (rest : list Z).

Let t := ctx - sizeof_tal_hdr.
Let bytes := size * count.
Let total := sizeof_tal_hdr + bytes + extra_for_length bytes.
Let new_len := a + sizeof_tal_hdr + bytes.

(** [ctx] is a live node whose chain holds a LENGTH property at [q]. *)
Hypothesis Ht : t ≠ 0.
Hypothesis Hh : heap s !! t = Some (Hdr h).
Hypothesis Hblock : blocks s !! t = Some old.
Hypothesis Hchain : chain (heap s) (prop h) l lit.
Hypothesis Hnodup : NoDup l.*1.
Hypothesis Hfuel : (S (length l) < fuel)%nat.
Hypothesis Hlen :
  first_of_type LENGTH l (PropOf t) = Some (loc, q, Length nx cnt).
(** The request fits [size_t]. *)
Hypothesis Hsize : 0 < size < SIZE_MOD.
Hypothesis Hcount : 0 ≤ count < SIZE_MOD.
Hypothesis Hfit : bytes + (sizeof_tal_hdr + sizeof_length * 2) < SIZE_MOD.
(** The backend answers [a]: the same block, or another one. *)
Hypothesis Hbackend : backend s = a :: rest.
Hypothesis Ha : 0 < a.
(** The old block holds the header and the length record, and the new
    block overlaps no live object outside the old one. *)
Hypothesis Hown :
  ∀ k, t ≤ k < t + old → is_Some (heap s !! k) → k = t ∨ k = q.
Hypothesis Hfresh :
  ∀ k o, heap s !! k = Some o → ¬ (t ≤ k < t + old) →
         k + sizeof_obj o ≤ a ∨ a + total ≤ k.

Let hp2 : gmap Z object :=
  <[new_len := Length nx count]> (<[a := Hdr h]> (free_range t old (heap s))).

Lemma resize_arith :
  0 ≤ bytes ∧ bytes + 80 < SIZE_MOD ∧ 24 ≤ extra_for_length bytes ≤ 31 ∧
  a < new_len ∧ new_len + 24 ≤ a + total.
Proof.
  assert (Hb : 0 ≤ bytes) by (unfold bytes; nia).
  pose proof (extra_for_length_bounds bytes Hb Hfit) as He.
  change sizeof_length with 24 in He.
  change (sizeof_tal_hdr + sizeof_length * 2) with 80 in Hfit.
  unfold new_len, total. change sizeof_tal_hdr with 32. lia.
Qed.

Lemma resize_q : q ≠ 0 ∧ heap s !! q = Some (Length nx cnt).
Proof.
  pose proof Hlen as Hf. apply first_of_type_elem in Hf as [Hin _].
  by destruct (chain_elem _ _ _ _ _ _ Hchain Hin).
Qed.

Lemma resize_outside k o :
  heap s !! k = Some o → k ≠ t → k ≠ q →
  ¬ (t ≤ k < t + old) ∧ k ≠ a ∧ k ≠ new_len.
Proof.
  intros Ho Hkt Hkq.
  assert (Hout : ¬ (t ≤ k < t + old)).
  { intros Hin. destruct (Hown k Hin); [eauto|done|done]. }
  split; [done|].
  pose proof (sizeof_obj_pos o). pose proof resize_arith.
  destruct (Hfresh k o Ho Hout); lia.
Qed.

Lemma resize_kept k o :
  heap s !! k = Some o → k ≠ t → k ≠ q → hp2 !! k = Some o.
Proof.
  intros Ho Hkt Hkq. destruct (resize_outside k o Ho Hkt Hkq) as (? & ? & ?).
  unfold hp2. rewrite !lookup_insert_ne by done.
  by rewrite free_range_lookup_out.
Qed.

Lemma resize_hp2_a : hp2 !! a = Some (Hdr h).
Proof.
  pose proof resize_arith. unfold hp2.
  rewrite lookup_insert_ne by lia. apply lookup_insert_eq.
Qed.

Lemma resize_hp2_len : hp2 !! new_len = Some (Length nx count).
Proof. unfold hp2. apply lookup_insert_eq. Qed.

Lemma resize_store s2 :
  heap s2 = hp2 →
  ∃ s3 h3,
    (if decide (loc = PropOf t) then store_ploc (PropOf a) new_len
     else store_ploc loc new_len) s2 = Ok tt s3 ∧
    s3 = set_heap (λ _, heap s3) s2 ∧
    heap s3 !! a = Some (Hdr h3) ∧ hlist h3 = hlist h ∧
    records_count a new_len count (length l) (heap s3) ∧
    (∀ k o, heap s !! k = Some o → k ≠ t → k ≠ q →
       ∃ o', heap s3 !! k = Some o' ∧ (o' = o ∨ o' = with_next new_len o)).
Proof.
  intros Hhp. pose proof resize_arith as (Hb & _ & He & Han & Hfits).
  destruct resize_q as [Hq0 Hq].
  assert (Hn0 : new_len ≠ 0) by lia.
  assert (Hprops : ∀ k o, (k, o) ∈ l → k ≠ q → hp2 !! k = Some o ∧ k ≠ a).
  { intros k o Hin Hkq.
    destruct (chain_elem _ _ _ _ _ _ Hchain Hin) as [_ Ho].
    assert (k ≠ t).
    { intros ->. rewrite Hh in Ho. injection Ho as <-.
      by eapply chain_not_hdr. }
    split; [by apply resize_kept|]. by eapply resize_outside. }
  assert (Hlit : lit ≠ 0 → hp2 !! lit = heap s !! lit ∧ lit ≠ a).
  { intros Hl0.
    destruct (chain_literal _ _ _ _ Hchain) as [?|(str & Hs & _)]; [done|].
    assert (lit ≠ t) by (intros ->; congruence).
    assert (lit ≠ q) by (intros ->; congruence).
    rewrite Hs. split; [by apply resize_kept|]. by eapply resize_outside. }
  destruct (first_of_type_cases _ _ _ _ _ _ Hlen)
    as [[-> [l2 Hl2]]|(p & op & -> & Hpin & Hpty)].
  - (* the length record is the head of the chain *)
    rewrite decide_True by done.
    set (h3 := TalHdr (hlist h) new_len (parent_child h)).
    exists (set_heap <[a := Hdr h3]> s2), h3.
    split.
    { simpl. eapply bind_runs.
      - apply load_hdr_Some; [lia|]. rewrite Hhp. apply resize_hp2_a.
      - apply store_hdr_ok; [lia|]. rewrite Hhp, resize_hp2_a. eauto. }
    st_simpl. rewrite Hhp.
    split; [unfold set_heap; by rewrite Hhp|]. split; [apply lookup_insert_eq|].
    split; [done|]. split.
    + rewrite Hl2 in Hchain. simpl in Hchain.
      destruct Hchain as (Hp & _ & _ & Hn).
      exists h3, ((new_len, Length nx count) :: l2), lit, (PropOf a), nx.
      split; [apply lookup_insert_eq|]. split; [|split; [by rewrite Hl2|done]].
      simpl. split; [done|]. split; [done|].
      split; [rewrite lookup_insert_ne by lia; apply resize_hp2_len|].
      eapply chain_agree; [done| |].
      * intros k o Hin.
        destruct (Hprops k o) as [Hk Hka]; [rewrite Hl2; by right| |].
        { intros ->. rewrite Hl2 in Hnodup. simpl in Hnodup.
          apply NoDup_cons in Hnodup as [Hnin _]. apply Hnin.
          by apply (list_elem_of_fmap_2 fst _ (q, o)). }
        by rewrite lookup_insert_ne.
      * intros Hl0. destruct (Hlit Hl0) as [Hl Hla].
        by rewrite lookup_insert_ne.
    + intros k o Ho Hkt Hkq. exists o. split; [|by left].
      destruct (resize_outside k o Ho Hkt Hkq) as (_ & ? & _).
      rewrite lookup_insert_ne by done. by apply resize_kept.
  - (* the length record follows the property at [p] *)
    rewrite decide_False by done.
    destruct (chain_elem _ _ _ _ _ _ Hchain Hpin) as [Hp0 Hop].
    destruct (chain_elem_next _ _ _ _ _ _ Hchain Hpin) as [np Hnp].
    assert (Hpq : p ≠ q).
    { intros ->. rewrite Hq in Hop. by injection Hop as <-. }
    destruct (Hprops p op Hpin Hpq) as [Hp2 Hpa].
    assert (Hpt : p ≠ t).
    { intros ->. rewrite Hh in Hop. injection Hop as <-.
      by eapply chain_not_hdr. }
    destruct (resize_outside p op Hop Hpt Hpq) as (_ & _ & Hpn).
    exists (set_heap <[p := with_next new_len op]> s2), h.
    split.
    { simpl. eapply bind_runs.
      - apply load_Some; [done|]. by rewrite Hhp.
      - rewrite Hnp. apply store_ok; [done|]. rewrite Hhp, Hp2. eauto. }
    st_simpl. rewrite Hhp.
    split; [unfold set_heap; by rewrite Hhp|].
    split; [rewrite lookup_insert_ne by done; apply resize_hp2_a|].
    split; [done|]. split.
    + destruct (chain_splice (heap s) (<[p := with_next new_len op]> hp2)
                  p q nx cnt new_len count lit l (PropOf t) (prop h))
        as (l3 & Hc3 & Hlen3 & Hf3); try done.
      * intros k o Hin Hkp Hkq. rewrite lookup_insert_ne by done.
        by apply Hprops.
      * intros op' Hop'. rewrite Hop in Hop'. injection Hop' as <-.
        apply lookup_insert_eq.
      * rewrite lookup_insert_ne by done. apply resize_hp2_len.
      * intros Hl0. destruct (Hlit Hl0) as [Hl Hla].
        rewrite lookup_insert_ne; [done|].
        intros ->.
        destruct (chain_literal _ _ _ _ Hchain) as [?|(str & Hs & _)]; [done|].
        rewrite Hs in Hop. by injection Hop as <-.
      * exists h, l3, lit, (NextOf p), nx.
        split; [rewrite lookup_insert_ne by done; apply resize_hp2_a|].
        split; [done|]. split; [done|].
        by apply (first_of_type_from _ _ (PropOf t)).
    + intros k o Ho Hkt Hkq. destruct (decide (k = p)) as [->|Hkp].
      * rewrite Hop in Ho. injection Ho as <-.
        exists (with_next new_len op). split; [apply lookup_insert_eq|by right].
      * exists o. split; [|by left].
        rewrite lookup_insert_ne by done. by apply resize_kept.
Qed.

(** When the block moves, the neighbours of [ctx] in the list of its
    parent are live list nodes of their own. *)
Hypothesis Hnb :
  a ≠ t →
  is_Some (node_at (heap s) (prev (hlist h))) ∧ prev (hlist h) ≠ t ∧
  is_Some (node_at (heap s) (next (hlist h))) ∧ next (hlist h) ≠ t.

Lemma resize_neighbour hp3 pv :
  (∀ k o, heap s !! k = Some o → k ≠ t → k ≠ q →
     ∃ o', hp3 !! k = Some o' ∧ (o' = o ∨ o' = with_next new_len o)) →
  is_Some (node_at (heap s) pv) → pv ≠ t →
  is_Some (node_at hp3 pv) ∧ pv ≠ a.
Proof.
  intros Hkept Hn Hpt. destruct resize_q as [_ Hq].
  destruct (node_at_cases _ _ Hn) as [[hv Hpv]|(nxc & pac & n & Hc)].
  - assert (pv ≠ q) by (intros ->; congruence).
    destruct (Hkept _ _ Hpv) as (o' & Ho' & Hcase); [done|done|].
    split; [|by eapply resize_outside].
    unfold node_at. rewrite Ho'. destruct Hcase as [->| ->]; simpl; eauto.
  - assert (pv - offsetof_children ≠ t) by (intros E; rewrite E in Hc; congruence).
    assert (pv - offsetof_children ≠ q) by (intros E; rewrite E in Hc; congruence).
    destruct (resize_outside _ _ Hc) as (Hout & _ & _); [done|done|].
    split.
    + destruct (Hkept _ _ Hc) as (o' & Ho' & Hcase); [done|done|].
      replace pv with (pv - offsetof_children + offsetof_children) by lia.
      destruct Hcase as [->| ->]; by eapply node_at_head.
    + destruct (Hfresh _ _ Hc Hout) as [Hle|Hle]; simpl in Hle;
        unfold sizeof_children, offsetof_children in *;
        pose proof resize_arith; lia.
Qed.

Lemma resize_fixup (skip : bool) s3 h3 :
  heap s3 !! a = Some (Hdr h3) → hlist h3 = hlist h →
  records_count a new_len count (length l) (heap s3) →
  is_Some (node_at (heap s3) (prev (hlist h))) → prev (hlist h) ≠ a →
  is_Some (node_at (heap s3) (next (hlist h))) →
  ∃ s7,
    (let* n := load_node a in
     do* set_next (prev n) a in
     let* n' := load_node a in
     do* set_prev (next n') a in
     let* child := find_property fuel a CHILDREN in
     do* (if child =? 0 then ret tt else
            let* o := load child in
            match o with
            | Children nx _ hd => store child (Children nx a hd)
            | _ => undef
            end) in
     do* (if skip then ret tt
          else notify passive fuel a TAL_NOTIFY_MOVE (from_tal_hdr t)) in
     ret (from_tal_hdr a)) s3 = Ok (from_tal_hdr a) s7 ∧
    records_count a new_len count (length l) (heap s7).
Proof.
  intros Ha3 Hl3 Hrec Hpv Hpva Hnxn.
  assert (Ha0 : a ≠ 0) by lia.
  rewrite (bind_Ok (load_node_hdr a h3 s3 Ha3)). rewrite Hl3.
  destruct (set_next_runs (prev (hlist h)) a s3 Hpv)
    as (s4 & Hs4 & R4 & Hsome4 & Hoth4).
  rewrite (bind_Ok Hs4).
  assert (Hn4 : node_at (heap s4) a = Some (hlist h)).
  { rewrite Hoth4 by done. rewrite <- Hl3. by apply node_at_hdr. }
  rewrite (bind_Ok (load_node_ok _ _ _ Hn4)).
  destruct (set_prev_runs (next (hlist h)) a s4 (Hsome4 _ Hnxn))
    as (s5 & Hs5 & R5 & _ & _).
  rewrite (bind_Ok Hs5).
  pose proof (relinked_trans _ _ _ R4 R5) as [HL35 _].
  destruct (links_only_lookup _ _ _ _ HL35 Ha3) as (o5 & Ha5 & He5).
  apply erase_links_Hdr in He5 as (h5 & -> & Hp5 & _).
  pose proof (records_count_touched _ _ _ _ _ _ _ _ Hrec
                (links_only_props_touched _ _ HL35) Ha3 Ha5 Hp5) as Hrec5.
  destruct Hrec5 as (h5' & l5 & lit5 & loc5 & nx5 & Ha5' & Hc5 & Hn5 & Hf5).
  rewrite Ha5 in Ha5'. injection Ha5' as <-.
  rewrite (bind_Ok (find_property_chain CHILDREN fuel l5 a h5 lit5 s5
                      ltac:(done) Ha0 Ha5 Hc5 ltac:(lia))).
  assert (Hrec5 : records_count a new_len count (length l) (heap s5))
    by (by exists h5, l5, lit5, loc5, nx5).
  destruct (first_of_type CHILDREN l5 (PropOf a)) as [[[locc c] oc]|] eqn:Hfc.
  - destruct (first_of_type_elem _ _ _ _ _ _ Hfc) as [Hin Hty].
    destruct (chain_elem _ _ _ _ _ _ Hc5 Hin) as [Hc0 Hoc].
    destruct oc as [|nxc pac hdc| | | |]; try done.
    destruct (Z.eqb_spec c 0); [done|].
    rewrite bind_assoc. rewrite (bind_Ok (load_Some _ _ _ Hc0 Hoc)).
    rewrite (bind_Ok (store_ok c (Children nxc a hdc) s5 Hc0 ltac:(eauto))).
    assert (Hca : c ≠ a) by (intros ->; congruence).
    assert (Hrec6 : records_count a new_len count (length l)
                      (heap (set_heap <[c := Children nxc a hdc]> s5))).
    { st_simpl. eapply (records_count_touched _ _ _ _ _ _ h5 h5); [done| | | |done].
      - by eapply props_touched_insert_children.
      - done.
      - by rewrite lookup_insert_ne. }
    destruct (records_count_notify fuel a new_len count (length l)
                TAL_NOTIFY_MOVE (from_tal_hdr t) skip _ Ha0 ltac:(lia) Hrec6)
      as (s7 & Hs7 & Hh7).
    exists s7. rewrite (bind_Ok Hs7). split; [done|]. by rewrite Hh7.
  - simpl. rewrite bind_ret_l.
    destruct (records_count_notify fuel a new_len count (length l)
                TAL_NOTIFY_MOVE (from_tal_hdr t) skip _ Ha0 ltac:(lia) Hrec5)
      as (s7 & Hs7 & Hh7).
    exists s7. rewrite (bind_Ok Hs7). split; [done|]. by rewrite Hh7.
Qed.

(** C8.  On a node whose chain holds a LENGTH property (at the head of
    the chain or after other properties), [tal_resize_] to [count]
    elements succeeds when the backend grants the memory, whether it
    answers the old address or a new one, and afterwards [tal_count] of
    the (possibly moved) pointer is [count]. *)
Theorem tal_resize_sets_count :
  ∃ s', tal_resize_ passive fuel ctx size count s
        = Ok (true, from_tal_hdr a) s' ∧
        tal_count fuel (from_tal_hdr a) s' = Ok count s'.
Proof.
  pose proof resize_arith as (Hb & Hfit' & He & Han & Hfits).
  destruct resize_q as [Hq0 Hq]. pose proof SIZE_MOD_eq as HM.
  assert (Ha0 : a ≠ 0) by lia.
  unfold tal_resize_.
  rewrite (bind_Ok (to_tal_hdr_ok ctx h l lit s Ht Hh Hchain)). fold t.
  assert (Hadj : adjust_size size count s = Ok (true, bytes) s).
  { rewrite adjust_size_exact by done. fold bytes.
    by destruct (Z.ltb_spec (bytes + (sizeof_tal_hdr + sizeof_length * 2))
                   SIZE_MOD); [|lia]. }
  rewrite (bind_Ok Hadj). cbn [fst snd negb].
  pose proof (load_ploc_PropOf _ _ _ Ht Hh) as Hfrom.
  assert (Hptr : find_property_ptr fuel t LENGTH s = Ok (Some loc) s).
  { unfold find_property_ptr.
    rewrite (find_property_ptr_from_chain LENGTH fuel l (PropOf t) (prop h)
               lit s ltac:(done) Hfrom Hchain ltac:(lia)).
    by rewrite Hlen. }
  rewrite (bind_Ok Hptr).
  pose proof (first_of_type_loc _ _ _ _ _ _ _ _ _ Hfrom Hchain Hlen) as Hlq.
  assert (Hld : (let* q := load_ploc loc in load q) s = Ok (Length nx cnt) s).
  { eapply bind_runs; [exact Hlq|]. by apply load_Some. }
  rewrite (bind_Ok Hld).
  rewrite (wrap_small (sizeof_tal_hdr + bytes))
    by (change sizeof_tal_hdr with 32; lia).
  rewrite (wrap_small (sizeof_tal_hdr + bytes + extra_for_length bytes))
    by (change sizeof_tal_hdr with 32; lia).
  fold total.
  set (s1 := set_heap (λ hp, <[a := Hdr h]> (free_range t old hp))
               (set_blocks (λ b, <[a := total]> (delete t b))
                  (log (EvRealloc t total a) (set_backend rest s)))).
  assert (Hres : resizefn t total s = Ok a s1).
  { unfold resizefn. rewrite Hblock, Hh, Hbackend.
    by destruct (Z.eqb_spec a 0). }
  rewrite (bind_Ok Hres).
  destruct (Z.eqb_spec a 0); [done|].
  fold new_len.
  set (s2 := set_heap <[new_len := Length nx count]> s1).
  assert (Hemp : emplace new_len (Length nx count) s1 = Ok tt s2).
  { apply emplace_ok. apply (in_block_lookup a total).
    - subst s1. st_simpl. apply lookup_insert_eq.
    - lia.
    - simpl. unfold sizeof_length. lia. }
  destruct (resize_store s2 eq_refl)
    as (s3 & h3 & Hstore & Hs3 & Ha3 & Hl3 & Hrec3 & Hkept).
  assert (Hput : (do* emplace new_len (Length nx count) in
                  if decide (loc = PropOf t) then store_ploc (PropOf a) new_len
                  else store_ploc loc new_len) s1 = Ok tt s3).
  { eapply bind_runs; [exact Hemp|exact Hstore]. }
  rewrite (bind_Ok Hput). rewrite bind_get.
  destruct (Z.eqb_spec a t) as [Hat|Hat].
  - rewrite bind_ret_l, bind_get.
    destruct (records_count_notify fuel a new_len count (length l)
                TAL_NOTIFY_RESIZE bytes (notifiers s3 =? 0) s3 Ha0
                ltac:(lia) Hrec3) as (s' & Hs' & Hh').
    exists s'. rewrite (bind_Ok Hs').
    assert (Hctx : ctx = from_tal_hdr a)
      by (unfold from_tal_hdr; subst t; lia).
    rewrite <- Hctx. split; [done|]. rewrite Hctx.
    apply (records_count_tal_count fuel a new_len count (length l));
      [done|lia|by rewrite Hh'].
  - destruct (Hnb Hat) as (Hpv & Hpvt & Hnxn & Hnxt).
    destruct (resize_neighbour (heap s3) _ Hkept Hpv Hpvt) as [Hpv3 Hpva].
    destruct (resize_neighbour (heap s3) _ Hkept Hnxn Hnxt) as [Hnx3 _].
    destruct (resize_fixup (notifiers s3 =? 0) s3 h3 Ha3 Hl3 Hrec3
                Hpv3 Hpva Hnx3) as (s7 & Hs7 & Hrec7).
    rewrite (bind_Ok Hs7), bind_get.
    destruct (records_count_notify fuel a new_len count (length l)
                TAL_NOTIFY_RESIZE bytes (notifiers s7 =? 0) s7 Ha0
                ltac:(lia) Hrec7) as (s' & Hs' & Hh').
    exists s'. rewrite (bind_Ok Hs'). split; [done|].
    apply (records_count_tal_count fuel a new_len count (length l));
      [done|lia|by rewrite Hh'].
Qed.

End Resize.

(** * Destroying subtrees *)

Lemma tree_ind' (P : tree → Prop) :
  (∀ t props lit kids, Forall P kids → P (Node t props lit kids)) →
  ∀ tr, P tr.
Proof.
  intros H. fix IH 1. intros [t props lit kids]. apply H.
  induction kids as [|k kids IHk]; constructor; [apply IH|apply IHk].
Qed.

Lemma foldr_and_Forall {A} (P : A → Prop) l :
  foldr (λ k Q, P k ∧ Q) True l ↔ Forall P l.
Proof.
  induction l as [|x l IH]; simpl.
  - split; [constructor|done].
  - rewrite Forall_cons. by rewrite IH.
Qed.

(** ** Callbacks that leave the state alone *)

Lemma same_mem_log ev s : same_mem s (log ev s).
Proof. by exists [ev]. Qed.

Lemma notify_from_quiet cb fuel : ∀ l p lit ctx type info s,
  chain (heap s) p l lit → (length l < fuel)%nat →
  (∀ ev s1, ev ∈ fired ctx type info l → same_mem s s1 → cb ev s1 = Ok tt s1) →
  notify_from cb fuel p ctx type info s
  = Ok tt (add_trace (fired ctx type info l) s).
Proof.
  induction fuel as [|f IH]; intros l p lit ctx type info s Hc Hf Hq; [lia|].
  destruct l as [|[q o] l]; simpl in Hc.
  - destruct Hc as [-> Hlit]. simpl. rewrite add_trace_nil.
    destruct Hlit as [->|(str & Hs & Hb)]; [done|].
    destruct (Z.eqb_spec lit 0) as [->|Hne]; [done|].
    by rewrite (bind_Ok (is_literal_Str _ _ _ Hne Hs Hb)).
  - destruct Hc as (-> & Hq0 & Ho & Hn).
    destruct (obj_next o) as [nx|] eqn:Hnx; [|done].
    destruct (obj_next_type _ _ Hnx) as [ty Hty].
    cbn [notify_from]. destruct (Z.eqb_spec q 0); [done|].
    rewrite (bind_Ok (is_literal_prop _ _ _ Hq0 Ho (mk_is_Some _ _ Hnx))).
    rewrite (bind_Ok (load_type_prop _ _ _ _ Hq0 Ho Hty)).
    assert (Hstep : ∀ s', same_mem s s' →
      (let* nx0 := load_next q in notify_from cb f nx0 ctx type info) s'
      = Ok tt (add_trace (fired ctx type info l) s')).
    { intros s' [evs ->].
      rewrite (bind_Ok (a:=nx) (s1:=add_trace evs s));
        [|by apply (load_next_prop _ o)].
      apply (IH l nx lit); [done|simpl in Hf; lia|].
      intros ev s1 Hev [evs' ->]. apply Hq.
      - unfold fired. cbn [flat_map]. apply elem_of_app. by right.
      - exists (evs ++ evs'). by rewrite add_trace_app. }
    unfold fired in *. cbn [flat_map] in *. fold (fired ctx type info l) in *.
    destruct (decide (ty = NOTIFIER)) as [->|Hnot].
    + destruct o; try discriminate. unfold fire in *; cbn [snd] in *.
      rewrite bind_assoc, (bind_Ok (load_Some _ _ _ Hq0 Ho)).
      destruct (Z.land types type =? 0).
      { rewrite bind_ret_l. rewrite Hstep by apply same_mem_refl. done. }
      destruct (Z.land types NOTIFY_IS_DESTRUCTOR =? 0);
        unfold invoke; rewrite bind_assoc;
        unfold modify at 1, bind at 1;
        (rewrite (bind_Ok (Hq _ _ ltac:(apply elem_of_app; left; left)
                             (same_mem_log _ s))));
        rewrite Hstep by apply same_mem_log;
        by rewrite log_add_trace, add_trace_app.
    + rewrite bind_ret_l. rewrite Hstep by apply same_mem_refl.
      destruct o; try discriminate; try done.
      simpl in Hty. congruence.
Qed.

Lemma notify_quiet cb fuel t h l lit type info s :
  t ≠ 0 → heap s !! t = Some (Hdr h) →
  chain (heap s) (prop h) l lit → (length l < fuel)%nat →
  (∀ ev s1, ev ∈ fired t type info l → same_mem s s1 → cb ev s1 = Ok tt s1) →
  notify cb fuel t type info s = Ok tt (add_trace (fired t type info l) s).
Proof.
  intros Ht Hh Hc Hf Hq. unfold notify.
  eapply bind_runs; [by apply load_hdr_Some|].
  by eapply notify_from_quiet.
Qed.

(** ** Freeing a node that is under destruction *)

Lemma set_heap_id k o s : heap s !! k = Some o → set_heap <[k := o]> s = s.
Proof. intros H. destruct s. unfold set_heap. simpl in *. by rewrite insert_id. Qed.

Lemma store_node_same q n s :
  node_at (heap s) q = Some n → store_node q n s = Ok tt s.
Proof.
  unfold node_at, store_node. intros H.
  destruct (heap s !! q) as [[h| | | | |]|] eqn:Hq;
    [injection H as <-; destruct h; simpl; by rewrite set_heap_id|..];
    (destruct (heap s !! (q - offsetof_children)) as [[|nx pa n0| | | |]|] eqn:Hc;
       try done; injection H as ->; by rewrite set_heap_id).
Qed.

Lemma list_del_unlinked y h s :
  heap s !! y = Some (Hdr h) → unlinked (heap s) (hlist h) →
  list_del y s = Ok tt s.
Proof.
  intros Hy [(n1 & Hn1 & Hp1) (n2 & Hn2 & Hx2)]. unfold list_del.
  rewrite (bind_Ok (load_node_hdr _ _ _ Hy)).
  assert (H1 : set_prev (next (hlist h)) (prev (hlist h)) s = Ok tt s).
  { unfold set_prev. rewrite (bind_Ok (load_node_ok _ _ _ Hn1)).
    rewrite <- Hp1. destruct n1. by apply store_node_same. }
  rewrite (bind_Ok H1). rewrite (bind_Ok (load_node_hdr _ _ _ Hy)).
  unfold set_next. rewrite (bind_Ok (load_node_ok _ _ _ Hn2)).
  rewrite <- Hx2. destruct n2. by apply store_node_same.
Qed.

Lemma tal_free_dying cb f y s :
  dying s y → notifiers s = 0 →
  tal_free cb (S f) (from_tal_hdr y) s = Ok NULL s.
Proof.
  intros (Hy0 & h & Hy & Hbit & Hprop & Hunl) Hn. unfold tal_free.
  assert (Hty : from_tal_hdr y - sizeof_tal_hdr = y)
    by (unfold from_tal_hdr; lia).
  destruct (Z.eqb_spec (from_tal_hdr y) 0) as [E|_];
    [unfold from_tal_hdr, sizeof_tal_hdr in E; lia|].
  rewrite bind_get.
  assert (Hto : to_tal_hdr (from_tal_hdr y) s = Ok y s).
  { unfold to_tal_hdr. rewrite Hty.
    rewrite (bind_Ok (load_hdr_Some y h s ltac:(lia) Hy)).
    destruct (Z.eqb_spec (prop h) 0) as [|Hp0]; [done|].
    destruct Hprop as [?|(o & Ho & Hnh)]; [done|].
    unfold is_literal. rewrite bind_assoc.
    rewrite (bind_Ok (load_Some _ _ _ Hp0 Ho)).
    destruct o; try done. by destruct (Hnh h0). }
  rewrite (bind_Ok Hto). rewrite Hn. simpl (0 =? 0). cbn iota.
  rewrite bind_ret_l.
  rewrite (bind_Ok (list_del_unlinked _ _ _ Hy Hunl)).
  assert (Hdel : del_tree cb (S f) y (from_tal_hdr y) s = Ok tt s).
  { cbn [del_tree]. rewrite (bind_Ok (load_hdr_Some y h s ltac:(lia) Hy)).
    by rewrite Hbit. }
  rewrite (bind_Ok Hdel). unfold modify, bind, ret. by destruct s.
Qed.

(** ** Subtrees in memory *)

Lemma root_in_footprint tr : root tr ∈ footprint tr.
Proof. destruct tr. simpl. left. Qed.

Lemma elem_of_flat_map {A B} (f : A → list B) l y :
  y ∈ flat_map f l ↔ ∃ x, x ∈ l ∧ y ∈ f x.
Proof.
  rewrite list_elem_of_In, in_flat_map.
  split; intros (x & ? & ?); exists x; by rewrite ?list_elem_of_In in *.
Qed.

Lemma NoDup_flat_map_elem {A B} (f : A → list B) l x :
  NoDup (flat_map f l) → x ∈ l → NoDup (f x).
Proof.
  induction l as [|y l IH]; simpl; intros Hnd Hin.
  - by apply elem_of_nil in Hin.
  - apply NoDup_app in Hnd as (? & ? & ?).
    apply elem_of_cons in Hin as [->|Hin]; eauto.
Qed.

Lemma fwd_agree hp hp' head : ∀ ks from,
  fwd hp from ks head → (∀ k, k ∈ ks → hp' !! k = hp !! k) →
  fwd hp' from ks head.
Proof.
  induction ks as [|k ks IH]; intros from; simpl; [done|].
  intros (-> & Hne & h & Hh & Hf) Hag. split; [done|]. split; [done|].
  exists h. split; [rewrite Hag; [done|left]|].
  apply IH; [done|]. intros k' Hk'. apply Hag. by right.
Qed.

Lemma same_property_trans o1 o2 o3 :
  same_property o1 o2 → same_property o2 o3 → same_property o1 o3.
Proof.
  destruct o1; simpl; try (by intros ->).
  intros (pa & n & ->). simpl. eauto.
Qed.

Lemma Forall2_same_property_trans (l1 l2 l3 : list (Z * object)) :
  Forall2 (λ x y, x.1 = y.1 ∧ same_property x.2 y.2) l1 l2 →
  Forall2 (λ x y, x.1 = y.1 ∧ same_property x.2 y.2) l2 l3 →
  Forall2 (λ x y, x.1 = y.1 ∧ same_property x.2 y.2) l1 l3.
Proof.
  intros H12. revert l3. induction H12 as [|x y l1 l2 [? ?] _ IH]; intros l3 H23.
  - by inversion H23.
  - inversion H23 as [|? z ? l3' [? ?] H23']; subst. constructor.
    + split; [congruence|]. by eapply same_property_trans.
    + by apply IH.
Qed.

Lemma Forall2_same_property_fst (l l' : list (Z * object)) :
  Forall2 (λ x y, x.1 = y.1 ∧ same_property x.2 y.2) l l' → l'.*1 = l.*1.
Proof.
  induction 1 as [|x y l l' [Hxy _] _ IH]; [done|].
  rewrite !fmap_cons. by rewrite Hxy, IH.
Qed.

Lemma Forall2_same_property_elem (l l' : list (Z * object)) q o' :
  Forall2 (λ x y, x.1 = y.1 ∧ same_property x.2 y.2) l l' →
  (q, o') ∈ l' → ∃ o, (q, o) ∈ l ∧ same_property o o'.
Proof.
  induction 1 as [|[k o] [k' o1] l l' [Hxy Hsp] _ IH]; intros Hin.
  - by apply elem_of_nil in Hin.
  - simpl in *. subst k'. apply elem_of_cons in Hin as [[= -> ->]|Hin].
    + exists o. split; [left|done].
    + destruct (IH Hin) as (o0 & ? & ?). exists o0. split; [by right|done].
Qed.

Lemma fired_same_property ctx type info (l l' : list (Z * object)) :
  Forall2 (λ x y, x.1 = y.1 ∧ same_property x.2 y.2) l l' →
  fired ctx type info l' = fired ctx type info l.
Proof.
  induction 1 as [|[k o] [k' o1] l l' [Hxy Hsp] _ IH]; [done|].
  unfold fired in *. simpl in *. rewrite IH. f_equal.
  unfold fire. simpl. destruct o; simpl in Hsp; try (by subst).
  by destruct Hsp as (pa & n & ->).
Qed.

Lemma releases_same_property (l l' : list (Z * object)) :
  Forall2 (λ x y, x.1 = y.1 ∧ same_property x.2 y.2) l l' →
  releases l' = releases l.
Proof.
  induction 1 as [|[k o] [k' o1] l l' [Hxy Hsp] _ IH]; [done|].
  unfold releases in *. simpl in *. rewrite IH. subst k'.
  by rewrite (same_property_type _ _ Hsp).
Qed.

Lemma first_of_type_same_property_None ty : ∀ (l l' : list (Z * object)) from,
  Forall2 (λ x y, x.1 = y.1 ∧ same_property x.2 y.2) l l' →
  first_of_type ty l from = None → first_of_type ty l' from = None.
Proof.
  induction l as [|[k o0] l IH]; intros l' from HF.
  - by inversion HF.
  - inversion HF as [|? [k' o1] ? l1 [Hk Hsp] HF']; subst. simpl in *. subst k'.
    rewrite (same_property_type _ _ Hsp).
    destruct (decide (obj_type o0 = Some ty)); [done|]. by apply IH.
Qed.

(** The objects of a subtree are live, and none is a string. *)
Lemma repr_live hp bl : ∀ tr c a,
  repr hp bl c tr → a ∈ footprint tr →
  ∃ o, hp !! a = Some o ∧ ∀ str, o ≠ Str str.
Proof.
  induction tr as [t props lit kids IH] using tree_ind'.
  intros c a Hr Ha. cbn [repr] in Hr.
  destruct Hr as (Ht & Hc & (h & sz & props' & Hh & Hpc & Hch & HF & _) & Hk).
  cbn [footprint] in Ha.
  apply elem_of_cons in Ha as [->|Ha]; [by eauto|].
  apply elem_of_app in Ha as [Ha|Ha].
  - rewrite <- (Forall2_same_property_fst _ _ HF) in Ha.
    apply list_elem_of_fmap_1 in Ha as ([q o] & -> & Hin). simpl.
    destruct (chain_elem _ _ _ _ _ _ Hch Hin) as [_ Ho].
    destruct (chain_elem_next _ _ _ _ _ _ Hch Hin) as [nx Hnx].
    exists o. split; [done|]. intros str ->. done.
  - destruct (first_of_type CHILDREN props (PropOf t)) as [[[loc c'] oc]|];
      [|subst kids; by apply elem_of_nil in Ha].
    destruct Hk as [_ Hk]. apply foldr_and_Forall in Hk.
    apply elem_of_flat_map in Ha as (k & Hkin & Ha).
    rewrite Forall_forall in IH, Hk. eapply (IH k Hkin c'); [by apply Hk|done].
Qed.

Lemma repr_root hp bl c tr :
  repr hp bl c tr →
  0 < root tr ∧ get_destroying_bit c = false ∧
  ∃ h, hp !! root tr = Some (Hdr h) ∧ parent_child h = c.
Proof.
  destruct tr as [t props lit kids]. cbn [repr root].
  intros (Ht & Hc & (h & sz & props' & Hh & Hpc & _) & _). eauto.
Qed.

(** What a subtree rests on: its own objects (the links of the root
    apart), the strings, and that nothing has come to life around it. *)
Lemma repr_frame hp hp' bl bl' : ∀ tr c,
  repr hp bl c tr → NoDup (footprint tr) →
  (∀ k, k ∈ footprint tr → k ≠ root tr → hp' !! k = hp !! k) →
  (∀ h, hp !! root tr = Some (Hdr h) →
     ∃ h', hp' !! root tr = Some (Hdr h') ∧ prop h' = prop h ∧
           parent_child h' = parent_child h) →
  (∀ k, is_Some (hp' !! k) → is_Some (hp !! k)) →
  (∀ k str, hp !! k = Some (Str str) → hp' !! k = Some (Str str)) →
  (∀ k, k ∈ footprint tr → bl' !! k = bl !! k) →
  repr hp' bl' c tr.
Proof.
  induction tr as [t props lit kids IH] using tree_ind'.
  intros c Hr Hnd Hin Hroot Hdom Hstr Hbl. cbn [repr root footprint] in *.
  destruct Hr as (Ht & Hc & (h & sz & props' & Hh & Hpc & Hch & HF & Hsz & Hsz0
                             & Hblk & Hown) & Hk).
  destruct (Hroot h Hh) as (h' & Hh' & Hp' & Hpc').
  assert (Hfst := Forall2_same_property_fst _ _ HF).
  apply NoDup_cons in Hnd as [Htnin Hnd].
  apply NoDup_app in Hnd as (Hndp & Hdisj & Hndk).
  assert (Hprops : ∀ q o, (q, o) ∈ props' → hp' !! q = Some o).
  { intros q o Hqo. destruct (chain_elem _ _ _ _ _ _ Hch Hqo) as [_ Ho].
    rewrite <- Ho. apply Hin.
    - right. apply elem_of_app. left. rewrite <- Hfst.
      by apply (list_elem_of_fmap_2 fst _ (q, o)).
    - intros ->. rewrite Hh in Ho. injection Ho as <-.
      by eapply chain_not_hdr. }
  split; [done|]. split; [done|]. split.
  - exists h', sz, props'. split; [done|]. split; [congruence|].
    split; [|split; [done|]].
    { rewrite Hp'. eapply chain_agree; [done|done|].
      intros Hl0. destruct (chain_literal _ _ _ _ Hch) as [?|(str & Hs & _)];
        [done|]. by rewrite Hs, (Hstr _ _ Hs). }
    split; [rewrite <- Hsz; apply Hbl; left|]. split; [done|].
    split.
    + intros k Hk' Hlive. apply Hblk; [done|by apply Hdom].
    + intros p o Hpo. specialize (Hown p o Hpo).
      destruct (decide (obj_type o = Some LENGTH)); [done|].
      destruct Hown as (szp & Hszp & Hszp0 & Hex). exists szp. split.
      * rewrite <- Hszp. apply Hbl. right. apply elem_of_app. left.
        by apply (list_elem_of_fmap_2 fst _ (p, o)).
      * split; [done|].
        intros k Hk' Hlive. apply Hex; [done|by apply Hdom].
  - destruct (first_of_type CHILDREN props (PropOf t)) as [[[loc c'] oc]|] eqn:Hfc;
      [|done].
    destruct Hk as [Hl Hk]. apply foldr_and_Forall in Hk.
    assert (Hkid : ∀ k a, k ∈ kids → a ∈ footprint k →
                   a ∈ t :: props.*1 ++ flat_map footprint kids ∧ a ≠ t).
    { intros k a Hkin Ha.
      assert (a ∈ flat_map footprint kids) by (apply elem_of_flat_map; eauto).
      split; [right; apply elem_of_app; by right|].
      intros ->. apply Htnin. apply elem_of_app. by right. }
    assert (Hc' : c' ∈ props.*1).
    { apply first_of_type_elem in Hfc as [Hcin _].
      by apply (list_elem_of_fmap_2 fst _ (c', oc)). }
    split.
    + destruct Hl as (Hhead & nx & pa & n & Hcc & Hfwd & Hfirst).
      assert (Hroots : ∀ k, k ∈ root <$> kids → hp' !! k = hp !! k).
      { intros k Hkr. apply list_elem_of_fmap_1 in Hkr as (kt & -> & Hkt).
        destruct (Hkid kt (root kt) Hkt (root_in_footprint _)).
        by apply Hin. }
      split.
      { destruct (hp' !! (c' + offsetof_children)) eqn:E; [|done].
        destruct (Hdom (c' + offsetof_children)) as [? E']; [eauto|].
        congruence. }
      exists nx, pa, n. split.
      { rewrite <- Hcc. apply Hin.
        - right. apply elem_of_app. by left.
        - intros ->. apply Htnin. apply elem_of_app. by left. }
      split; [by eapply fwd_agree|].
      destruct kids as [|k1 kids]; [done|]. simpl in *.
      destruct Hfirst as (h1 & Hh1 & Hp1). exists h1. split; [|done].
      rewrite Hroots; [done|left].
    + apply foldr_and_Forall. rewrite Forall_forall in IH, Hk.
      apply Forall_forall. intros k Hkin.
      apply IH; [done|by apply Hk|by eapply NoDup_flat_map_elem| | |done|done|].
      * intros a Ha _. destruct (Hkid k a Hkin Ha). by apply Hin.
      * intros hk Hhk. exists hk. split; [|done].
        destruct (Hkid k (root k) Hkin (root_in_footprint _)).
        rewrite <- Hhk. by apply Hin.
      * intros a Ha. destruct (Hkid k a Hkin Ha). by apply Hbl.
Qed.

(** ** Releasing the properties of a node *)

Lemma same_env_refl s : same_env s s.
Proof. by repeat split. Qed.

Lemma same_env_trans s1 s2 s3 : same_env s1 s2 → same_env s2 s3 → same_env s1 s3.
Proof.
  intros (?&?&?&?&?&?) (?&?&?&?&?&?). repeat split; congruence.
Qed.

Lemma free_props_spec fuel : ∀ l p lit s,
  chain (heap s) p l lit → NoDup l.*1 → (length l < fuel)%nat →
  (∀ q o, (q, o) ∈ l → obj_type o ≠ Some LENGTH →
     ∃ sz, blocks s !! q = Some sz ∧ 0 < sz ∧
           ∀ k, q ≤ k < q + sz → is_Some (heap s !! k) → k = q) →
  ∃ s', free_props fuel p s = Ok tt s' ∧
    (∀ k o, (k, o) ∈ l → obj_type o ≠ Some LENGTH → heap s' !! k = None) ∧
    (∀ k, (∀ o, (k, o) ∈ l → obj_type o = Some LENGTH) →
          heap s' !! k = heap s !! k) ∧
    (∀ k, (∀ o, (k, o) ∈ l → obj_type o = Some LENGTH) →
          blocks s' !! k = blocks s !! k) ∧
    trace s' = trace s ++ releases l ∧
    same_env s s'.
Proof.
  induction fuel as [|f IH]; intros l p lit s Hc Hnd Hf Hown; [lia|].
  destruct l as [|[q o] l]; simpl in Hc.
  - destruct Hc as [-> Hlit]. exists s. split.
    { cbn [free_props]. destruct Hlit as [->|(str & Hs & Hb)]; [done|].
      destruct (Z.eqb_spec lit 0) as [->|Hne]; [done|].
      by rewrite (bind_Ok (is_literal_Str _ _ _ Hne Hs Hb)). }
    split; [intros k o Hin; by apply elem_of_nil in Hin|].
    split; [done|]. split; [done|].
    split; [unfold releases; simpl; by rewrite app_nil_r|apply same_env_refl].
  - destruct Hc as (-> & Hq0 & Ho & Hn).
    destruct (obj_next o) as [nx|] eqn:Hnx; [|done].
    destruct (obj_next_type _ _ Hnx) as [ty Hty].
    rewrite fmap_cons in Hnd. apply NoDup_cons in Hnd as [Hqnin Hnd].
    simpl in Hqnin.
    assert (Hlq : ∀ k o', (k, o') ∈ l → k ≠ q).
    { intros k o' Hin ->. apply Hqnin.
      by apply (list_elem_of_fmap_2 fst _ (q, o')). }
    cbn [free_props]. destruct (Z.eqb_spec q 0); [done|].
    rewrite (bind_Ok (is_literal_prop _ _ _ Hq0 Ho (mk_is_Some _ _ Hnx))).
    rewrite (bind_Ok (load_next_prop _ _ _ _ Hq0 Ho Hnx)).
    rewrite (bind_Ok (load_type_prop _ _ _ _ Hq0 Ho Hty)).
    assert (Hlitq : lit ≠ 0 → lit ≠ q).
    { intros Hl0 ->.
      destruct (chain_literal _ _ _ _ Hn) as [?|(str & Hs & _)]; [done|].
      rewrite Hs in Ho. injection Ho as <-. done. }
    destruct (decide (ty = LENGTH)) as [->|Hnl].
    + rewrite bind_ret_l.
      destruct (IH l nx lit s Hn Hnd ltac:(simpl in Hf; lia))
        as (s' & Hrun & Hgone & Hkept & Hbl & Htr & Henv).
      { intros k o' Hin. apply Hown. by right. }
      exists s'. split; [done|]. split; [|split; [|split; [|split]]].
      * intros k o' Hin Hty'. apply elem_of_cons in Hin as [[= -> ->]|Hin];
          [congruence|by eapply Hgone].
      * intros k Hk. apply Hkept. intros o' Hin. apply (Hk o'). by right.
      * intros k Hk. apply Hbl. intros o' Hin. apply (Hk o'). by right.
      * rewrite Htr. unfold releases. simpl. by rewrite decide_True.
      * done.
    + destruct (Hown q o) as (sz & Hsz & Hsz0 & Hex); [left|congruence|].
      rewrite (bind_Ok (freefn_ok _ _ _ Hsz)).
      set (s1 := set_errno (backend_errno s)
                   (set_heap (free_range q sz)
                      (set_blocks (delete q) (log (EvRelease q) s)))).
      assert (Hh1 : ∀ k, heap s1 !! k = if decide (k = q) then None
                                        else heap s !! k).
      { intros k. subst s1. st_simpl. rewrite free_range_lookup.
        destruct (decide (k = q)) as [->|Hkq].
        - rewrite decide_True; [done|lia].
        - destruct (decide (q ≤ k < q + sz)) as [Hin|]; [|done].
          destruct (heap s !! k) eqn:E; [|done].
          destruct Hkq. apply Hex; [done|eauto]. }
      destruct (IH l nx lit s1) as (s' & Hrun & Hgone & Hkept & Hbl & Htr & Henv).
      * eapply chain_agree; [done| |].
        -- intros k o' Hin. rewrite Hh1, decide_False by by eapply Hlq.
           by destruct (chain_elem _ _ _ _ _ _ Hn Hin).
        -- intros Hl0. by rewrite Hh1, decide_False by by apply Hlitq.
      * done.
      * simpl in Hf; lia.
      * intros k o' Hin Hty'.
        destruct (Hown k o') as (szk & Hszk & Hszk0 & Hexk); [by right|done|].
        exists szk. split.
        { subst s1. st_simpl. rewrite lookup_delete_ne; [done|].
          intros ->. by eapply Hlq. }
        split; [done|]. intros k' Hk' Hlive. apply Hexk; [done|].
        rewrite Hh1 in Hlive. by destruct (decide (k' = q)); [destruct Hlive|].
      * exists s'. split; [done|]. split; [|split; [|split; [|split]]].
        -- intros k o' Hin Hty'. apply elem_of_cons in Hin as [[= -> ->]|Hin];
             [|by eapply Hgone].
           rewrite Hkept, Hh1; [by rewrite decide_True|].
           intros o' Hin. by destruct (Hlq _ _ Hin).
        -- intros k Hk. rewrite Hkept, Hh1.
           ++ rewrite decide_False; [done|]. intros ->.
              specialize (Hk o ltac:(left)). congruence.
           ++ intros o' Hin. apply (Hk o'). by right.
        -- intros k Hk. rewrite Hbl.
           ++ subst s1. st_simpl. rewrite lookup_delete_ne; [done|]. intros ->.
              specialize (Hk o ltac:(left)). congruence.
           ++ intros o' Hin. apply (Hk o'). by right.
        -- rewrite Htr. subst s1. st_simpl. unfold releases. simpl.
           rewrite decide_False by congruence. simpl.
           by rewrite <- app_assoc.
        -- eapply same_env_trans; [|done]. subst s1. by repeat split.
Qed.

(** ** Taking the first child off the list *)

Lemma node_at_head_exact hp c nx pa n :
  hp !! (c + offsetof_children) = None → hp !! c = Some (Children nx pa n) →
  node_at hp (c + offsetof_children) = Some n.
Proof.
  intros Hh Hc. unfold node_at. rewrite Hh.
  replace (c + offsetof_children - offsetof_children) with c by lia.
  by rewrite Hc.
Qed.

Lemma store_node_head_exact c nx pa n0 n s :
  heap s !! (c + offsetof_children) = None →
  heap s !! c = Some (Children nx pa n0) →
  store_node (c + offsetof_children) n s
  = Ok tt (set_heap <[c := Children nx pa n]> s).
Proof.
  intros Hh Hc. unfold store_node. rewrite Hh.
  replace (c + offsetof_children - offsetof_children) with c by lia.
  by rewrite Hc.
Qed.

Lemma list_del_first c nxc pac n k1 h1 ks s :
  heap s !! (c + offsetof_children) = None →
  heap s !! c = Some (Children nxc pac n) → next n = k1 →
  heap s !! k1 = Some (Hdr h1) →
  prev (hlist h1) = c + offsetof_children →
  fwd (heap s) (next (hlist h1)) ks (c + offsetof_children) →
  k1 ∉ ks →
  ∃ s', list_del k1 s = Ok tt s' ∧ s' = set_heap (λ _, heap s') s ∧
    (∀ k, k ≠ c → head ks ≠ Some k → heap s' !! k = heap s !! k) ∧
    (∃ n', heap s' !! c = Some (Children nxc pac n') ∧
           next n' = next (hlist h1) ∧
           (ks = [] → prev n' = c + offsetof_children)) ∧
    match ks with
    | k2 :: _ =>
        ∃ h2 h2', heap s !! k2 = Some (Hdr h2) ∧
          heap s' !! k2 = Some (Hdr h2') ∧
          next (hlist h2') = next (hlist h2) ∧
          prev (hlist h2') = c + offsetof_children ∧
          prop h2' = prop h2 ∧ parent_child h2' = parent_child h2
    | [] => True
    end.
Proof.
  intros Hhead Hc Hn Hk1 Hp1 Hfwd Hnin.
  assert (Hk1c : k1 ≠ c) by (intros ->; congruence).
  unfold list_del. rewrite (bind_Ok (load_node_hdr _ _ _ Hk1)).
  destruct ks as [|k2 ks]; simpl in Hfwd.
  - (* the only child *)
    rewrite Hfwd, Hp1.
    assert (H1 : set_prev (c + offsetof_children) (c + offsetof_children) s
                 = Ok tt (set_heap <[c := Children nxc pac
                            (ListNode (next n) (c + offsetof_children))]> s)).
    { unfold set_prev.
      rewrite (bind_Ok (load_node_ok _ _ _ (node_at_head_exact _ _ _ _ _ Hhead Hc))).
      by eapply store_node_head_exact. }
    rewrite (bind_Ok H1).
    set (s1 := set_heap _ s).
    assert (Hk1' : heap s1 !! k1 = Some (Hdr h1))
      by (subst s1; st_simpl; by rewrite lookup_insert_ne).
    rewrite (bind_Ok (load_node_hdr _ _ _ Hk1')). cbn beta. rewrite ?Hfwd, ?Hp1.
    assert (Hhead1 : heap s1 !! (c + offsetof_children) = None).
    { subst s1. st_simpl. rewrite lookup_insert_ne; [done|].
      unfold offsetof_children. lia. }
    assert (Hc1 : heap s1 !! c = Some (Children nxc pac
                    (ListNode (next n) (c + offsetof_children))))
      by (subst s1; st_simpl; apply lookup_insert_eq).
    unfold set_next.
    rewrite (bind_Ok (load_node_ok _ _ _ (node_at_head_exact _ _ _ _ _ Hhead1 Hc1))).
    rewrite (store_node_head_exact _ _ _ _ _ _ Hhead1 Hc1).
    eexists. split; [done|]. subst s1. st_simpl.
    split; [done|]. split; [|split; [|done]].
    + intros k Hkc _. by rewrite !lookup_insert_ne.
    + eexists. split; [apply lookup_insert_eq|]. done.
  - destruct Hfwd as (Hnx & Hk2h & h2 & Hk2 & Hfwd).
    assert (Hk12 : k1 ≠ k2) by (intros ->; apply Hnin; left).
    assert (Hk2c : k2 ≠ c) by (intros ->; congruence).
    rewrite Hnx, Hp1.
    assert (H1 : set_prev k2 (c + offsetof_children) s
                 = Ok tt (set_heap <[k2 := Hdr (TalHdr
                            (ListNode (next (hlist h2)) (c + offsetof_children))
                            (prop h2) (parent_child h2))]> s)).
    { unfold set_prev. rewrite (bind_Ok (load_node_hdr _ _ _ Hk2)).
      unfold store_node. by rewrite Hk2. }
    rewrite (bind_Ok H1).
    set (s1 := set_heap _ s).
    assert (Hk1' : heap s1 !! k1 = Some (Hdr h1))
      by (subst s1; st_simpl; by rewrite lookup_insert_ne).
    rewrite (bind_Ok (load_node_hdr _ _ _ Hk1')). cbn beta. rewrite ?Hnx, ?Hp1.
    assert (Hhead1 : heap s1 !! (c + offsetof_children) = None)
      by (subst s1; st_simpl; by rewrite lookup_insert_ne).
    assert (Hc1 : heap s1 !! c = Some (Children nxc pac n))
      by (subst s1; st_simpl; by rewrite lookup_insert_ne).
    unfold set_next.
    rewrite (bind_Ok (load_node_ok _ _ _ (node_at_head_exact _ _ _ _ _ Hhead1 Hc1))).
    rewrite (store_node_head_exact _ _ _ _ _ _ Hhead1 Hc1).
    eexists. split; [done|]. subst s1. st_simpl.
    split; [done|]. split; [|split].
    + intros k Hkc Hk2'. rewrite !lookup_insert_ne; [done| |done].
      intros ->. by apply Hk2'.
    + eexists. split; [apply lookup_insert_eq|]. done.
    + exists h2. eexists. split; [done|].
      split; [rewrite lookup_insert_ne by done; apply lookup_insert_eq|].
      done.
Qed.

Lemma fwd_next hp hp' head : ∀ ks from,
  fwd hp from ks head →
  (∀ k h, k ∈ ks → hp !! k = Some (Hdr h) →
     ∃ h', hp' !! k = Some (Hdr h') ∧ next (hlist h') = next (hlist h)) →
  fwd hp' from ks head.
Proof.
  induction ks as [|k ks IH]; intros from; simpl; [done|].
  intros (-> & Hne & h & Hh & Hf) Hag. split; [done|]. split; [done|].
  destruct (Hag k h ltac:(left) Hh) as (h' & Hh' & Hnx).
  exists h'. split; [done|]. rewrite Hnx.
  apply IH; [done|]. intros k' h0 Hk'. apply Hag. by right.
Qed.

Lemma NoDup_flat_map_disjoint {A B} (f : A → list B) x l y :
  NoDup (flat_map f (x :: l)) → y ∈ f x → y ∉ flat_map f l.
Proof. simpl. intros Hnd Hy. apply NoDup_app in Hnd as (_ & H & _). by apply H. Qed.

Lemma get_destroying_bit_set c : get_destroying_bit (Z.lor c 1) = true.
Proof.
  unfold get_destroying_bit.
  assert (Z.land (Z.lor c 1) 1 = 1) as ->; [|done].
  rewrite Z.land_lor_distr_l. change (Z.land 1 1) with 1.
  apply Z.bits_inj'. intros i Hi.
  rewrite Z.lor_spec, Z.land_spec.
  destruct (Z.testbit 1 i); [by rewrite orb_true_r|].
  by rewrite andb_false_r.
Qed.

(** ** Destroying a subtree *)

Section Destroy.

Variable cb : event → M unit.
Variable orig : Z.

(** What the destruction of [tr] is to achieve, whatever is around it. *)
Let spec (tr : tree) : Prop :=
  ∀ anc c fuel s,
    repr (heap s) (blocks s) c tr → NoDup (footprint tr) →
    (need tr ≤ fuel)%nat →
    quiet cb orig (notifiers s) anc tr →
    (∀ s', agree_outside (footprint tr) s s' → Forall (dying s') anc) →
    (∀ h, heap s !! root tr = Some (Hdr h) →
          ∀ s', agree_outside (footprint tr) s s' →
                unlinked (heap s') (hlist h)) →
    ∃ s', del_tree cb fuel (root tr) orig s = Ok tt s' ∧ destroyed orig tr s s'.

Lemma del_children_spec (F : nat) (anc' : list Z) (c' nxc pac : Z) :
  ∀ ks f s n,
    Forall spec ks →
    heap s !! (c' + offsetof_children) = None →
    heap s !! c' = Some (Children nxc pac n) →
    fwd (heap s) (next n) (root <$> ks) (c' + offsetof_children) →
    match ks with
    | k :: _ => ∃ h, heap s !! root k = Some (Hdr h) ∧
                     prev (hlist h) = c' + offsetof_children
    | [] => True
    end →
    Forall (repr (heap s) (blocks s) c') ks →
    NoDup (c' :: flat_map footprint ks) →
    (length ks < f)%nat → Forall (λ k, need k ≤ F)%nat ks →
    Forall (quiet cb orig (notifiers s) anc') ks →
    (∀ s', (∀ k, k ∉ flat_map footprint ks → k ≠ c' →
                 heap s' !! k = heap s !! k) →
           (∃ n', heap s' !! c' = Some (Children nxc pac n')) →
           notifiers s' = notifiers s →
           Forall (dying s') anc') →
    ∃ s', del_children (λ i, del_tree cb F i orig) f c' s = Ok tt s' ∧
      (∀ k, k ∈ flat_map footprint ks → heap s' !! k = None) ∧
      (∀ k, k ∉ flat_map footprint ks → k ≠ c' → heap s' !! k = heap s !! k) ∧
      (∃ n', heap s' !! c' = Some (Children nxc pac n')) ∧
      (∀ k, k ∉ flat_map footprint ks → blocks s' !! k = blocks s !! k) ∧
      trace s' = trace s ++ flat_map (dying_trace orig) ks ∧
      (errno s' = errno s ∨ errno s' = backend_errno s) ∧
      same_env s s'.
Proof.
  induction ks as [|k1 ks IH];
    intros f s n Hspec Hhead Hc Hfwd Hfirst Hrepr Hnd Hf Hneed Hquiet Hctx.
  - destruct f as [|f]; [simpl in Hf; lia|]. simpl in Hfwd.
    exists s. split.
    { cbn [del_children]. unfold list_top. rewrite bind_assoc.
      rewrite (bind_Ok (load_node_ok _ _ _
                          (node_at_head_exact _ _ _ _ _ Hhead Hc))).
      rewrite Hfwd, Z.eqb_refl. by rewrite bind_ret_l. }
    split; [intros k Hk; by apply elem_of_nil in Hk|].
    split; [done|]. split; [eauto|]. split; [done|].
    split; [simpl; by rewrite app_nil_r|]. split; [by left|apply same_env_refl].
  - destruct f as [|f]; [simpl in Hf; lia|].
    rewrite fmap_cons in Hfwd. simpl in Hfwd.
    destruct Hfwd as (Hnx & Hk1h & h1 & Hk1 & Hfwd).
    destruct Hfirst as (h1' & Hk1' & Hp1). rewrite Hk1 in Hk1'.
    injection Hk1' as <-.
    apply Forall_cons in Hspec as [Hspec1 Hspec].
    apply Forall_cons in Hrepr as [Hrepr1 Hrepr].
    apply Forall_cons in Hneed as [Hneed1 Hneed].
    apply Forall_cons in Hquiet as [Hquiet1 Hquiet].
    apply NoDup_cons in Hnd as [Hcnin Hnd].
    assert (Hnd1 : NoDup (footprint k1))
      by (eapply NoDup_flat_map_elem; [done|left]).
    assert (Hndk : NoDup (flat_map footprint ks))
      by (simpl in Hnd; by apply NoDup_app in Hnd as (_ & _ & ?)).
    assert (Hdisj : ∀ a, a ∈ footprint k1 → a ∉ flat_map footprint ks)
      by (intros a Ha; by eapply NoDup_flat_map_disjoint).
    assert (Hc1 : ∀ a, a ∈ footprint k1 → a ≠ c').
    { intros a Ha ->. apply Hcnin. simpl. apply elem_of_app. by left. }
    assert (Hcks : c' ∉ flat_map footprint ks).
    { intros Hin. apply Hcnin. simpl. apply elem_of_app. by right. }
    assert (Hroots : ∀ k, k ∈ root <$> ks → k ∈ flat_map footprint ks).
    { intros k Hk. apply list_elem_of_fmap_1 in Hk as (kt & -> & Hkt).
      apply elem_of_flat_map. exists kt. split; [done|apply root_in_footprint]. }
    destruct (repr_root _ _ _ _ Hrepr1) as (Hr0 & Hcbit & _).
    assert (Hheadfp : ∀ k, k ∈ ks ∨ k = k1 →
                      c' + offsetof_children ∉ footprint k).
    { intros k Hk Hin.
      assert (Hrk : repr (heap s) (blocks s) c' k).
      { destruct Hk as [Hk| ->]; [|done].
        rewrite Forall_forall in Hrepr. by apply Hrepr. }
      destruct (repr_live _ _ _ _ _ Hrk Hin) as (o & Ho & _). congruence. }
    (* the first child comes off the list *)
    destruct (list_del_first c' nxc pac n (root k1) h1 (root <$> ks) s
                Hhead Hc Hnx Hk1 Hp1 Hfwd)
      as (sa & Hdel & Hsa & Hsame & (na & Hca & Hnxa & Hpva) & Hk2).
    { intros Hin. apply (Hdisj (root k1)); [apply root_in_footprint|].
      by apply Hroots. }
    assert (Hsa_out : ∀ a, a ≠ c' → a ∉ flat_map footprint ks →
                      heap sa !! a = heap s !! a).
    { intros a Hac Hnin. apply Hsame; [done|].
      destruct ks as [|k2 ks']; [done|]. simpl. intros [= <-].
      apply Hnin. apply Hroots. left. }
    assert (Hsa_dom : ∀ a, is_Some (heap sa !! a) → is_Some (heap s !! a)).
    { intros a Ha. destruct (decide (a = c')) as [->|Hac]; [eauto|].
      destruct ks as [|k2 ks']; [by rewrite Hsame in Ha|].
      destruct Hk2 as (h2 & h2' & Hh2 & Hh2' & _).
      destruct (decide (a = root k2)) as [->|Hak]; [eauto|].
      rewrite Hsame in Ha; [done|done|]. simpl. by intros [= <-]. }
    assert (Hsa_str : ∀ a str, heap s !! a = Some (Str str) →
                      heap sa !! a = Some (Str str)).
    { intros a str Ha. rewrite Hsame; [done|by intros ->; congruence|].
      destruct ks as [|k2 ks']; [done|]. simpl. intros [= <-].
      destruct Hk2 as (h2 & h2' & Hh2 & _). congruence. }
    assert (Hsa_bl : blocks sa = blocks s) by (by rewrite Hsa).
    assert (Hsa_n : notifiers sa = notifiers s) by (by rewrite Hsa).
    assert (Hsa_head : heap sa !! (c' + offsetof_children) = None).
    { destruct (heap sa !! (c' + offsetof_children)) eqn:E; [|done].
      destruct (Hsa_dom (c' + offsetof_children)) as [? E']; [eauto|].
      congruence. }
    (* and is destroyed *)
    destruct (Hspec1 anc' c' F sa) as (sb & Hrun & Hdes).
    { eapply repr_frame; [exact Hrepr1|done| | |done|done|].
      - intros a Ha _. apply Hsa_out; [by apply Hc1|by apply Hdisj].
      - intros h Hh. exists h. split; [|done]. rewrite <- Hh.
        apply Hsa_out; [apply Hc1|apply Hdisj]; apply root_in_footprint.
      - intros a _. by rewrite Hsa_bl. }
    { done. }
    { done. }
    { by rewrite Hsa_n. }
    { intros s' [Hag Hns']. apply Hctx.
      - intros a Hnin Hac. simpl in Hnin. apply not_elem_of_app in Hnin as [? ?].
        rewrite Hag by done. by apply Hsa_out.
      - exists na. rewrite Hag; [done|]. intros Hin. by apply (Hc1 c').
      - congruence. }
    { intros hk Hhk s' [Hag Hns'].
      assert (hk = h1) as ->.
      { rewrite Hsa_out in Hhk; [congruence|apply Hc1|apply Hdisj];
          apply root_in_footprint. }
      assert (Hhead' : heap s' !! (c' + offsetof_children) = None)
        by (rewrite Hag; [done|apply Hheadfp; by right]).
      assert (Hc'' : heap s' !! c' = Some (Children nxc pac na)).
      { rewrite Hag; [done|]. intros Hin. by apply (Hc1 c'). }
      split.
      - rewrite Hp1. destruct ks as [|k2 ks'].
        + simpl in Hfwd. rewrite Hfwd. exists na.
          split; [by eapply node_at_head_exact|by apply Hpva].
        + simpl in Hfwd. destruct Hfwd as (Hnx1 & _).
          destruct Hk2 as (h2 & h2' & Hh2 & Hh2' & Hn2 & Hp2 & _).
          rewrite Hnx1. exists (hlist h2'). split; [|done].
          apply node_at_hdr. rewrite Hag; [done|].
          intros Hin. apply (Hdisj _ Hin). apply Hroots. left.
      - rewrite Hp1. exists na. split; [by eapply node_at_head_exact|done]. }
    destruct Hdes as (Hb_in & Hb_out & Hb_bl & Hb_tr & Hb_errno & Hb_env).
    assert (Hb_n : notifiers sb = notifiers s).
    { destruct Hb_env as (_ & _ & _ & _ & Hn' & _). congruence. }
    (* the others follow *)
    destruct (IH f sb na) as (s' & Hloop & Hin' & Hout' & Hc'' & Hbl' & Htr' & Herr'
                              & Henv'); try done.
    { rewrite Hb_out; [done|apply Hheadfp; by right]. }
    { rewrite Hb_out; [done|]. intros Hin. by apply (Hc1 c'). }
    { rewrite Hnxa. eapply fwd_next; [exact Hfwd|].
      intros k h Hk Hh.
      assert (Hkfp : k ∉ footprint k1).
      { intros Hin. apply (Hdisj _ Hin). by apply Hroots. }
      rewrite Hb_out by done.
      destruct ks as [|k2 ks']; [by apply elem_of_nil in Hk|].
      destruct Hk2 as (h2 & h2' & Hh2 & Hh2' & Hn2 & Hp2 & _).
      destruct (decide (k = root k2)) as [->|Hne].
      - rewrite Hh2 in Hh. injection Hh as <-. eauto.
      - exists h. split; [|done]. rewrite Hsame; [done| |].
        + intros ->. apply Hcks. by apply Hroots.
        + simpl. by intros [= <-]. }
    { destruct ks as [|k2 ks']; [done|].
      destruct Hk2 as (h2 & h2' & Hh2 & Hh2' & Hn2 & Hp2 & _).
      exists h2'. split; [|done]. rewrite Hb_out; [done|].
      intros Hin. apply (Hdisj _ Hin). apply Hroots. left. }
    { apply Forall_forall. intros k Hk.
      rewrite Forall_forall in Hrepr. specialize (Hrepr k Hk).
      assert (Hkfp : ∀ a, a ∈ footprint k → a ∈ flat_map footprint ks)
        by (intros a Ha; apply elem_of_flat_map; eauto).
      assert (Hk1fp : ∀ a, a ∈ footprint k → a ∉ footprint k1).
      { intros a Ha Hin. by apply (Hdisj _ Hin), Hkfp. }
      eapply repr_frame; [exact Hrepr|by eapply NoDup_flat_map_elem| | | | |].
      - intros a Ha Hroot. rewrite Hb_out by by apply Hk1fp.
        apply Hsame; [intros ->; by apply Hcks, Hkfp|].
        destruct ks as [|k2 ks']; [done|]. simpl. intros [= <-].
        apply elem_of_cons in Hk as [->|Hk]; [done|].
        simpl in Hndk.
        by apply (NoDup_flat_map_disjoint footprint k2 ks' (root k2) Hndk
                    (root_in_footprint _)), elem_of_flat_map; eauto.
      - intros h Hh. rewrite Hb_out by (apply Hk1fp, root_in_footprint).
        destruct ks as [|k2 ks']; [by apply elem_of_nil in Hk|].
        destruct Hk2 as (h2 & h2' & Hh2 & Hh2' & Hn2 & Hp2 & Hpp & Hpc).
        destruct (decide (root k = root k2)) as [E|Hne].
        + rewrite E in *. rewrite Hh2 in Hh. injection Hh as <-. eauto.
        + exists h. split; [|done]. rewrite Hsame; [done| |].
          * intros E. apply Hcks. rewrite <- E. apply Hkfp, root_in_footprint.
          * simpl. by intros [= E].
      - intros a Ha. destruct (decide (a ∈ footprint k1)) as [Hin|Hnin].
        + rewrite Hb_in in Ha by done. by destruct Ha.
        + rewrite Hb_out in Ha by done. by apply Hsa_dom.
      - intros a str Ha. rewrite Hb_out; [by apply Hsa_str|].
        intros Hin. destruct (repr_live _ _ _ _ _ Hrepr1 Hin) as (o & Ho & Hns).
        rewrite Ha in Ho. injection Ho as <-. by destruct (Hns str).
      - intros a Ha. rewrite Hb_bl by by apply Hk1fp. by rewrite Hsa_bl. }
    { by apply NoDup_cons. }
    { simpl in Hf. lia. }
    { by rewrite Hb_n. }
    { intros s'' Hag Hcc Hns''. apply Hctx.
      - intros a Hnin Hac. simpl in Hnin. apply not_elem_of_app in Hnin as [? ?].
        rewrite Hag by done. rewrite Hb_out by done. by apply Hsa_out.
      - done.
      - congruence. }
    exists s'. split.
    { cbn [del_children]. unfold list_top.
      rewrite bind_assoc.
      rewrite (bind_Ok (load_node_ok _ _ _
                          (node_at_head_exact _ _ _ _ _ Hhead Hc))).
      rewrite Hnx. destruct (Z.eqb_spec (root k1) (c' + offsetof_children));
        [done|].
      rewrite bind_ret_l. destruct (Z.eqb_spec (root k1) 0); [lia|].
      by rewrite (bind_Ok Hdel), (bind_Ok Hrun). }
    split.
    { intros k Hk. simpl in Hk. apply elem_of_app in Hk as [Hk|Hk];
        [|by apply Hin'].
      rewrite Hout'; [by apply Hb_in|by apply Hdisj|by apply Hc1]. }
    split.
    { intros k Hk Hkc. simpl in Hk. apply not_elem_of_app in Hk as [? ?].
      rewrite Hout', Hb_out by done. by apply Hsa_out. }
    split; [done|]. split.
    { intros k Hk. simpl in Hk. apply not_elem_of_app in Hk as [? ?].
      rewrite Hbl', Hb_bl by done. by rewrite Hsa_bl. }
    split.
    { rewrite Htr', Hb_tr. simpl. rewrite <- app_assoc. by rewrite Hsa. }
    split.
    { right. destruct Herr' as [->| ->]; [by rewrite Hb_errno, Hsa|].
      destruct Hb_env as (_ & -> & _). by rewrite Hsa. }
    eapply same_env_trans; [|exact Henv'].
    eapply same_env_trans; [|exact Hb_env]. rewrite Hsa. by repeat split.
Qed.

Lemma NoDup_fst_inj {A B} (l : list (A * B)) x y1 y2 :
  NoDup l.*1 → (x, y1) ∈ l → (x, y2) ∈ l → y1 = y2.
Proof.
  induction l as [|[a b] l IH]; intros Hnd H1 H2; [by apply elem_of_nil in H1|].
  rewrite fmap_cons in Hnd. apply NoDup_cons in Hnd as [Hnin Hnd]. simpl in Hnin.
  apply elem_of_cons in H1 as [E1|H1], H2 as [E2|H2].
  - congruence.
  - injection E1 as -> ->. destruct Hnin.
    by apply (list_elem_of_fmap_2 fst _ (a, y2)).
  - injection E2 as -> ->. destruct Hnin.
    by apply (list_elem_of_fmap_2 fst _ (a, y1)).
  - by apply IH.
Qed.

Lemma need_kid (k : tree) kids :
  k ∈ kids → (need k ≤ sum_list_with need kids)%nat.
Proof.
  induction kids as [|k' kids IH]; intros Hin; [by apply elem_of_nil in Hin|].
  simpl. apply elem_of_cons in Hin as [->|Hin]; [lia|].
  specialize (IH Hin). lia.
Qed.

Theorem del_tree_destroys : ∀ tr, spec tr.
Proof.
  induction tr as [t props lit kids IH] using tree_ind'.
  intros anc c fuel s Hrepr Hnd Hfuel Hquiet Hanc Hunl.
  cbn [repr root footprint need] in *.
  destruct Hrepr as (Ht & Hcbit & (h & sz & props' & Hh & Hpc & Hch & HF & Hsz
                                   & Hsz0 & Hblk & Hown) & Hk).
  destruct Hquiet as [Hq Hqk]. apply foldr_and_Forall in Hqk.
  destruct fuel as [|f]; [lia|].
  assert (Hlen : length props' = length props)
    by (symmetry; by eapply Forall2_length).
  assert (Hfst := Forall2_same_property_fst _ _ HF).
  apply NoDup_cons in Hnd as [Htnin Hnd].
  apply NoDup_app in Hnd as (Hndp & Hdisj & Hndk).
  assert (Htp : t ∉ props.*1) by (intros ?; apply Htnin, elem_of_app; by left).
  assert (Htk : t ∉ flat_map footprint kids)
    by (intros ?; apply Htnin, elem_of_app; by right).
  assert (Ht0 : t ≠ 0) by lia.
  (* the flag is set *)
  set (h1 := TalHdr (hlist h) (prop h) (Z.lor (parent_child h) 1)).
  set (s1 := set_heap <[t := Hdr h1]> s).
  assert (Hset : set_destroying_bit t s = Ok tt s1).
  { unfold set_destroying_bit. rewrite (bind_Ok (load_hdr_Some _ _ _ Ht0 Hh)).
    apply store_hdr_ok; [done|eauto]. }
  assert (Hh1 : heap s1 !! t = Some (Hdr h1)) by apply lookup_insert_eq.
  assert (Hs1 : ∀ k, k ≠ t → heap s1 !! k = heap s !! k).
  { intros k Hkt. subst s1. st_simpl. by rewrite lookup_insert_ne. }
  assert (Hch1 : chain (heap s1) (prop h) props' lit)
    by (apply chain_insert_hdr; eauto).
  (* the FREE notifiers of the node are called *)
  set (s2 := add_trace (fired t TAL_NOTIFY_FREE orig props') s1).
  assert (Hhp2 : heap s2 = heap s1) by done.
  assert (Hbl2 : blocks s2 = blocks s) by done.
  assert (Hprop_live : ∀ hp : gmap Z object,
            (∀ q o, (q, o) ∈ props' →
                    ∃ o', hp !! q = Some o' ∧ ∀ h', o' ≠ Hdr h') →
            (∀ str, heap s !! lit = Some (Str str) → hp !! lit = Some (Str str)) →
            prop h = 0 ∨ ∃ o, hp !! prop h = Some o ∧ ∀ h', o ≠ Hdr h').
  { intros hp Hp Hl. destruct props' as [|[q o] props'0]; simpl in Hch.
    - destruct Hch as [-> [->|(str & Hs & _)]]; [by left|].
      right. exists (Str str). split; [by apply Hl|done].
    - destruct Hch as (-> & _ & _ & _). right. apply (Hp q o). left. }
  assert (Hnot : notify cb f t TAL_NOTIFY_FREE orig s1 = Ok tt s2).
  { apply (notify_quiet cb f t h1 props' lit); [done|done|done|lia|].
    intros ev s1' Hev [evs ->]. rewrite (fired_same_property _ _ _ _ _ HF) in Hev.
    apply Hq; [done| |done].
    assert (Hag : agree_outside (t :: props.*1 ++ flat_map footprint kids) s
                    (add_trace evs s1)).
    { split; [|done]. intros k Hkn. st_simpl. apply Hs1. intros ->.
      apply Hkn. left. }
    apply Forall_cons. split; [|by apply Hanc].
    split; [done|]. exists h1. st_simpl. split; [done|].
    split; [apply get_destroying_bit_set|]. split; [|by apply (Hunl h Hh)].
    apply Hprop_live.
    - intros q o Hin. destruct (chain_elem _ _ _ _ _ _ Hch1 Hin) as [_ Ho].
      exists o. split; [done|]. by eapply chain_not_hdr.
    - intros str Hs. rewrite <- Hs. apply Hs1. intros E. rewrite E in Hs.
      congruence. }
  (* the children are destroyed *)
  assert (Hkids : ∃ s3,
    (match fst ∘ fst <$> first_of_type CHILDREN props' (PropOf t) with
     | Some l => let* c := load_ploc l in
                 del_children (λ i, del_tree cb f i orig) f c
     | None => ret tt
     end) s2 = Ok tt s3 ∧
    (∀ k, k ∈ flat_map footprint kids → heap s3 !! k = None) ∧
    (∀ k, k ∉ flat_map footprint kids →
          heap s3 !! k = heap s2 !! k ∨
          ∃ nx pa n pa' n', k ∈ props.*1 ∧
            heap s2 !! k = Some (Children nx pa n) ∧
            heap s3 !! k = Some (Children nx pa' n')) ∧
    (∀ k, k ∉ flat_map footprint kids → blocks s3 !! k = blocks s2 !! k) ∧
    trace s3 = trace s2 ++ flat_map (dying_trace orig) kids ∧
    same_env s2 s3).
  { destruct (first_of_type CHILDREN props (PropOf t)) as [[[loc c'] oc]|] eqn:Hfc.
    - destruct (first_of_type_same_property _ _ _ _ _ _ _ HF Hfc)
        as (oc' & Hfc' & Hsp).
      rewrite Hfc'. cbn [fmap option_fmap option_map compose fst].
      destruct Hk as [(Hhead & nxc & pac & n & Hc' & Hfwd & Hfirst) Hrk].
      apply foldr_and_Forall in Hrk.
      assert (Hc'p : c' ∈ props.*1).
      { apply first_of_type_elem in Hfc as [Hcin _].
        by apply (list_elem_of_fmap_2 fst _ (c', oc)). }
      assert (Hc't : c' ≠ t) by (intros ->; done).
      assert (Hc'k : c' ∉ flat_map footprint kids) by (by apply Hdisj).
      assert (Hkfp : ∀ k a, k ∈ kids → a ∈ footprint k →
                     a ∈ flat_map footprint kids)
        by (intros k a ? ?; apply elem_of_flat_map; eauto).
      assert (Hroots : ∀ k, k ∈ root <$> kids → k ≠ t).
      { intros k Hkr ->. apply list_elem_of_fmap_1 in Hkr as (kt & E & Hkt).
        apply Htk. rewrite E. eapply Hkfp; [done|apply root_in_footprint]. }
      assert (Hlp : load_ploc loc s2 = Ok c' s2).
      { eapply (first_of_type_loc CHILDREN s2 props' (PropOf t));
          [|exact Hch1|exact Hfc'].
        apply (load_ploc_PropOf t h1); done. }
      rewrite (bind_Ok Hlp).
      destruct (del_children_spec f (t :: anc) c' nxc pac kids f s2 n)
        as (s3 & Hrun & Hin3 & Hout3 & Hc3 & Hbl3 & Htr3 & _ & Henv3).
      + done.
      + st_simpl. rewrite Hs1; [done|]. intros E. rewrite E in Hhead. congruence.
      + st_simpl. by rewrite Hs1.
      + st_simpl. eapply fwd_agree; [done|]. intros k Hkr. by apply Hs1, Hroots.
      + destruct kids as [|k1 kids']; [done|].
        destruct Hfirst as (hk & Hhk & Hpk). exists hk. split; [|done].
        st_simpl. rewrite Hs1; [done|]. apply Hroots. left.
      + apply Forall_forall. intros k Hkin.
        rewrite Forall_forall in Hrk.
        eapply repr_frame; [by apply Hrk|by eapply NoDup_flat_map_elem| | | | |].
        * intros a Ha _. st_simpl. apply Hs1. intros ->.
          apply Htk. by eapply Hkfp.
        * intros hk Hhk. exists hk. split; [|done]. st_simpl.
          rewrite Hs1; [done|]. intros E. apply Htk. rewrite <- E.
          eapply Hkfp; [done|apply root_in_footprint].
        * intros a Ha. st_simpl. destruct (decide (a = t)) as [->|]; [eauto|].
          by rewrite Hs1 in Ha.
        * intros a str Ha. st_simpl. rewrite Hs1; [done|]. intros ->. congruence.
        * done.
      + by apply NoDup_cons.
      + lia.
      + apply Forall_forall. intros k Hkin. pose proof (need_kid k kids Hkin). lia.
      + done.
      + intros s' Hag Hcc Hns'. st_simpl.
        assert (Hag' : agree_outside (t :: props.*1 ++ flat_map footprint kids)
                         s s').
        { split; [|done]. intros k Hkn.
          apply not_elem_of_cons in Hkn as [Hkt Hkn].
          apply not_elem_of_app in Hkn as [Hkp Hkk].
          rewrite Hag; [by apply Hs1|done|]. by intros ->. }
        apply Forall_cons. split; [|by apply Hanc].
        split; [done|]. exists h1. split.
        { rewrite Hag; [done|done|congruence]. }
        split; [apply get_destroying_bit_set|]. split; [|by apply (Hunl h Hh)].
        apply Hprop_live.
        * intros q o Hin. destruct (chain_elem _ _ _ _ _ _ Hch1 Hin) as [_ Ho].
          destruct (decide (q = c')) as [->|Hqc].
          { destruct Hcc as [n' Hn']. eexists. split; [done|done]. }
          exists o. split; [|by eapply chain_not_hdr].
          rewrite Hag; [done| |done]. apply Hdisj. rewrite <- Hfst.
          by apply (list_elem_of_fmap_2 fst _ (q, o)).
        * intros str Hs. rewrite Hag.
          -- rewrite Hs1; [done|]. intros E. rewrite E in Hs. congruence.
          -- intros Hin. apply elem_of_flat_map in Hin as (k & Hkin & Hin).
             rewrite Forall_forall in Hrk.
             destruct (repr_live _ _ _ _ _ (Hrk k Hkin) Hin) as (o & Ho & Hns).
             rewrite Hs in Ho. injection Ho as <-. by destruct (Hns str).
          -- intros E. rewrite E in Hs. congruence.
      + exists s3. split; [done|]. split; [done|]. split; [|done].
        intros k Hkn. destruct (decide (k = c')) as [->|Hkc]; [|left; by apply Hout3].
        right. destruct Hc3 as [n' Hn'].
        exists nxc, pac, n, pac, n'. st_simpl. rewrite Hs1 by done. done.
    - subst kids.
      rewrite (first_of_type_same_property_None _ _ _ _ HF Hfc).
      exists s2. split; [done|]. split; [intros k Hkn; by apply elem_of_nil in Hkn|].
      split; [by left|]. split; [done|].
      split; [simpl; by rewrite app_nil_r|apply same_env_refl]. }
  destruct Hkids as (s3 & Hrun3 & Hin3 & Hout3 & Hbl3 & Htr3 & Henv3).
  assert (Hs3_exact : ∀ k, k ∉ props.*1 → k ∉ flat_map footprint kids →
                      heap s3 !! k = heap s2 !! k).
  { intros k Hkp Hkk. by destruct (Hout3 k Hkk) as [?|(?&?&?&?&?&?&_)]. }
  assert (Hs3_dom : ∀ k, is_Some (heap s3 !! k) → is_Some (heap s !! k)).
  { intros k Hlive. destruct (decide (k ∈ flat_map footprint kids)) as [Hin|Hnin].
    - rewrite Hin3 in Hlive by done. by destruct Hlive.
    - assert (Hlive2 : is_Some (heap s2 !! k)).
      { destruct (Hout3 k Hnin) as [E|(?&?&?&?&?&_&E&_)]; [by rewrite <- E|].
        rewrite E. eauto. }
      rewrite Hhp2 in Hlive2. destruct (decide (k = t)) as [->|]; [eauto|].
      by rewrite Hs1 in Hlive2. }
  assert (Hh3 : heap s3 !! t = Some (Hdr h1)).
  { rewrite Hs3_exact by done. by rewrite Hhp2. }
  (* the properties are released *)
  destruct (chain_same_property (heap s2) (heap s3) props' (prop h) lit Hch1)
    as (props'' & Hch3 & HF3).
  { intros q o Hin. destruct (chain_elem _ _ _ _ _ _ Hch1 Hin) as [_ Ho].
    assert (Hqnk : q ∉ flat_map footprint kids).
    { apply Hdisj. rewrite <- Hfst. by apply (list_elem_of_fmap_2 fst _ (q, o)). }
    destruct (Hout3 q Hqnk) as [E|(nx & pa & n & pa' & n' & _ & E2 & E3)].
    - exists o. split; [by rewrite E|apply same_property_refl].
    - rewrite Hhp2 in E2. rewrite E2 in Ho. injection Ho as <-.
      eexists. split; [done|]. simpl. eauto. }
  { intros Hl0. destruct (chain_literal _ _ _ _ Hch1) as [?|(str & Hs & _)];
      [done|].
    assert (Hlk : lit ∉ flat_map footprint kids).
    { intros Hin. apply elem_of_flat_map in Hin as (k & Hkin & Hin).
      destruct (first_of_type CHILDREN props (PropOf t)) as [[[loc c'] oc]|];
        [|subst kids; by apply elem_of_nil in Hkin].
      destruct Hk as [_ Hrk]. apply foldr_and_Forall in Hrk.
      rewrite Forall_forall in Hrk.
      destruct (repr_live _ _ _ _ _ (Hrk k Hkin) Hin) as (o & Ho & Hns).
      rewrite Hs1 in Hs by (intros E; rewrite E in Hs; congruence).
      rewrite Hs in Ho. injection Ho as <-. by destruct (Hns str). }
    destruct (Hout3 lit Hlk) as [E|(?&?&?&?&?&_&E&_)]; [done|].
    rewrite Hhp2 in E. rewrite E in Hs. done. }
  assert (HF' := Forall2_same_property_trans _ _ _ HF HF3).
  assert (Hfst' := Forall2_same_property_fst _ _ HF').
  assert (Hty'' : ∀ q o'', (q, o'') ∈ props'' →
                  ∃ o, (q, o) ∈ props ∧ obj_type o'' = obj_type o).
  { intros q o'' Hin.
    destruct (Forall2_same_property_elem _ _ _ _ HF' Hin) as (o & Hino & Hsp).
    exists o. split; [done|]. by apply same_property_type. }
  destruct (free_props_spec f props'' (prop h) lit s3 Hch3)
    as (s4 & Hrun4 & Hgone4 & Hkept4 & Hbl4 & Htr4 & Henv4).
  { by rewrite Hfst'. }
  { rewrite <- (Forall2_length _ _ _ HF3). lia. }
  { intros q o'' Hin Hnl. destruct (Hty'' q o'' Hin) as (o & Hino & Hty).
    specialize (Hown q o Hino). rewrite decide_False in Hown by congruence.
    destruct Hown as (szp & Hszp & Hszp0 & Hex). exists szp.
    split.
    { rewrite Hbl3; [by rewrite Hbl2|]. apply Hdisj.
      by apply (list_elem_of_fmap_2 fst _ (q, o)). }
    split; [done|]. intros k Hk' Hlive. apply Hex; [done|by apply Hs3_dom]. }
  assert (Hnotin : ∀ k, k ∉ props.*1 →
                   ∀ o, (k, o) ∈ props'' → obj_type o = Some LENGTH).
  { intros k Hkp o Hin. destruct Hkp. rewrite <- Hfst'.
    by apply (list_elem_of_fmap_2 fst _ (k, o)). }
  (* and the node itself *)
  assert (Hsz4 : blocks s4 !! t = Some sz).
  { rewrite Hbl4 by by apply Hnotin. rewrite Hbl3 by done. by rewrite Hbl2. }
  pose proof (freefn_ok _ _ _ Hsz4) as Hfree.
  set (s5 := set_errno (backend_errno s4)
               (set_heap (free_range t sz)
                  (set_blocks (delete t) (log (EvRelease t) s4)))) in Hfree.
  exists s5. split.
  { cbn [del_tree]. rewrite (bind_Ok (load_hdr_Some _ _ _ Ht0 Hh)).
    rewrite Hpc, Hcbit. cbn [negb]. rewrite (bind_Ok Hset), (bind_Ok Hnot).
    assert (Hfind : find_property_ptr f t CHILDREN s2
                    = Ok (fst ∘ fst <$> first_of_type CHILDREN props' (PropOf t))
                         s2).
    { unfold find_property_ptr.
      apply (find_property_ptr_from_chain CHILDREN f props' (PropOf t) (prop h)
               lit s2); [done| |done|lia].
      apply (load_ploc_PropOf t h1); done. }
    rewrite (bind_Ok Hfind), (bind_Ok Hrun3).
    rewrite (bind_Ok (load_hdr_Some _ _ _ Ht0 Hh3)).
    by rewrite (bind_Ok Hrun4). }
  assert (Henv : same_env s s4).
  { eapply same_env_trans; [|exact Henv4].
    eapply same_env_trans; [|exact Henv3]. by repeat split. }
  split; [|split; [|split; [|split; [|split]]]].
  - intros k Hkin. subst s5. st_simpl. rewrite free_range_lookup.
    destruct (decide (t ≤ k < t + sz)); [done|].
    apply elem_of_cons in Hkin as [->|Hkin]; [lia|].
    apply elem_of_app in Hkin as [Hkin|Hkin].
    + apply list_elem_of_fmap_1 in Hkin as ([q o] & -> & Hin). simpl in *.
      specialize (Hown q o Hin).
      destruct (decide (obj_type o = Some LENGTH)) as [Hl|Hnl]; [lia|].
      assert (Hq'' : q ∈ props''.*1).
      { rewrite Hfst'. by apply (list_elem_of_fmap_2 fst _ (q, o)). }
      apply list_elem_of_fmap_1 in Hq'' as ([q' o''] & E & Hin''). simpl in E.
      subst q'. apply (Hgone4 q o'' Hin'').
      destruct (Hty'' q o'' Hin'') as (o0 & Hin0 & ->).
      assert (o0 = o) as ->; [|done].
      eapply NoDup_fst_inj; [exact Hndp|exact Hin0|exact Hin].
    + rewrite Hkept4; [by apply Hin3|]. apply Hnotin. intros Hp.
      by apply (Hdisj _ Hp).
  - intros k Hkn. apply not_elem_of_cons in Hkn as [Hkt Hkn].
    apply not_elem_of_app in Hkn as [Hkp Hkk].
    subst s5. st_simpl. rewrite free_range_lookup.
    destruct (decide (t ≤ k < t + sz)) as [Hin|Hout].
    + destruct (heap s !! k) as [ok|] eqn:E; [|done].
      destruct (Hblk k Hin ltac:(eauto)) as [?|(o' & Hino & _)]; [done|].
      destruct Hkp. by apply (list_elem_of_fmap_2 fst _ (k, o')).
    + rewrite Hkept4 by by apply Hnotin.
      rewrite Hs3_exact by done. rewrite Hhp2. by apply Hs1.
  - intros k Hkn. apply not_elem_of_cons in Hkn as [Hkt Hkn].
    apply not_elem_of_app in Hkn as [Hkp Hkk].
    subst s5. st_simpl. rewrite lookup_delete_ne by done.
    rewrite Hbl4 by by apply Hnotin. by rewrite Hbl3, Hbl2.
  - subst s5. st_simpl. rewrite Htr4, Htr3.
    assert (trace s2 = trace s ++ fired t TAL_NOTIFY_FREE orig props') as ->
      by done.
    cbn [dying_trace].
    rewrite (fired_same_property _ _ _ _ _ HF).
    rewrite (releases_same_property _ _ HF').
    by rewrite <- !app_assoc.
  - subst s5. st_simpl. by destruct Henv as (_ & -> & _).
  - eapply same_env_trans; [exact Henv|]. subst s5. by repeat split.
Qed.

End Destroy.

(** ** Freeing a subtree *)

Lemma outside_node_at hp fp q : outside_node hp fp q → is_Some (node_at hp q).
Proof.
  intros [(hq & Hq & _)|(Hq & _ & _ & nx & pa & n & Hc)]; unfold node_at.
  - rewrite Hq. eauto.
  - rewrite Hq, Hc. eauto.
Qed.

Lemma outside_node_links_only hp hp' fp q :
  links_only hp hp' → outside_node hp fp q → outside_node hp' fp q.
Proof.
  intros HL [(hq & Hq & Hnin)|(Hq & Hnin & Hnin' & nx & pa & n & Hc)].
  - left. destruct (links_only_lookup _ _ _ _ HL Hq) as (o' & Ho' & He).
    apply erase_links_Hdr in He as (h' & -> & _). eauto.
  - right. split; [by eapply links_only_None|]. split; [done|]. split; [done|].
    destruct (links_only_lookup _ _ _ _ HL Hc) as (o' & Ho' & He).
    apply erase_links_Children in He as (n' & ->). eauto.
Qed.

Lemma node_at_agree_outside hp hp' fp q :
  outside_node hp fp q → (∀ k, k ∉ fp → hp' !! k = hp !! k) →
  node_at hp' q = node_at hp q.
Proof.
  intros [(hq & Hq & Hnin)|(Hq & Hnin & Hnin' & nx & pa & n & Hc)] Hag;
    unfold node_at.
  - by rewrite (Hag q Hnin), Hq.
  - by rewrite (Hag q Hnin), (Hag _ Hnin').
Qed.

Lemma store_node_outside fp q n s u s' :
  outside_node (heap s) fp q → store_node q n s = Ok u s' →
  ∀ k, k ∈ fp → heap s' !! k = heap s !! k.
Proof.
  intros Hout Hst k Hk.
  apply store_node_cases in Hst
    as [(h & Hq & ->)|(Hq & nx & pa & n0 & Hc & ->)]; st_simpl.
  - destruct Hout as [(hq & _ & Hnin)|(Hq' & _)]; [|congruence].
    rewrite lookup_insert_ne; [done|]. by intros ->.
  - destruct Hout as [(hq & Hq' & _)|(_ & _ & Hnin & _)]; [by destruct (Hq hq)|].
    rewrite lookup_insert_ne; [done|]. by intros <-.
Qed.

Lemma list_del_outside fp t h s :
  heap s !! t = Some (Hdr h) → t ∈ fp →
  outside_node (heap s) fp (next (hlist h)) →
  outside_node (heap s) fp (prev (hlist h)) →
  ∃ sa, list_del t s = Ok tt sa ∧ relinked s sa ∧
    (∀ k, k ∈ fp → heap sa !! k = heap s !! k) ∧
    (∀ hp' : gmap Z object, (∀ k, k ∉ fp → hp' !! k = heap sa !! k) →
           unlinked hp' (hlist h)).
Proof.
  intros Ht Htfp Hnx Hpv. unfold list_del.
  rewrite (bind_Ok (load_node_hdr _ _ _ Ht)).
  destruct (set_prev_runs (next (hlist h)) (prev (hlist h)) s
              (outside_node_at _ _ _ Hnx)) as (s1 & Hrun1 & R1 & Hsome1 & Hoth1).
  rewrite (bind_Ok Hrun1).
  pose proof (set_prev_relinked _ _ _ _ _ Hrun1) as (_ & (n1 & Hn1 & Hn1') & _).
  assert (Hfp1 : ∀ k, k ∈ fp → heap s1 !! k = heap s !! k).
  { unfold set_prev in Hrun1. bind_inv Hrun1 as n0 s0 Hl.
    apply pure_load_node_at in Hl as [-> _].
    exact (store_node_outside fp _ _ _ _ _ Hnx Hrun1). }
  assert (Ht1 : heap s1 !! t = Some (Hdr h)) by (by rewrite Hfp1).
  rewrite (bind_Ok (load_node_hdr _ _ _ Ht1)).
  assert (Hpv1 : outside_node (heap s1) fp (prev (hlist h)))
    by (eapply outside_node_links_only; [apply R1|done]).
  assert (Hnx1 : outside_node (heap s1) fp (next (hlist h)))
    by (eapply outside_node_links_only; [apply R1|done]).
  destruct (set_next_runs (prev (hlist h)) (next (hlist h)) s1
              (outside_node_at _ _ _ Hpv1)) as (s2 & Hrun2 & R2 & Hsome2 & Hoth2).
  pose proof (set_next_relinked _ _ _ _ _ Hrun2) as (_ & (n2 & Hn2 & Hn2') & _).
  assert (Hfp2 : ∀ k, k ∈ fp → heap s2 !! k = heap s1 !! k).
  { unfold set_next in Hrun2. bind_inv Hrun2 as n0 s0 Hl.
    apply pure_load_node_at in Hl as [-> _].
    exact (store_node_outside fp _ _ _ _ _ Hpv1 Hrun2). }
  exists s2. split; [done|]. split; [by eapply relinked_trans|].
  split; [intros k Hk; by rewrite Hfp2, Hfp1|].
  intros hp' Hag.
  assert (Hpv2 : outside_node (heap s2) fp (prev (hlist h)))
    by (eapply outside_node_links_only; [apply R2|done]).
  assert (Hnx2 : outside_node (heap s2) fp (next (hlist h)))
    by (eapply outside_node_links_only; [apply R2|done]).
  split.
  - rewrite (node_at_agree_outside _ _ _ _ Hnx2 Hag).
    destruct (decide (next (hlist h) = prev (hlist h))) as [E|Hne].
    + rewrite E, Hn2'. eexists. split; [done|]. simpl.
      rewrite E in Hn1'. rewrite Hn1' in Hn2. by injection Hn2 as <-.
    + rewrite Hoth2 by done. rewrite Hn1'. eauto.
  - rewrite (node_at_agree_outside _ _ _ _ Hpv2 Hag). rewrite Hn2'. eauto.
Qed.

Lemma tal_free_destroys cb fuel ctx s c tr evs :
  root tr = ctx - sizeof_tal_hdr →
  repr (heap s) (blocks s) c tr → NoDup (footprint tr) →
  (need tr ≤ fuel)%nat →
  quiet cb ctx (notifiers s) [] tr →
  (if notifiers s =? 0 then ret tt else
     let* h := load_hdr (ctx - sizeof_tal_hdr) in
     let* c := load (ignore_destroying_bit (parent_child h)) in
     match c with
     | Children _ parent _ => notify cb fuel parent TAL_NOTIFY_DEL_CHILD ctx
     | _ => undef
     end) s = Ok tt (add_trace evs s) →
  (∀ h, heap s !! (ctx - sizeof_tal_hdr) = Some (Hdr h) →
        outside_node (heap s) (footprint tr) (next (hlist h)) ∧
        outside_node (heap s) (footprint tr) (prev (hlist h))) →
  ∃ sa s',
    list_del (ctx - sizeof_tal_hdr) (add_trace evs s) = Ok tt sa ∧
    relinked (add_trace evs s) sa ∧
    (∀ k, k ∈ footprint tr → heap sa !! k = heap s !! k) ∧
    tal_free cb fuel ctx s = Ok NULL s' ∧
    errno s' = errno s ∧
    (∀ k, k ∈ footprint tr → heap s' !! k = None) ∧
    (∀ k, k ∉ footprint tr → heap s' !! k = heap sa !! k) ∧
    (∀ k, k ∉ footprint tr → blocks s' !! k = blocks s !! k) ∧
    trace s' = trace s ++ evs ++ dying_trace ctx tr ∧
    same_env s s'.
Proof.
  intros Hroot Hrepr Hnd Hfuel Hquiet Hdc Hnb.
  destruct (repr_root _ _ _ _ Hrepr) as (Ht0 & Hcbit & h & Hh & Hpc).
  rewrite Hroot in *.
  destruct (Hnb h Hh) as [Hnx Hpv].
  assert (Hto : to_tal_hdr ctx s = Ok (ctx - sizeof_tal_hdr) s).
  { destruct tr as [t props lit kids]. cbn [repr root] in *. subst t.
    destruct Hrepr as (_ & _ & (h0 & sz & props' & Hh0 & _ & Hch & _) & _).
    apply (to_tal_hdr_ok ctx h0 props' lit); [lia|done|done]. }
  set (sn := add_trace evs s) in *.
  assert (Htfp : ctx - sizeof_tal_hdr ∈ footprint tr)
    by (rewrite <- Hroot; apply root_in_footprint).
  destruct (list_del_outside (footprint tr) _ h sn Hh Htfp Hnx Hpv)
    as (sa & Hdel & Rsa & Hfpa & Hunl).
  pose proof (relinked_fields _ _ Rsa) as (Hbla & Hbea & Heaa & Hina & Hnoa & Htra
                                           & Herra).
  destruct Rsa as [HLa Hsa].
  assert (Hbna : backend_errno sa = backend_errno s) by (by rewrite Hsa).
  assert (Htka : takenarr sa = takenarr s) by (by rewrite Hsa).
  destruct (del_tree_destroys cb ctx tr [] c fuel sa) as (sb & Hrun & Hdes).
  - eapply repr_frame; [exact Hrepr|done| | | | |].
    + intros k Hk _. by apply Hfpa.
    + intros h' Hh'. exists h'. split; [|done]. rewrite Hroot.
      rewrite Hroot in Hh'. rewrite <- Hh'. by apply Hfpa.
    + intros k [o Ho].
      destruct (links_only_lookup _ _ _ _ (links_only_sym _ _ HLa) Ho)
        as (o' & Ho' & _). eauto.
    + intros k str Hs.
      destruct (links_only_lookup _ _ _ _ HLa Hs) as (o' & Ho' & He).
      rewrite Ho'. destruct o'; simpl in He; congruence.
    + intros k _. by rewrite Hbla.
  - done.
  - done.
  - by rewrite Hnoa.
  - intros s' _. constructor.
  - intros h0 Hh0 s' [Hag _]. rewrite Hroot in Hh0.
    rewrite Hfpa in Hh0 by done.
    assert (h0 = h) as -> by (subst sn; st_simpl; congruence).
    by apply Hunl.
  - destruct Hdes as (Hb_in & Hb_out & Hb_bl & Hb_tr & Hb_errno & Hb_env).
    exists sa, (set_errno (errno s) sb).
    split; [done|]. split; [done|]. split; [done|]. split.
    { unfold tal_free. destruct (Z.eqb_spec ctx 0) as [E|_];
        [unfold sizeof_tal_hdr in *; lia|].
      rewrite bind_get, (bind_Ok Hto), (bind_Ok Hdc), (bind_Ok Hdel).
      rewrite <- Hroot. by rewrite (bind_Ok Hrun). }
    st_simpl. split; [done|]. split; [done|]. split; [done|]. split.
    { intros k Hk. by rewrite Hb_bl, Hbla. }
    split; [rewrite Hb_tr, Htra; subst sn; st_simpl; by rewrite app_assoc|].
    destruct Hb_env as (?&?&?&?&?&?). subst sn. st_simpl.
    unfold same_env. st_simpl. repeat split; congruence.
Qed.

(** ** The flag in the parent reference *)

Lemma size_mask_bits i :
  0 ≤ i → Z.testbit (SIZE_MAX - 1) i = bool_decide (1 ≤ i < 64).
Proof.
  intros Hi.
  change (SIZE_MAX - 1) with (Z.shiftl (Z.ones 63) 1).
  rewrite Z.shiftl_spec by done.
  destruct (decide (1 ≤ i < 64)) as [H|H].
  - rewrite bool_decide_eq_true_2 by done. apply Z.ones_spec_low. lia.
  - rewrite bool_decide_eq_false_2 by done.
    destruct (decide (i = 0)) as [->|]; [done|].
    apply Z.ones_spec_high. lia.
Qed.

Lemma pointer_bits_high p i : 0 ≤ p < SIZE_MOD → 64 ≤ i → Z.testbit p i = false.
Proof.
  intros Hp Hi. rewrite <- (Z.mod_small p (2 ^ 64)) by done.
  apply Z.mod_pow2_bits_high. lia.
Qed.

Lemma ignore_destroying_bit_clear p :
  0 ≤ p < SIZE_MOD → get_destroying_bit p = false →
  ignore_destroying_bit p = p.
Proof.
  intros Hp Hb. unfold ignore_destroying_bit, get_destroying_bit in *.
  apply negb_false_iff, Z.eqb_eq in Hb.
  apply Z.bits_inj'. intros i Hi.
  rewrite Z.land_spec, size_mask_bits by done.
  destruct (decide (1 ≤ i < 64)).
  - rewrite bool_decide_eq_true_2 by done. apply andb_true_r.
  - rewrite bool_decide_eq_false_2 by done. rewrite andb_false_r.
    destruct (decide (i = 0)) as [->|].
    + symmetry. rewrite <- (andb_true_r (Z.testbit p 0)).
      change true with (Z.testbit 1 0). by rewrite <- Z.land_spec, Hb.
    + symmetry. apply pointer_bits_high; [done|lia].
Qed.

Lemma ignore_destroying_bit_set p :
  0 ≤ p < SIZE_MOD → get_destroying_bit p = false →
  ignore_destroying_bit (Z.lor p 1) = p.
Proof.
  intros Hp Hb. rewrite <- (ignore_destroying_bit_clear p Hp Hb) at 2.
  unfold ignore_destroying_bit.
  apply Z.bits_inj'. intros i Hi.
  rewrite !Z.land_spec, Z.lor_spec, size_mask_bits by done.
  destruct (decide (1 ≤ i < 64)).
  - rewrite bool_decide_eq_true_2 by done. rewrite !andb_true_r.
    assert (Z.testbit 1 i = false) as ->; [|apply orb_false_r].
    change 1 with (Z.ones 1). apply Z.ones_spec_high. lia.
  - rewrite bool_decide_eq_false_2 by done. by rewrite !andb_false_r.
Qed.

(** X1.  [set_destroying_bit] on the header of a node whose parent reference
    is a pointer (it fits [size_t] and its lowest bit is clear) sets the flag
    that [get_destroying_bit] reads, and [ignore_destroying_bit] still gives
    the parent reference, before and after; nothing else is written. *)
Theorem set_destroying_bit_round_trip t h s :
  t ≠ 0 → heap s !! t = Some (Hdr h) →
  0 ≤ parent_child h < SIZE_MOD → get_destroying_bit (parent_child h) = false →
  ∃ s' h',
    set_destroying_bit t s = Ok tt s' ∧
    heap s' = <[t := Hdr h']> (heap s) ∧
    hlist h' = hlist h ∧ prop h' = prop h ∧
    get_destroying_bit (parent_child h') = true ∧
    ignore_destroying_bit (parent_child h') = parent_child h ∧
    ignore_destroying_bit (parent_child h) = parent_child h.
Proof.
  intros Ht Hh Hp Hb.
  exists (set_heap <[t := Hdr (TalHdr (hlist h) (prop h)
                                 (Z.lor (parent_child h) 1))]> s).
  eexists. split; [|split; [reflexivity|]].
  - unfold set_destroying_bit.
    rewrite (bind_Ok (load_hdr_Some _ _ _ Ht Hh)).
    apply store_hdr_ok; [done|]. rewrite Hh. eauto.
  - simpl. split; [done|]. split; [done|].
    split; [apply get_destroying_bit_set|]. split.
    + by apply ignore_destroying_bit_set.
    + by apply ignore_destroying_bit_clear.
Qed.

(** ** Freeing with callbacks that do nothing *)

Lemma quiet_passive orig N : ∀ tr anc, quiet passive orig N anc tr.
Proof.
  induction tr as [t props lit kids IH] using tree_ind'. intros anc.
  simpl. split; [done|]. apply foldr_and_Forall.
  eapply Forall_impl; [exact IH|]. intros k Hk. apply Hk.
Qed.

(** X2.  [tal_free] on a node whose subtree [tr] is laid out in the heap, with
    callbacks that do nothing: it returns [NULL] and leaves [errno] as it was;
    the notifiers of the parent hear [TAL_NOTIFY_DEL_CHILD] first (when the
    counter is not zero), then the subtree is destroyed as [dying_trace]
    tells; every object of the subtree is gone, and every other object and
    block is still there, sibling links apart. *)
Theorem tal_free_releases_subtree fuel ctx s c tr nxc parent hd hpar lpar litp :
  root tr = ctx - sizeof_tal_hdr →
  repr (heap s) (blocks s) c tr → NoDup (footprint tr) →
  (need tr ≤ fuel)%nat →
  0 ≤ c < SIZE_MOD → c ≠ 0 → heap s !! c = Some (Children nxc parent hd) →
  parent ≠ 0 → heap s !! parent = Some (Hdr hpar) →
  chain (heap s) (prop hpar) lpar litp → (length lpar < fuel)%nat →
  (∀ h, heap s !! (ctx - sizeof_tal_hdr) = Some (Hdr h) →
        outside_node (heap s) (footprint tr) (next (hlist h)) ∧
        outside_node (heap s) (footprint tr) (prev (hlist h))) →
  ∃ s',
    tal_free passive fuel ctx s = Ok NULL s' ∧
    errno s' = errno s ∧
    (∀ k, k ∈ footprint tr → heap s' !! k = None) ∧
    (∀ k, k ∉ footprint tr →
          erase_links <$> heap s' !! k = erase_links <$> heap s !! k) ∧
    (∀ k, k ∉ footprint tr → blocks s' !! k = blocks s !! k) ∧
    trace s' = trace s
               ++ (if notifiers s =? 0 then []
                   else fired parent TAL_NOTIFY_DEL_CHILD ctx lpar)
               ++ dying_trace ctx tr ∧
    same_env s s'.
Proof.
  intros Hroot Hrepr Hnd Hfuel Hc Hc0 Hcc Hp0 Hpar Hch Hlen Hnb.
  set (evs := if notifiers s =? 0 then []
              else fired parent TAL_NOTIFY_DEL_CHILD ctx lpar).
  destruct (repr_root _ _ _ _ Hrepr) as (Ht0 & Hcbit & h & Hh & Hpc).
  rewrite Hroot in *.
  assert (Hdc :
    (if notifiers s =? 0 then ret tt else
       let* h := load_hdr (ctx - sizeof_tal_hdr) in
       let* c := load (ignore_destroying_bit (parent_child h)) in
       match c with
       | Children _ parent _ => notify passive fuel parent TAL_NOTIFY_DEL_CHILD ctx
       | _ => undef
       end) s = Ok tt (add_trace evs s)).
  { unfold evs. destruct (notifiers s =? 0); [by rewrite add_trace_nil|].
    rewrite (bind_Ok (load_hdr_Some (ctx - sizeof_tal_hdr) h s ltac:(lia) Hh)).
    rewrite Hpc, (ignore_destroying_bit_clear c Hc Hcbit).
    rewrite (bind_Ok (load_Some _ _ _ Hc0 Hcc)).
    by apply (notify_passive fuel parent hpar lpar litp). }
  destruct (tal_free_destroys passive fuel ctx s c tr evs Hroot Hrepr Hnd Hfuel
              (quiet_passive _ _ _ _) Hdc Hnb)
    as (sa & s' & Hdel & Hrel & Hfp & Hrun & Herr & Hgone & Hout & Hbl & Htr & Henv).
  exists s'. split; [done|]. split; [done|]. split; [done|].
  split; [|done].
  intros k Hk. rewrite (Hout k Hk). destruct Hrel as [HL _]. apply HL.
Qed.

(** ** Destructors that free nodes under destruction *)

Lemma fired_elem ctx type info l ev :
  ev ∈ fired ctx type info l →
  ∃ q nx types fn, (q, Notifier nx types fn) ∈ l ∧ Z.land types type ≠ 0 ∧
    (ev = EvNotify fn (from_tal_hdr ctx) type info
     ∨ ev = EvDestroy fn (from_tal_hdr ctx)).
Proof.
  unfold fired. rewrite elem_of_flat_map. intros ([q o] & Hin & Hev).
  unfold fire in Hev. cbn [snd] in Hev.
  destruct o; try by apply elem_of_nil in Hev.
  destruct (Z.eqb_spec (Z.land types type) 0); [by apply elem_of_nil in Hev|].
  exists q, nxt, types, fn. split; [done|]. split; [done|].
  destruct (Z.land types NOTIFY_IS_DESTRUCTOR =? 0);
    apply list_elem_of_singleton in Hev; auto.
Qed.

Lemma script_quiet script cbfuel n orig : ∀ tr anc,
  script_ok script anc tr →
  quiet (reentrant script (S cbfuel) (S n)) orig 0 anc tr.
Proof.
  induction tr as [t props lit kids IH] using tree_ind'. intros anc [Hs Hk].
  cbn [quiet]. split.
  - intros ev s1 Hev Hdy Hn.
    apply fired_elem in Hev as (q & nx & types & fn & Hin & Hty & Hev).
    specialize (Hs q nx types fn Hin Hty).
    assert (Hrun : ∀ target, script fn = Some target →
              (do* tal_free (reentrant script (S cbfuel) n) (S cbfuel) target
               in ret tt) s1 = Ok tt s1).
    { intros target E. rewrite E in Hs. destruct Hs as (y & Hy & ->).
      rewrite Forall_forall in Hdy.
      by rewrite (bind_Ok (tal_free_dying _ cbfuel y s1 (Hdy y Hy) Hn)). }
    destruct Hev as [-> | ->]; cbn [reentrant];
      (destruct (script fn) as [target|] eqn:E; [by apply Hrun|done]).
  - apply foldr_and_Forall. apply foldr_and_Forall in Hk.
    rewrite Forall_forall in IH, Hk. apply Forall_forall.
    intros k Hin. apply IH; [done|]. by apply Hk.
Qed.

Lemma released_app l1 l2 : released (l1 ++ l2) = released l1 ++ released l2.
Proof. apply omap_app. Qed.

Lemma released_fired ctx type info l : released (fired ctx type info l) = [].
Proof.
  induction l as [|[q o] l IH]; [done|].
  unfold fired in *. cbn [flat_map]. rewrite released_app, IH, app_nil_r.
  unfold fire. cbn [snd]. destruct o; try done.
  destruct (Z.land types type =? 0); [done|].
  by destruct (Z.land types NOTIFY_IS_DESTRUCTOR =? 0).
Qed.

Lemma released_releases props : released (releases props) ⊆+ props.*1.
Proof.
  induction props as [|[q o] l IH]; [done|].
  unfold releases in *. cbn [flat_map fmap list_fmap fst].
  rewrite released_app.
  cbn [snd fst]. destruct (decide (obj_type o = Some LENGTH)).
  - by apply submseteq_cons.
  - by apply submseteq_skip.
Qed.

Lemma submseteq_NoDup {A} (l k : list A) : l ⊆+ k → NoDup k → NoDup l.
Proof.
  intros Hsub Hnd. apply submseteq_sublist_l in Hsub as (l2 & Hsl & Hp).
  apply (sublist_NoDup _ l2); [|done]. by rewrite Hp.
Qed.

(** What a destruction gives back to the backend lies in the footprint of
    the subtree. *)
Lemma released_dying_trace orig : ∀ tr,
  released (dying_trace orig tr) ⊆+ footprint tr.
Proof.
  induction tr as [t props lit kids IH] using tree_ind'.
  cbn [dying_trace footprint].
  rewrite !released_app, released_fired. cbn [app].
  change (released [EvRelease t]) with [t].
  rewrite (assoc_L (++)). rewrite <- Permutation_cons_append.
  apply submseteq_skip.
  rewrite (comm (++)). apply submseteq_app; [apply released_releases|].
  induction IH as [|k kids Hk _ IHk]; [done|].
  cbn [flat_map]. rewrite released_app. by apply submseteq_app.
Qed.

(** X3.  [tal_free] with destructors and FREE notifiers that call [tal_free]
    on their own node or on one of its ancestors inside the subtree being
    freed, while no notifier is counted: the inner calls return at once, the
    outer call ends, and the subtree is destroyed exactly as with callbacks
    that do nothing; every block is given back once. *)
Theorem tal_free_with_reentrant_destructors
    script cbfuel n fuel ctx s c tr :
  root tr = ctx - sizeof_tal_hdr →
  repr (heap s) (blocks s) c tr → NoDup (footprint tr) →
  (need tr ≤ fuel)%nat →
  notifiers s = 0 →
  script_ok script [] tr →
  (∀ h, heap s !! (ctx - sizeof_tal_hdr) = Some (Hdr h) →
        outside_node (heap s) (footprint tr) (next (hlist h)) ∧
        outside_node (heap s) (footprint tr) (prev (hlist h))) →
  ∃ s',
    tal_free (reentrant script (S cbfuel) (S n)) fuel ctx s = Ok NULL s' ∧
    errno s' = errno s ∧
    (∀ k, k ∈ footprint tr → heap s' !! k = None) ∧
    (∀ k, k ∉ footprint tr → blocks s' !! k = blocks s !! k) ∧
    trace s' = trace s ++ dying_trace ctx tr ∧
    NoDup (released (dying_trace ctx tr)).
Proof.
  intros Hroot Hrepr Hnd Hfuel Hn Hs Hnb.
  assert (Hq : quiet (reentrant script (S cbfuel) (S n)) ctx (notifiers s) [] tr)
    by (rewrite Hn; by apply script_quiet).
  assert (Hdc :
    (if notifiers s =? 0 then ret tt else
       let* h := load_hdr (ctx - sizeof_tal_hdr) in
       let* c := load (ignore_destroying_bit (parent_child h)) in
       match c with
       | Children _ parent _ =>
           notify (reentrant script (S cbfuel) (S n)) fuel parent
                  TAL_NOTIFY_DEL_CHILD ctx
       | _ => undef
       end) s = Ok tt (add_trace [] s)).
  { rewrite Hn. by rewrite add_trace_nil. }
  destruct (tal_free_destroys _ fuel ctx s c tr [] Hroot Hrepr Hnd Hfuel Hq Hdc Hnb)
    as (sa & s' & _ & _ & _ & Hrun & Herr & Hgone & _ & Hbl & Htr & _).
  exists s'. split; [done|]. split; [done|]. split; [done|]. split; [done|].
  split; [done|].
  eapply submseteq_NoDup; [apply released_dying_trace|exact Hnd].
Qed.

Lemma tal_free_flagged cb f y s s1 :
  flagged s y → notifiers s = 0 → list_del y s = Ok tt s1 →
  tal_free cb (S f) (from_tal_hdr y) s = Ok NULL s1.
Proof.
  intros (Hy0 & h & Hy & Hbit & Hprop) Hn Hdel. unfold tal_free.
  assert (Hty : from_tal_hdr y - sizeof_tal_hdr = y)
    by (unfold from_tal_hdr; lia).
  destruct (Z.eqb_spec (from_tal_hdr y) 0) as [E|_];
    [unfold from_tal_hdr, sizeof_tal_hdr in E; lia|].
  rewrite bind_get.
  assert (Hto : to_tal_hdr (from_tal_hdr y) s = Ok y s).
  { unfold to_tal_hdr. rewrite Hty.
    rewrite (bind_Ok (load_hdr_Some y h s ltac:(lia) Hy)).
    destruct (Z.eqb_spec (prop h) 0) as [|Hp0]; [done|].
    destruct Hprop as [?|(o & Ho & Hnh)]; [done|].
    unfold is_literal. rewrite bind_assoc.
    rewrite (bind_Ok (load_Some _ _ _ Hp0 Ho)).
    destruct o; try done. by destruct (Hnh h0). }
  rewrite (bind_Ok Hto). rewrite Hn. simpl (0 =? 0). cbn iota.
  rewrite bind_ret_l. rewrite (bind_Ok Hdel).
  pose proof (list_del_relinked _ _ _ _ Hdel) as R.
  destruct (links_only_lookup _ _ _ _ (proj1 R) Hy) as (o & Ho & He).
  apply erase_links_Hdr in He as (h1 & -> & _ & Hpc).
  assert (Hdt : del_tree cb (S f) y (from_tal_hdr y) s1 = Ok tt s1).
  { cbn [del_tree]. rewrite (bind_Ok (load_hdr_Some y h1 s1 ltac:(lia) Ho)).
    by rewrite Hpc, Hbit. }
  rewrite (bind_Ok Hdt).
  pose proof (relinked_fields _ _ R) as (_ & _ & _ & _ & _ & _ & Herrno).
  unfold modify, bind, ret. rewrite <- Herrno. by destruct s1.
Qed.

(** X4.  [tal_free] on a node whose parent reference carries the destroying
    flag, while no notifier is counted, whatever the callbacks are:
    [tal_free] runs [list_del] on the node before [del_tree] tests the
    flag, so the call does what [list_del] does (the neighbours the node
    names are linked to each other), returns [NULL], and does nothing
    more.  On a node under destruction, which [del_children] or an outer
    [tal_free] has already taken off its list (its neighbours are linked
    to each other), the call changes nothing at all. *)
Theorem tal_free_while_being_destroyed cb f y s :
  (flagged s y → notifiers s = 0 →
   ∀ s1, list_del y s = Ok tt s1 →
         tal_free cb (S f) (from_tal_hdr y) s = Ok NULL s1) ∧
  (dying s y → notifiers s = 0 →
   tal_free cb (S f) (from_tal_hdr y) s = Ok NULL s).
Proof.
  split.
  - intros Hfl Hn s1 Hdel. by apply tal_free_flagged.
  - apply tal_free_dying.
Qed.

(** ** Checking that a heap holds a subtree *)

Lemma forallb_Forall_true {A} (f : A → bool) l :
  forallb f l = true → Forall (λ x, f x = true) l.
Proof.
  intros H. apply Forall_forall. intros x Hx.
  rewrite forallb_forall in H. apply H. by apply list_elem_of_In.
Qed.

Lemma same_property_b_sound o o' : same_property_b o o' = true → same_property o o'.
Proof.
  destruct o; simpl; try (intros H; by apply bool_decide_eq_true_1 in H).
  destruct o'; try done. intros H. apply bool_decide_eq_true_1 in H as ->. eauto.
Qed.

Lemma chain_b_sound hp : ∀ l p lit, chain_b hp p l lit = true → chain hp p l lit.
Proof.
  induction l as [|[q o] l IH]; intros p lit; simpl.
  - intros [H1 H2]%andb_true_iff. apply bool_decide_eq_true_1 in H1 as ->.
    split; [done|]. apply orb_true_iff in H2 as [H|H].
    + left. by apply bool_decide_eq_true_1 in H.
    + right. destruct (hp !! lit) as [[]|]; try done.
      eexists. split; [done|]. apply negb_true_iff, Z.eqb_neq in H. done.
  - intros [[[H1 H2]%andb_true_iff H3]%andb_true_iff H4]%andb_true_iff.
    apply bool_decide_eq_true_1 in H1 as ->.
    apply negb_true_iff, Z.eqb_neq in H2.
    apply bool_decide_eq_true_1 in H3.
    repeat split; [done..|].
    destruct (obj_next o); [by apply IH|done].
Qed.

Lemma fwd_b_sound hp head : ∀ ks from, fwd_b hp from ks head = true → fwd hp from ks head.
Proof.
  induction ks as [|k ks IH]; intros from; simpl.
  - intros H. by apply bool_decide_eq_true_1 in H.
  - intros [[H1 H2]%andb_true_iff H3]%andb_true_iff.
    apply bool_decide_eq_true_1 in H1 as ->.
    apply negb_true_iff, Z.eqb_neq in H2.
    split; [done|]. split; [done|].
    destruct (hp !! k) as [[h| | | | |]|]; try done.
    exists h. split; [done|]. by apply IH.
Qed.

Lemma lists_b_sound hp c ks : lists_b hp c ks = true → lists hp c ks.
Proof.
  unfold lists_b, lists. intros [H1 H2]%andb_true_iff.
  apply bool_decide_eq_true_1 in H1. split; [done|].
  destruct (hp !! c) as [[|nx pa n| | | |]|]; try done.
  apply andb_true_iff in H2 as [H2 H3].
  exists nx, pa, n. split; [done|]. split; [by apply fwd_b_sound|].
  destruct ks as [|k ks]; [done|].
  destruct (hp !! k) as [[h| | | | |]|]; try done.
  exists h. split; [done|]. by apply bool_decide_eq_true_1 in H3.
Qed.

Lemma alone_b_sound hp lo sz ok k :
  alone_b hp lo sz ok = true → lo ≤ k < lo + sz → is_Some (hp !! k) →
  k = lo ∨ k ∈ ok.
Proof.
  intros H Hk [o Ho]. apply bool_decide_eq_true_1 in H.
  by apply (H k o Ho).
Qed.

Lemma repr_b_sound hp bl : ∀ tr c, repr_b hp bl c tr = true → repr hp bl c tr.
Proof.
  induction tr as [t props lit kids IH] using tree_ind'. intros c.
  cbn [repr_b repr].
  intros [[[H1 H2]%andb_true_iff H3]%andb_true_iff H4]%andb_true_iff.
  apply bool_decide_eq_true_1 in H1. apply negb_true_iff in H2.
  split; [done|]. split; [done|]. split.
  - destruct (hp !! t) as [[h| | | | |]|] eqn:Ht; try done.
    destruct (bl !! t) as [sz|] eqn:Hsz; [|done].
    apply andb_true_iff in H3 as [H3 Hown].
    apply andb_true_iff in H3 as [H3 Halone].
    apply andb_true_iff in H3 as [H3 Hsz0].
    apply andb_true_iff in H3 as [H3 Hsame].
    apply andb_true_iff in H3 as [Hpc Hch].
    apply bool_decide_eq_true_1 in Hpc, Hsz0.
    exists h, sz, ((λ qo, (qo.1, default qo.2 (hp !! qo.1))) <$> props).
    split; [done|]. split; [done|]. split; [by apply chain_b_sound|].
    split.
    { apply Forall2_fmap_r. apply Forall_Forall2_diag.
      apply forallb_Forall_true in Hsame. eapply Forall_impl; [exact Hsame|].
      intros [q o] Hq. simpl in *. split; [done|].
      by apply same_property_b_sound. }
    split; [done|]. split; [done|]. split.
    { intros k Hk Hsome.
      destruct (alone_b_sound _ _ _ _ _ Halone Hk Hsome) as [?|Hin]; [by left|].
      right. unfold lengths in Hin.
      apply list_elem_of_fmap in Hin as ([q o] & -> & Hin).
      apply list_elem_of_filter in Hin as [Hty Hin]. eauto. }
    intros p o Hin. apply forallb_Forall_true in Hown.
    rewrite Forall_forall in Hown. specialize (Hown _ Hin). cbn [fst snd] in Hown.
    destruct (decide (obj_type o = Some LENGTH)).
    + by apply bool_decide_eq_true_1 in Hown.
    + destruct (bl !! p) as [szp|]; [|done].
      apply andb_true_iff in Hown as [Hp0 Hal].
      apply bool_decide_eq_true_1 in Hp0.
      exists szp. split; [done|]. split; [done|].
      intros k Hk Hsome.
      destruct (alone_b_sound _ _ _ _ _ Hal Hk Hsome) as [?|Hn]; [done|].
      by apply elem_of_nil in Hn.
  - destruct (first_of_type CHILDREN props (PropOf t)) as [[[loc c'] oc]|].
    + apply andb_true_iff in H4 as [Hl Hk]. split; [by apply lists_b_sound|].
      apply foldr_and_Forall. apply forallb_Forall_true in Hk.
      rewrite Forall_forall in IH, Hk. apply Forall_forall.
      intros k Hin. apply IH; [done|]. by apply Hk.
    + by destruct kids.
Qed.

(** ** Allocation that fails *)

Lemma pure_to_tal_hdr_or_null ctx : pure (to_tal_hdr_or_null ctx).
Proof.
  unfold to_tal_hdr_or_null. destruct (ctx =? 0); [apply pure_ret|].
  apply pure_to_tal_hdr.
Qed.

Lemma allocate_refused_any size s :
  refused s →
  allocate size s
  = let s' := add_trace [EvAlloc size NULL; EvError "allocation failed"]
                (set_backend (tail (backend s)) s) in
    if error_aborts s then Abort s' else Ok NULL s'.
Proof.
  intros Hr. destruct (error_aborts s) eqn:He; [|by apply allocate_refused].
  unfold allocate, allocfn, bind, call_error.
  destruct Hr as [Hb|[rest Hb]]; rewrite Hb; simpl; rewrite He;
    f_equal; destruct s; simpl in *; subst;
    unfold add_trace, log, set_backend; simpl; by rewrite <- app_assoc.
Qed.

(** X5.  [tal_alloc_] when the backend has no memory for the header: the error
    hook hears "allocation failed"; if it returns, [tal_alloc_] returns
    [NULL], and nothing in memory has changed. *)
Theorem tal_alloc_backend_refuses cb fuel ctx size clear label s parent :
  to_tal_hdr_or_null ctx s = Ok parent s → refused s →
  tal_alloc_ cb fuel ctx size clear label s
  = let s' := add_trace [EvAlloc (wrap (sizeof_tal_hdr + size)) NULL;
                         EvError "allocation failed"]
                (set_backend (tail (backend s)) s) in
    if error_aborts s then Abort s' else Ok NULL s'.
Proof.
  intros Hto Hr. unfold tal_alloc_. rewrite (bind_Ok Hto).
  unfold bind at 1. rewrite (allocate_refused_any _ _ Hr). cbv zeta.
  by destruct (error_aborts s).
Qed.

Lemma free_range_fresh a sz o hp :
  0 < sz → (∀ k, a ≤ k < a + sz → hp !! k = None) →
  free_range a sz (<[a := o]> hp) = hp.
Proof.
  intros Hsz Hfresh. apply map_eq. intros k. rewrite free_range_lookup.
  destruct (decide (a ≤ k < a + sz)) as [Hin|Hout].
  - by rewrite Hfresh.
  - rewrite lookup_insert_ne; [done|]. lia.
Qed.

(** X6.  [tal_alloc_] under a parent that has no children property yet, when
    the backend grants the header and refuses the children property: the
    header is given back to the backend, [tal_alloc_] returns [NULL], and
    memory is as it was before the call. *)
Theorem tal_alloc_gives_header_back cb fuel ctx size clear label s parent a rest :
  let sz := wrap (sizeof_tal_hdr + size) in
  to_tal_hdr_or_null ctx s = Ok parent s →
  find_property fuel parent CHILDREN s = Ok NULL s →
  backend s = a :: rest → a ≠ 0 → rest = [] ∨ (∃ r, rest = 0 :: r) →
  error_aborts s = false →
  sizeof_tal_hdr ≤ sz →
  (∀ k, a ≤ k < a + sz → heap s !! k = None) → blocks s !! a = None →
  ∃ s',
    tal_alloc_ cb fuel ctx size clear label s = Ok NULL s' ∧
    heap s' = heap s ∧ blocks s' = blocks s ∧
    backend s' = tail rest ∧
    trace s' = trace s ++ [EvAlloc sz a]
               ++ (if initialized s then [] else [EvAtexit])
               ++ [EvAlloc sizeof_children NULL; EvError "allocation failed";
                   EvRelease a].
Proof.
  intros sz Hto Hfind Hb Ha Hrest Herr Hsz Hfresh Hbl.
  assert (Hsz0 : 0 < sz) by (unfold sizeof_tal_hdr in Hsz; lia).
  assert (Hafresh : heap s !! a = None) by (apply Hfresh; lia).
  set (s1 := set_heap <[a := Hdr (TalHdr (ListNode 0 0) label 0)]>
               (set_blocks <[a := sz]> (log (EvAlloc sz a) (set_backend rest s)))).
  assert (HK : props_kept (heap s) (heap s1))
    by (unfold s1; st_simpl; by apply props_kept_insert_fresh).
  assert (HH : hdr_kept parent (heap s) (heap s1)).
  { intros h Hh. exists h. split; [|done]. unfold s1. st_simpl.
    rewrite lookup_insert_ne; [done|]. intros ->. congruence. }
  assert (Hfind1 : find_property fuel parent CHILDREN s1 = Ok NULL s1)
    by (by eapply find_property_kept).
  assert (Href1 : refused s1).
  { unfold s1, refused. st_simpl.
    destruct Hrest as [->|[r ->]]; [by left|right; eauto]. }
  pose proof (add_child_refused fuel parent a s1 Hfind1 Href1 Herr) as Hadd.
  set (s2 := after_refusal s1) in *.
  assert (Hbl2 : blocks s2 !! a = Some sz).
  { unfold s2, after_refusal. st_simpl. unfold s1.
    destruct (initialized _); st_simpl; apply lookup_insert_eq. }
  exists (set_errno (backend_errno s2)
            (set_heap (free_range a sz)
               (set_blocks (delete a) (log (EvRelease a) s2)))).
  split.
  { unfold tal_alloc_. rewrite (bind_Ok Hto).
    rewrite (bind_Ok (allocate_ok sz a rest s Hb Ha)).
    destruct (Z.eqb_spec a 0); [done|].
    assert (Hem : emplace a (Hdr (TalHdr (ListNode 0 0) label 0))
                    (set_blocks <[a := sz]>
                       (log (EvAlloc sz a) (set_backend rest s))) = Ok tt s1).
    { apply emplace_ok. st_simpl. apply in_block_insert.
      cbn [sizeof_obj]. unfold sizeof_tal_hdr in *. lia. }
    rewrite (bind_Ok Hem).
    rewrite (bind_Ok Hadd). cbn [negb].
    rewrite (bind_Ok (freefn_ok a sz s2 Hbl2)). reflexivity. }
  assert (Hhp2 : heap s2 = <[a := Hdr (TalHdr (ListNode 0 0) label 0)]> (heap s)).
  { unfold s2, after_refusal, s1. st_simpl. by destruct (initialized _). }
  assert (Hblk2 : blocks s2 = <[a := sz]> (blocks s)).
  { unfold s2, after_refusal, s1. st_simpl. by destruct (initialized _). }
  st_simpl. rewrite Hhp2, Hblk2.
  split; [by apply free_range_fresh|]. split; [by apply delete_insert_id|].
  split.
  - unfold s2, after_refusal, s1. st_simpl. by destruct (initialized s).
  - unfold s2, after_refusal, s1. st_simpl.
    destruct (initialized s); st_simpl; by rewrite <- !app_assoc.
Qed.

(** X7.  [tal_alloc_] adds the size of the header to the size it is given
    without a check: for a size within [sizeof_tal_hdr] of the top of [size_t]
    the sum wraps, the backend is asked for fewer bytes than the header takes,
    and writing the header has no defined result. *)
Theorem tal_alloc_size_wraps cb fuel ctx size clear label s parent a rest :
  to_tal_hdr_or_null ctx s = Ok parent s →
  SIZE_MOD - sizeof_tal_hdr ≤ size < SIZE_MOD →
  backend s = a :: rest → a ≠ 0 →
  (∀ b sz, blocks s !! b = Some sz → ¬ (b ≤ a ∧ a + sizeof_tal_hdr ≤ b + sz)) →
  allocate (wrap (sizeof_tal_hdr + size)) s
  = Ok a (set_blocks <[a := sizeof_tal_hdr + size - SIZE_MOD]>
            (log (EvAlloc (sizeof_tal_hdr + size - SIZE_MOD) a)
               (set_backend rest s))) ∧
  sizeof_tal_hdr + size - SIZE_MOD < sizeof_tal_hdr ∧
  tal_alloc_ cb fuel ctx size clear label s = Undef.
Proof.
  intros Hto Hsize Hb Ha Hblocks. pose proof SIZE_MOD_eq as HM.
  assert (Hw : wrap (sizeof_tal_hdr + size) = sizeof_tal_hdr + size - SIZE_MOD).
  { unfold wrap. symmetry.
    apply (Z.mod_unique_pos _ _ 1); unfold sizeof_tal_hdr in *; lia. }
  split; [rewrite Hw; by apply allocate_ok|]. split; [lia|].
  unfold tal_alloc_. rewrite (bind_Ok Hto).
  rewrite (bind_Ok (allocate_ok _ a rest s Hb Ha)).
  destruct (Z.eqb_spec a 0); [done|].
  apply bind_Undef. unfold emplace. rewrite bool_decide_eq_false_2; [done|].
  st_simpl. unfold in_block. rewrite map_Exists_lookup.
  intros (b & sz & Hlk & Hle & Hge). cbn [sizeof_obj] in Hge.
  destruct (decide (b = a)) as [->|Hne].
  - rewrite lookup_insert_eq in Hlk. injection Hlk as <-. lia.
  - rewrite lookup_insert_ne in Hlk by done. by apply (Hblocks b sz).
Qed.

(** ** Allocation that succeeds *)

Lemma to_tal_hdr_or_null_ok ctx parent h l lit s :
  context_of ctx parent → parent ≠ 0 → heap s !! parent = Some (Hdr h) →
  chain (heap s) (prop h) l lit →
  to_tal_hdr_or_null ctx s = Ok parent s.
Proof.
  intros [[-> ->]|(Hc & -> & _)] Hp Hh Hch; unfold to_tal_hdr_or_null.
  - done.
  - destruct (Z.eqb_spec ctx 0); [done|]. by eapply to_tal_hdr_ok.
Qed.

Lemma context_of_back ctx parent :
  context_of ctx parent →
  (if parent =? null_parent_hdr then NULL else from_tal_hdr parent) = ctx.
Proof.
  intros [[-> ->]|(Hc & -> & Hn)]; [done|].
  destruct (Z.eqb_spec (ctx - sizeof_tal_hdr) null_parent_hdr); [done|].
  unfold from_tal_hdr. lia.
Qed.

(** [list_add] puts the new node right after the head. *)
Lemma list_add_head h n s hn :
  node_at (heap s) h = Some hn → is_Some (node_at (heap s) n) →
  is_Some (node_at (heap s) (next hn)) → n ≠ h →
  ∃ s' m, list_add h n s = Ok tt s' ∧ relinked s s' ∧
          node_at (heap s') h = Some m ∧ next m = n.
Proof.
  intros Hh Hn Hf Hne. unfold list_add.
  rewrite (bind_Ok (load_node_ok _ _ _ Hh)).
  destruct (set_next_runs n (next hn) s Hn) as (s1 & H1 & R1 & Hs1 & Ho1).
  rewrite (bind_Ok H1).
  destruct (set_prev_runs n h s1 (Hs1 _ Hn)) as (s2 & H2 & R2 & Hs2 & Ho2).
  rewrite (bind_Ok H2).
  assert (Hh2 : node_at (heap s2) h = Some hn)
    by (rewrite Ho2, Ho1 by done; done).
  rewrite (bind_Ok (load_node_ok _ _ _ Hh2)).
  destruct (set_prev_runs (next hn) n s2 (Hs2 _ (Hs1 _ Hf)))
    as (s3 & H3 & R3 & Hs3 & Ho3).
  rewrite (bind_Ok H3).
  assert (Hh3 : is_Some (node_at (heap s3) h)) by (apply Hs3; eauto).
  destruct (set_next_runs h n s3 Hh3) as (s4 & H4 & R4 & Hs4 & Ho4).
  pose proof (set_next_relinked _ _ _ _ _ H4) as (_ & (m & Hm & Hm') & _).
  exists s4, (ListNode n (prev m)). split; [done|].
  split; [eauto using relinked_trans|]. done.
Qed.

Lemma node_at_insert_fresh hp a h q :
  hp !! a = None → q ≠ a →
  node_at (<[a := Hdr h]> hp) q = node_at hp q.
Proof.
  intros Ha Hq. unfold node_at. rewrite lookup_insert_ne by done.
  destruct (decide (q - offsetof_children = a)) as [E|Hne].
  - by rewrite E, lookup_insert_eq, Ha.
  - by rewrite lookup_insert_ne.
Qed.

Lemma hdr_kept_trans t hp1 hp2 hp3 :
  hdr_kept t hp1 hp2 → hdr_kept t hp2 hp3 → hdr_kept t hp1 hp3.
Proof.
  intros H1 H2 h Hh. destruct (H1 _ Hh) as (h' & Hh' & Hp).
  destruct (H2 _ Hh') as (h'' & Hh'' & Hp'). exists h''. split; [done|congruence].
Qed.

Lemma hdr_kept_insert_ne t k o hp : k ≠ t → hdr_kept t hp (<[k := o]> hp).
Proof. intros Hne h Hh. exists h. by rewrite lookup_insert_ne. Qed.

Lemma literal_at_kept hp hp' lit :
  literal_at hp lit → props_kept hp hp' → literal_at hp' lit.
Proof.
  intros [->|(str & Hs & Hb)] HK; [by left|]. right.
  destruct (HK _ _ Hs ltac:(done)) as (o' & Ho' & He).
  destruct o'; try done. simpl in He. injection He as ->. eauto.
Qed.

(** The name of a node whose chain is just a literal, or empty. *)
Lemma tal_name_literal fuel t h s :
  t ≠ 0 → heap s !! t = Some (Hdr h) → literal_at (heap s) (prop h) →
  tal_name (S fuel) (from_tal_hdr t) s = Ok (prop h) s.
Proof.
  intros Ht Hh Hlit. unfold tal_name.
  assert (Hc : chain (heap s) (prop h) [] (prop h)) by done.
  assert (Hto : to_tal_hdr (from_tal_hdr t) s = Ok t s).
  { replace t with (from_tal_hdr t - sizeof_tal_hdr) at 2
      by (unfold from_tal_hdr; lia).
    apply (to_tal_hdr_ok _ h [] (prop h));
      replace (from_tal_hdr t - sizeof_tal_hdr) with t
        by (unfold from_tal_hdr; lia); done. }
  rewrite (bind_Ok Hto).
  assert (Hfind : find_property (S fuel) t NAME s = Ok (prop h) s).
  { unfold find_property, find_property_ptr. cbn [find_property_ptr_from].
    rewrite bind_assoc, (bind_Ok (load_ploc_PropOf _ _ _ Ht Hh)).
    destruct (Z.eqb_spec (prop h) 0) as [E|Hne]; [by rewrite E|].
    destruct Hlit as [E|(str & Hs & Hb)]; [done|].
    rewrite bind_assoc, (bind_Ok (is_literal_Str _ _ _ Hne Hs Hb)).
    rewrite bind_ret_l. by apply load_ploc_PropOf. }
  rewrite (bind_Ok Hfind).
  destruct (Z.eqb_spec (prop h) 0) as [E|Hne]; [by rewrite E|].
  destruct Hlit as [E|(str & Hs & Hb)]; [done|].
  by rewrite (bind_Ok (is_literal_Str _ _ _ Hne Hs Hb)).
Qed.

(** What [tal_alloc_] does under a parent that has a children property. *)
Lemma tal_alloc_adopted
    fuel ctx size clear label s parent hp lp litp loc c nxc hd a rest :
  let sz := wrap (sizeof_tal_hdr + size) in
  context_of ctx parent →
  parent ≠ 0 → heap s !! parent = Some (Hdr hp) →
  chain (heap s) (prop hp) lp litp → (length lp < fuel)%nat →
  first_of_type CHILDREN lp (PropOf parent)
  = Some (loc, c, Children nxc parent hd) →
  0 ≤ c < SIZE_MOD → get_destroying_bit c = false →
  heap s !! (c + offsetof_children) = None →
  links_closed (heap s) →
  backend s = a :: rest → 0 < a → sizeof_tal_hdr ≤ sz →
  heap s !! a = None → node_at (heap s) a = None →
  literal_at (heap s) label →
  ∃ s',
    tal_alloc_ passive fuel ctx size clear label s = Ok (from_tal_hdr a) s' ∧
    tal_parent (from_tal_hdr a) s' = Ok ctx s' ∧
    tal_first fuel ctx s' = Ok (from_tal_hdr a) s' ∧
    tal_name fuel (from_tal_hdr a) s' = Ok label s' ∧
    trace s' = trace s ++ [EvAlloc sz a]
               ++ (if notifiers s =? 0 then []
                   else fired parent TAL_NOTIFY_ADD_CHILD (from_tal_hdr a) lp) ∧
    blocks s' = <[a := sz]> (blocks s) ∧
    (∀ k, k ≠ a → erase_links <$> heap s' !! k = erase_links <$> heap s !! k) ∧
    (∃ h', heap s' !! a = Some (Hdr h') ∧ prop h' = label ∧
           parent_child h' = c) ∧
    same_env (set_backend rest s) s'.
Proof.
  intros sz Hctx Hp0 Hp Hch Hlen Hfirst Hcr Hcbit Hhead Hcl Hb Hapos Hsz Hfresh
    Hnode Hlit.
  assert (Ha : a ≠ 0) by lia.
  assert (Hfuel : ∃ fuel', fuel = S fuel') by (destruct fuel; [lia|eauto]).
  pose proof (first_of_type_elem _ _ _ _ _ _ Hfirst) as [Hin _].
  destruct (chain_elem _ _ _ _ _ _ Hch Hin) as [Hc0 Hc].
  pose proof (node_at_head_exact _ _ _ _ _ Hhead Hc) as Hhd.
  assert (Hac : a ≠ c + offsetof_children) by (intros ->; congruence).
  assert (Hap : a ≠ parent) by (intros ->; congruence).
  assert (Hac' : a ≠ c) by (intros ->; congruence).
  destruct (Hcl _ _ Hhd) as [Hnx _].
  assert (Hanx : next hd ≠ a).
  { intros E. rewrite E, Hnode in Hnx. by destruct Hnx. }
  pose proof (to_tal_hdr_or_null_ok ctx parent hp lp litp s Hctx Hp0 Hp Hch) as Hto.
  pose proof (find_property_chain CHILDREN fuel lp parent hp litp s
                ltac:(done) Hp0 Hp Hch Hlen) as Hfind.
  rewrite Hfirst in Hfind.
  set (s0 := set_blocks <[a := sz]> (log (EvAlloc sz a) (set_backend rest s))).
  set (h0 := TalHdr (ListNode 0 0) label 0).
  set (s1 := set_heap <[a := Hdr h0]> s0).
  assert (HK1 : props_kept (heap s) (heap s1))
    by (by apply props_kept_insert_fresh).
  assert (HH1 : hdr_kept parent (heap s) (heap s1))
    by (by apply hdr_kept_insert_ne).
  (* the list operation *)
  destruct (list_add_head (c + offsetof_children) a s1 hd)
    as (s2 & m & Hadd & R2 & Hm & Hmn).
  { unfold s1; st_simpl. by rewrite node_at_insert_fresh. }
  { unfold s1; st_simpl. unfold node_at. rewrite lookup_insert_eq. eauto. }
  { unfold s1; st_simpl. by rewrite node_at_insert_fresh. }
  { done. }
  destruct R2 as [L2 E2].
  assert (Ha1 : heap s1 !! a = Some (Hdr h0)) by apply lookup_insert_eq.
  destruct (links_only_lookup _ _ _ _ L2 Ha1) as (o2 & Ha2 & He2).
  apply erase_links_Hdr in He2 as (h2 & -> & Hp2 & Hpc2).
  set (h3 := TalHdr (hlist h2) (prop h2) c).
  set (s3 := set_heap <[a := Hdr h3]> s2).
  assert (HK2 : props_kept (heap s1) (heap s2)) by by apply links_only_props_kept.
  assert (HH2 : hdr_kept parent (heap s1) (heap s2))
    by by apply links_only_hdr_kept.
  assert (HK3 : props_kept (heap s2) (heap s3))
    by (apply props_kept_insert_hdr; eauto).
  assert (HH3 : hdr_kept parent (heap s2) (heap s3))
    by (by apply hdr_kept_insert_ne).
  assert (HK : props_kept (heap s) (heap s3))
    by eauto using props_kept_trans.
  assert (HH : hdr_kept parent (heap s) (heap s3))
    by eauto using hdr_kept_trans.
  assert (Hchild : add_child fuel parent a s1 = Ok true s3).
  { unfold add_child.
    rewrite (bind_Ok (find_property_kept _ _ _ _ s1 _ Hfind HK1 HH1)).
    destruct (Z.eqb_spec c 0); [done|]. rewrite bind_ret_l.
    destruct (Z.eqb_spec c 0); [done|].
    rewrite (bind_Ok Hadd).
    rewrite (bind_Ok (load_hdr_Some _ _ _ Ha Ha2)).
    by rewrite (bind_Ok (store_hdr_ok _ _ _ Ha (mk_is_Some _ _ Ha2))). }
  (* the notification *)
  set (evs := if notifiers s =? 0 then []
              else fired parent TAL_NOTIFY_ADD_CHILD (from_tal_hdr a) lp).
  assert (Hnot :
    (if notifiers s3 =? 0 then ret tt
     else notify passive fuel parent TAL_NOTIFY_ADD_CHILD (from_tal_hdr a)) s3
    = Ok tt (add_trace evs s3)).
  { assert (notifiers s3 = notifiers s) as -> by (unfold s3; rewrite E2; done).
    unfold evs. destruct (notifiers s =? 0); [by rewrite add_trace_nil|].
    pose proof (notify_passive fuel parent hp lp litp TAL_NOTIFY_ADD_CHILD
                  (from_tal_hdr a) s Hp0 Hp Hch Hlen) as Hn.
    apply notify_passive_kept in Hn as (evs' & Hevs & Hn).
    assert (evs' = fired parent TAL_NOTIFY_ADD_CHILD (from_tal_hdr a) lp) as <-.
    { apply (f_equal trace) in Hevs. st_simpl. by apply app_inv_head in Hevs. }
    by apply Hn. }
  set (s' := add_trace evs s3).
  assert (Hhp' : heap s' = heap s3) by done.
  assert (Ha' : heap s' !! a = Some (Hdr h3)) by apply lookup_insert_eq.
  assert (Hlit' : literal_at (heap s') label)
    by (rewrite Hhp'; by eapply literal_at_kept).
  destruct (HK _ _ Hc ltac:(done)) as (oc & Hc' & Hec).
  apply erase_links_Children in Hec as (hd' & ->).
  assert (Hfind' : find_property fuel parent CHILDREN s' = Ok c s').
  { apply (find_property_kept _ _ _ s); [done|by rewrite Hhp'..]. }
  exists s'. split; [|split; [|split; [|split; [|split; [|split; [|split; [|split]]]]]]].
  - unfold tal_alloc_. rewrite (bind_Ok Hto).
    rewrite (bind_Ok (allocate_ok sz a rest s Hb Ha)).
    destruct (Z.eqb_spec a 0); [done|].
    assert (Hem : emplace a (Hdr h0) s0 = Ok tt s1).
    { apply emplace_ok. unfold s0. st_simpl. apply in_block_insert.
      cbn [sizeof_obj]. unfold sizeof_tal_hdr in *. lia. }
    fold s0. rewrite (bind_Ok Hem). rewrite (bind_Ok Hchild). cbn [negb].
    rewrite bind_get. by rewrite (bind_Ok Hnot).
  - unfold tal_parent.
    destruct (Z.eqb_spec (from_tal_hdr a) 0) as [E|_];
      [unfold from_tal_hdr, sizeof_tal_hdr in E; lia|].
    assert (Hta : from_tal_hdr a - sizeof_tal_hdr = a)
      by (unfold from_tal_hdr; lia).
    assert (Hto' : to_tal_hdr (from_tal_hdr a) s' = Ok a s').
    { rewrite <- Hta at 2. apply (to_tal_hdr_ok _ h3 [] label);
        rewrite ?Hta; [done|done|]. simpl. by rewrite Hp2. }
    rewrite (bind_Ok Hto').
    rewrite (bind_Ok (parent_of_ok a h3 c nxc parent hd' s' Ha Ha'
                        (ignore_destroying_bit_clear c Hcr Hcbit) Hc0 Hc')).
    pose proof (context_of_back ctx parent Hctx) as Hback.
    destruct (parent =? null_parent_hdr); by rewrite <- Hback.
  - unfold tal_first.
    assert (Hto' : to_tal_hdr_or_null ctx s' = Ok parent s').
    { revert Hto. unfold to_tal_hdr_or_null. destruct (ctx =? 0).
      - by intros [= ->].
      - intros Hto. apply (to_tal_hdr_kept _ s); [done|by rewrite Hhp'..]. }
    rewrite (bind_Ok Hto').
    assert (Hfc : first_child fuel parent s' = Ok a s').
    { unfold first_child. rewrite (bind_Ok Hfind').
      destruct (Z.eqb_spec c 0); [done|].
      assert (Hm' : node_at (heap s') (c + offsetof_children) = Some m).
      { rewrite Hhp'. unfold s3, h3. st_simpl.
        by rewrite node_at_insert_parent_child. }
      unfold list_top. rewrite (bind_Ok (load_node_ok _ _ _ Hm')). rewrite Hmn.
      by destruct (Z.eqb_spec a (c + offsetof_children)). }
    rewrite (bind_Ok Hfc). by destruct (Z.eqb_spec a 0).
  - destruct Hfuel as [fuel' ->].
    assert (Hl3 : prop h3 = label) by (simpl; by rewrite Hp2).
    pose proof (tal_name_literal fuel' a h3 s' Ha Ha') as Hname.
    rewrite Hl3 in Hname. by apply Hname.
  - unfold s', s3. st_simpl. rewrite E2. st_simpl.
    unfold s1, s0. st_simpl. by rewrite <- app_assoc.
  - unfold s', s3. st_simpl. rewrite E2. by st_simpl.
  - intros k Hk. rewrite Hhp'. unfold s3. st_simpl.
    rewrite lookup_insert_ne by done. rewrite (L2 k).
    unfold s1. st_simpl. by rewrite lookup_insert_ne.
  - exists h3. split; [done|]. split; [|done]. simpl. by rewrite Hp2.
  - unfold s', s3, same_env. st_simpl. rewrite E2. by st_simpl.
Qed.

(** X8.  [tal_alloc_] under a parent that has a children property already (the
    sentinel root always has one), with memory from the backend: the new node
    is returned; its parent, as [tal_parent] reads it, is the context it was
    allocated under; it is the first child [tal_first] finds; its name is the
    label; the notifiers of the parent hear [TAL_NOTIFY_ADD_CHILD] when the
    counter is not zero; and nothing else in memory changes, sibling links
    apart. *)
Theorem tal_alloc_links_new_child
    fuel ctx size clear label s parent hp lp litp loc c nxc hd a rest :
  let sz := wrap (sizeof_tal_hdr + size) in
  context_of ctx parent →
  parent ≠ 0 → heap s !! parent = Some (Hdr hp) →
  chain (heap s) (prop hp) lp litp → (length lp < fuel)%nat →
  first_of_type CHILDREN lp (PropOf parent)
  = Some (loc, c, Children nxc parent hd) →
  0 ≤ c < SIZE_MOD → get_destroying_bit c = false →
  heap s !! (c + offsetof_children) = None →
  links_closed (heap s) →
  backend s = a :: rest → 0 < a → sizeof_tal_hdr ≤ sz →
  heap s !! a = None → node_at (heap s) a = None →
  literal_at (heap s) label →
  ∃ s',
    tal_alloc_ passive fuel ctx size clear label s = Ok (from_tal_hdr a) s' ∧
    tal_parent (from_tal_hdr a) s' = Ok ctx s' ∧
    tal_first fuel ctx s' = Ok (from_tal_hdr a) s' ∧
    tal_name fuel (from_tal_hdr a) s' = Ok label s' ∧
    trace s' = trace s ++ [EvAlloc sz a]
               ++ (if notifiers s =? 0 then []
                   else fired parent TAL_NOTIFY_ADD_CHILD (from_tal_hdr a) lp) ∧
    blocks s' = <[a := sz]> (blocks s) ∧
    (∀ k, k ≠ a → erase_links <$> heap s' !! k = erase_links <$> heap s !! k).
Proof.
  intros sz Hctx Hp0 Hp Hch Hlen Hfirst Hcr Hcbit Hhead Hcl Hb Ha Hsz Hfresh
    Hnode Hlit.
  destruct (tal_alloc_adopted fuel ctx size clear label s parent hp lp litp loc c
              nxc hd a rest Hctx Hp0 Hp Hch Hlen Hfirst Hcr Hcbit Hhead Hcl Hb Ha
              Hsz Hfresh Hnode Hlit)
    as (s' & H1 & H2 & H3 & H4 & H5 & H6 & H7 & _).
  exists s'. done.
Qed.

(** ** Editing a chain *)

Lemma reads_load_ploc s from p : reads (heap s) from p → load_ploc from s = Ok p s.
Proof.
  destruct from as [t|q]; simpl.
  - intros (Ht & h & Hh & <-). by apply load_ploc_PropOf.
  - intros (Hq & o & Ho & Hn). by apply (load_next_prop _ o).
Qed.

Lemma reads_owner hp from p :
  reads hp from p →
  owner from ≠ 0 ∧ ∃ o, hp !! owner from = Some o ∧ ∀ str, o ≠ Str str.
Proof.
  destruct from as [t|q]; simpl.
  - intros (Ht & h & Hh & _). split; [done|]. exists (Hdr h). by split.
  - intros (Hq & o & Ho & Hn). split; [done|]. exists o. split; [done|].
    intros str ->. done.
Qed.

Lemma obj_next_put v o : (∃ h, o = Hdr h) ∨ is_Some (obj_next o) →
  match put v o with
  | Hdr h => prop h = v
  | o' => obj_next o' = Some v
  end.
Proof. intros [[h ->]|[nx Hn]]; [done|]. by destruct o. Qed.

Lemma reads_put hp from p v o :
  reads hp from p → hp !! owner from = Some o →
  reads (<[owner from := put v o]> hp) from v.
Proof.
  destruct from as [t|q]; simpl.
  - intros (Ht & h & Hh & _) Ho. rewrite Hh in Ho. injection Ho as <-.
    split; [done|]. eexists. by rewrite lookup_insert_eq.
  - intros (Hq & o' & Ho' & Hn) Ho. rewrite Ho' in Ho. injection Ho as <-.
    split; [done|]. eexists. rewrite lookup_insert_eq. split; [done|].
    by destruct o'.
Qed.

(** Storing through a place writes one field of the object that holds
    it. *)
Lemma store_ploc_put from v s p :
  reads (heap s) from p →
  ∃ o, heap s !! owner from = Some o ∧
       store_ploc from v s = Ok tt (set_heap <[owner from := put v o]> s).
Proof.
  destruct from as [t|q]; simpl.
  - intros (Ht & h & Hh & _). exists (Hdr h). split; [done|].
    rewrite (bind_Ok (load_hdr_Some _ _ _ Ht Hh)).
    apply store_hdr_ok; [done|eauto].
  - intros (Hq & o & Ho & Hn). exists o. split; [done|].
    rewrite (bind_Ok (load_Some _ _ _ Hq Ho)). rewrite Hn.
    rewrite store_ok; [|done|eauto]. by destruct o.
Qed.

Lemma chain_det hp : ∀ l1 l2 p lit,
  chain hp p l1 lit → chain hp p l2 lit → l1 = l2.
Proof.
  assert (Hmix : ∀ p lit q o, p = lit → literal_at hp lit →
            p = q → q ≠ 0 → hp !! q = Some o → is_Some (obj_next o) → False).
  { intros p lit q o -> [->|(str & Hs & _)] <- Hq Ho [nx Hn]; [done|].
    rewrite Hs in Ho. injection Ho as <-. done. }
  induction l1 as [|[q o] l1 IH]; intros [|[q2 o2] l2] p lit H1 H2; simpl in *.
  - done.
  - destruct H1 as [H1 H1'], H2 as (H2 & Hq & Ho & Hn). exfalso.
    destruct (obj_next o2) eqn:E; [|done]. by eapply (Hmix p lit q2 o2).
  - destruct H2 as [H2 H2'], H1 as (H1 & Hq & Ho & Hn). exfalso.
    destruct (obj_next o) eqn:E; [|done]. by eapply (Hmix p lit q o).
  - destruct H1 as (-> & Hq & Ho & Hn), H2 as (<- & _ & Ho2 & Hn2).
    rewrite Ho in Ho2. injection Ho2 as <-.
    destruct (obj_next o); [|done]. f_equal. by eapply IH.
Qed.

Lemma chain_from_elem hp : ∀ l p lit q,
  q ∈ l.*1 → chain hp p l lit →
  ∃ l3, chain hp q l3 lit ∧ (0 < length l3 ≤ length l)%nat.
Proof.
  induction l as [|[k o] l IH]; intros p lit q Hin Hc; simpl in *.
  - by apply elem_of_nil in Hin.
  - apply elem_of_cons in Hin as [->|Hin].
    + exists ((k, o) :: l). destruct Hc as (-> & ?). split; [done|simpl; lia].
    + destruct Hc as (-> & Hk & Ho & Hn). destruct (obj_next o); [|done].
      destruct (IH _ _ _ Hin Hn) as (l3 & Hl3 & Hlen). exists l3.
      split; [done|lia].
Qed.

Lemma chain_NoDup hp : ∀ l p lit, chain hp p l lit → NoDup l.*1.
Proof.
  induction l as [|[q o] l IH]; intros p lit Hc; [constructor|].
  pose proof Hc as Hc0. simpl in Hc. destruct Hc as (-> & Hq & Ho & Hn).
  destruct (obj_next o) as [nx|] eqn:E; [|done].
  cbn [fmap list_fmap fst]. apply NoDup_cons. split; [|by eapply IH].
  intros Hin. destruct (chain_from_elem _ _ _ _ _ Hin Hn) as (l3 & Hl3 & Hlen).
  pose proof (chain_det _ _ _ _ _ Hl3 Hc0) as ->. simpl in Hlen. lia.
Qed.

(** Following a chain to where its first part ends. *)
Lemma chain_app_reads hp : ∀ l1 from p l2 lit,
  reads hp from p → chain hp p (l1 ++ l2) lit →
  ∃ v, reads hp (end_of l1 from) v ∧ chain hp v l2 lit.
Proof.
  induction l1 as [|[q o] l1 IH]; intros from p l2 lit Hr Hc; simpl in *.
  - eauto.
  - destruct Hc as (-> & Hq & Ho & Hn).
    destruct (obj_next o) as [nx|] eqn:E; [|done].
    apply (IH (NextOf q) nx); [|done]. simpl. eauto.
Qed.

Lemma owner_end_of : ∀ l from,
  l ≠ [] → ∃ o l0, l = l0 ++ [(owner (end_of l from), o)].
Proof.
  induction l as [|[q o] l IH]; intros from Hne; [done|].
  destruct l as [|qo l].
  - exists o, []. done.
  - destruct (IH (NextOf q) ltac:(done)) as (o' & l0 & E).
    exists o', ((q, o) :: l0). cbn [end_of] in *. rewrite E at 1. done.
Qed.

Lemma with_next_type v o : obj_type (with_next v o) = obj_type o.
Proof. by destruct o. Qed.

Lemma with_next_next v o : is_Some (obj_next o) → obj_next (with_next v o) = Some v.
Proof. intros [nx H]. by destruct o. Qed.

Lemma relast_length v : ∀ l, length (relast v l) = length l.
Proof.
  induction l as [|[q o] l IH]; [done|]. destruct l; [done|].
  cbn [relast length] in *. by rewrite IH.
Qed.

Lemma relast_fst v : ∀ l, (relast v l).*1 = l.*1.
Proof.
  induction l as [|[q o] l IH]; [done|]. destruct l; [done|].
  cbn [relast fmap list_fmap] in *. by rewrite IH.
Qed.

Lemma fire_with_next ctx type info q v o :
  fire ctx type info (q, with_next v o) = fire ctx type info (q, o).
Proof. by destruct o. Qed.

Lemma fired_relast ctx type info v : ∀ l,
  fired ctx type info (relast v l) = fired ctx type info l.
Proof.
  induction l as [|[q o] l IH]; [done|]. destruct l as [|qo l].
  - unfold fired. cbn [relast flat_map]. by rewrite fire_with_next.
  - unfold fired in *. cbn [relast flat_map] in *. by rewrite IH.
Qed.

Lemma fired_app ctx type info l1 l2 :
  fired ctx type info (l1 ++ l2)
  = fired ctx type info l1 ++ fired ctx type info l2.
Proof. unfold fired. apply flat_map_app. Qed.

(** The chain after a store at the end of its first part [l1]: what
    follows is the chain [l2] that starts at the stored pointer. *)
Lemma chain_put hp v l2 lit2 : ∀ l1 from p mid lit o,
  reads hp from p → chain hp p (l1 ++ mid) lit →
  chain hp v l2 lit2 →
  hp !! owner (end_of l1 from) = Some o →
  owner (end_of l1 from) ∉ l2.*1 →
  chain (<[owner (end_of l1 from) := put v o]> hp)
        (match l1 with [] => v | _ => p end) (relast v l1 ++ l2) lit2.
Proof.
  induction l1 as [|[q oq] l1 IH]; intros from p mid lit o Hr Hc Hv Ho Hnin.
  - cbn [end_of relast app] in *.
    destruct (reads_owner _ _ _ Hr) as (Hk0 & o' & Ho' & Hstr).
    rewrite Ho in Ho'. injection Ho' as <-.
    eapply chain_agree; [exact Hv| |].
    + intros q' o' Hin. rewrite lookup_insert_ne; [by eapply chain_elem|].
      intros E. apply Hnin. rewrite E.
      by apply (list_elem_of_fmap_2 fst _ (q', o')).
    + intros Hlit. rewrite lookup_insert_ne; [done|]. intros E.
      destruct (chain_literal _ _ _ _ Hv) as [?|(str & Hs & _)]; [done|].
      rewrite <- E, Ho in Hs. injection Hs as ->. by eapply Hstr.
  - pose proof (chain_NoDup _ _ _ _ Hc) as Hnd.
    simpl in Hc. destruct Hc as (-> & Hq & Hoq & Hn).
    destruct (obj_next oq) as [nx|] eqn:E; [|done].
    assert (Hr' : reads hp (NextOf q) nx) by (simpl; eauto).
    specialize (IH (NextOf q) nx mid lit o Hr' Hn Hv Ho Hnin).
    cbn [end_of] in *.
    destruct l1 as [|qo l1].
    + cbn [end_of relast app owner] in *. rewrite Hoq in Ho. injection Ho as <-.
      assert (put v oq = with_next v oq) as Hput by (by destruct oq).
      rewrite Hput in *. simpl. rewrite lookup_insert_eq.
      rewrite with_next_next by eauto. done.
    + cbn [relast app]. cbn [chain].
      destruct (owner_end_of (qo :: l1) (NextOf q) ltac:(done)) as (o' & l0 & E0).
      assert (Hkq : owner (end_of (qo :: l1) (NextOf q)) ≠ q).
      { intros Ek.
        change (NoDup (q :: ((qo :: l1) ++ mid).*1)) in Hnd.
        apply NoDup_cons in Hnd as [Hnin' _]. apply Hnin'.
        rewrite fmap_app. apply elem_of_app. left.
        apply (list_elem_of_fmap_2 fst _ (q, o')).
        rewrite <- Ek. remember (owner (end_of (qo :: l1) (NextOf q))) as k.
        rewrite E0. apply elem_of_app. right. by left. }
      rewrite lookup_insert_ne by done. rewrite E. done.
Qed.

(** ** Names *)

(** Looking up the name finds the first name property of the chain, or
    the literal that ends it. *)
Lemma find_name_ptr_chain fuel : ∀ l from p lit s,
  reads (heap s) from p → chain (heap s) p l lit → (length l < fuel)%nat →
  find_property_ptr_from fuel from NAME s
  = Ok (match first_of_type NAME l from with
        | Some (loc, _, _) => Some loc
        | None => if lit =? 0 then None else Some (end_of l from)
        end) s.
Proof.
  induction fuel as [|f IH]; intros l from p lit s Hfrom Hc Hf; [lia|].
  cbn [find_property_ptr_from]. rewrite (bind_Ok (reads_load_ploc _ _ _ Hfrom)).
  destruct l as [|[q o] l]; simpl in Hc.
  - destruct Hc as [-> Hlit]. simpl.
    destruct (Z.eqb_spec lit 0) as [->|Hne]; [done|].
    destruct Hlit as [?|(str & Hs & Hb)]; [done|].
    rewrite (bind_Ok (is_literal_Str _ _ _ Hne Hs Hb)). done.
  - destruct Hc as (-> & Hq & Ho & Hn).
    destruct (obj_next o) as [nx|] eqn:Hnx; [|done].
    destruct (obj_next_type _ _ Hnx) as [ty' Hty'].
    destruct (Z.eqb_spec q 0); [done|].
    rewrite (bind_Ok (is_literal_prop _ _ _ Hq Ho (mk_is_Some _ _ Hnx))).
    rewrite (bind_Ok (load_type_prop _ _ _ _ Hq Ho Hty')).
    cbn [first_of_type end_of]. rewrite Hty'.
    destruct (decide (ty' = NAME)) as [->|Hne].
    + by rewrite decide_True.
    + rewrite decide_False by congruence.
      apply (IH l (NextOf q) nx lit); [simpl; eauto|done|simpl in Hf; lia].
Qed.

Lemma literal_slot_chain fuel : ∀ l from p lit s,
  reads (heap s) from p → chain (heap s) p l lit → (length l < fuel)%nat →
  literal_slot fuel from s = Ok (end_of l from) s.
Proof.
  induction fuel as [|f IH]; intros l from p lit s Hfrom Hc Hf; [lia|].
  cbn [literal_slot]. rewrite (bind_Ok (reads_load_ploc _ _ _ Hfrom)).
  destruct l as [|[q o] l]; simpl in Hc.
  - destruct Hc as [-> Hlit]. simpl.
    destruct (Z.eqb_spec lit 0) as [->|Hne]; [done|].
    destruct Hlit as [?|(str & Hs & Hb)]; [done|].
    rewrite (bind_Ok (is_literal_Str _ _ _ Hne Hs Hb)). done.
  - destruct Hc as (-> & Hq & Ho & Hn).
    destruct (obj_next o) as [nx|] eqn:Hnx; [|done].
    destruct (Z.eqb_spec q 0); [done|].
    rewrite (bind_Ok (is_literal_prop _ _ _ Hq Ho (mk_is_Some _ _ Hnx))).
    cbn [end_of].
    apply (IH l (NextOf q) nx lit); [simpl; eauto|done|simpl in Hf; lia].
Qed.

Lemma first_of_type_split ty : ∀ l from loc q o,
  first_of_type ty l from = Some (loc, q, o) →
  ∃ l1 l2, l = l1 ++ (q, o) :: l2 ∧ loc = end_of l1 from ∧
           obj_type o = Some ty ∧
           Forall (λ qo, obj_type qo.2 ≠ Some ty) l1.
Proof.
  induction l as [|[k ok] l IH]; intros from loc q o; simpl; [done|].
  destruct (decide (obj_type ok = Some ty)) as [Hty|Hty].
  - intros [= <- <- <-]. exists [], l. by repeat split.
  - intros H. apply IH in H as (l1 & l2 & -> & -> & Hty' & HF).
    exists ((k, ok) :: l1), l2. repeat split; [done|]. by constructor.
Qed.

Lemma first_of_type_None ty : ∀ l from,
  first_of_type ty l from = None ↔ Forall (λ qo, obj_type qo.2 ≠ Some ty) l.
Proof.
  induction l as [|[k ok] l IH]; intros from; simpl; [by split; [constructor|]|].
  destruct (decide (obj_type ok = Some ty)) as [Hty|Hty].
  - split; [done|]. intros H. by apply Forall_cons in H as [? _].
  - rewrite IH. split; [by constructor|]. by intros [_ ?]%Forall_cons.
Qed.

Lemma names_zero l lit :
  names l lit = 0%nat ↔
  Forall (λ qo, obj_type qo.2 ≠ Some NAME) l ∧ lit = 0.
Proof.
  unfold names. split.
  - intros H. destruct (Z.eqb_spec lit 0); [|lia]. split; [|done].
    assert (Hl : length (filter (λ qo : Z * object, obj_type qo.2 = Some NAME) l)
                 = 0%nat) by lia.
    apply nil_length_inv in Hl. apply Forall_forall. intros x Hx Hty.
    assert (x ∈ filter (λ qo : Z * object, obj_type qo.2 = Some NAME) l)
      by (by apply list_elem_of_filter).
    rewrite Hl in *. by apply elem_of_nil in H0.
  - intros [HF ->]. simpl. rewrite Nat.add_0_r.
    induction HF as [|x l Hx HF IH]; [done|].
    rewrite filter_cons_False by done. done.
Qed.

(** The name of a node is its first name property, or the literal at the
    end of its chain. *)
Lemma tal_name_chain fuel ctx h l lit s :
  let t := ctx - sizeof_tal_hdr in
  t ≠ 0 → heap s !! t = Some (Hdr h) → chain (heap s) (prop h) l lit →
  (length l < fuel)%nat →
  tal_name fuel ctx s
  = Ok (match first_of_type NAME l (PropOf t) with
        | Some (_, q, _) => q + sizeof_prop_hdr
        | None => lit
        end) s.
Proof.
  intros t Ht Hh Hc Hf. unfold tal_name.
  rewrite (bind_Ok (to_tal_hdr_ok ctx h l lit s Ht Hh Hc)). fold t.
  assert (Hr : reads (heap s) (PropOf t) (prop h)) by (simpl; eauto).
  pose proof (find_name_ptr_chain fuel l (PropOf t) (prop h) lit s Hr Hc Hf)
    as Hptr.
  destruct (first_of_type NAME l (PropOf t)) as [[[loc q] o]|] eqn:E.
  - pose proof (first_of_type_loc _ _ _ _ _ _ _ _ _
                  (reads_load_ploc _ _ _ Hr) Hc E) as Hloc.
    apply first_of_type_elem in E as [Hin Hty].
    destruct (chain_elem _ _ _ _ _ _ Hc Hin) as [Hq Ho].
    unfold find_property, find_property_ptr. rewrite bind_assoc.
    rewrite (bind_Ok Hptr), (bind_Ok Hloc).
    destruct (Z.eqb_spec q 0); [done|].
    destruct (chain_elem_next _ _ _ _ _ _ Hc Hin) as [nx Hnx].
    by rewrite (bind_Ok (is_literal_prop _ _ _ Hq Ho (mk_is_Some _ _ Hnx))).
  - unfold find_property, find_property_ptr. rewrite bind_assoc.
    rewrite (bind_Ok Hptr).
    destruct (Z.eqb_spec lit 0) as [->|Hne]; [done|].
    destruct (chain_app_reads (heap s) l (PropOf t) (prop h) [] lit Hr)
      as (v & Hv & Hcv); [by rewrite app_nil_r|].
    simpl in Hcv. destruct Hcv as [-> Hlit].
    rewrite (bind_Ok (reads_load_ploc _ _ _ Hv)).
    destruct (Z.eqb_spec lit 0); [done|].
    destruct Hlit as [?|(str & Hs & Hb)]; [done|].
    by rewrite (bind_Ok (is_literal_Str _ _ _ Hne Hs Hb)).
Qed.

Lemma owner_end_of_elem l from : l ≠ [] → owner (end_of l from) ∈ l.*1.
Proof.
  intros Hne. destruct (owner_end_of l from Hne) as (o & l0 & E).
  rewrite E at 2. rewrite fmap_app. apply elem_of_app. right. by left.
Qed.

Lemma chain_elem_not_hdr hp l p lit t h :
  chain hp p l lit → hp !! t = Some (Hdr h) → t ∉ l.*1.
Proof.
  intros Hc Ht Hin. apply list_elem_of_fmap in Hin as ([q o] & -> & Hin).
  destruct (chain_elem _ _ _ _ _ _ Hc Hin) as [_ Ho].
  simpl in Ht. rewrite Ho in Ht. injection Ht as ->.
  by eapply chain_not_hdr.
Qed.

Lemma chain_elem_not_str hp l p lit k str :
  chain hp p l lit → hp !! k = Some (Str str) → k ∉ l.*1.
Proof.
  intros Hc Hk Hin. apply list_elem_of_fmap in Hin as ([q o] & -> & Hin).
  destruct (chain_elem _ _ _ _ _ _ Hc Hin) as [_ Ho].
  destruct (chain_elem_next _ _ _ _ _ _ Hc Hin) as [nx Hnx].
  simpl in Hk. rewrite Ho in Hk. injection Hk as ->. done.
Qed.

Lemma chain_elem_live hp l p lit k :
  chain hp p l lit → k ∈ l.*1 → is_Some (hp !! k).
Proof.
  intros Hc Hin. apply list_elem_of_fmap in Hin as ([q o] & -> & Hin).
  destruct (chain_elem _ _ _ _ _ _ Hc Hin) as [_ Ho]. eauto.
Qed.

Lemma put_header (hp : gmap Z object) t h l1 v o :
  hp !! t = Some (Hdr h) → hp !! owner (end_of l1 (PropOf t)) = Some o →
  t ∉ l1.*1 →
  ∃ h1, <[owner (end_of l1 (PropOf t)) := put v o]> hp !! t = Some (Hdr h1) ∧
        hlist h1 = hlist h ∧ parent_child h1 = parent_child h ∧
        prop h1 = match l1 with [] => v | _ => prop h end.
Proof.
  intros Ht Ho Hnin. destruct l1 as [|qo l1].
  - cbn [end_of owner] in *. rewrite Ht in Ho. injection Ho as <-.
    rewrite lookup_insert_eq. eexists. split; [done|]. done.
  - pose proof (owner_end_of_elem (qo :: l1) (PropOf t) ltac:(done)) as Hin.
    rewrite lookup_insert_ne by (intros E; by rewrite E in Hin).
    exists h. done.
Qed.

Lemma relast_no_type ty v l :
  Forall (λ qo : Z * object, obj_type qo.2 ≠ Some ty) l →
  Forall (λ qo : Z * object, obj_type qo.2 ≠ Some ty) (relast v l).
Proof.
  induction l as [|[q o] l IH]; [done|]. intros [Hq Hl]%Forall_cons.
  destruct l as [|qo l].
  - constructor; [|done]. simpl. by rewrite with_next_type.
  - cbn [relast]. constructor; [done|]. by apply IH.
Qed.

Lemma filter_name_app (l1 l2 : list (Z * object)) :
  length (filter (λ qo : Z * object, obj_type qo.2 = Some NAME) (l1 ++ l2))
  = (length (filter (λ qo : Z * object, obj_type qo.2 = Some NAME) l1)
     + length (filter (λ qo : Z * object, obj_type qo.2 = Some NAME) l2))%nat.
Proof. by rewrite filter_app, length_app. Qed.

Lemma filter_name_none (l : list (Z * object)) :
  length (filter (λ qo : Z * object, obj_type qo.2 = Some NAME) l) = 0%nat ↔
  Forall (λ qo : Z * object, obj_type qo.2 ≠ Some NAME) l.
Proof.
  pose proof (names_zero l 0) as H. unfold names in H. simpl in H.
  rewrite Nat.add_0_r in H. rewrite H. tauto.
Qed.

(** Taking a property off a chain and giving its block back: the place that
    pointed to it is made to point to what followed it. *)
Lemma unlink_and_free t h l1 q o nx l2 lit s :
  t ≠ 0 → heap s !! t = Some (Hdr h) →
  chain (heap s) (prop h) (l1 ++ (q, o) :: l2) lit →
  obj_next o = Some nx → alone s q →
  ∃ s1 h1,
    (do* store_ploc (end_of l1 (PropOf t)) nx in freefn q) s = Ok tt s1 ∧
    heap s1 !! t = Some (Hdr h1) ∧ hlist h1 = hlist h ∧
    parent_child h1 = parent_child h ∧
    prop h1 = match l1 with [] => nx | _ => prop h end ∧
    chain (heap s1) (prop h1) (relast nx l1 ++ l2) lit ∧
    trace s1 = trace s ++ [EvRelease q] ∧
    backend s1 = backend s ∧ notifiers s1 = notifiers s ∧
    error_aborts s1 = error_aborts s ∧ backend_errno s1 = backend_errno s ∧
    initialized s1 = initialized s ∧ takenarr s1 = takenarr s ∧
    errno s1 = backend_errno s ∧
    (∀ k, k ≠ t → k ∉ (l1 ++ (q, o) :: l2).*1 → heap s1 !! k = heap s !! k) ∧
    (∀ k, k ∈ l2.*1 → heap s1 !! k = heap s !! k) ∧
    blocks s1 = delete q (blocks s) ∧
    heap s1 !! q = None.
Proof.
  intros Ht Hh Hc Hnx (szq & Hbq & Hszq & Hq1).
  assert (Hr : reads (heap s) (PropOf t) (prop h)) by (simpl; eauto).
  pose proof (chain_NoDup _ _ _ _ Hc) as Hnd.
  pose proof (chain_elem_not_hdr _ _ _ _ _ _ Hc Hh) as Htl.
  destruct (chain_app_reads _ _ _ _ _ _ Hr Hc) as (v & Hv & Hcv).
  simpl in Hcv. destruct Hcv as (-> & Hq0 & Hq & Hn). rewrite Hnx in Hn.
  destruct (store_ploc_put _ nx s _ Hv) as (o' & Ho' & Hst).
  rewrite (bind_Ok Hst).
  set (k0 := owner (end_of l1 (PropOf t))) in *.
  set (hp' := <[k0 := put nx o']> (heap s)).
  rewrite fmap_app in Hnd, Htl. cbn [fmap list_fmap fst] in Hnd, Htl.
  apply NoDup_app in Hnd as (Hnd1 & Hdisj & Hnd2).
  apply NoDup_cons in Hnd2 as [Hq2 Hnd2].
  assert (Htl1 : t ∉ l1.*1) by (intros ?; apply Htl, elem_of_app; by left).
  assert (Hk0 : k0 = t ∨ k0 ∈ l1.*1).
  { destruct l1 as [|qo l1]; [by left|right].
    by apply owner_end_of_elem. }
  assert (Hk0l2 : k0 ∉ l2.*1).
  { intros Hin. destruct Hk0 as [E|Hin1].
    - apply Htl. rewrite <- E. apply elem_of_app. right. by right.
    - apply (Hdisj _ Hin1). by right. }
  assert (Hk0q : k0 ≠ q).
  { intros E. destruct Hk0 as [E'|Hin1].
    - apply Htl. rewrite <- E', E. apply elem_of_app. right. by left.
    - apply (Hdisj _ Hin1). rewrite E. by left. }
  pose proof (chain_put (heap s) nx l2 lit l1 (PropOf t) (prop h)
                ((q, o) :: l2) lit o' Hr Hc Hn Ho' Hk0l2) as Hc'.
  fold k0 hp' in Hc'.
  destruct (put_header (heap s) t h l1 nx o' Hh Ho' Htl1)
    as (h1 & Hh1 & Hl1 & Hpc1 & Hp1).
  fold k0 hp' in Hh1. rewrite <- Hp1 in Hc'.
  assert (Hfree : freefn q (set_heap <[k0 := put nx o']> s)
                  = Ok tt (set_errno (backend_errno s)
                             (set_heap (λ _, free_range q szq hp')
                                (set_blocks (delete q) (log (EvRelease q) s))))).
  { by rewrite (freefn_ok q szq (set_heap <[k0 := put nx o']> s) Hbq). }
  rewrite Hfree.
  assert (Hout : ∀ k, k ≠ q → is_Some (hp' !! k) → ¬ (q ≤ k < q + szq)).
  { intros k Hk [ok Hok] Hin. apply Hk, Hq1; [done|].
    unfold hp' in Hok. destruct (decide (k = k0)) as [->|Hne]; [eauto|].
    rewrite lookup_insert_ne in Hok by done. eauto. }
  eexists _, h1. split; [reflexivity|]. st_simpl.
  assert (Htq : t ≠ q).
  { intros ->. apply Htl. apply elem_of_app. right. by left. }
  split; [rewrite free_range_lookup_out; [done|]; apply Hout; [done|eauto]|].
  split; [done|]. split; [done|]. split; [done|]. split.
  { eapply chain_agree; [exact Hc'| |].
    - intros q' o1 Hin.
      destruct (chain_elem _ _ _ _ _ _ Hc' Hin) as [_ Hlk].
      rewrite free_range_lookup_out; [done|]. apply Hout; [|eauto].
      intros ->. apply (list_elem_of_fmap_2 fst) in Hin. simpl in Hin.
      rewrite fmap_app, relast_fst in Hin.
      apply elem_of_app in Hin as [Hin|Hin]; [|done].
      apply (Hdisj _ Hin). by left.
    - intros Hlit.
      destruct (chain_literal _ _ _ _ Hc') as [?|(str & Hs & _)]; [done|].
      rewrite free_range_lookup_out; [done|]. apply Hout; [|eauto].
      intros ->. unfold hp' in Hs. rewrite lookup_insert_ne in Hs by done.
      rewrite Hq in Hs. injection Hs as ->. done. }
  split; [done|]. split; [done|]. split; [done|]. split; [done|].
  split; [done|]. split; [done|]. split; [done|]. split; [done|]. split.
  { intros k Hkt Hkl. rewrite free_range_lookup.
    assert (Hkk0 : k ≠ k0).
    { intros ->. destruct Hk0 as [?|Hin]; [done|].
      apply Hkl. rewrite fmap_app. apply elem_of_app. by left. }
    unfold hp'. rewrite lookup_insert_ne by done.
    destruct (decide (q ≤ k < q + szq)) as [Hin|]; [|done].
    destruct (heap s !! k) eqn:Ek; [|done].
    exfalso. apply Hkl. rewrite (Hq1 k Hin ltac:(eauto)).
    rewrite fmap_app. apply elem_of_app. right. by left. }
  split.
  { intros k Hkl.
    assert (k ≠ k0) by (by intros ->). assert (k ≠ q) by (by intros ->).
    destruct (chain_elem_live _ _ _ _ _ Hn Hkl) as [ok Hok].
    rewrite free_range_lookup_out.
    - unfold hp'. by rewrite lookup_insert_ne.
    - apply Hout; [done|]. unfold hp'. rewrite lookup_insert_ne by done. eauto. }
  split; [done|]. apply free_range_lookup_in. lia.
Qed.

(** The first part of [tal_set_name_]: the old name, if any, is taken off
    the chain; a copy is given back to the backend, a literal is just
    dropped.  Notifiers stay, and nothing off the chain changes. *)
Lemma old_name_removed fuel t h l lit s :
  t ≠ 0 → heap s !! t = Some (Hdr h) → chain (heap s) (prop h) l lit →
  (length l < fuel)%nat →
  (∀ loc q o, first_of_type NAME l (PropOf t) = Some (loc, q, o) → alone s q) →
  ∃ s1 h1 l1 lit1,
    (let* prop := find_property_ptr fuel t NAME in
     match prop with
     | Some l =>
         let* old := load_ploc l in
         let* lit := is_literal old in
         if lit then store_ploc l NULL
         else
           let* nx := load_next old in
           do* store_ploc l nx in
           freefn old
     | None => ret tt
     end) s = Ok tt s1 ∧
    heap s1 !! t = Some (Hdr h1) ∧ hlist h1 = hlist h ∧
    parent_child h1 = parent_child h ∧
    chain (heap s1) (prop h1) l1 lit1 ∧ (length l1 ≤ length l)%nat ∧
    (∀ ctx ty i, fired ctx ty i l1 = fired ctx ty i l) ∧
    ((names l lit ≤ 1)%nat → names l1 lit1 = 0%nat) ∧
    trace s1 = trace s ++ match first_of_type NAME l (PropOf t) with
                          | Some (_, q, _) => [EvRelease q]
                          | None => []
                          end ∧
    backend s1 = backend s ∧ notifiers s1 = notifiers s ∧
    error_aborts s1 = error_aborts s ∧
    (∀ k, k ≠ t → k ∉ l.*1 → heap s1 !! k = heap s !! k) ∧
    (∀ k, k ∉ l.*1 → blocks s1 !! k = blocks s !! k) ∧
    (∀ loc q o, first_of_type NAME l (PropOf t) = Some (loc, q, o) →
                heap s1 !! q = None).
Proof.
  intros Ht Hh Hc Hf Halone.
  assert (Hr : reads (heap s) (PropOf t) (prop h)) by (simpl; eauto).
  pose proof (find_name_ptr_chain fuel l (PropOf t) (prop h) lit s Hr Hc Hf)
    as Hptr.
  pose proof (chain_elem_not_hdr _ _ _ _ _ _ Hc Hh) as Htl.
  unfold find_property_ptr.
  destruct (first_of_type NAME l (PropOf t)) as [[[loc q] o]|] eqn:E.
  - (* a copy *)
    specialize (Halone _ _ _ eq_refl).
    rewrite (bind_Ok Hptr).
    apply first_of_type_split in E as (l1 & l2 & -> & -> & Hty & HF1).
    destruct (chain_app_reads _ _ _ _ _ _ Hr Hc) as (v & Hv & Hcv).
    simpl in Hcv. destruct Hcv as (-> & Hq0 & Hq & Hn).
    destruct (obj_next o) as [nx|] eqn:Hnx; [|done].
    rewrite (bind_Ok (reads_load_ploc _ _ _ Hv)).
    rewrite (bind_Ok (is_literal_prop _ _ _ Hq0 Hq (mk_is_Some _ _ Hnx))).
    rewrite (bind_Ok (load_next_prop _ _ _ _ Hq0 Hq Hnx)).
    destruct (unlink_and_free t h l1 q o nx l2 lit s Ht Hh Hc Hnx Halone)
      as (s1 & h1 & Hrun & Hh1 & Hl1 & Hpc1 & _ & Hc1 & Htr1 & Hb1 & Hno1 & Herr1
          & _ & _ & _ & _ & Hframe & _ & Hbl1 & Hgone).
    exists s1, h1, (relast nx l1 ++ l2), lit.
    split; [done|]. split; [done|]. split; [done|]. split; [done|].
    split; [done|]. split.
    { rewrite !length_app, relast_length. simpl. lia. }
    split.
    { intros ctx ty i. rewrite !fired_app, fired_relast. f_equal.
      unfold fired at 2. cbn [flat_map]. unfold fire at 1. cbn [snd].
      destruct o; try done. }
    split.
    { unfold names. rewrite !filter_name_app.
      rewrite filter_cons_True by done. cbn [length].
      intros Hle. destruct (Z.eqb_spec lit 0); [|lia].
      assert (Hl2 : length (filter (λ qo : Z * object, obj_type qo.2 = Some NAME)
                              l2) = 0%nat) by lia.
      rewrite Hl2. apply filter_name_none in Hl2.
      assert (Hl1' : length (filter (λ qo : Z * object, obj_type qo.2 = Some NAME)
                               (relast nx l1)) = 0%nat)
        by (apply filter_name_none; by apply relast_no_type).
      rewrite Hl1'. done. }
    split; [done|]. split; [done|]. split; [done|]. split; [done|].
    split; [done|]. split.
    { intros k Hkl. rewrite Hbl1. rewrite lookup_delete_ne; [done|]. intros <-.
      apply Hkl. rewrite fmap_app. apply elem_of_app. right. by left. }
    { by intros loc' q' o'' [= _ <- _]. }
  - rewrite (bind_Ok Hptr).
    apply first_of_type_None in E.
    destruct (Z.eqb_spec lit 0) as [->|Hlit0].
    + (* no name *)
      exists s, h, l, 0. split; [done|]. split; [done|]. split; [done|].
      split; [done|]. split; [done|]. split; [done|]. split; [done|]. split.
      { intros _. by apply names_zero. }
      rewrite app_nil_r. repeat split; try done.
    + (* a literal *)
      destruct (chain_app_reads (heap s) l (PropOf t) (prop h) [] lit Hr)
        as (v & Hv & Hcv); [by rewrite app_nil_r|].
      simpl in Hcv. destruct Hcv as [-> Hlit].
      destruct Hlit as [?|(str & Hs & Hb)]; [done|].
      rewrite (bind_Ok (reads_load_ploc _ _ _ Hv)).
      rewrite (bind_Ok (is_literal_Str _ _ _ Hlit0 Hs Hb)).
      destruct (store_ploc_put _ NULL s _ Hv) as (o' & Ho' & Hst).
      rewrite Hst.
      set (k0 := owner (end_of l (PropOf t))) in *.
      assert (Hc0 : chain (heap s) (prop h) (l ++ []) lit)
        by (by rewrite app_nil_r).
      pose proof (chain_put (heap s) 0 [] 0 l (PropOf t) (prop h) [] lit o'
                    Hr Hc0 ltac:(by split; [|left]) Ho'
                    ltac:(apply not_elem_of_nil)) as Hc'.
      fold k0 in Hc'. rewrite app_nil_r in Hc'.
      destruct (put_header (heap s) t h l 0 o' Hh Ho' Htl)
        as (h1 & Hh1 & Hl1 & Hpc1 & Hp1).
      fold k0 in Hh1. rewrite <- Hp1 in Hc'.
      eexists _, h1, (relast 0 l), 0.
      split; [reflexivity|]. st_simpl.
      split; [done|]. split; [done|]. split; [done|]. split; [done|].
      split; [by rewrite relast_length|].
      split; [intros; apply fired_relast|]. split.
      { intros _. apply names_zero. split; [|done]. by apply relast_no_type. }
      split; [by rewrite app_nil_r|].
      split; [done|]. split; [done|]. split; [done|].
      split; [|by split].
      intros k Hkt Hkl. rewrite lookup_insert_ne; [done|]. intros <-.
      destruct l as [|qo l]; [done|].
      apply Hkl. by apply owner_end_of_elem.
Qed.

Lemma load_string_Str q str s :
  q ≠ 0 → heap s !! q = Some (Str str) → load_string q s = Ok str s.
Proof.
  intros Hq Hs. unfold load_string. destruct (Z.eqb_spec q 0); [done|].
  by rewrite Hs.
Qed.

Lemma load_string_Name q nx str s :
  q + sizeof_prop_hdr ≠ 0 → heap s !! (q + sizeof_prop_hdr) = None →
  heap s !! q = Some (Name nx str) →
  load_string (q + sizeof_prop_hdr) s = Ok str s.
Proof.
  intros Hq Hn Hs. unfold load_string.
  destruct (Z.eqb_spec (q + sizeof_prop_hdr) 0); [done|]. rewrite Hn.
  replace (q + sizeof_prop_hdr - sizeof_prop_hdr) with q by lia.
  by rewrite Hs.
Qed.

Lemma add_name_property_ok t h name str s a rest :
  let sz := sizeof_prop_hdr + Z.of_nat (String.length str) + 1 in
  t ≠ 0 → heap s !! t = Some (Hdr h) →
  name ≠ 0 → heap s !! name = Some (Str str) → sz < SIZE_MOD →
  backend s = a :: rest → a ≠ 0 → a ≠ t →
  add_name_property t name s = Ok a
    (set_heap (λ hp, <[a := Name (prop h) str]>
                       (<[t := Hdr (TalHdr (hlist h) a (parent_child h))]> hp))
       (set_blocks <[a := sz]> (log (EvAlloc sz a) (set_backend rest s)))).
Proof.
  intros sz Ht Hh Hn0 Hn Hsz Hb Ha Hat. unfold add_name_property.
  rewrite (bind_Ok (load_string_Str _ _ _ Hn0 Hn)).
  assert (Hw : wrap (sizeof_prop_hdr + Z.of_nat (String.length str) + 1) = sz).
  { apply wrap_small. unfold sz, sizeof_prop_hdr in *. lia. }
  rewrite Hw.
  eapply bind_runs; [by apply allocate_ok|].
  destruct (Z.eqb_spec a 0) as [|_]; [done|].
  eapply bind_runs; [|reflexivity].
  eapply bind_runs.
  { unfold init_property.
    eapply bind_runs; [apply load_hdr_Some; [done|by st_simpl]|].
    eapply bind_runs.
    { apply emplace_ok. st_simpl. apply in_block_insert.
      cbn. unfold sz, sizeof_prop_hdr. lia. }
    apply store_hdr_ok; [done|]. st_simpl.
    rewrite lookup_insert_ne by done. by rewrite Hh. }
  eapply bind_runs.
  { eapply (load_next_prop _ (Name (prop h) "")); [done| |done].
    st_simpl. rewrite lookup_insert_ne by done. apply lookup_insert_eq. }
  rewrite store_ok; [|done|].
  - f_equal. destruct s; unfold set_heap; simpl. f_equal.
    apply map_eq. intros k.
    destruct (decide (k = a)) as [->|]; [by rewrite !lookup_insert_eq|].
    rewrite !(lookup_insert_ne _ a) by done.
    destruct (decide (k = t)) as [->|]; [by rewrite !lookup_insert_eq|].
    by rewrite !lookup_insert_ne by done.
  - st_simpl. rewrite lookup_insert_ne by done. rewrite lookup_insert_eq. eauto.
Qed.

(** A new property at the head of a chain. *)
Lemma chain_push (hp : gmap Z object) t h a o l lit :
  hp !! t = Some (Hdr h) → hp !! a = None → a ≠ 0 →
  obj_next o = Some (prop h) →
  chain hp (prop h) l lit →
  chain (<[a := o]> (<[t := Hdr (TalHdr (hlist h) a (parent_child h))]> hp)) a
        ((a, o) :: l) lit.
Proof.
  intros Hh Ha Ha0 Hn Hc.
  assert (a ≠ t) by (intros ->; congruence).
  simpl. repeat split; [done|apply lookup_insert_eq|]. rewrite Hn.
  apply chain_insert_hdr.
  - apply chain_insert_hdr; [done|]. right. eauto.
  - left. by rewrite lookup_insert_ne.
Qed.

(** X9.  [tal_set_name_] with a name to copy (not flagged as a literal, or
    empty), and memory from the backend: the old name is taken off the chain
    (a copy is given back to the backend), a name property with a copy of the
    string is put at the head of the chain, and the notifiers of the node hear
    [TAL_NOTIFY_RENAME] when the counter is not zero. Afterwards [tal_name]
    returns the copy, which is not the caller's string. *)
Theorem tal_set_name_copies fuel ctx name literal s h l lit str a rest :
  let t := ctx - sizeof_tal_hdr in
  let sz := sizeof_prop_hdr + Z.of_nat (String.length str) + 1 in
  t ≠ 0 → heap s !! t = Some (Hdr h) → chain (heap s) (prop h) l lit →
  (S (length l) < fuel)%nat →
  (∀ loc q o, first_of_type NAME l (PropOf t) = Some (loc, q, o) → alone s q) →
  name ≠ 0 → heap s !! name = Some (Str str) →
  literal = false ∨ first_byte str = 0 →
  sz < SIZE_MOD →
  backend s = a :: rest → 0 < a →
  (∀ k, a ≤ k < a + sz → heap s !! k = None) →
  ∃ s',
    tal_set_name_ passive fuel ctx name literal s = Ok true s' ∧
    tal_name fuel ctx s' = Ok (a + sizeof_prop_hdr) s' ∧
    load_string (a + sizeof_prop_hdr) s' = Ok str s' ∧
    a + sizeof_prop_hdr ≠ name ∧
    heap s' !! name = Some (Str str) ∧
    trace s' = trace s
               ++ match first_of_type NAME l (PropOf t) with
                  | Some (_, q, _) => [EvRelease q]
                  | None => []
                  end
               ++ [EvAlloc sz a]
               ++ (if notifiers s =? 0 then []
                   else fired t TAL_NOTIFY_RENAME name l).
Proof.
  intros t sz Ht Hh Hc Hf Halone Hn0 Hn Hmode Hsz Hb Hapos Hfresh.
  assert (Ha : a ≠ 0) by lia.
  assert (Hsz17 : 17 ≤ sz) by (unfold sz, sizeof_prop_hdr; lia).
  destruct (old_name_removed fuel t h l lit s Ht Hh Hc ltac:(lia) Halone)
    as (s1 & h1 & l1 & lit1 & Hrun1 & Hh1 & Hl1 & Hpc1 & Hc1 & Hlen1 & Hfired1
        & _ & Htr1 & Hb1 & Hno1 & Herr1 & Hframe1 & _ & _).
  assert (Hnt : name ≠ t) by (intros ->; congruence).
  assert (Hnl : name ∉ l.*1) by (by eapply chain_elem_not_str).
  assert (Hn1 : heap s1 !! name = Some (Str str)) by (by rewrite Hframe1).
  assert (Hfresh1 : ∀ k, a ≤ k < a + sz → heap s1 !! k = None).
  { intros k Hk. rewrite Hframe1; [by apply Hfresh| |].
    - intros ->. rewrite Hfresh in Hh; [done|lia].
    - intros Hin. destruct (chain_elem_live _ _ _ _ _ Hc Hin) as [o Ho].
      rewrite Hfresh in Ho; done. }
  assert (Hat : a ≠ t).
  { intros ->. rewrite Hfresh1 in Hh1; [done|lia]. }
  assert (Hflag :
    (if literal then
       let* str := load_string name in ret (negb (first_byte str =? 0))
     else ret false) s1 = Ok false s1).
  { destruct literal; [|done]. destruct Hmode as [?|Hb0]; [done|].
    rewrite (bind_Ok (load_string_Str _ _ _ Hn0 Hn1)). by rewrite Hb0. }
  rewrite <- Hb1 in Hb.
  pose proof (add_name_property_ok t h1 name str s1 a rest Ht Hh1 Hn0 Hn1 Hsz
                Hb Ha Hat) as Hadd.
  fold sz in Hadd.
  set (s2 := set_heap (λ hp, <[a := Name (prop h1) str]>
                       (<[t := Hdr (TalHdr (hlist h1) a (parent_child h1))]> hp))
       (set_blocks <[a := sz]> (log (EvAlloc sz a) (set_backend rest s1)))) in *.
  assert (Hc2 : chain (heap s2) a ((a, Name (prop h1) str) :: l1) lit1).
  { unfold s2. st_simpl. apply chain_push; [done| |done|done|done].
    apply Hfresh1. lia. }
  assert (Hh2 : heap s2 !! t
                = Some (Hdr (TalHdr (hlist h1) a (parent_child h1)))).
  { unfold s2. st_simpl. rewrite lookup_insert_ne by done.
    apply lookup_insert_eq. }
  set (evs := if notifiers s =? 0 then [] else fired t TAL_NOTIFY_RENAME name l).
  assert (Hnot :
    (if notifiers s2 =? 0 then ret tt
     else notify passive fuel t TAL_NOTIFY_RENAME name) s2
    = Ok tt (add_trace evs s2)).
  { assert (notifiers s2 = notifiers s) as -> by (unfold s2; by st_simpl).
    unfold evs. destruct (notifiers s =? 0); [by rewrite add_trace_nil|].
    rewrite (notify_passive fuel t _ _ lit1 _ _ s2 Ht Hh2 Hc2)
      by (simpl; lia).
    unfold fired at 1. cbn [flat_map]. unfold fire at 1. cbn [snd app].
    fold (fired t TAL_NOTIFY_RENAME name l1). by rewrite Hfired1. }
  set (s' := add_trace evs s2).
  assert (Ha16 : heap s' !! (a + sizeof_prop_hdr) = None).
  { unfold s', s2. st_simpl. unfold sizeof_prop_hdr.
    rewrite lookup_insert_ne by lia.
    rewrite lookup_insert_ne.
    - apply Hfresh1. lia.
    - intros E. rewrite E in Hh1. rewrite Hfresh1 in Hh1; [done|lia]. }
  exists s'. split; [|split; [|split; [|split; [|split]]]].
  - unfold tal_set_name_.
    rewrite (bind_Ok (to_tal_hdr_ok ctx h l lit s Ht Hh Hc)). fold t.
    rewrite <- (bind_assoc (find_property_ptr fuel t NAME)).
    rewrite (bind_Ok Hrun1). rewrite (bind_Ok Hflag). cbn iota.
    rewrite bind_assoc, (bind_Ok Hadd).
    destruct (Z.eqb_spec a 0); [done|]. rewrite bind_ret_l. cbn [negb].
    rewrite bind_get. by rewrite (bind_Ok Hnot).
  - rewrite (tal_name_chain fuel ctx _ _ lit1 s' Ht Hh2 Hc2) by (simpl; lia).
    fold t. cbn [first_of_type obj_type]. by rewrite decide_True.
  - apply (load_string_Name a (prop h1)); [unfold sizeof_prop_hdr; lia|done|].
    unfold s', s2. st_simpl. apply lookup_insert_eq.
  - intros E. rewrite <- E in Hn1.
    rewrite Hfresh1 in Hn1; [done|unfold sizeof_prop_hdr; lia].
  - unfold s', s2. st_simpl.
    rewrite lookup_insert_ne by (intros ->; rewrite Hfresh1 in Hn1; [done|lia]).
    by rewrite lookup_insert_ne.
  - unfold s', s2. st_simpl. rewrite Htr1. by rewrite <- !app_assoc.
Qed.

(** X10.  [tal_set_name_] with a literal that is not empty: the old name is
    taken off the chain, the pointer itself is stored at the end of the chain,
    and nothing is asked of the backend. Afterwards [tal_name] returns the
    very pointer that was passed in. *)
Theorem tal_set_name_keeps_literal fuel ctx name s h l lit str :
  let t := ctx - sizeof_tal_hdr in
  t ≠ 0 → heap s !! t = Some (Hdr h) → chain (heap s) (prop h) l lit →
  (S (length l) < fuel)%nat → (names l lit ≤ 1)%nat →
  (∀ loc q o, first_of_type NAME l (PropOf t) = Some (loc, q, o) → alone s q) →
  name ≠ 0 → heap s !! name = Some (Str str) → first_byte str ≠ 0 →
  ∃ s',
    tal_set_name_ passive fuel ctx name true s = Ok true s' ∧
    tal_name fuel ctx s' = Ok name s' ∧
    backend s' = backend s ∧
    (∀ k, k ∉ l.*1 → blocks s' !! k = blocks s !! k) ∧
    trace s' = trace s
               ++ match first_of_type NAME l (PropOf t) with
                  | Some (_, q, _) => [EvRelease q]
                  | None => []
                  end
               ++ (if notifiers s =? 0 then []
                   else fired t TAL_NOTIFY_RENAME name l).
Proof.
  intros t Ht Hh Hc Hf Hnames Halone Hn0 Hn Hb0.
  destruct (old_name_removed fuel t h l lit s Ht Hh Hc ltac:(lia) Halone)
    as (s1 & h1 & l1 & lit1 & Hrun1 & Hh1 & Hl1 & Hpc1 & Hc1 & Hlen1 & Hfired1
        & Hnames1 & Htr1 & Hb1 & Hno1 & Herr1 & Hframe1 & Hbl1 & _).
  apply Hnames1, names_zero in Hnames as [HF1 ->].
  assert (Hnt : name ≠ t) by (intros ->; congruence).
  assert (Hnl : name ∉ l.*1) by (by eapply chain_elem_not_str).
  assert (Hn1 : heap s1 !! name = Some (Str str)) by (by rewrite Hframe1).
  assert (Hflag :
    (let* str := load_string name in ret (negb (first_byte str =? 0))) s1
    = Ok true s1).
  { rewrite (bind_Ok (load_string_Str _ _ _ Hn0 Hn1)).
    by destruct (Z.eqb_spec (first_byte str) 0). }
  assert (Hr1 : reads (heap s1) (PropOf t) (prop h1)) by (simpl; eauto).
  pose proof (literal_slot_chain fuel l1 (PropOf t) (prop h1) 0 s1 Hr1 Hc1
                ltac:(lia)) as Hslot.
  assert (Hc10 : chain (heap s1) (prop h1) (l1 ++ []) 0)
    by (by rewrite app_nil_r).
  destruct (chain_app_reads _ _ _ _ _ _ Hr1 Hc10) as (v & Hv & _).
  destruct (store_ploc_put _ name s1 _ Hv) as (o' & Ho' & Hst).
  set (k0 := owner (end_of l1 (PropOf t))) in *.
  assert (Hlitn : chain (heap s1) name [] name).
  { split; [done|]. right. eauto. }
  pose proof (chain_put (heap s1) name [] name l1 (PropOf t) (prop h1) [] 0 o'
                Hr1 Hc10 Hlitn Ho' ltac:(apply not_elem_of_nil)) as Hc2.
  fold k0 in Hc2. rewrite app_nil_r in Hc2.
  destruct (put_header (heap s1) t h1 l1 name o' Hh1 Ho'
              (chain_elem_not_hdr _ _ _ _ _ _ Hc1 Hh1))
    as (h2 & Hh2 & Hl2 & Hpc2 & Hp2).
  fold k0 in Hh2. rewrite <- Hp2 in Hc2.
  set (s2 := set_heap <[k0 := put name o']> s1) in *.
  set (evs := if notifiers s =? 0 then [] else fired t TAL_NOTIFY_RENAME name l).
  assert (Hnot :
    (if notifiers s2 =? 0 then ret tt
     else notify passive fuel t TAL_NOTIFY_RENAME name) s2
    = Ok tt (add_trace evs s2)).
  { assert (notifiers s2 = notifiers s) as -> by (unfold s2; by st_simpl).
    unfold evs. destruct (notifiers s =? 0); [by rewrite add_trace_nil|].
    rewrite (notify_passive fuel t _ _ name _ _ s2 Ht Hh2 Hc2)
      by (rewrite relast_length; lia).
    by rewrite fired_relast, Hfired1. }
  exists (add_trace evs s2). split; [|split; [|split; [|split]]].
  - unfold tal_set_name_.
    rewrite (bind_Ok (to_tal_hdr_ok ctx h l lit s Ht Hh Hc)). fold t.
    rewrite <- (bind_assoc (find_property_ptr fuel t NAME)).
    rewrite (bind_Ok Hrun1). rewrite (bind_Ok Hflag). cbn iota.
    rewrite bind_assoc, (bind_Ok Hslot).
    rewrite bind_assoc, (bind_Ok Hst). rewrite !bind_ret_l. cbn [negb].
    rewrite bind_get. by rewrite (bind_Ok Hnot).
  - rewrite (tal_name_chain fuel ctx h2 (relast name l1) name (add_trace evs s2)
               Ht Hh2 Hc2) by (rewrite relast_length; lia).
    fold t.
    assert (first_of_type NAME (relast name l1) (PropOf t) = None) as ->;
      [|done].
    apply first_of_type_None. by apply relast_no_type.
  - unfold s2. by st_simpl.
  - intros k Hk. unfold s2. st_simpl. by apply Hbl1.
  - unfold s2. st_simpl. by rewrite Htr1, <- app_assoc.
Qed.

(** X11.  [tal_set_name_] with a name to copy, when the backend has no memory
    for the copy: the old name is gone all the same (a copy has been given
    back to the backend), the error hook hears "allocation failed", no
    notifier is called and [tal_set_name_] returns false; the node is left
    without a name. *)
Theorem tal_set_name_loses_old_name fuel ctx name literal s h l lit str :
  let t := ctx - sizeof_tal_hdr in
  let sz := sizeof_prop_hdr + Z.of_nat (String.length str) + 1 in
  t ≠ 0 → heap s !! t = Some (Hdr h) → chain (heap s) (prop h) l lit →
  (S (length l) < fuel)%nat → (names l lit ≤ 1)%nat →
  (∀ loc q o, first_of_type NAME l (PropOf t) = Some (loc, q, o) → alone s q) →
  name ≠ 0 → heap s !! name = Some (Str str) →
  literal = false ∨ first_byte str = 0 →
  sz < SIZE_MOD →
  refused s → error_aborts s = false →
  ∃ s',
    tal_set_name_ passive fuel ctx name literal s = Ok false s' ∧
    tal_name fuel ctx s' = Ok NULL s' ∧
    trace s' = trace s
               ++ match first_of_type NAME l (PropOf t) with
                  | Some (_, q, _) => [EvRelease q]
                  | None => []
                  end
               ++ [EvAlloc sz NULL; EvError "allocation failed"].
Proof.
  intros t sz Ht Hh Hc Hf Hnames Halone Hn0 Hn Hmode Hsz Href Herr.
  destruct (old_name_removed fuel t h l lit s Ht Hh Hc ltac:(lia) Halone)
    as (s1 & h1 & l1 & lit1 & Hrun1 & Hh1 & Hl1 & Hpc1 & Hc1 & Hlen1 & Hfired1
        & Hnames1 & Htr1 & Hb1 & Hno1 & Herr1 & Hframe1 & Hbl1 & _).
  apply Hnames1, names_zero in Hnames as [HF1 ->].
  assert (Hnt : name ≠ t) by (intros ->; congruence).
  assert (Hnl : name ∉ l.*1) by (by eapply chain_elem_not_str).
  assert (Hn1 : heap s1 !! name = Some (Str str)) by (by rewrite Hframe1).
  assert (Hflag :
    (if literal then
       let* str := load_string name in ret (negb (first_byte str =? 0))
     else ret false) s1 = Ok false s1).
  { destruct literal; [|done]. destruct Hmode as [?|Hb0]; [done|].
    rewrite (bind_Ok (load_string_Str _ _ _ Hn0 Hn1)). by rewrite Hb0. }
  assert (Href1 : refused s1) by (unfold refused; by rewrite Hb1).
  rewrite <- Herr1 in Herr.
  set (s2 := add_trace [EvAlloc sz NULL; EvError "allocation failed"]
               (set_backend (tail (backend s1)) s1)).
  assert (Hadd : add_name_property t name s1 = Ok NULL s2).
  { unfold add_name_property.
    rewrite (bind_Ok (load_string_Str _ _ _ Hn0 Hn1)).
    assert (Hw : wrap (sizeof_prop_hdr + Z.of_nat (String.length str) + 1) = sz).
    { apply wrap_small. unfold sz, sizeof_prop_hdr in *. lia. }
    rewrite Hw. by rewrite (bind_Ok (allocate_refused sz s1 Href1 Herr)). }
  exists s2. split; [|split].
  - unfold tal_set_name_.
    rewrite (bind_Ok (to_tal_hdr_ok ctx h l lit s Ht Hh Hc)). fold t.
    rewrite <- (bind_assoc (find_property_ptr fuel t NAME)).
    rewrite (bind_Ok Hrun1). rewrite (bind_Ok Hflag). cbn iota.
    rewrite bind_assoc, (bind_Ok Hadd). done.
  - rewrite (tal_name_chain fuel ctx h1 l1 0 s2 Ht Hh1 Hc1) by lia.
    fold t. assert (first_of_type NAME l1 (PropOf t) = None) as ->; [|done].
    by apply first_of_type_None.
  - unfold s2. st_simpl. by rewrite Htr1, <- app_assoc.
Qed.

(** X12.  [tal_set_name_] releases the old copy before it reads the new name:
    given the node's own copied name (what [tal_name] returns for it), it
    reads released memory, and has no defined result. *)
Theorem tal_set_name_own_name_undefined cb fuel ctx literal s h l lit loc q nx str szq :
  let t := ctx - sizeof_tal_hdr in
  t ≠ 0 → heap s !! t = Some (Hdr h) → chain (heap s) (prop h) l lit →
  (S (length l) < fuel)%nat →
  first_of_type NAME l (PropOf t) = Some (loc, q, Name nx str) →
  blocks s !! q = Some szq → sizeof_prop_hdr < szq →
  (∀ k, q ≤ k < q + szq → is_Some (heap s !! k) → k = q) →
  tal_name fuel ctx s = Ok (q + sizeof_prop_hdr) s ∧
  tal_set_name_ cb fuel ctx (q + sizeof_prop_hdr) literal s = Undef.
Proof.
  intros t Ht Hh Hc Hf Hfirst Hbq Hszq Hq1.
  split.
  { rewrite (tal_name_chain fuel ctx h l lit s Ht Hh Hc) by lia.
    fold t. by rewrite Hfirst. }
  assert (Halone : ∀ loc q o,
            first_of_type NAME l (PropOf t) = Some (loc, q, o) → alone s q).
  { intros loc' q' o' E. rewrite Hfirst in E. injection E as _ <- _.
    exists szq. split; [done|]. split; [unfold sizeof_prop_hdr in *; lia|done]. }
  destruct (old_name_removed fuel t h l lit s Ht Hh Hc ltac:(lia) Halone)
    as (s1 & h1 & l1 & lit1 & Hrun1 & Hh1 & Hl1 & Hpc1 & Hc1 & Hlen1 & Hfired1
        & Hnames1 & Htr1 & Hb1 & Hno1 & Herr1 & Hframe1 & Hbl1 & Hgone).
  specialize (Hgone _ _ _ Hfirst).
  assert (Hs16 : heap s !! (q + sizeof_prop_hdr) = None).
  { destruct (heap s !! (q + sizeof_prop_hdr)) eqn:E; [|done].
    assert (q + sizeof_prop_hdr = q); [|unfold sizeof_prop_hdr in *; lia].
    apply Hq1; [unfold sizeof_prop_hdr in *; lia|eauto]. }
  assert (H16 : heap s1 !! (q + sizeof_prop_hdr) = None).
  { rewrite Hframe1; [done| |].
    - intros E. rewrite E in Hs16. congruence.
    - intros Hin. destruct (chain_elem_live _ _ _ _ _ Hc Hin) as [o Ho].
      congruence. }
  assert (Hload : load_string (q + sizeof_prop_hdr) s1 = Undef).
  { unfold load_string. destruct (q + sizeof_prop_hdr =? 0); [done|].
    rewrite H16.
    replace (q + sizeof_prop_hdr - sizeof_prop_hdr) with q by lia.
    by rewrite Hgone. }
  unfold tal_set_name_.
  rewrite (bind_Ok (to_tal_hdr_ok ctx h l lit s Ht Hh Hc)). fold t.
  rewrite <- (bind_assoc (find_property_ptr fuel t NAME)).
  rewrite (bind_Ok Hrun1).
  destruct literal.
  - apply bind_Undef. by apply bind_Undef.
  - rewrite bind_ret_l. apply bind_Undef. unfold add_name_property.
    apply bind_Undef. by apply bind_Undef.
Qed.

(** ** Removing a notifier *)

Lemma del_notifier_absent fuel fn : ∀ l from p lit s,
  reads (heap s) from p → chain (heap s) p l lit → (length l < fuel)%nat →
  (∀ q nx types, (q, Notifier nx types fn) ∉ l) →
  del_notifier_property_from fuel from fn s = Ok 0 s.
Proof.
  induction fuel as [|f IH]; intros l from p lit s Hfrom Hc Hf Hno; [lia|].
  cbn [del_notifier_property_from].
  rewrite (bind_Ok (reads_load_ploc _ _ _ Hfrom)).
  destruct l as [|[q o] l]; simpl in Hc.
  - destruct Hc as [-> Hlit].
    destruct (Z.eqb_spec lit 0) as [->|Hne]; [done|].
    destruct Hlit as [?|(str & Hs & Hb)]; [done|].
    by rewrite (bind_Ok (is_literal_Str _ _ _ Hne Hs Hb)).
  - destruct Hc as (-> & Hq & Ho & Hn).
    destruct (obj_next o) as [nx|] eqn:Hnx; [|done].
    destruct (obj_next_type _ _ Hnx) as [ty' Hty'].
    destruct (Z.eqb_spec q 0); [done|].
    rewrite (bind_Ok (is_literal_prop _ _ _ Hq Ho (mk_is_Some _ _ Hnx))).
    rewrite (bind_Ok (load_type_prop _ _ _ _ Hq Ho Hty')).
    assert (Hrec : del_notifier_property_from f (NextOf q) fn s = Ok 0 s).
    { apply (IH l (NextOf q) nx lit); [simpl; eauto|done|simpl in Hf; lia|].
      intros q' nx' types' Hin. apply (Hno q' nx' types'). by right. }
    destruct (decide (ty' = NOTIFIER)) as [->|Hne]; [|done].
    rewrite (bind_Ok (load_Some _ _ _ Hq Ho)).
    destruct o; try discriminate.
    destruct (Z.eqb_spec fn0 fn) as [->|Hfn]; [|done].
    exfalso. apply (Hno q nxt types). left.
Qed.

Lemma del_notifier_first fuel fn : ∀ l1 from p q nx types l2 lit s,
  reads (heap s) from p →
  chain (heap s) p (l1 ++ (q, Notifier nx types fn) :: l2) lit →
  (length (l1 ++ (q, Notifier nx types fn) :: l2) < fuel)%nat →
  (∀ q' nx' types', (q', Notifier nx' types' fn) ∉ l1) →
  del_notifier_property_from fuel from fn s
  = (do* store_ploc (end_of l1 from) nx in
     do* freefn q in
     ret (Z.land types (Z.lnot NOTIFY_IS_DESTRUCTOR))) s.
Proof.
  induction fuel as [|f IH]; intros l1 from p q nx types l2 lit s Hfrom Hc Hf Hno;
    [lia|].
  cbn [del_notifier_property_from].
  rewrite (bind_Ok (reads_load_ploc _ _ _ Hfrom)).
  destruct l1 as [|[k o] l1]; simpl in Hc.
  - destruct Hc as (-> & Hq & Ho & Hn).
    destruct (Z.eqb_spec q 0); [done|].
    rewrite (bind_Ok (is_literal_prop _ _ _ Hq Ho ltac:(by eexists))).
    rewrite (bind_Ok (load_type_prop _ _ NOTIFIER _ Hq Ho ltac:(done))).
    rewrite decide_True by done.
    rewrite (bind_Ok (load_Some _ _ _ Hq Ho)).
    by rewrite Z.eqb_refl.
  - destruct Hc as (-> & Hk & Ho & Hn).
    destruct (obj_next o) as [nx0|] eqn:Hnx; [|done].
    destruct (obj_next_type _ _ Hnx) as [ty' Hty'].
    destruct (Z.eqb_spec k 0); [done|].
    rewrite (bind_Ok (is_literal_prop _ _ _ Hk Ho (mk_is_Some _ _ Hnx))).
    rewrite (bind_Ok (load_type_prop _ _ _ _ Hk Ho Hty')).
    assert (Hrec : del_notifier_property_from f (NextOf k) fn s
              = (do* store_ploc (end_of l1 (NextOf k)) nx in
                 do* freefn q in
                 ret (Z.land types (Z.lnot NOTIFY_IS_DESTRUCTOR))) s).
    { apply (IH l1 (NextOf k) nx0 q nx types l2 lit);
        [simpl; eauto|done|simpl in Hf; lia|].
      intros q' nx' types' Hin. apply (Hno q' nx' types'). by right. }
    cbn [end_of].
    destruct (decide (ty' = NOTIFIER)) as [->|Hne]; [|done].
    rewrite (bind_Ok (load_Some _ _ _ Hk Ho)).
    destruct o; try discriminate.
    destruct (Z.eqb_spec fn0 fn) as [->|Hfn]; [|done].
    exfalso. apply (Hno k nxt types0). left.
Qed.

(** X13.  [tal_del_notifier_] for a callback that is not installed on the node
    returns false and changes nothing: no notifier is called, no block is
    given back. *)
Theorem tal_del_notifier_not_installed cb fuel ctx fn s h l lit :
  let t := ctx - sizeof_tal_hdr in
  t ≠ 0 → heap s !! t = Some (Hdr h) → chain (heap s) (prop h) l lit →
  (length l < fuel)%nat →
  (∀ q nx types, (q, Notifier nx types fn) ∉ l) →
  tal_del_notifier_ cb fuel ctx fn s = Ok false s.
Proof.
  intros t Ht Hh Hc Hf Hno. unfold tal_del_notifier_.
  rewrite (bind_Ok (to_tal_hdr_ok ctx h l lit s Ht Hh Hc)). fold t.
  unfold del_notifier_property.
  rewrite (bind_Ok (del_notifier_absent fuel fn l (PropOf t) (prop h) lit s
                      ltac:(simpl; eauto) Hc Hf Hno)).
  done.
Qed.

(** X14.  [tal_del_notifier_] removes the first notifier of the chain that has
    the callback, that is the one installed last: it is taken off the chain
    and its block is given back; notifiers behind it with the same callback
    stay. The notifiers that remain hear [TAL_NOTIFY_DEL_NOTIFIER], whatever
    the counter says, and the counter goes down by one unless the mask was
    exactly [TAL_NOTIFY_FREE]. *)
Theorem tal_del_notifier_removes_latest
    fuel ctx fn s h l1 q nx types l2 lit :
  let t := ctx - sizeof_tal_hdr in
  let l := l1 ++ (q, Notifier nx types fn) :: l2 in
  let mask := Z.land types (Z.lnot NOTIFY_IS_DESTRUCTOR) in
  t ≠ 0 → heap s !! t = Some (Hdr h) → chain (heap s) (prop h) l lit →
  (length l < fuel)%nat →
  (∀ q' nx' types', (q', Notifier nx' types' fn) ∉ l1) →
  alone s q → mask ≠ 0 →
  ∃ s' h',
    tal_del_notifier_ passive fuel ctx fn s = Ok true s' ∧
    heap s' !! t = Some (Hdr h') ∧
    chain (heap s') (prop h') (relast nx l1 ++ l2) lit ∧
    heap s' !! q = None ∧ blocks s' = delete q (blocks s) ∧
    (∀ k, k ∈ l2.*1 → heap s' !! k = heap s !! k) ∧
    trace s' = trace s ++ [EvRelease q]
               ++ fired t TAL_NOTIFY_DEL_NOTIFIER fn (l1 ++ l2) ∧
    notifiers s' = (if mask =? TAL_NOTIFY_FREE then notifiers s
                    else wrap (notifiers s - 1)).
Proof.
  intros t l mask Ht Hh Hc Hf Hno Halone Hmask.
  destruct (unlink_and_free t h l1 q _ nx l2 lit s Ht Hh Hc eq_refl Halone)
    as (s1 & h1 & Hrun & Hh1 & Hl1 & Hpc1 & _ & Hc1 & Htr1 & Hb1 & Hno1 & Herr1
        & _ & _ & _ & _ & Hframe & Hl2 & Hbl1 & Hgone).
  assert (Hdel : del_notifier_property fuel t fn s = Ok mask s1).
  { unfold del_notifier_property.
    rewrite (del_notifier_first fuel fn l1 (PropOf t) (prop h) q nx types l2 lit s
               ltac:(simpl; eauto) Hc Hf Hno).
    rewrite <- bind_assoc. by rewrite (bind_Ok Hrun). }
  set (evs := fired t TAL_NOTIFY_DEL_NOTIFIER fn (l1 ++ l2)).
  assert (Hnot : notify passive fuel t TAL_NOTIFY_DEL_NOTIFIER fn s1
                 = Ok tt (add_trace evs s1)).
  { rewrite (notify_passive fuel t h1 _ lit _ _ s1 Ht Hh1 Hc1).
    - unfold evs. by rewrite !fired_app, fired_relast.
    - unfold l in Hf. rewrite !length_app in *. rewrite relast_length.
      simpl in Hf. lia. }
  exists (if mask =? TAL_NOTIFY_FREE then add_trace evs s1
          else set_notifiers (wrap (notifiers s1 - 1)) (add_trace evs s1)), h1.
  split.
  { unfold tal_del_notifier_.
    rewrite (bind_Ok (to_tal_hdr_ok ctx h l lit s Ht Hh Hc)). fold t.
    rewrite (bind_Ok Hdel).
    destruct (Z.eqb_spec mask 0); [done|].
    rewrite (bind_Ok Hnot).
    by destruct (mask =? TAL_NOTIFY_FREE). }
  destruct (mask =? TAL_NOTIFY_FREE); st_simpl;
    (split; [done|]); (split; [done|]); (split; [done|]); (split; [done|]);
    (split; [done|]); (split; [by rewrite Htr1, <- app_assoc|]);
    by rewrite ?Hno1.
Qed.

(** X15.  Installing a destructor and removing it again leaves memory as it
    was: [tal_add_destructor_] puts the new notifier at the head of the chain,
    [tal_del_destructor_] finds it there, takes it off and gives its block
    back. The counter does not move; the other notifiers of the node hear
    [TAL_NOTIFY_DEL_NOTIFIER] on removal, and nothing on installation. *)
Theorem destructor_add_then_del fuel ctx fn s h l lit a rest :
  let t := ctx - sizeof_tal_hdr in
  t ≠ 0 → heap s !! t = Some (Hdr h) → chain (heap s) (prop h) l lit →
  (S (length l) < fuel)%nat →
  backend s = a :: rest → a ≠ 0 →
  (∀ k, a ≤ k < a + sizeof_notifier → heap s !! k = None) →
  blocks s !! a = None →
  ∃ s1 s',
    tal_add_destructor_ ctx fn s = Ok true s1 ∧
    trace s1 = trace s ++ [EvAlloc sizeof_notifier a] ∧
    tal_del_destructor_ passive fuel ctx fn s1 = Ok true s' ∧
    heap s' = heap s ∧ blocks s' = blocks s ∧ notifiers s' = notifiers s ∧
    trace s' = trace s ++ [EvAlloc sizeof_notifier a; EvRelease a]
               ++ fired t TAL_NOTIFY_DEL_NOTIFIER fn l.
Proof.
  intros t Ht Hh Hc Hf Hb Ha Hfresh Hbl.
  assert (Hafresh : heap s !! a = None)
    by (apply Hfresh; unfold sizeof_notifier; lia).
  assert (Hat : a ≠ t) by (intros ->; congruence).
  set (types := Z.lor TAL_NOTIFY_FREE NOTIFY_IS_DESTRUCTOR).
  pose proof (add_notifier_property_ok t h types fn s a rest Ht Hh Hb Ha Hat)
    as Hadd.
  fold (with_notifier t h a types fn rest s) in Hadd.
  set (s1 := with_notifier t h a types fn rest s) in *.
  pose proof (chain_with_notifier t h a types fn rest s l lit Hh Hafresh Ha Hc)
    as Hc1. fold s1 in Hc1.
  assert (Hh1 : heap s1 !! t = Some (Hdr (TalHdr (hlist h) a (parent_child h)))).
  { unfold s1, with_notifier. st_simpl.
    rewrite lookup_insert_ne by done. apply lookup_insert_eq. }
  assert (Hrun1 : tal_add_destructor_ ctx fn s = Ok true s1).
  { unfold tal_add_destructor_.
    rewrite (bind_Ok (to_tal_hdr_ok ctx h l lit s Ht Hh Hc)). fold t.
    fold types. rewrite (bind_Ok Hadd). by destruct (Z.eqb_spec a 0). }
  (* the removal *)
  assert (Hst : store_ploc (PropOf t) (prop h) s1
                = Ok tt (set_heap <[t := Hdr h]> s1)).
  { simpl. rewrite (bind_Ok (load_hdr_Some _ _ _ Ht Hh1)).
    rewrite store_hdr_ok; [|done|eauto]. by destruct h. }
  set (s2 := set_heap <[t := Hdr h]> s1) in *.
  assert (Hbl2 : blocks s2 !! a = Some sizeof_notifier)
    by (unfold s2, s1, with_notifier; st_simpl; apply lookup_insert_eq).
  pose proof (freefn_ok a sizeof_notifier s2 Hbl2) as Hfree.
  set (s3 := set_errno (backend_errno s2)
               (set_heap (free_range a sizeof_notifier)
                  (set_blocks (delete a) (log (EvRelease a) s2)))) in *.
  assert (Hhp3 : heap s3 = heap s).
  { unfold s3, s2, s1, with_notifier. st_simpl. apply map_eq. intros k.
    rewrite free_range_lookup.
    destruct (decide (a ≤ k < a + sizeof_notifier)) as [Hin|Hout];
      [by rewrite Hfresh|].
    destruct (decide (k = t)) as [->|Hkt]; [by rewrite lookup_insert_eq|].
    rewrite lookup_insert_ne by done.
    rewrite lookup_insert_ne by (unfold sizeof_notifier in *; lia).
    by rewrite lookup_insert_ne. }
  assert (Hdel : del_notifier_property fuel t fn s1 = Ok TAL_NOTIFY_FREE s3).
  { unfold del_notifier_property.
    rewrite (del_notifier_first fuel fn [] (PropOf t) a a (prop h) types l lit s1
               ltac:(simpl; eauto) Hc1 ltac:(simpl; lia)
               ltac:(intros ???; apply not_elem_of_nil)).
    cbn [end_of]. rewrite (bind_Ok Hst). by rewrite (bind_Ok Hfree). }
  assert (Hnot : notify passive fuel t TAL_NOTIFY_DEL_NOTIFIER fn s3
                 = Ok tt (add_trace (fired t TAL_NOTIFY_DEL_NOTIFIER fn l) s3)).
  { apply (notify_passive fuel t h l lit); rewrite ?Hhp3; [done..|lia]. }
  exists s1, (add_trace (fired t TAL_NOTIFY_DEL_NOTIFIER fn l) s3).
  split; [done|]. split; [done|]. split.
  { unfold tal_del_destructor_, tal_del_notifier_.
    assert (Hto1 : to_tal_hdr ctx s1 = Ok t s1)
      by (by eapply (to_tal_hdr_ok ctx _ _ lit)).
    rewrite (bind_Ok Hto1). rewrite (bind_Ok Hdel).
    change (TAL_NOTIFY_FREE =? 0) with false. cbn iota.
    rewrite (bind_Ok Hnot). by rewrite Z.eqb_refl. }
  split; [done|]. split.
  { unfold s3, s2, s1, with_notifier. st_simpl. by apply delete_insert_id. }
  split; [done|].
  unfold s3, s2, s1, with_notifier. st_simpl. by rewrite <- !app_assoc.
Qed.

(** ** Arrays and their count *)

Lemma erase_links_Str o str : erase_links o = Str str → o = Str str.
Proof. destruct o; simpl; congruence. Qed.

Lemma frame_None (hp hp' : gmap Z object) k :
  erase_links <$> hp' !! k = erase_links <$> hp !! k → hp !! k = None →
  hp' !! k = None.
Proof. intros H Hk. rewrite Hk in H. by destruct (hp' !! k). Qed.

Lemma frame_Some (hp hp' : gmap Z object) k o :
  erase_links <$> hp' !! k = erase_links <$> hp !! k → hp !! k = Some o →
  ∃ o', hp' !! k = Some o' ∧ erase_links o' = erase_links o.
Proof.
  intros H Hk. rewrite Hk in H. destruct (hp' !! k) as [o'|]; [|done].
  injection H as H. eauto.
Qed.

(** X16.  [tal_alloc_arr_] under a parent that has a children property, for
    sizes that fit: one block is asked of the backend, for the header, the
    elements and, when the count is to be kept, the padding and the length
    record that [extra_for_length] adds. [tal_count] on the new array returns
    the count it was allocated with, or zero when no count was asked for; its
    parent is the context it was allocated under. *)
Theorem tal_alloc_arr_keeps_count
    fuel ctx size count clear (add_count : bool) label s parent hp lp litp loc
    c nxc hd a rest :
  let bytes := size * count in
  let total := sizeof_tal_hdr + bytes
               + (if add_count then extra_for_length bytes else 0) in
  context_of ctx parent →
  parent ≠ 0 → heap s !! parent = Some (Hdr hp) →
  chain (heap s) (prop hp) lp litp → (length lp < fuel)%nat → (1 < fuel)%nat →
  first_of_type CHILDREN lp (PropOf parent)
  = Some (loc, c, Children nxc parent hd) →
  0 ≤ c < SIZE_MOD → get_destroying_bit c = false →
  heap s !! (c + offsetof_children) = None →
  links_closed (heap s) →
  0 < size < SIZE_MOD → 0 ≤ count < SIZE_MOD →
  bytes + (sizeof_tal_hdr + sizeof_length * 2) < SIZE_MOD →
  backend s = a :: rest → 0 < a →
  (∀ k, a ≤ k < a + total → heap s !! k = None) → node_at (heap s) a = None →
  literal_at (heap s) label →
  ∃ s',
    tal_alloc_arr_ passive fuel ctx size count clear add_count label s
    = Ok (from_tal_hdr a) s' ∧
    tal_count fuel (from_tal_hdr a) s' = Ok (if add_count then count else 0) s' ∧
    tal_parent (from_tal_hdr a) s' = Ok ctx s' ∧
    blocks s' = <[a := total]> (blocks s) ∧
    trace s' = trace s ++ [EvAlloc total a]
               ++ (if notifiers s =? 0 then []
                   else fired parent TAL_NOTIFY_ADD_CHILD (from_tal_hdr a) lp).
Proof.
  intros bytes total Hctx Hp0 Hp Hch Hlen Hfuel Hfirst Hcr Hcbit Hhead Hcl Hsize
    Hcount Hfit Hb Hapos Hfresh Hnode Hlit.
  pose proof SIZE_MOD_eq as HM.
  change (sizeof_tal_hdr + sizeof_length * 2) with 80 in Hfit.
  assert (Hbytes : 0 ≤ bytes) by (unfold bytes; nia).
  pose proof (extra_for_length_bounds bytes Hbytes Hfit) as Hex.
  change sizeof_length with 24 in Hex.
  set (size2 := if add_count then wrap (bytes + extra_for_length bytes)
                else bytes).
  assert (Hsize2 : size2 = bytes + (if add_count then extra_for_length bytes
                                    else 0)).
  { unfold size2. destruct add_count; [|lia]. apply wrap_small. lia. }
  assert (Htotal : wrap (sizeof_tal_hdr + size2) = total).
  { rewrite Hsize2. unfold total, sizeof_tal_hdr. rewrite wrap_small; [lia|].
    destruct add_count; lia. }
  assert (Ha : a ≠ 0) by lia.
  assert (Htot32 : sizeof_tal_hdr ≤ total).
  { unfold total. destruct add_count; unfold sizeof_tal_hdr; lia. }
  assert (Hafresh : heap s !! a = None)
    by (apply Hfresh; unfold sizeof_tal_hdr in *; lia).
  destruct (tal_alloc_adopted fuel ctx size2 clear label s parent hp lp litp loc
              c nxc hd a rest Hctx Hp0 Hp Hch Hlen Hfirst Hcr Hcbit Hhead Hcl
              Hb Hapos ltac:(by rewrite Htotal) Hafresh Hnode Hlit)
    as (s1 & Hrun1 & Hpar1 & _ & _ & Htr1 & Hbl1 & Hframe1
        & (h1 & Hh1 & Hp1 & Hpc1) & _).
  cbv zeta in Htr1, Hbl1. rewrite Htotal in Htr1, Hbl1.
  assert (Hadj : adjust_size size count s = Ok (true, bytes) s).
  { rewrite adjust_size_exact by done.
    change (sizeof_tal_hdr + sizeof_length * 2) with 80.
    by assert ((size * count + 80 <? SIZE_MOD) = true) as -> by (fold bytes; lia). }
  assert (Hr0 : (from_tal_hdr a =? 0) = false)
    by (unfold from_tal_hdr, sizeof_tal_hdr; lia).
  assert (Hta : from_tal_hdr a - sizeof_tal_hdr = a)
    by (unfold from_tal_hdr; lia).
  assert (Hlit1 : literal_at (heap s1) label).
  { destruct Hlit as [->|(str & Hs & Hb0)]; [by left|]. right.
    assert (label ≠ a) by (intros ->; congruence).
    destruct (frame_Some _ _ _ _ (Hframe1 label ltac:(done)) Hs) as (o' & Ho' & He).
    apply erase_links_Str in He as ->. eauto. }
  pose proof (first_of_type_elem _ _ _ _ _ _ Hfirst) as [Hin _].
  destruct (chain_elem _ _ _ _ _ _ Hch Hin) as [Hc0 Hc].
  assert (Hca : c ≠ a) by (intros ->; congruence).
  destruct (frame_Some _ _ _ _ (Hframe1 c Hca) Hc) as (oc & Hc1 & Hec).
  apply erase_links_Children in Hec as (hd1 & ->).
  destruct add_count.
  - (* with a length record *)
    set (lprop := from_tal_hdr a + size2 - sizeof_length).
    assert (Hlp : a + sizeof_tal_hdr ≤ lprop ∧ lprop + sizeof_length = a + total).
    { unfold lprop, from_tal_hdr, total. rewrite Hsize2.
      unfold sizeof_tal_hdr, sizeof_length. lia. }
    assert (Hlpfresh : heap s !! lprop = None).
    { apply Hfresh. unfold sizeof_tal_hdr, sizeof_length in *. lia. }
    assert (Hlpa : lprop ≠ a) by (unfold sizeof_tal_hdr in *; lia).
    assert (Hlp1 : heap s1 !! lprop = None)
      by (apply (frame_None (heap s)); [by apply Hframe1|done]).
    assert (Hto1 : to_tal_hdr (from_tal_hdr a) s1 = Ok a s1).
    { rewrite <- Hta at 2. apply (to_tal_hdr_ok _ h1 [] label);
        rewrite ?Hta; [done|done|]. simpl. by rewrite Hp1. }
    set (h2 := TalHdr (hlist h1) lprop (parent_child h1)).
    set (s2 := set_heap (λ hp0, <[lprop := Length label count]>
                                  (<[a := Hdr h2]> hp0)) s1).
    assert (Hinit :
      (do* init_property lprop a LENGTH in
       let* nx := load_next lprop in
       store lprop (Length nx count)) s1 = Ok tt s2).
    { unfold init_property.
      rewrite bind_assoc, (bind_Ok (load_hdr_Some _ _ _ Ha Hh1)).
      assert (Hem : emplace lprop (blank LENGTH (prop h1)) s1
                    = Ok tt (set_heap <[lprop := Length label 0]> s1)).
      { rewrite Hp1. apply emplace_ok. rewrite Hbl1.
        apply (in_block_lookup a total); [apply lookup_insert_eq|..];
          cbn [sizeof_obj]; unfold sizeof_tal_hdr in *; lia. }
      rewrite bind_assoc, (bind_Ok Hem).
      rewrite (bind_Ok (s1 := set_heap <[a := Hdr h2]>
                                (set_heap <[lprop := Length label 0]> s1))
                 (a := tt)).
      2:{ apply store_hdr_ok; [done|]. st_simpl.
          rewrite lookup_insert_ne by done. eauto. }
      rewrite (bind_Ok (a := label)
                 (s1 := set_heap <[a := Hdr h2]>
                          (set_heap <[lprop := Length label 0]> s1))).
      2:{ apply (load_next_prop _ (Length label 0));
            [unfold lprop, from_tal_hdr, sizeof_tal_hdr, sizeof_length in *; lia
            | |done].
          st_simpl. rewrite lookup_insert_ne by done. apply lookup_insert_eq. }
      rewrite store_ok.
      - f_equal. unfold s2. destruct s1. unfold set_heap. simpl. f_equal.
        apply map_eq. intros k.
        destruct (decide (k = lprop)) as [->|];
          [by rewrite !lookup_insert_eq|].
        rewrite !(lookup_insert_ne _ lprop) by done.
        destruct (decide (k = a)) as [->|]; [by rewrite !lookup_insert_eq|].
        rewrite !(lookup_insert_ne _ a) by done.
        by rewrite lookup_insert_ne.
      - unfold lprop, from_tal_hdr, sizeof_tal_hdr, sizeof_length in *. lia.
      - st_simpl. rewrite lookup_insert_ne by done.
        rewrite lookup_insert_eq. eauto. }
    assert (Hlp0 : lprop ≠ 0)
      by (unfold lprop, from_tal_hdr, sizeof_tal_hdr, sizeof_length in *; lia).
    assert (Hc2 : chain (heap s2) lprop [(lprop, Length label count)] label).
    { unfold s2. st_simpl. simpl. split; [done|]. split; [done|].
      split; [apply lookup_insert_eq|]. split; [done|].
      destruct Hlit1 as [->|(str & Hs & Hb0)]; [by left|]. right.
      exists str. split; [|done].
      rewrite lookup_insert_ne by (intros E; rewrite <- E in Hs; congruence).
      rewrite lookup_insert_ne by (intros E; rewrite <- E in Hs; congruence).
      done. }
    assert (Hh2 : heap s2 !! a = Some (Hdr h2)).
    { unfold s2. st_simpl. rewrite lookup_insert_ne by done.
      apply lookup_insert_eq. }
    exists s2. split; [|split; [|split; [|split]]].
    + unfold tal_alloc_arr_. rewrite (bind_Ok Hadj). cbn [negb fst snd].
      fold bytes. fold size2. rewrite (bind_Ok Hrun1). rewrite Hr0.
      fold lprop. rewrite bind_assoc, (bind_Ok Hto1).
      fold lprop in Hinit. rewrite (bind_Ok Hinit). done.
    + apply (records_count_tal_count fuel a lprop count 1); [done|lia|].
      exists h2, [(lprop, Length label count)], label, (PropOf a), label.
      split; [done|]. split; [done|]. split; [done|].
      cbn [first_of_type obj_type]. by rewrite decide_True.
    + unfold tal_parent. rewrite Hr0.
      rewrite (bind_Ok (to_tal_hdr_ok _ h2 _ label s2
                          ltac:(by rewrite Hta) ltac:(by rewrite Hta) Hc2)).
      rewrite Hta.
      rewrite (bind_Ok (parent_of_ok a h2 c nxc parent hd1 s2 Ha Hh2
                          ltac:(simpl; rewrite Hpc1;
                                by apply ignore_destroying_bit_clear) Hc0
                          ltac:(unfold s2; st_simpl;
                                rewrite lookup_insert_ne
                                  by (intros E; rewrite <- E in Hc; congruence);
                                by rewrite lookup_insert_ne by congruence))).
      pose proof (context_of_back ctx parent Hctx) as Hback.
      destruct (parent =? null_parent_hdr); by rewrite <- Hback.
    + done.
    + done.
  - (* without *)
    exists s1. split; [|split; [|split; [|split]]].
    + unfold tal_alloc_arr_. rewrite (bind_Ok Hadj). cbn [negb fst snd].
      fold bytes. fold size2. rewrite (bind_Ok Hrun1). by rewrite Hr0.
    + unfold tal_count.
      assert (Hc1' : chain (heap s1) (prop h1) [] label)
        by (rewrite Hp1; by split).
      rewrite (bind_Ok (to_tal_hdr_ok _ h1 [] label s1
                          ltac:(by rewrite Hta) ltac:(by rewrite Hta) Hc1')).
      rewrite Hta.
      rewrite (bind_Ok (find_property_chain LENGTH fuel [] a h1 label s1
                          ltac:(done) Ha Hh1 Hc1' ltac:(simpl; lia))).
      done.
    + done.
    + done.
    + done.
Qed.

(** ** Resizing that fails *)

(** X17.  [tal_resize_] when the backend cannot resize the block: the error
    hook hears "Reallocation failure"; if it returns, [tal_resize_] returns
    false, the caller's pointer is left as it was, and nothing in memory has
    changed. The backend was asked for the header, the elements and, for an
    array with a count, the padding and the length record. *)
Theorem tal_resize_backend_refuses cb fuel ctx size count s h l lit old :
  let t := ctx - sizeof_tal_hdr in
  let bytes := size * count in
  let total := sizeof_tal_hdr + bytes
               + match first_of_type LENGTH l (PropOf t) with
                 | Some _ => extra_for_length bytes
                 | None => 0
                 end in
  t ≠ 0 → heap s !! t = Some (Hdr h) → chain (heap s) (prop h) l lit →
  (length l < fuel)%nat →
  0 < size < SIZE_MOD → 0 ≤ count < SIZE_MOD →
  bytes + (sizeof_tal_hdr + sizeof_length * 2) < SIZE_MOD →
  blocks s !! t = Some old → refused s →
  tal_resize_ cb fuel ctx size count s
  = let s' := add_trace [EvRealloc t total NULL; EvError "Reallocation failure"]
                (set_backend (tail (backend s)) s) in
    if error_aborts s then Abort s' else Ok (false, ctx) s'.
Proof.
  intros t bytes total Ht Hh Hc Hf Hsize Hcount Hfit Hold Href.
  pose proof SIZE_MOD_eq as HM.
  change (sizeof_tal_hdr + sizeof_length * 2) with 80 in Hfit.
  assert (Hbytes : 0 ≤ bytes) by (unfold bytes; nia).
  pose proof (extra_for_length_bounds bytes Hbytes Hfit) as Hex.
  change sizeof_length with 24 in Hex.
  assert (Hadj : adjust_size size count s = Ok (true, bytes) s).
  { rewrite adjust_size_exact by done.
    change (sizeof_tal_hdr + sizeof_length * 2) with 80.
    by assert ((size * count + 80 <? SIZE_MOD) = true) as -> by (fold bytes; lia). }
  unfold tal_resize_.
  rewrite (bind_Ok (to_tal_hdr_ok ctx h l lit s Ht Hh Hc)). fold t.
  rewrite (bind_Ok Hadj). cbn [negb fst snd].
  unfold find_property_ptr.
  rewrite (bind_Ok (find_property_ptr_from_chain LENGTH fuel l (PropOf t)
                      (prop h) lit s ltac:(done)
                      (load_ploc_PropOf _ _ _ Ht Hh) Hc Hf)).
  assert (Hres : ∀ tot,
    resizefn t tot s
    = Ok NULL (log (EvRealloc t tot NULL) (set_backend (tail (backend s)) s))).
  { intros tot. unfold resizefn. rewrite Hold, Hh.
    destruct Href as [Hb|[rest Hb]]; rewrite Hb; [|done].
    unfold set_backend. destruct s; simpl in *. by subst. }
  assert (Hfin : ∀ s1 : state, error_aborts s1 = error_aborts s →
    (do* call_error "Reallocation failure" in ret (false, ctx)) s1
    = if error_aborts s then Abort (log (EvError "Reallocation failure") s1)
      else Ok (false, ctx) (log (EvError "Reallocation failure") s1)).
  { intros s1 He. unfold bind, call_error. rewrite He.
    by destruct (error_aborts s). }
  unfold total.
  destruct (first_of_type LENGTH l (PropOf t)) as [[[loc q] o]|] eqn:E.
  - pose proof (first_of_type_loc _ _ _ _ _ _ _ _ _
                  (load_ploc_PropOf _ _ _ Ht Hh) Hc E) as Hloc.
    apply first_of_type_elem in E as [Hin Hty].
    destruct (chain_elem _ _ _ _ _ _ Hc Hin) as [Hq Ho].
    cbn [fmap option_fmap option_map compose fst].
    rewrite bind_assoc, (bind_Ok Hloc), (bind_Ok (load_Some _ _ _ Hq Ho)).
    rewrite (wrap_small (sizeof_tal_hdr + bytes))
      by (unfold sizeof_tal_hdr; lia).
    rewrite (wrap_small (sizeof_tal_hdr + bytes + extra_for_length bytes))
      by (unfold sizeof_tal_hdr; lia).
    rewrite (bind_Ok (Hres _)). change (NULL =? 0) with true. cbn iota.
    rewrite Hfin by done. cbv zeta.
    destruct (error_aborts s); f_equal;
      unfold log, add_trace; cbn; by rewrite <- app_assoc.
  - cbn [fmap option_fmap option_map]. rewrite bind_ret_l.
    rewrite !Z.add_0_r.
    rewrite (wrap_small (sizeof_tal_hdr + bytes))
      by (unfold sizeof_tal_hdr; lia).
    rewrite (wrap_small (sizeof_tal_hdr + bytes))
      by (unfold sizeof_tal_hdr; lia).
    rewrite (bind_Ok (Hres _)). change (NULL =? 0) with true. cbn iota.
    rewrite Hfin by done. cbv zeta.
    destruct (error_aborts s); f_equal;
      unfold log, add_trace; cbn; by rewrite <- app_assoc.
Qed.

(** ** Expanding and duplicating *)

Lemma taken_absent p s : p ∉ takenarr s → taken p s = Ok false s.
Proof.
  intros H. unfold taken. rewrite bind_get.
  by rewrite bool_decide_eq_false_2.
Qed.

Lemma taken_present p s :
  p ∈ takenarr s →
  taken p s = Ok true (set_takenarr (filter (λ q, q ≠ p) (takenarr s)) s).
Proof.
  intros H. unfold taken. rewrite bind_get.
  by rewrite bool_decide_eq_true_2.
Qed.

(** X18.  [tal_expand_] when the old count plus the count to add does not fit
    [size_t]: the error hook hears "dup size overflow", nothing is resized,
    and [tal_expand_] returns false; a source that is not taken is left alone.
    *)
Theorem tal_expand_count_overflow
    cb fuel ctx src size count s h l lit loc q nx old_count :
  let t := ctx - sizeof_tal_hdr in
  t ≠ 0 → heap s !! t = Some (Hdr h) → chain (heap s) (prop h) l lit →
  (length l < fuel)%nat →
  first_of_type LENGTH l (PropOf t) = Some (loc, q, Length nx old_count) →
  0 ≤ old_count < SIZE_MOD → 0 ≤ count < SIZE_MOD →
  SIZE_MOD ≤ old_count + count →
  src ∉ takenarr s →
  tal_expand_ cb fuel ctx src size count s
  = if error_aborts s then Abort (log (EvError "dup size overflow") s)
    else Ok (false, ctx) (log (EvError "dup size overflow") s).
Proof.
  intros t Ht Hh Hc Hf Hfirst Hold Hcount Hov Hsrc.
  pose proof SIZE_MOD_eq as HM.
  unfold tal_expand_.
  rewrite (bind_Ok (to_tal_hdr_ok ctx h l lit s Ht Hh Hc)). fold t.
  rewrite (bind_Ok (find_property_chain LENGTH fuel l t h lit s
                      ltac:(done) Ht Hh Hc Hf)).
  rewrite Hfirst.
  apply first_of_type_elem in Hfirst as [Hin _].
  destruct (chain_elem _ _ _ _ _ _ Hc Hin) as [Hq Hl].
  rewrite (bind_Ok (load_Some _ _ _ Hq Hl)).
  assert (Hw : wrap (old_count + count) = old_count + count - SIZE_MOD).
  { unfold wrap. symmetry. apply (Z.mod_unique_pos _ _ 1); lia. }
  rewrite Hw.
  assert ((old_count + count - SIZE_MOD <? count) = true) as -> by lia.
  unfold bind, call_error, ret. destruct (error_aborts s); [done|].
  by rewrite (taken_absent src (log (EvError "dup size overflow") s) Hsrc).
Qed.

(** X19.  [tal_dup_] for a source that is not taken checks two sizes before it
    allocates: the bytes to copy ([size * n], with room for the header and the
    length record), reported as "allocation size overflow", and the number of
    elements to allocate ([n + extra]), reported as "dup size overflow". When
    both fit, it allocates an array of [n + extra] elements as
    [tal_alloc_arr_] does, without clearing it. *)
Theorem tal_dup_checks_sizes cb fuel ctx p size n extra add_count label s :
  0 < size < SIZE_MOD → 0 ≤ n < SIZE_MOD → 0 ≤ extra < SIZE_MOD →
  p ∉ takenarr s →
  tal_dup_ cb fuel ctx p size n extra add_count label s
  = if SIZE_MOD <=? size * n + (sizeof_tal_hdr + sizeof_length * 2) then
      (do* call_error "allocation size overflow" in ret NULL) s
    else if SIZE_MOD <=? n + extra then
      (do* call_error "dup size overflow" in ret NULL) s
    else tal_alloc_arr_ cb fuel ctx size (n + extra) false add_count label s.
Proof.
  intros Hsize Hn Hextra Hp. pose proof SIZE_MOD_eq as HM.
  unfold tal_dup_. unfold bind at 1. rewrite adjust_size_exact by done.
  destruct (Z.leb_spec SIZE_MOD (size * n + (sizeof_tal_hdr + sizeof_length * 2)))
    as [Hov|Hfit].
  - assert ((size * n + (sizeof_tal_hdr + sizeof_length * 2) <? SIZE_MOD) = false)
      as -> by lia.
    unfold bind, call_error. destruct (error_aborts s); [done|].
    unfold ret. cbn [negb fst].
    by rewrite (taken_absent p (log (EvError "allocation size overflow") s) Hp).
  - assert ((size * n + (sizeof_tal_hdr + sizeof_length * 2) <? SIZE_MOD) = true)
      as -> by lia.
    cbn [negb fst].
    destruct (Z.leb_spec SIZE_MOD (n + extra)) as [Hov2|Hfit2].
    + assert (Hw : wrap (n + extra) = n + extra - SIZE_MOD).
      { unfold wrap. symmetry. apply (Z.mod_unique_pos _ _ 1); lia. }
      rewrite Hw. assert ((n + extra - SIZE_MOD <? n) = true) as -> by lia.
      unfold bind, call_error. destruct (error_aborts s); [done|].
      by rewrite (taken_absent p (log (EvError "dup size overflow") s) Hp).
    + rewrite (wrap_small (n + extra)) by lia.
      assert ((n + extra <? n) = false) as -> by lia.
      by rewrite (bind_Ok (taken_absent p _ Hp)).
Qed.

(** X20.  [extra_for_length] is what has to follow [size] bytes of elements so
    that a length record can end the block: the padding up to the alignment of
    the record, and the record. *)
Theorem extra_for_length_aligns size :
  0 ≤ size → size + (sizeof_tal_hdr + sizeof_length * 2) < SIZE_MOD →
  sizeof_length ≤ extra_for_length size < sizeof_length + alignof_length ∧
  (size + extra_for_length size - sizeof_length) mod alignof_length = 0.
Proof.
  intros Hb Hfit. pose proof SIZE_MOD_eq as HM.
  change (sizeof_tal_hdr + sizeof_length * 2) with 80 in Hfit.
  unfold extra_for_length.
  change alignof_length with 8. change sizeof_length with 24.
  replace (size + 8 - 1) with (size + 7) by lia. replace (8 - 1) with 7 by lia.
  rewrite (wrap_small (size + 7)) by lia.
  assert (Hmask : Z.land (size + 7) (SIZE_MAX - 7) = 8 * ((size + 7) / 8)).
  { change (SIZE_MAX - 7) with (Z.land (Z.lnot (Z.ones 3)) (Z.ones 64)).
    rewrite Z.land_assoc, <- Z.ldiff_land, Z.ldiff_ones_r by lia.
    rewrite Z.land_ones by lia.
    rewrite Z.shiftr_div_pow2, Z.shiftl_mul_pow2 by lia.
    change (2 ^ 3) with 8. change (2 ^ 64) with SIZE_MOD.
    pose proof (Z.div_mod (size + 7) 8 ltac:(lia)).
    pose proof (Z.mod_pos_bound (size + 7) 8 ltac:(lia)).
    rewrite Z.mod_small by lia. lia. }
  rewrite Hmask.
  pose proof (Z.div_mod (size + 7) 8 ltac:(lia)).
  pose proof (Z.mod_pos_bound (size + 7) 8 ltac:(lia)).
  rewrite (wrap_small (8 * ((size + 7) / 8) - size)) by lia.
  rewrite wrap_small by lia. split; [lia|].
  replace (size + (8 * ((size + 7) / 8) - size + 24) - 24)
    with (((size + 7) / 8) * 8) by lia.
  apply Z.mod_mul. lia.
Qed.

(** ** Walking a tree *)

Lemma fwd_split hp head : ∀ ks1 from k ks2,
  fwd hp from (ks1 ++ k :: ks2) head →
  k ≠ head ∧ ∃ h, hp !! k = Some (Hdr h) ∧
    match ks2 with
    | [] => next (hlist h) = head
    | k2 :: _ => next (hlist h) = k2 ∧ k2 ≠ head
    end.
Proof.
  induction ks1 as [|k1 ks1 IH]; intros from k ks2; simpl.
  - intros (-> & Hne & h & Hh & Hf). split; [done|]. exists h. split; [done|].
    destruct ks2 as [|k2 ks2]; simpl in Hf; [done|].
    by destruct Hf as (-> & ? & _).
  - intros (-> & Hne & h & Hh & Hf). by eapply IH.
Qed.

Lemma app_split_cases {A} (a b l1 : list A) x l2 :
  a ++ b = l1 ++ x :: l2 →
  (∃ m2, a = l1 ++ x :: m2 ∧ l2 = m2 ++ b) ∨
  (∃ m1, l1 = a ++ m1 ∧ b = m1 ++ x :: l2).
Proof.
  intros H. apply app_eq_inv in H as [(k & Ha & Hb)|(k & Hl & Hb)].
  - destruct k as [|y k].
    + right. exists []. simpl in Hb. rewrite app_nil_r in *. by subst.
    + left. injection Hb as <- ->. by exists k.
  - right. by exists k.
Qed.

Lemma walk_split (kids : list tree) : ∀ l1 x l2,
  walk kids = l1 ++ x :: l2 →
  ∃ kids1 k kids2 m1 m2,
    kids = kids1 ++ k :: kids2 ∧
    root k :: below k = m1 ++ x :: m2 ∧
    l2 = m2 ++ walk kids2.
Proof.
  induction kids as [|k kids IH]; intros l1 x l2 H.
  - by destruct l1.
  - change ((root k :: below k) ++ walk kids = l1 ++ x :: l2) in H.
    apply app_split_cases in H as [(m2 & Ha & ->)|(m1 & -> & Hb)].
    + by exists [], k, kids, l1, m2.
    + destruct (IH _ _ _ Hb) as (kids1 & k' & kids2 & n1 & n2 & -> & Hk & ->).
      by exists (k :: kids1), k', kids2, n1, n2.
Qed.

Section Walk.
Variable s : state.
Variable rootp top : Z.
Hypothesis Htop : to_tal_hdr_or_null rootp s = Ok top s.

Lemma first_child_lists fuel t h l lit ks :
  t ≠ 0 → heap s !! t = Some (Hdr h) → chain (heap s) (prop h) l lit →
  (length l < fuel)%nat →
  match first_of_type CHILDREN l (PropOf t) with
  | Some (_, c, _) => lists (heap s) c ks
  | None => ks = []
  end →
  first_child fuel t s = Ok (match ks with k :: _ => k | [] => NULL end) s.
Proof.
  intros Ht Hh Hc Hf Hks. unfold first_child.
  rewrite (bind_Ok (find_property_chain CHILDREN fuel l t h lit s
                      ltac:(done) Ht Hh Hc Hf)).
  destruct (first_of_type CHILDREN l (PropOf t)) as [[[loc c] o]|] eqn:E.
  - apply first_of_type_elem in E as [Hin _].
    destruct (chain_elem _ _ _ _ _ _ Hc Hin) as [Hc0 _].
    destruct (Z.eqb_spec c 0) as [|_]; [done|].
    destruct Hks as (Hnone & nx & pa & n & Hch & Hfwd & _).
    unfold list_top. rewrite (bind_Ok (load_node_head _ _ _ _ _ Hnone Hch)).
    destruct ks as [|k ks]; simpl in Hfwd.
    + rewrite Hfwd. by rewrite Z.eqb_refl.
    + destruct Hfwd as (-> & Hne & _).
      by destruct (Z.eqb_spec k (c + offsetof_children)).
  - by subst ks.
Qed.

Lemma repr_first_child fuel c t props lit kids :
  repr (heap s) (blocks s) c (Node t props lit kids) →
  (length props < fuel)%nat →
  to_tal_hdr (from_tal_hdr t) s = Ok t s ∧
  first_child fuel t s
  = Ok (match kids with k :: _ => root k | [] => NULL end) s.
Proof.
  intros Hr Hf. cbn [repr] in Hr.
  destruct Hr as (Ht & Hcbit & (h & sz & props' & Hh & Hpc & Hch & HF & _) & Hk).
  assert (Ht0 : t ≠ 0) by lia.
  split.
  { replace t with (from_tal_hdr t - sizeof_tal_hdr) at 2
      by (unfold from_tal_hdr; lia).
    apply (to_tal_hdr_ok _ h props' lit);
      replace (from_tal_hdr t - sizeof_tal_hdr) with t
        by (unfold from_tal_hdr; lia); done. }
  replace (match kids with k :: _ => root k | [] => NULL end)
    with (match root <$> kids with k :: _ => k | [] => NULL end)
    by (by destruct kids).
  apply (first_child_lists fuel t h props' lit); try done.
  - by rewrite <- (Forall2_length _ _ _ HF).
  - destruct (first_of_type CHILDREN props (PropOf t)) as [[[loc c'] o]|] eqn:E.
    + destruct (first_of_type_same_property _ _ _ _ _ _ _ HF E)
        as (o' & -> & _).
      by destruct Hk.
    + rewrite (first_of_type_same_property_None _ _ _ _ HF E). by subst.
Qed.

Lemma sibling_step c nx p n kids1 k kids2 up (dk : nat) :
  0 ≤ c < SIZE_MOD → c ≠ 0 → heap s !! c = Some (Children nx p n) →
  lists (heap s) c (root <$> (kids1 ++ k :: kids2)) →
  repr (heap s) (blocks s) c k →
  (p = top ∧ up = NULL) ∨
  (p ≠ top ∧ ∀ fuel, (dk ≤ fuel)%nat → tal_next_up fuel p top s = Ok up s) →
  ∀ fuel, (dk < fuel)%nat →
    tal_next_up fuel (root k) top s
    = Ok (match kids2 with
          | k2 :: _ => from_tal_hdr (root k2)
          | [] => up
          end) s.
Proof.
  intros Hc Hc0 Hch (_ & nx' & pa' & n' & Hch' & Hfwd & _) Hr Hup fuel Hfuel.
  rewrite Hch in Hch'. injection Hch' as <- <- <-.
  rewrite fmap_app, fmap_cons in Hfwd.
  apply fwd_split in Hfwd as (Hne & h & Hh & Hnext).
  destruct (repr_root _ _ _ _ Hr) as (Hk0 & Hcbit & h' & Hh' & Hpc).
  rewrite Hh in Hh'. injection Hh' as <-.
  destruct fuel as [|f]; [lia|]. cbn [tal_next_up].
  rewrite (bind_Ok (load_hdr_Some (root k) h s ltac:(lia) Hh)).
  rewrite Hpc, (ignore_destroying_bit_clear c Hc Hcbit).
  destruct kids2 as [|k2 kids2]; simpl in Hnext.
  - rewrite Hnext, Z.eqb_refl. cbn [negb].
    rewrite (bind_Ok (parent_of_ok (root k) h c nx p n s ltac:(lia) Hh
                        ltac:(by rewrite Hpc; apply ignore_destroying_bit_clear)
                        Hc0 Hch)).
    destruct Hup as [[-> ->]|[Hp Hup]].
    + by rewrite Z.eqb_refl.
    + destruct (Z.eqb_spec p top); [done|]. apply Hup. lia.
  - destruct Hnext as [-> Hne2].
    by destruct (Z.eqb_spec (root k2) (c + offsetof_children)).
Qed.

Let walks (k : tree) : Prop :=
  ∀ c (d : nat) after,
    repr (heap s) (blocks s) c k → back_links (heap s) k →
    top ∉ footprint k →
    (∀ fuel, (d < fuel)%nat → tal_next_up fuel (root k) top s = Ok after s) →
    ∀ l1 x l2, root k :: below k = l1 ++ x :: l2 →
    ∀ fuel, (d + need k ≤ fuel)%nat →
      tal_next fuel rootp (from_tal_hdr x) s
      = Ok (match l2 with y :: _ => from_tal_hdr y | [] => after end) s.

Lemma forest_walks kids :
  Forall walks kids →
  ∀ c nx p n (dk : nat) up,
    0 ≤ c < SIZE_MOD → c ≠ 0 → heap s !! c = Some (Children nx p n) →
    lists (heap s) c (root <$> kids) →
    Forall (repr (heap s) (blocks s) c) kids →
    Forall (back_links (heap s)) kids →
    top ∉ flat_map footprint kids →
    (p = top ∧ up = NULL) ∨
    (p ≠ top ∧ ∀ fuel, (dk ≤ fuel)%nat → tal_next_up fuel p top s = Ok up s) →
    ∀ l1 x l2, walk kids = l1 ++ x :: l2 →
    ∀ fuel, Forall (λ k, (dk + need k ≤ fuel)%nat) kids →
      tal_next fuel rootp (from_tal_hdr x) s
      = Ok (match l2 with y :: _ => from_tal_hdr y | [] => up end) s.
Proof.
  intros HT c nx p n dk up Hc Hc0 Hch Hlists Hrepr Hback Htopn Hup
         l1 x l2 Hsplit fuel Hfuel.
  apply walk_split in Hsplit
    as (kids1 & k & kids2 & m1 & m2 & -> & Hk & ->).
  rewrite Forall_app, Forall_cons in HT, Hrepr, Hback, Hfuel.
  destruct HT as (_ & HTk & _). destruct Hrepr as (_ & Hrk & Hr2).
  destruct Hback as (_ & Hbk & _). destruct Hfuel as (_ & Hfk & _).
  pose proof (sibling_step c nx p n kids1 k kids2 up dk Hc Hc0 Hch Hlists
                Hrk Hup) as Hstep.
  assert (Htk : top ∉ footprint k).
  { intros Hin. apply Htopn. rewrite flat_map_app. apply elem_of_app. right.
    simpl. apply elem_of_app. by left. }
  rewrite (HTk c dk _ Hrk Hbk Htk Hstep m1 x m2 Hk fuel Hfk).
  destruct m2 as [|y m2]; [|done]. simpl.
  by destruct kids2 as [|k2 kids2].
Qed.

Lemma tree_walks : ∀ k, walks k.
Proof.
  induction k as [t props lit kids IH] using tree_ind'.
  intros c d after Hr Hb Htopn Hafter l1 x l2 Hsplit fuel Hfuel.
  cbn [need] in Hfuel.
  destruct (repr_first_child fuel c t props lit kids Hr ltac:(lia))
    as [Hto Hfirst].
  cbn [root below] in Hsplit. fold (walk kids) in Hsplit.
  destruct l1 as [|y l1]; simpl in Hsplit; injection Hsplit as <- Hl.
  - unfold tal_next. rewrite (bind_Ok Hto), (bind_Ok Hfirst).
    subst l2. destruct kids as [|k1 kids]; simpl.
    + rewrite (bind_Ok Htop). apply Hafter. lia.
    + cbn [repr] in Hr. destruct Hr as (_ & _ & _ & Hk).
      destruct (first_of_type CHILDREN props (PropOf t)) as [[[loc c'] o]|];
        [|done].
      destruct Hk as (_ & Hk1 & _).
      destruct (repr_root _ _ _ _ Hk1) as (Hk0 & _).
      by destruct (Z.eqb_spec (root k1) 0) as [|_]; [lia|].
  - cbn [repr] in Hr.
    destruct Hr as (Ht & Hcbit & (h & sz & props' & Hh & Hpc & Hch & HF & _) & Hk).
    cbn [back_links] in Hb. cbn [footprint] in Htopn.
    destruct (first_of_type CHILDREN props (PropOf t)) as [[[loc c'] o]|] eqn:E.
    2: { subst kids. by destruct l1. }
    destruct Hk as [Hlists Hkids]. destruct Hb as (Hc' & (nx & n & Hch') & Hbk).
    rewrite foldr_and_Forall in Hkids, Hbk.
    destruct (first_of_type_same_property _ _ _ _ _ _ _ HF E)
      as (o' & E' & _).
    apply first_of_type_elem in E' as [Hin _].
    destruct (chain_elem _ _ _ _ _ _ Hch Hin) as [Hc0 _].
    apply (forest_walks kids IH c' nx t n (S d) after Hc' Hc0 Hch' Hlists
             Hkids Hbk) with (l1 := l1); [| |done|].
    + intros Hin'. apply Htopn. right. apply elem_of_app. by right.
    + right. split.
      * intros ->. apply Htopn. by left.
      * intros f Hf. apply Hafter. lia.
    + apply Forall_forall. intros k Hk. pose proof (need_kid k kids Hk). lia.
Qed.

End Walk.

(** X21.  [tal_first] and [tal_next] walk the nodes below a root, every node
    before its children and the children in list order: [tal_first] gives the
    first node of the walk, [tal_next] on a node of the walk gives the node
    that follows it, and [NULL] on the last one. The root is the sentinel (for
    [NULL]) or a node, and is not among its descendants. *)
Theorem tal_next_walks_the_tree
    fuel rootp top s h lp litp loc c nx hd kids :
  context_of rootp top →
  top ≠ 0 → heap s !! top = Some (Hdr h) →
  chain (heap s) (prop h) lp litp → (length lp < fuel)%nat →
  first_of_type CHILDREN lp (PropOf top) = Some (loc, c, Children nx top hd) →
  0 ≤ c < SIZE_MOD →
  lists (heap s) c (root <$> kids) →
  Forall (repr (heap s) (blocks s) c) kids →
  Forall (back_links (heap s)) kids →
  top ∉ flat_map footprint kids →
  Forall (λ k, (need k ≤ fuel)%nat) kids →
  tal_first fuel rootp s
  = Ok (match walk kids with y :: _ => from_tal_hdr y | [] => NULL end) s ∧
  ∀ l1 x l2, walk kids = l1 ++ x :: l2 →
    tal_next fuel rootp (from_tal_hdr x) s
    = Ok (match l2 with y :: _ => from_tal_hdr y | [] => NULL end) s.
Proof.
  intros Hctx Htop0 Hh Hch Hf Hfirst Hc Hlists Hrepr Hback Htopn Hfuel.
  pose proof (to_tal_hdr_or_null_ok _ _ _ _ _ _ Hctx Htop0 Hh Hch) as Hto.
  pose proof Hfirst as Hfirst'.
  apply first_of_type_elem in Hfirst' as [Hin _].
  destruct (chain_elem _ _ _ _ _ _ Hch Hin) as [Hc0 Hcc].
  split.
  - unfold tal_first. rewrite (bind_Ok Hto).
    rewrite (bind_Ok (first_child_lists s fuel top h lp litp (root <$> kids)
                        Htop0 Hh Hch Hf ltac:(by rewrite Hfirst))).
    destruct kids as [|k kids]; [done|]. simpl.
    apply Forall_cons in Hrepr as [Hk _].
    destruct (repr_root _ _ _ _ Hk) as (Hk0 & _).
    by destruct (Z.eqb_spec (root k) 0) as [|_]; [lia|].
  - intros l1 x l2 Hsplit.
    apply (forest_walks s rootp top kids
             ltac:(apply Forall_forall; intros k _;
                   exact (tree_walks s rootp top Hto k))
             c nx top hd 0%nat NULL Hc Hc0 Hcc Hlists Hrepr Hback Htopn
             ltac:(by left) l1 x l2 Hsplit fuel).
    done.
Qed.

(** ** Children lists *)

(** ** Children lists *)

Lemma set_next_exact q v s n :
  node_at (heap s) q = Some n →
  ∃ s', set_next q v s = Ok tt s' ∧ relinked s s' ∧
        node_at (heap s') q = Some (ListNode v (prev n)) ∧
        ∀ q', q' ≠ q → node_at (heap s') q' = node_at (heap s) q'.
Proof.
  intros Hn. destruct (set_next_runs q v s (mk_is_Some _ _ Hn))
    as (s' & Hrun & R & _ & Hoth).
  exists s'. split; [done|]. split; [done|]. split; [|done].
  apply set_next_relinked in Hrun as (_ & (n' & Hn' & Hq) & _).
  congruence.
Qed.

Lemma set_prev_exact q v s n :
  node_at (heap s) q = Some n →
  ∃ s', set_prev q v s = Ok tt s' ∧ relinked s s' ∧
        node_at (heap s') q = Some (ListNode (next n) v) ∧
        ∀ q', q' ≠ q → node_at (heap s') q' = node_at (heap s) q'.
Proof.
  intros Hn. destruct (set_prev_runs q v s (mk_is_Some _ _ Hn))
    as (s' & Hrun & R & _ & Hoth).
  exists s'. split; [done|]. split; [done|]. split; [|done].
  apply set_prev_relinked in Hrun as (_ & (n' & Hn' & Hq) & _).
  congruence.
Qed.

(** [list_del] on a node whose neighbours are list nodes: the node before
    it now points forward to the node after it, which points back; no
    other link changes, the links of the node itself included. *)
Lemma list_del_exact t x y s :
  node_at (heap s) t = Some (ListNode y x) →
  is_Some (node_at (heap s) x) → is_Some (node_at (heap s) y) →
  ∃ s', list_del t s = Ok tt s' ∧ relinked s s' ∧
    ∀ q n, node_at (heap s) q = Some n →
      node_at (heap s') q
      = Some (ListNode (if decide (q = x) then y else next n)
                       (if decide (q = y) then x else prev n)).
Proof.
  intros Ht [nx Hx] [ny Hy]. unfold list_del.
  rewrite (bind_Ok (load_node_ok _ _ _ Ht)). cbn [next prev].
  destruct (set_prev_exact y x s ny Hy) as (s1 & H1 & R1 & Hy1 & Ho1).
  rewrite (bind_Ok H1).
  assert (Ht1 : node_at (heap s1) t = Some (ListNode y x)).
  { destruct (decide (t = y)) as [->|Hne].
    - rewrite Hy1. rewrite Ht in Hy. by injection Hy as <-.
    - by rewrite Ho1. }
  rewrite (bind_Ok (load_node_ok _ _ _ Ht1)). cbn [next prev].
  assert (Hx1 : node_at (heap s1) x
                = Some (ListNode (next nx) (if decide (x = y) then x else prev nx))).
  { destruct (decide (x = y)) as [->|Hne].
    - rewrite Hy1. rewrite Hx in Hy. by injection Hy as <-.
    - rewrite Ho1 by done. rewrite Hx. by destruct nx. }
  destruct (set_next_exact x y s1 _ Hx1) as (s2 & H2 & R2 & Hx2 & Ho2).
  exists s2. split; [done|]. split; [by eapply relinked_trans|].
  intros q n Hq. destruct (decide (q = x)) as [->|Hqx].
  - rewrite Hx2. cbn [prev]. rewrite Hx in Hq. injection Hq as <-.
    by destruct (decide (x = y)).
  - rewrite Ho2 by done. destruct (decide (q = y)) as [->|Hqy].
    + rewrite Hy1. rewrite Hy in Hq. by injection Hq as <-.
    + rewrite Ho1 by done. rewrite Hq. by destruct n.
Qed.

(** [list_add] of a node at the head of a list: the node sits between the
    head and the node that was first; no other link changes. *)
Lemma list_add_exact h t s hn :
  node_at (heap s) h = Some hn → is_Some (node_at (heap s) t) →
  is_Some (node_at (heap s) (next hn)) → t ≠ h → t ≠ next hn →
  ∃ s', list_add h t s = Ok tt s' ∧ relinked s s' ∧
    ∀ q n, node_at (heap s) q = Some n →
      node_at (heap s') q
      = Some (if decide (q = t) then ListNode (next hn) h
              else ListNode (if decide (q = h) then t else next n)
                            (if decide (q = next hn) then t else prev n)).
Proof.
  intros Hh [nt Ht] [nf Hf] Hth Htf. unfold list_add.
  rewrite (bind_Ok (load_node_ok _ _ _ Hh)).
  destruct (set_next_exact t (next hn) s nt Ht) as (s1 & H1 & R1 & Ht1 & Ho1).
  rewrite (bind_Ok H1).
  destruct (set_prev_exact t h s1 _ Ht1) as (s2 & H2 & R2 & Ht2 & Ho2).
  rewrite (bind_Ok H2). cbn [next] in Ht2.
  assert (Hh2 : node_at (heap s2) h = Some hn)
    by (rewrite Ho2, Ho1 by done; done).
  rewrite (bind_Ok (load_node_ok _ _ _ Hh2)).
  assert (Hf2 : node_at (heap s2) (next hn) = Some nf)
    by (rewrite Ho2, Ho1 by done; done).
  destruct (set_prev_exact (next hn) t s2 nf Hf2) as (s3 & H3 & R3 & Hf3 & Ho3).
  rewrite (bind_Ok H3).
  assert (Hh3 : node_at (heap s3) h
                = Some (ListNode (next hn)
                          (if decide (h = next hn) then t else prev hn))).
  { destruct (decide (h = next hn)) as [E|Hne].
    - rewrite E at 1. rewrite Hf3. rewrite <- E in Hf. rewrite Hh in Hf.
      by injection Hf as <-.
    - rewrite Ho3 by done. rewrite Hh2. by destruct hn. }
  destruct (set_next_exact h t s3 _ Hh3) as (s4 & H4 & R4 & Hh4 & Ho4).
  exists s4. split; [done|]. split; [eauto using relinked_trans|].
  intros q n Hq. destruct (decide (q = t)) as [->|Hqt].
  - rewrite Ho4, Ho3 by done. done.
  - destruct (decide (q = h)) as [->|Hqh].
    + rewrite Hh4. cbn [prev]. rewrite Hh in Hq. by injection Hq as <-.
    + rewrite Ho4 by done. destruct (decide (q = next hn)) as [->|Hqf].
      * rewrite Hf3. rewrite Hf in Hq. by injection Hq as <-.
      * rewrite Ho3, Ho2, Ho1 by done. rewrite Hq. by destruct n.
Qed.

Lemma path_app hp A x B :
  path hp (A ++ x :: B) ↔ path hp (A ++ [x]) ∧ path hp (x :: B).
Proof.
  induction A as [|a A IH]; simpl.
  - tauto.
  - destruct A as [|b A]; simpl in *.
    + destruct B; tauto.
    + tauto.
Qed.

Lemma path_snoc_impl hp hp' : ∀ A x,
  path hp (A ++ [x]) →
  (∀ u v, u ∈ A → v ∈ tail (A ++ [x]) → linked hp u v → linked hp' u v) →
  path hp' (A ++ [x]).
Proof.
  induction A as [|a A IH]; intros x Hp Himp; [done|].
  destruct A as [|b A].
  - simpl in *. destruct Hp as [Hl _]. split; [|done].
    apply Himp; [left|left|done].
  - change (path hp (a :: b :: A ++ [x])) in Hp.
    change (path hp' (a :: b :: A ++ [x])).
    cbn [path] in Hp |- *. destruct Hp as [Hl Hp]. split.
    + apply Himp; [left|left|done].
    + apply (IH x Hp). intros u v Hu Hv. apply Himp; [by right|by right].
Qed.

Lemma path_ext hp hp' qs :
  (∀ q, q ∈ qs → node_at hp' q = node_at hp q) → path hp qs → path hp' qs.
Proof.
  induction qs as [|x [|y r] IH]; intros Hext Hp; [done|done|].
  cbn [path] in *. destruct Hp as [(nx & ny & Hx & Hy & Hn & Hv) Hp]. split.
  - exists nx, ny. rewrite !Hext; [done|right; left|left].
  - apply IH; [|done]. intros q Hq. apply Hext. by right.
Qed.

Lemma node_at_links_only_None hp hp' q :
  links_only hp hp' → node_at hp q = None → node_at hp' q = None.
Proof.
  intros HL Hn. destruct (node_at hp' q) as [n|] eqn:E; [|done].
  destruct (node_at_links_only hp' hp q (links_only_sym _ _ HL)
              (mk_is_Some _ _ E)) as [n' Hn'].
  congruence.
Qed.

Lemma links_only_is_hdr hp hp' k :
  links_only hp hp' → (∃ h, hp !! k = Some (Hdr h)) → ∃ h, hp' !! k = Some (Hdr h).
Proof.
  intros HL [h Hh]. destruct (links_only_lookup _ _ _ _ HL Hh) as (o & Ho & He).
  apply erase_links_Hdr in He as (h' & -> & _). eauto.
Qed.

Lemma links_only_is_children hp hp' c :
  links_only hp hp' → (∃ nx pa n, hp !! c = Some (Children nx pa n)) →
  ∃ nx pa n, hp' !! c = Some (Children nx pa n).
Proof.
  intros HL (nx & pa & n & Hc).
  destruct (links_only_lookup _ _ _ _ HL Hc) as (o & Ho & He).
  apply erase_links_Children in He as (n' & ->). eauto.
Qed.

Lemma child_list_head_fresh hp c ks : child_list hp c ks → c + offsetof_children ∉ ks.
Proof.
  intros (_ & Hhd & Hks & _) Hin. rewrite Forall_forall in Hks.
  destruct (Hks _ Hin) as [h Hh]. congruence.
Qed.

(** A list whose nodes kept their links is the same list. *)
Lemma child_list_frame hp hp' c ks :
  child_list hp c ks → links_only hp hp' →
  (∀ q, q ∈ (c + offsetof_children) :: ks → node_at hp' q = node_at hp q) →
  child_list hp' c ks.
Proof.
  intros (Hc & Hhd & Hks & Hnd & Hp) HL Hext.
  split; [by eapply links_only_is_children|].
  split; [by eapply links_only_None|].
  split; [|split; [done|]].
  - eapply Forall_impl; [done|]. intros k. by apply links_only_is_hdr.
  - eapply path_ext; [|done]. intros q Hq. apply Hext.
    apply elem_of_cons in Hq as [->|Hq]; [left|].
    apply elem_of_app in Hq as [Hq|Hq]; [by right|].
    apply list_elem_of_singleton in Hq as ->. left.
Qed.

Lemma snoc_cases {A} (l : list A) : l = [] ∨ ∃ l' x, l = l' ++ [x].
Proof.
  induction l as [|a l IH] using rev_ind; [by left|right; eauto].
Qed.

(** [list_del] takes a header out of the list it is in; the other
    headers keep their order. *)
Lemma child_list_del t c ks1 ks2 s :
  child_list (heap s) c (ks1 ++ t :: ks2) →
  ∃ s', list_del t s = Ok tt s' ∧ relinked s s' ∧
    child_list (heap s') c (ks1 ++ ks2) ∧
    (∀ q, q ∉ (c + offsetof_children) :: ks1 ++ ks2 →
          node_at (heap s') q = node_at (heap s) q).
Proof.
  intros Hk. pose proof (child_list_head_fresh _ _ _ Hk) as Hhdk.
  destruct Hk as (Hc & Hhd & Hks & Hnd & Hp).
  set (hd := c + offsetof_children) in *.
  assert (∃ L1 x, hd :: ks1 = L1 ++ [x]) as (L1 & x & HL1).
  { destruct (snoc_cases ks1) as [->|(l' & x & ->)].
    - by exists [], hd.
    - by exists (hd :: l'), x. }
  assert (∃ y L2, ks2 ++ [hd] = y :: L2) as (y & L2 & HL2).
  { destruct ks2 as [|k ks2]; simpl; eauto. }
  assert (Hpath : path (heap s) (L1 ++ x :: t :: y :: L2)).
  { replace (L1 ++ x :: t :: y :: L2) with ((L1 ++ [x]) ++ t :: y :: L2)
      by (by rewrite <- app_assoc).
    rewrite <- HL1, <- HL2. simpl. by rewrite <- app_assoc in Hp. }
  apply path_app in Hpath as [Hpre Hpath].
  change (linked (heap s) x t ∧ linked (heap s) t y ∧ path (heap s) (y :: L2))
    in Hpath.
  destruct Hpath as (Hxt & Hty & Hsuf).
  destruct Hxt as (nx & nt & Hx & Ht & Hxn & Htp).
  destruct Hty as (nt' & ny & Ht' & Hy & Htn & Hyp).
  rewrite Ht in Ht'. injection Ht' as <-.
  assert (Ht2 : node_at (heap s) t = Some (ListNode y x))
    by (rewrite Ht; destruct nt; simpl in *; congruence).
  destruct (list_del_exact t x y s Ht2 ltac:(eauto) ltac:(eauto))
    as (s' & Hdel & R & HF).
  apply NoDup_app in Hnd as (Hnd1 & Hdisj & Hnd2).
  apply NoDup_cons in Hnd2 as [Ht2' Hnd2].
  assert (Hhd1 : hd ∉ ks1) by (intros ?; apply Hhdk, elem_of_app; by left).
  assert (Hhd2 : hd ∉ ks2)
    by (intros ?; apply Hhdk, elem_of_app; right; by right).
  assert (Hpre_nd : NoDup (L1 ++ [x])).
  { rewrite <- HL1. by apply NoDup_cons. }
  assert (Hx_in : x ∈ hd :: ks1) by (rewrite HL1; apply elem_of_app; right; left).
  assert (Hy_in : y ∈ ks2 ++ [hd]) by (rewrite HL2; left).
  assert (Hxy2 : x ∉ ks2).
  { intros Hin. apply elem_of_cons in Hx_in as [->|Hx1]; [done|].
    apply (Hdisj x Hx1). by right. }
  assert (Hy1 : y ∉ ks1).
  { intros Hin. apply elem_of_app in Hy_in as [Hy2|Hy2].
    - apply (Hdisj y Hin). by right.
    - apply list_elem_of_singleton in Hy2 as ->. done. }
  assert (Hlinked : ∀ u v, linked (heap s) u v → u ≠ x → v ≠ y →
                           linked (heap s') u v).
  { intros u v (nu & nv & Hu & Hv & Hun & Hvp) Hux Hvy.
    eexists _, _. rewrite (HF _ _ Hu), (HF _ _ Hv). split; [done|].
    split; [done|]. cbn [next prev].
    rewrite decide_False by done. split; [done|].
    by rewrite decide_False by done. }
  exists s'. split; [done|]. split; [done|]. split.
  - split; [eapply links_only_is_children; [apply R|done]|].
    split; [by eapply links_only_None; [apply R|]|].
    split.
    { apply Forall_app in Hks as [Hk1 Hk2]. apply Forall_cons in Hk2 as [_ Hk2].
      apply Forall_app. split; (eapply Forall_impl; [done|]);
        intros k; apply links_only_is_hdr, R. }
    split.
    { apply NoDup_app. split; [done|]. split; [|done].
      intros k Hk1 Hk2. apply (Hdisj k Hk1). by right. }
    fold hd. replace (hd :: (ks1 ++ ks2) ++ [hd]) with (L1 ++ x :: y :: L2)
      by (rewrite <- app_assoc, HL2, app_comm_cons, HL1, <- app_assoc; done).
    apply path_app.
    split; [|change (linked (heap s') x y ∧ path (heap s') (y :: L2)); split].
    + apply (path_snoc_impl (heap s)); [done|].
      intros u v Hu Hv Hl. apply Hlinked; [done| |].
      * intros ->. apply NoDup_app in Hpre_nd as (_ & Hd & _).
        apply (Hd x Hu). left.
      * intros ->. rewrite <- HL1 in Hv. simpl in Hv. done.
    + eexists _, _. rewrite (HF _ _ Hx), (HF _ _ Hy). split; [done|].
      split; [done|]. cbn [next prev]. by rewrite !decide_True.
    + destruct ks2 as [|k ks2].
      { simpl in HL2. injection HL2 as <- <-. done. }
      rewrite <- HL2. apply (path_snoc_impl (heap s)); [by rewrite HL2|].
      intros u v Hu Hv Hl. apply Hlinked; [done| |].
      * intros ->. done.
      * intros ->. simpl in HL2. injection HL2 as -> _.
        simpl in Hv. apply NoDup_cons in Hnd2 as [Hk _].
        apply elem_of_app in Hv as [Hv|Hv]; [done|].
        apply list_elem_of_singleton in Hv as ->. apply Hhd2. left.
  - intros q Hq.
    assert (Hqx : q ≠ x).
    { intros ->. apply Hq. apply elem_of_cons in Hx_in as [->|Hx1]; [left|].
      right. apply elem_of_app. by left. }
    assert (Hqy : q ≠ y).
    { intros ->. apply Hq. apply elem_of_app in Hy_in as [Hy2|Hy2].
      - right. apply elem_of_app. by right.
      - apply list_elem_of_singleton in Hy2 as ->. left. }
    destruct (node_at (heap s) q) as [n|] eqn:E.
    + rewrite (HF _ _ E). rewrite !decide_False by done. by destruct n.
    + eapply node_at_links_only_None; [apply R|done].
Qed.

(** [list_add] puts a header at the front of a list it is not in. *)
Lemma child_list_add t c ks s :
  child_list (heap s) c ks → (∃ h, heap s !! t = Some (Hdr h)) → t ∉ ks →
  ∃ s', list_add (c + offsetof_children) t s = Ok tt s' ∧ relinked s s' ∧
    child_list (heap s') c (t :: ks) ∧
    (∀ q, q ∉ (c + offsetof_children) :: t :: ks →
          node_at (heap s') q = node_at (heap s) q).
Proof.
  intros Hk [ht Hht] Htks. pose proof (child_list_head_fresh _ _ _ Hk) as Hhdk.
  destruct Hk as (Hc & Hhd & Hks & Hnd & Hp).
  set (hd := c + offsetof_children) in *.
  assert (Hthd : t ≠ hd) by (intros ->; congruence).
  assert (∃ y L2, ks ++ [hd] = y :: L2) as (y & L2 & HL2).
  { destruct ks as [|k ks']; simpl; eauto. }
  rewrite HL2 in Hp.
  change (linked (heap s) hd y ∧ path (heap s) (y :: L2)) in Hp.
  destruct Hp as [Hhy Hp].
  destruct Hhy as (hn & ny & Hh & Hy & Hhn & Hyp).
  assert (Hy_in : y ∈ ks ++ [hd]) by (rewrite HL2; left).
  assert (Hty : t ≠ next hn).
  { rewrite Hhn. intros <-. apply elem_of_app in Hy_in as [?|Hy2]; [done|].
    by apply list_elem_of_singleton in Hy2. }
  destruct (list_add_exact hd t s hn Hh)
    as (s' & Hadd & R & HG); [by rewrite (node_at_hdr _ _ _ Hht)
                              |rewrite Hhn; eauto|done|done|].
  rewrite Hhn in HG.
  assert (Hnt : node_at (heap s') t = Some (ListNode y hd)).
  { rewrite (HG _ _ (node_at_hdr _ _ _ Hht)). by rewrite decide_True. }
  exists s'. split; [done|]. split; [done|]. split.
  - split; [eapply links_only_is_children; [apply R|done]|].
    split; [by eapply links_only_None; [apply R|]|].
    split.
    { apply Forall_cons. split; [by eapply links_only_is_hdr; [apply R|eauto]|].
      eapply Forall_impl; [done|]. intros k. apply links_only_is_hdr, R. }
    split; [by apply NoDup_cons|].
    fold hd. change (path (heap s') (hd :: t :: ks ++ [hd])).
    rewrite HL2.
    change (linked (heap s') hd t ∧ linked (heap s') t y
            ∧ path (heap s') (y :: L2)).
    split; [|split].
    + eexists _, _. rewrite (HG _ _ Hh), Hnt. rewrite decide_False by done.
      split; [done|]. split; [done|]. cbn [next prev].
      by rewrite decide_True.
    + rewrite Hhn in Hty.
      eexists _, _. rewrite Hnt, (HG _ _ Hy). rewrite decide_False by done.
      split; [done|]. split; [done|]. cbn [next prev].
      by rewrite decide_True.
    + destruct ks as [|k ks'].
      { simpl in HL2. injection HL2 as <- <-. done. }
      rewrite <- HL2. apply (path_snoc_impl (heap s)); [by rewrite HL2|].
      intros u v Hu Hv (nu & nv & Hnu & Hnv & Hun & Hvp).
      assert (Hut : u ≠ t) by (intros ->; done).
      assert (Huh : u ≠ hd) by (intros ->; done).
      assert (Hvt : v ≠ t).
      { intros ->. simpl in Hv. apply elem_of_app in Hv as [Hv|Hv].
        - apply Htks. by right.
        - by apply list_elem_of_singleton in Hv. }
      assert (Hvy : v ≠ y).
      { intros ->. simpl in HL2. injection HL2 as -> _. simpl in Hv.
        apply NoDup_cons in Hnd as [Hk _].
        apply elem_of_app in Hv as [Hv|Hv]; [done|].
        apply list_elem_of_singleton in Hv as ->. apply Hhdk. left. }
      eexists _, _. rewrite (HG _ _ Hnu), (HG _ _ Hnv).
      rewrite (decide_False (P := u = t)) by done.
      rewrite (decide_False (P := v = t)) by done.
      rewrite (decide_False (P := u = hd)) by done.
      rewrite (decide_False (P := v = y)) by done.
      split; [done|]. split; [done|]. done.
  - intros q Hq.
    assert (Hqt : q ≠ t) by (intros ->; apply Hq; right; left).
    assert (Hqh : q ≠ hd) by (intros ->; apply Hq; left).
    assert (Hqy : q ≠ y).
    { intros ->. apply Hq. apply elem_of_app in Hy_in as [Hy2|Hy2].
      - right. by right.
      - apply list_elem_of_singleton in Hy2 as ->. left. }
    destruct (node_at (heap s) q) as [n|] eqn:E.
    + rewrite (HG _ _ E). rewrite !decide_False by done. by destruct n.
    + eapply node_at_links_only_None; [apply R|done].
Qed.

(** ** Children lists under [tal_steal_] *)

Lemma child_list_ext hp hp' c ks :
  child_list hp c ks →
  (∃ nx pa n, hp' !! c = Some (Children nx pa n)) →
  hp' !! (c + offsetof_children) = None →
  Forall (λ k, ∃ h, hp' !! k = Some (Hdr h)) ks →
  (∀ q, q ∈ (c + offsetof_children) :: ks → node_at hp' q = node_at hp q) →
  child_list hp' c ks.
Proof.
  intros (Hc & Hhd & Hks & Hnd & Hp) Hc' Hhd' Hks' Hext.
  split; [done|]. split; [done|]. split; [done|]. split; [done|].
  eapply path_ext; [|done]. intros q Hq. apply Hext.
  apply elem_of_cons in Hq as [->|Hq]; [left|].
  apply elem_of_app in Hq as [Hq|Hq]; [by right|].
  apply list_elem_of_singleton in Hq as ->. left.
Qed.

Lemma child_list_insert_parent_child hp c ks t h pc :
  child_list hp c ks → hp !! t = Some (Hdr h) →
  child_list (<[t := Hdr (TalHdr (hlist h) (prop h) pc)]> hp) c ks.
Proof.
  intros Hk Ht. pose proof Hk as (Hc & Hhd & Hks & _).
  apply (child_list_ext hp); [done| | | |].
  - destruct Hc as (nx & pa & n & Hc). exists nx, pa, n.
    rewrite lookup_insert_ne; [done|]. intros ->. congruence.
  - rewrite lookup_insert_ne; [done|]. intros ->. congruence.
  - eapply Forall_impl; [done|]. intros k [hk Hk']. simpl.
    destruct (decide (k = t)) as [->|Hne].
    + rewrite lookup_insert_eq. eauto.
    + rewrite lookup_insert_ne by done. eauto.
  - intros q _. by apply node_at_insert_parent_child.
Qed.

Lemma reparented_after_links hp hp1 hp2 t c :
  links_only hp hp1 → reparented hp1 hp2 t c → reparented hp hp2 t c.
Proof.
  intros HL [Hk (h1 & h2 & H1 & H2 & Hp & Hpc)]. split.
  - intros k Hne. by rewrite (Hk k Hne).
  - pose proof (HL t) as E. rewrite H1 in E.
    destruct (hp !! t) as [o|] eqn:Ho; [|done]. simpl in E.
    injection E as E. symmetry in E.
    apply erase_links_Hdr in E as (h & -> & Hp' & _).
    exists h, h2. split; [done|]. split; [done|]. split; [congruence|done].
Qed.

(** Two children lists of one heap that share a node are one list. *)
Lemma path_meets hp h0 h1 : ∀ B0 B1 k,
  path hp (k :: B0 ++ [h0]) → path hp (k :: B1 ++ [h1]) →
  h0 ∉ B1 → h1 ∉ B0 → h0 = h1.
Proof.
  induction B0 as [|b0 B0 IH]; intros [|b1 B1] k H0 H1 N0 N1.
  - simpl in *. destruct H0 as [(n & ? & Hn & _ & <- & _) _].
    destruct H1 as [(n' & ? & Hn' & _ & <- & _) _]. congruence.
  - simpl in H0. destruct H0 as [(n & ? & Hn & _ & E0 & _) _].
    change (linked hp k b1 ∧ path hp (b1 :: B1 ++ [h1])) in H1.
    destruct H1 as [(n' & ? & Hn' & _ & E1 & _) _].
    exfalso. apply N0. assert (b1 = h0) as -> by congruence. left.
  - simpl in H1. destruct H1 as [(n & ? & Hn & _ & E0 & _) _].
    change (linked hp k b0 ∧ path hp (b0 :: B0 ++ [h0])) in H0.
    destruct H0 as [(n' & ? & Hn' & _ & E1 & _) _].
    exfalso. apply N1. assert (b0 = h1) as -> by congruence. left.
  - change (linked hp k b0 ∧ path hp (b0 :: B0 ++ [h0])) in H0.
    change (linked hp k b1 ∧ path hp (b1 :: B1 ++ [h1])) in H1.
    destruct H0 as [(n & ? & Hn & _ & E0 & _) H0].
    destruct H1 as [(n' & ? & Hn' & _ & E1 & _) H1].
    assert (b1 = b0) as -> by congruence.
    apply (IH B1 b0); [done|done| |].
    + intros Hin. apply N0. by right.
    + intros Hin. apply N1. by right.
Qed.

Lemma child_list_disjoint hp c0 c1 L0 L1 k :
  child_list hp c0 L0 → child_list hp c1 L1 → c0 ≠ c1 → k ∈ L0 → k ∉ L1.
Proof.
  intros K0 K1 Hne H0 H1.
  pose proof (child_list_head_fresh _ _ _ K0) as F0.
  pose proof (child_list_head_fresh _ _ _ K1) as F1.
  destruct K0 as (_ & Hh0 & Hk0 & _ & P0).
  destruct K1 as (_ & Hh1 & Hk1 & _ & P1).
  apply list_elem_of_split in H0 as (A0 & B0 & ->).
  apply list_elem_of_split in H1 as (A1 & B1 & ->).
  rewrite <- app_assoc in P0, P1.
  change (path hp (((c0 + offsetof_children) :: A0) ++ k :: B0
                   ++ [c0 + offsetof_children])) in P0.
  change (path hp (((c1 + offsetof_children) :: A1) ++ k :: B1
                   ++ [c1 + offsetof_children])) in P1.
  apply path_app in P0 as [_ P0]. apply path_app in P1 as [_ P1].
  assert (c0 + offsetof_children = c1 + offsetof_children); [|lia].
  apply (path_meets hp _ _ B0 B1 k); [done|done| |].
  - intros Hin. rewrite Forall_forall in Hk1.
    destruct (Hk1 (c0 + offsetof_children)) as [h Hh]; [|congruence].
    apply elem_of_app. right. by right.
  - intros Hin. rewrite Forall_forall in Hk0.
    destruct (Hk0 (c1 + offsetof_children)) as [h Hh]; [|congruence].
    apply elem_of_app. right. by right.
Qed.

(** The tail of [add_child], once the children property is known. *)
Lemma adopt_ok c child L s hc :
  child_list (heap s) c L → child ≠ 0 → heap s !! child = Some (Hdr hc) →
  child ∉ L →
  ∃ s', (do* list_add (c + offsetof_children) child in
         let* h := load_hdr child in
         do* store_hdr child (TalHdr (hlist h) (prop h) c) in
         ret true) s = Ok true s' ∧
    s' = set_heap (λ _, heap s') s ∧
    reparented (heap s) (heap s') child c ∧
    child_list (heap s') c (child :: L) ∧
    (∀ q, q ∉ (c + offsetof_children) :: child :: L →
          node_at (heap s') q = node_at (heap s) q).
Proof.
  intros Hk Hc0 Hc Hin.
  destruct (child_list_add child c L s Hk ltac:(eauto) Hin)
    as (s1 & Hadd & R1 & Hk1 & Hfr).
  destruct (links_only_lookup _ _ _ _ (proj1 R1) Hc) as (o & Ho & He).
  apply erase_links_Hdr in He as (hc' & -> & Hp & Hpc).
  eexists. split.
  { rewrite (bind_Ok Hadd).
    rewrite (bind_Ok (load_hdr_Some _ _ _ Hc0 Ho)).
    by rewrite (bind_Ok (store_hdr_ok _ _ _ Hc0 (mk_is_Some _ _ Ho))). }
  st_simpl. split; [|split; [|split]].
  - destruct R1 as [_ ->]. by destruct s.
  - apply (reparented_after_links _ (heap s1)); [apply R1|]. split.
    + intros k Hne. by rewrite lookup_insert_ne.
    + exists hc', (TalHdr (hlist hc') (prop hc') c).
      split; [done|]. split; [apply lookup_insert_eq|done].
  - destruct s1; st_simpl. by apply child_list_insert_parent_child.
  - intros q Hq. destruct s1; st_simpl.
    rewrite (node_at_insert_parent_child _ _ _ _ _ Ho). by apply Hfr.
Qed.

Lemma add_child_adopts fuel parent child c L s hc :
  find_property fuel parent CHILDREN s = Ok c s → c ≠ 0 →
  child_list (heap s) c L → child ≠ 0 → heap s !! child = Some (Hdr hc) →
  child ∉ L →
  ∃ s', add_child fuel parent child s = Ok true s' ∧
    s' = set_heap (λ _, heap s') s ∧
    reparented (heap s) (heap s') child c ∧
    child_list (heap s') c (child :: L) ∧
    (∀ q, q ∉ (c + offsetof_children) :: child :: L →
          node_at (heap s') q = node_at (heap s) q).
Proof.
  intros Hfind Hc Hk Hch0 Hch Hin.
  destruct (adopt_ok c child L s hc Hk Hch0 Hch Hin) as (s' & Hrun & Hrest).
  exists s'. split; [|done]. unfold add_child.
  rewrite (bind_Ok Hfind).
  destruct (Z.eqb_spec c 0); [done|]. rewrite bind_ret_l.
  by destruct (Z.eqb_spec c 0).
Qed.

Lemma child_list_with_children_new parent hp a rest s :
  heap s !! parent = Some (Hdr hp) →
  heap s !! a = None → heap s !! (a + offsetof_children) = None →
  child_list (heap (with_children parent hp a rest s)) a [].
Proof.
  intros Hp Hfresh Hfresh'.
  assert (Hap : a ≠ parent) by (intros ->; congruence).
  assert (Hap' : a + offsetof_children ≠ parent) by (intros E; congruence).
  split; [|split; [|split; [|split]]].
  - rewrite heap_with_children, lookup_insert_eq. eauto.
  - rewrite heap_with_children.
    rewrite !lookup_insert_ne by (try done; unfold offsetof_children; lia).
    done.
  - constructor.
  - constructor.
  - cbn [path app]. split; [|done].
    exists (ListNode (a + offsetof_children) (a + offsetof_children)),
           (ListNode (a + offsetof_children) (a + offsetof_children)).
    rewrite node_at_with_children by done.
    rewrite decide_True by done. done.
Qed.

Lemma child_list_with_children_old parent hp a rest s c L :
  heap s !! parent = Some (Hdr hp) →
  heap s !! a = None → heap s !! (a + offsetof_children) = None →
  node_at (heap s) a = None →
  child_list (heap s) c L →
  child_list (heap (with_children parent hp a rest s)) c L.
Proof.
  intros Hp Hfresh Hfresh' Hnode Hk.
  pose proof Hk as ((nx & pa & n & Hc) & Hhd & Hks & _).
  assert (Hap : a ≠ parent) by (intros ->; congruence).
  apply (child_list_ext (heap s)); [done| | | |].
  - exists nx, pa, n. rewrite heap_with_children.
    rewrite !lookup_insert_ne; [done|intros ->; congruence|intros ->; congruence].
  - rewrite heap_with_children.
    rewrite !lookup_insert_ne; [done|intros E; congruence|].
    intros ->. unfold node_at in Hnode. rewrite Hfresh in Hnode.
    replace (c + offsetof_children - offsetof_children) with c in Hnode by lia.
    by rewrite Hc in Hnode.
  - eapply Forall_impl; [done|]. intros k [hk Hk']. cbn beta.
    rewrite heap_with_children.
    rewrite lookup_insert_ne by (intros ->; congruence).
    destruct (decide (k = parent)) as [->|Hne].
    + rewrite lookup_insert_eq. eauto.
    + rewrite lookup_insert_ne by done. eauto.
  - intros q Hq. rewrite node_at_with_children by done.
    rewrite decide_False; [done|]. intros ->.
    apply elem_of_cons in Hq as [E|Hq].
    + assert (a = c) as -> by lia. congruence.
    + rewrite Forall_forall in Hks. destruct (Hks _ Hq) as [h Hh]. congruence.
Qed.

Lemma links_only_with_children parent hp hp1 a rest rest1 s s1 :
  links_only (heap s) (heap s1) →
  prop hp1 = prop hp → parent_child hp1 = parent_child hp →
  links_only (heap (with_children parent hp a rest s))
             (heap (with_children parent hp1 a rest1 s1)).
Proof.
  intros HL Hp Hpc k. rewrite !heap_with_children.
  destruct (decide (k = a)) as [->|Ha].
  { rewrite !lookup_insert_eq. simpl. by rewrite Hp. }
  rewrite !(lookup_insert_ne _ a) by done.
  destruct (decide (k = parent)) as [->|Hpa].
  { rewrite !lookup_insert_eq. simpl. by rewrite Hpc. }
  rewrite !lookup_insert_ne by done. apply HL.
Qed.

Lemma set_heap_after_refusal hp hp1 s :
  set_heap (λ _, hp) (after_refusal (set_heap (λ _, hp1) s))
  = set_heap (λ _, hp) (after_refusal s).
Proof.
  unfold after_refusal.
  change (initialized (set_heap (λ _, hp1) s)) with (initialized s).
  destruct (initialized s); by destruct s.
Qed.

Lemma set_heap_with_children hp hp1 parent h h1 a rest s :
  set_heap (λ _, hp) (with_children parent h1 a rest (set_heap (λ _, hp1) s))
  = set_heap (λ _, hp) (with_children parent h a rest s).
Proof.
  unfold with_children.
  change (initialized (set_heap (λ _, hp1) s)) with (initialized s).
  destruct (initialized s); by destruct s.
Qed.

Lemma reparented_lookup hp hp' t c k o :
  reparented hp hp' t c → hp !! k = Some o →
  ∃ o', hp' !! k = Some o' ∧
        (k ≠ t → erase_links o' = erase_links o) ∧
        ((∃ h, o = Hdr h) → ∃ h', o' = Hdr h' ∧ prop h' = prop (match o with Hdr h => h | _ => TalHdr (ListNode 0 0) 0 0 end)).
Proof.
  intros [Hk (h & h' & H1 & H2 & Hp & Hpc)] Ho.
  destruct (decide (k = t)) as [->|Hne].
  - exists (Hdr h'). split; [done|]. split; [done|].
    intros _. exists h'. split; [done|].
    assert (o = Hdr h) as -> by congruence. done.
  - pose proof (Hk k Hne) as E. rewrite Ho in E.
    destruct (hp' !! k) as [o'|]; [|done]. injection E as E.
    exists o'. split; [done|]. split; [done|].
    intros [h0 ->]. apply erase_links_Hdr in E as (h1 & -> & ? & _). eauto.
Qed.

Lemma reparented_None hp hp' t c k :
  reparented hp hp' t c → hp !! k = None → hp' !! k = None.
Proof.
  intros [Hk (h & h' & H1 & H2 & _)] Ho.
  assert (Hne : k ≠ t) by (intros ->; congruence).
  pose proof (Hk k Hne) as E. rewrite Ho in E.
  by destruct (hp' !! k).
Qed.

Lemma reparented_props_kept hp hp' t c :
  reparented hp hp' t c → props_kept hp hp'.
Proof.
  intros R k o Ho Hnh.
  destruct (reparented_lookup _ _ _ _ _ _ R Ho) as (o' & Ho' & He & _).
  exists o'. split; [done|]. apply He. intros ->.
  destruct R as [_ (h & h' & H1 & _)]. by apply (Hnh h); congruence.
Qed.

Lemma reparented_hdr_kept hp hp' t c k :
  reparented hp hp' t c → hdr_kept k hp hp'.
Proof.
  intros R h Hh.
  destruct (reparented_lookup _ _ _ _ _ _ R Hh) as (o' & Ho' & _ & Hd).
  destruct Hd as (h' & -> & Hp); [eauto|]. eauto.
Qed.

Lemma child_list_reparented hp hp' t c' c L :
  child_list hp c L → reparented hp hp' t c' →
  (∀ q, q ∈ (c + offsetof_children) :: L → node_at hp' q = node_at hp q) →
  child_list hp' c L.
Proof.
  intros Hk R Hext. pose proof Hk as ((nx & pa & n & Hc) & Hhd & Hks & _).
  apply (child_list_ext hp); [done| | | |done].
  - destruct (reparented_lookup _ _ _ _ _ _ R Hc) as (o' & Ho' & He & _).
    assert (Hne : c ≠ t).
    { intros ->. destruct R as [_ (h & h' & H1 & _)]. congruence. }
    apply He in Hne. apply erase_links_Children in Hne as (n' & ->). eauto.
  - by eapply reparented_None.
  - eapply Forall_impl; [done|]. intros k [hk Hk']. cbn beta.
    destruct (reparented_lookup _ _ _ _ _ _ R Hk') as (o' & Ho' & _ & Hd).
    destruct Hd as (h' & -> & Hp); [eauto|]. eauto.
Qed.

Lemma add_trace_set_heap evs hp s :
  add_trace evs (set_heap (λ _, hp) s) = set_heap (λ _, hp) (add_trace evs s).
Proof. by destruct s. Qed.

Lemma set_heap_set_heap hp hp1 s :
  set_heap (λ _, hp) (set_heap (λ _, hp1) s) = set_heap (λ _, hp) s.
Proof. by destruct s. Qed.

Section StealLists.

Context (fuel : nat) (new_parent ctx : Z) (s : state).
Context (ht : tal_hdr) (lt : list (Z * object)) (litt : Z).
Context (newpar p0 nx0 : Z) (hd0 : list_node) (ks1 ks2 : list Z).

Let t := ctx - sizeof_tal_hdr.
Let c0 := ignore_destroying_bit (parent_child ht).

(** [ctx] is a live node whose parent reference leads to the children
    property [c0] of its parent [p0], and it stands in the list of that
    property between [ks1] and [ks2]. *)
Hypothesis Hctx : ctx ≠ 0.
Hypothesis Ht0 : t ≠ 0.
Hypothesis Hht : heap s !! t = Some (Hdr ht).
Hypothesis Hchain : chain (heap s) (prop ht) lt litt.
Hypothesis Hfuel : (S (length lt) < fuel)%nat.
Hypothesis Hnewpar : to_tal_hdr_or_null new_parent s = Ok newpar s.
Hypothesis Hc0 : c0 ≠ 0.
Hypothesis Hc0obj : heap s !! c0 = Some (Children nx0 p0 hd0).
Hypothesis Hkids : child_list (heap s) c0 (ks1 ++ t :: ks2).

Lemma steal_not_sibling : t ∉ ks1 ++ ks2.
Proof.
  destruct Hkids as (_ & _ & _ & Hnd & _).
  apply NoDup_app in Hnd as (_ & H12 & H2).
  apply NoDup_cons in H2 as [H2 _].
  intros Hin. apply elem_of_app in Hin as [Hin|Hin]; [|done].
  apply (H12 _ Hin). left.
Qed.

Lemma steal_unlinks :
  ∃ s1, relinked s s1 ∧ child_list (heap s1) c0 (ks1 ++ ks2) ∧
      (∀ q, q ∉ (c0 + offsetof_children) :: ks1 ++ ks2 →
            node_at (heap s1) q = node_at (heap s) q) ∧
      tal_steal_ passive fuel new_parent ctx s
      = (let* ok := add_child fuel newpar t in
         if negb ok then
           let* ok' := add_child fuel p0 t in
           if negb ok' then abort else ret NULL
         else
           let* s' := get in
           do* (if notifiers s' =? 0 then ret tt
                else notify passive fuel t TAL_NOTIFY_STEAL new_parent) in
           ret ctx) s1.
Proof.
  destruct (child_list_del t c0 ks1 ks2 s Hkids) as (s1 & Hdel & R1 & Hk1 & Hfr).
  exists s1. split; [done|]. split; [done|]. split; [done|].
  unfold tal_steal_. destruct (Z.eqb_spec ctx 0); [done|].
  rewrite (bind_Ok Hnewpar).
  rewrite (bind_Ok (to_tal_hdr_ok _ _ _ _ _ Ht0 Hht Hchain)). fold t.
  rewrite (bind_Ok Hdel).
  assert (Hpar : parent_of t s = Ok p0 s) by by eapply parent_of_ok.
  by rewrite (bind_Ok (parent_of_links_only _ _ _ _ Hpar (proj1 R1))).
Qed.

Lemma steal_head_not_node : c0 + offsetof_children ≠ t.
Proof. destruct Hkids as (_ & Hhd & _). intros E. congruence. Qed.

Lemma steal_rolls_back :
  find_property fuel newpar CHILDREN s = Ok NULL s → refused s →
  error_aborts s = false →
  find_property fuel p0 CHILDREN s = Ok c0 s →
  ∃ s', tal_steal_ passive fuel new_parent ctx s = Ok NULL s' ∧
    s' = set_heap (λ _, heap s') (after_refusal s) ∧
    reparented (heap s) (heap s') t c0 ∧
    child_list (heap s') c0 (t :: ks1 ++ ks2) ∧
    (∀ q, q ∉ (c0 + offsetof_children) :: ks1 ++ t :: ks2 →
          node_at (heap s') q = node_at (heap s) q) ∧
    parent_of t s' = Ok p0 s'.
Proof.
  intros Hnone Href Herr Hold.
  destruct steal_unlinks as (s1 & R1 & Hk1 & Hfr1 & Hsteal).
  pose proof (relinked_fields _ _ R1) as (Hbl & Hbe & Her & Hin & Hno & Htr & _).
  destruct (relinked_hdr s s1 t ht R1 Hht) as (ht1 & Hht1 & Hp1 & Hpc1).
  assert (Hnone1 : find_property fuel newpar CHILDREN s1 = Ok NULL s1).
  { eapply find_property_kept; [done|by apply links_only_props_kept, R1|].
    by apply links_only_hdr_kept, R1. }
  assert (Href1 : refused s1) by (unfold refused; by rewrite Hbe).
  assert (Herr1 : error_aborts s1 = false) by by rewrite Her.
  set (s2 := after_refusal s1).
  assert (Hheap2 : heap s2 = heap s1)
    by (unfold s2, after_refusal; st_simpl; by destruct (initialized s1)).
  assert (Hold2 : find_property fuel p0 CHILDREN s2 = Ok c0 s2).
  { eapply find_property_kept; [exact Hold|..]; rewrite Hheap2;
      [by apply links_only_props_kept, R1|].
    by apply links_only_hdr_kept, R1. }
  destruct (add_child_adopts fuel p0 t c0 (ks1 ++ ks2) s2 ht1 Hold2 Hc0)
    as (s' & Hadd & Hs' & Rp & Hk' & Hfr'); rewrite ?Hheap2; try done.
  { apply steal_not_sibling. }
  rewrite Hheap2 in *.
  exists s'. split.
  { rewrite Hsteal.
    rewrite (bind_Ok (add_child_refused _ _ t _ Hnone1 Href1 Herr1)).
    cbn [negb]. fold s2. by rewrite (bind_Ok Hadd). }
  assert (Rp' : reparented (heap s) (heap s') t c0)
    by (eapply reparented_after_links; [apply R1|done]).
  split; [|split; [done|split; [done|split]]].
  - rewrite Hs'. unfold s2. destruct R1 as [_ ->].
    by rewrite set_heap_after_refusal.
  - intros q Hq. rewrite Hfr', Hfr1; [done| |].
    + intros Hin'. apply Hq. apply elem_of_cons in Hin' as [->|Hin']; [left|].
      right. apply elem_of_app in Hin' as [?|?]; apply elem_of_app;
        [by left|right; by right].
    + intros Hin'. apply Hq. apply elem_of_cons in Hin' as [->|Hin']; [left|].
      right. apply elem_of_cons in Hin' as [->|Hin'].
      * apply elem_of_app. right. left.
      * apply elem_of_app in Hin' as [?|?]; apply elem_of_app;
          [by left|right; by right].
  - destruct Rp' as [Hk (h & h' & H1 & H2 & Hp & Hpc)].
    assert (Hne : c0 ≠ t) by (intros E; rewrite E in Hc0obj; congruence).
    pose proof (Hk c0 Hne) as E. rewrite Hc0obj in E.
    destruct (heap s' !! c0) as [o|] eqn:Ho; [|done]. injection E as E.
    apply (erase_links_Children o nx0 p0 hd0) in E as (n' & ->).
    eapply parent_of_ok; [done|exact H2| |done|exact Ho].
    rewrite Hpc. apply ignore_destroying_bit_idem.
Qed.

Lemma steal_moves_to_list c1 nx1 hd1 L1 :
  find_property fuel newpar CHILDREN s = Ok c1 s → c1 ≠ 0 →
  ignore_destroying_bit c1 = c1 →
  heap s !! c1 = Some (Children nx1 newpar hd1) →
  child_list (heap s) c1 L1 →
  ∃ s', tal_steal_ passive fuel new_parent ctx s = Ok ctx s' ∧
    s' = set_heap (λ _, heap s')
           (add_trace (if notifiers s =? 0 then []
                       else fired t TAL_NOTIFY_STEAL new_parent lt) s) ∧
    reparented (heap s) (heap s') t c1 ∧
    child_list (heap s') c1 (t :: (if decide (c1 = c0) then ks1 ++ ks2 else L1)) ∧
    (c1 ≠ c0 → child_list (heap s') c0 (ks1 ++ ks2)) ∧
    (∀ q, q ∉ (c0 + offsetof_children) :: (c1 + offsetof_children)
              :: ks1 ++ t :: ks2 ++ L1 →
          node_at (heap s') q = node_at (heap s) q) ∧
    parent_of t s' = Ok newpar s'.
Proof.
  intros Hfound Hc1 Hal Hc1obj HkL1.
  destruct steal_unlinks as (s1 & R1 & Hk1 & Hfr1 & Hsteal).
  pose proof (relinked_fields _ _ R1) as (Hbl & Hbe & Her & Hin & Hno & Htr & _).
  destruct (relinked_hdr s s1 t ht R1 Hht) as (ht1 & Hht1 & Hp1 & Hpc1).
  assert (Hfound1 : find_property fuel newpar CHILDREN s1 = Ok c1 s1).
  { eapply find_property_kept; [done|by apply links_only_props_kept, R1|].
    by apply links_only_hdr_kept, R1. }
  set (L := if decide (c1 = c0) then ks1 ++ ks2 else L1).
  assert (HtL : t ∉ L).
  { unfold L. destruct (decide (c1 = c0)) as [E|E]; [apply steal_not_sibling|].
    apply (child_list_disjoint (heap s) c0 c1 (ks1 ++ t :: ks2)); [done|done|done|].
    apply elem_of_app. right. left. }
  assert (Hdis : c1 ≠ c0 → ∀ q, q ∈ (c1 + offsetof_children) :: L1 →
                   q ∉ (c0 + offsetof_children) :: ks1 ++ ks2).
  { intros Hne q Hq Hq'.
    pose proof Hkids as (_ & Hh0 & Hks0 & _).
    pose proof HkL1 as (_ & Hh1 & Hks1 & _).
    rewrite Forall_forall in Hks0, Hks1.
    apply elem_of_cons in Hq as [->|Hq].
    - apply elem_of_cons in Hq' as [E|Hq']; [lia|].
      destruct (Hks0 (c1 + offsetof_children)) as [h Hh]; [|congruence].
      apply elem_of_app in Hq' as [?|?]; apply elem_of_app;
        [by left|right; by right].
    - apply elem_of_cons in Hq' as [->|Hq'].
      + destruct (Hks1 _ Hq) as [h Hh]. congruence.
      + apply (child_list_disjoint (heap s) c0 c1 (ks1 ++ t :: ks2) L1 q);
          [done|done|done| |done].
        apply elem_of_app in Hq' as [?|?]; apply elem_of_app;
          [by left|right; by right]. }
  assert (HkL : child_list (heap s1) c1 L).
  { unfold L in *. destruct (decide (c1 = c0)) as [->|E]; [done|].
    eapply child_list_frame; [done|apply R1|].
    intros q Hq. apply Hfr1. by apply Hdis. }
  destruct (add_child_adopts fuel newpar t c1 L s1 ht1 Hfound1 Hc1 HkL)
    as (s2 & Hadd & Hs2 & Rp & Hk2 & Hfr2); try done.
  assert (Rp' : reparented (heap s) (heap s2) t c1)
    by (eapply reparented_after_links; [apply R1|done]).
  pose proof Rp' as [Hk (h & h2 & H1 & H2 & Hp & Hpc)].
  assert (Hno2 : notifiers s2 = notifiers s) by (rewrite Hs2; st_simpl; done).
  assert (Hnotify : notify passive fuel t TAL_NOTIFY_STEAL new_parent s2
            = Ok tt (add_trace (fired t TAL_NOTIFY_STEAL new_parent lt) s2)).
  { eapply (steal_notify fuel new_parent ctx s ht lt litt Ht0 Hchain Hfuel).
    - by eapply reparented_props_kept.
    - exact H2.
    - left. congruence. }
  set (evs := if notifiers s =? 0 then []
              else fired t TAL_NOTIFY_STEAL new_parent lt).
  exists (add_trace evs s2). split.
  { rewrite Hsteal. rewrite (bind_Ok Hadd). cbn [negb].
    eapply bind_runs; [reflexivity|]. cbn beta. rewrite Hno2.
    unfold evs. destruct (notifiers s =? 0).
    - rewrite bind_ret_l. by rewrite add_trace_nil.
    - by rewrite (bind_Ok Hnotify). }
  assert (Hheap : heap (add_trace evs s2) = heap s2) by done.
  rewrite Hheap.
  split; [|split; [done|split; [done|split; [|split]]]].
  - rewrite Hs2 at 1. destruct R1 as [_ ->].
    by rewrite set_heap_set_heap, add_trace_set_heap.
  - intros Hne. eapply child_list_reparented; [exact Hk1|exact Rp|].
    intros q Hq. apply Hfr2. intros Hq'.
    apply elem_of_cons in Hq' as [->|Hq'].
    { by apply (Hdis Hne (c1 + offsetof_children)); [left|]. }
    apply elem_of_cons in Hq' as [->|Hq'].
    { apply elem_of_cons in Hq as [E|Hq];
        [by apply steal_head_not_node|by apply steal_not_sibling]. }
    unfold L in Hq'. rewrite decide_False in Hq' by done.
    by apply (Hdis Hne q); [right|].
  - intros q Hq. rewrite Hfr2, Hfr1; [done| |].
    + intros Hin'. apply Hq. apply elem_of_cons in Hin' as [->|Hin']; [left|].
      right. right. apply elem_of_app in Hin' as [?|?]; apply elem_of_app;
        [by left|right; right; apply elem_of_app; by left].
    + intros Hin'. apply Hq. apply elem_of_cons in Hin' as [->|Hin'];
        [right; left|].
      right. right. apply elem_of_cons in Hin' as [->|Hin'].
      * apply elem_of_app. right. left.
      * unfold L in Hin'. destruct (decide (c1 = c0)).
        -- apply elem_of_app in Hin' as [?|?]; apply elem_of_app;
             [by left|right; right; apply elem_of_app; by left].
        -- apply elem_of_app. right. right. apply elem_of_app. by right.
  - assert (Hne : c1 ≠ t) by (intros E; rewrite E in Hc1obj; congruence).
    pose proof (Hk c1 Hne) as E. rewrite Hc1obj in E.
    destruct (heap s2 !! c1) as [o|] eqn:Ho; [|done]. injection E as E.
    apply (erase_links_Children o nx1 newpar hd1) in E as (n' & ->).
    eapply parent_of_ok; [done|exact H2| |done|exact Ho].
    by rewrite Hpc.
Qed.

Lemma steal_moves_to_new_list a rest hn :
  find_property fuel newpar CHILDREN s = Ok NULL s →
  newpar ≠ 0 → heap s !! newpar = Some (Hdr hn) →
  backend s = a :: rest → a ≠ 0 → ignore_destroying_bit a = a →
  heap s !! a = None → heap s !! (a + offsetof_children) = None →
  node_at (heap s) a = None →
  ∃ s', tal_steal_ passive fuel new_parent ctx s = Ok ctx s' ∧
    s' = set_heap (λ _, heap s')
           (add_trace (if notifiers s =? 0 then []
                       else fired t TAL_NOTIFY_STEAL new_parent lt)
              (with_children newpar hn a rest s)) ∧
    reparented (heap (with_children newpar hn a rest s)) (heap s') t a ∧
    child_list (heap s') a [t] ∧
    child_list (heap s') c0 (ks1 ++ ks2) ∧
    (∀ q, q ∉ (c0 + offsetof_children) :: (a + offsetof_children)
              :: ks1 ++ t :: ks2 →
          node_at (heap s') q = node_at (heap s) q) ∧
    parent_of t s' = Ok newpar s'.
Proof.
  intros Hnone Hnp0 Hnp Hb Ha Hal Hfresh Hfresh' Hnode.
  destruct steal_unlinks as (s1 & R1 & Hk1 & Hfr1 & Hsteal).
  pose proof (relinked_fields _ _ R1) as (Hbl & Hbe & Her & Hin & Hno & Htr & _).
  destruct (relinked_hdr s s1 t ht R1 Hht) as (ht1 & Hht1 & Hp1 & Hpc1).
  assert (Hnone1 : find_property fuel newpar CHILDREN s1 = Ok NULL s1).
  { eapply find_property_kept; [done|by apply links_only_props_kept, R1|].
    by apply links_only_hdr_kept, R1. }
  destruct (relinked_hdr s s1 newpar hn R1 Hnp) as (hn1 & Hnp1 & Hnpp & Hnpc).
  assert (Hfresh1 : heap s1 !! a = None)
    by (eapply links_only_None; [apply R1|done]).
  assert (Hfresh1' : heap s1 !! (a + offsetof_children) = None)
    by (eapply links_only_None; [apply R1|done]).
  assert (Hnode1 : node_at (heap s1) a = None)
    by (eapply node_at_links_only_None; [apply R1|done]).
  assert (Hb1 : backend s1 = a :: rest) by congruence.
  set (sB := with_children newpar hn a rest s).
  set (sB1 := with_children newpar hn1 a rest s1).
  assert (HLB : links_only (heap sB) (heap sB1))
    by by apply links_only_with_children; [apply R1| |].
  assert (Hat : a ≠ t) by (intros ->; congruence).
  assert (Hanp : a ≠ newpar) by (intros ->; congruence).
  assert (HtB : ∃ hB, heap sB1 !! t = Some (Hdr hB) ∧
                  (prop hB = prop ht ∨ t = newpar ∧ prop hB = a)).
  { unfold sB1. rewrite heap_with_children.
    rewrite lookup_insert_ne by done.
    destruct (decide (t = newpar)) as [E|E].
    - rewrite E, lookup_insert_eq. eexists. split; [done|]. right. done.
    - rewrite lookup_insert_ne by done. exists ht1. split; [done|]. by left. }
  destruct HtB as (hB & HtB & HpB).
  assert (HkB : child_list (heap sB1) a []) by by apply child_list_with_children_new.
  assert (Hk0B : child_list (heap sB1) c0 (ks1 ++ ks2))
    by by apply child_list_with_children_old.
  destruct (adopt_ok a t [] sB1 hB HkB Ht0 HtB ltac:(by apply not_elem_of_nil))
    as (s2 & Hadopt & Hs2 & Rp & Hk2 & Hfr2).
  assert (Hadd : add_child fuel newpar t s1 = Ok true s2).
  { unfold add_child. rewrite (bind_Ok Hnone1).
    change (NULL =? 0) with true. cbn beta iota.
    rewrite (bind_Ok (add_child_property_ok newpar t hn1 a rest s1
                        Hnp0 Hnp1 Hb1 Ha Hfresh1 Hfresh1')).
    by destruct (Z.eqb_spec a 0). }
  assert (Rp' : reparented (heap sB) (heap s2) t a)
    by (eapply reparented_after_links; [exact HLB|done]).
  pose proof Rp as [Hk (h & h2 & H1 & H2 & Hp & Hpc)].
  assert (h = hB) as -> by congruence.
  assert (HaB : heap sB1 !! a = Some (Children (prop hn1) newpar
                  (ListNode (a + offsetof_children) (a + offsetof_children))))
    by (unfold sB1; rewrite heap_with_children; apply lookup_insert_eq).
  assert (Ha2 : ∃ n', heap s2 !! a = Some (Children (prop hn1) newpar n')).
  { pose proof (Hk a Hat) as E. rewrite HaB in E.
    destruct (heap s2 !! a) as [o|] eqn:Ho; [|done]. injection E as E.
    apply (erase_links_Children o _ _ (ListNode 0 0)) in E as (n' & ->). eauto. }
  destruct Ha2 as (na & Ha2).
  assert (Hno2 : notifiers s2 = notifiers s).
  { rewrite Hs2. unfold sB1, with_children. st_simpl.
    destruct (initialized s1); st_simpl; done. }
  assert (HKB : props_kept (heap s) (heap s2)).
  { eapply props_kept_trans; [apply links_only_props_kept, R1|].
    eapply props_kept_trans; [|exact (reparented_props_kept _ _ _ _ Rp)].
    unfold sB1. rewrite heap_with_children.
    eapply props_kept_trans; [apply props_kept_insert_hdr; eauto|].
    apply props_kept_insert_fresh. by rewrite lookup_insert_ne. }
  assert (Hnotify : notify passive fuel t TAL_NOTIFY_STEAL new_parent s2
            = Ok tt (add_trace (fired t TAL_NOTIFY_STEAL new_parent lt) s2)).
  { eapply (steal_notify fuel new_parent ctx s ht lt litt Ht0 Hchain Hfuel).
    - done.
    - exact H2.
    - rewrite Hp. destruct HpB as [->|[E ->]]; [by left|right].
      split; [done|].
      assert (prop hn1 = prop ht) as <-.
      { fold t in E. rewrite <- E in Hnp. congruence. }
      eauto. }
  set (evs := if notifiers s =? 0 then []
              else fired t TAL_NOTIFY_STEAL new_parent lt).
  exists (add_trace evs s2). split.
  { rewrite Hsteal. rewrite (bind_Ok Hadd). cbn [negb].
    eapply bind_runs; [reflexivity|]. cbn beta. rewrite Hno2.
    unfold evs. destruct (notifiers s =? 0).
    - rewrite bind_ret_l. by rewrite add_trace_nil.
    - by rewrite (bind_Ok Hnotify). }
  assert (Hheap : heap (add_trace evs s2) = heap s2) by done.
  rewrite Hheap.
  split; [|split; [done|split; [done|split; [|split]]]].
  - rewrite Hs2 at 1. unfold sB1. destruct R1 as [_ ->].
    rewrite (set_heap_with_children _ _ _ hn).
    by rewrite add_trace_set_heap.
  - eapply child_list_reparented; [exact Hk0B|exact Rp|].
    intros q Hq. apply Hfr2. intros Hq'.
    pose proof Hkids as (_ & Hh0 & Hks0 & _). rewrite Forall_forall in Hks0.
    apply elem_of_cons in Hq' as [->|Hq'].
    { apply elem_of_cons in Hq as [E|Hq].
      - assert (a = c0) as E' by lia. rewrite E' in Hfresh. congruence.
      - destruct (Hks0 (a + offsetof_children)) as [h' Hh']; [|congruence].
        apply elem_of_app in Hq as [?|?]; apply elem_of_app;
          [by left|right; by right]. }
    apply elem_of_cons in Hq' as [->|Hq']; [|by apply not_elem_of_nil in Hq'].
    apply elem_of_cons in Hq as [E|Hq];
      [by apply steal_head_not_node|by apply steal_not_sibling].
  - intros q Hq. rewrite Hfr2.
    + unfold sB1. rewrite node_at_with_children by done.
      rewrite decide_False by (intros ->; apply Hq; right; left).
      apply Hfr1. intros Hin'. apply Hq.
      apply elem_of_cons in Hin' as [->|Hin']; [left|].
      right. right. apply elem_of_app in Hin' as [?|?]; apply elem_of_app;
        [by left|right; by right].
    + intros Hin'. apply Hq. apply elem_of_cons in Hin' as [->|Hin'];
        [right; left|].
      apply elem_of_cons in Hin' as [->|Hin']; [|by apply not_elem_of_nil in Hin'].
      right. right. apply elem_of_app. right. left.
  - eapply parent_of_ok; [done|exact H2| |done|exact Ha2].
    by rewrite Hpc.
Qed.

(** C5. [tal_steal_(new_parent, ctx)].
    - When the new parent has no children property and the backend
      refuses one, under an error hook that returns: the result is
      [NULL] and nothing aborts.  [ctx] is back in the list of its old
      parent, at its head (the old parent still has its children
      property, so putting it back cannot fail); its parent reference
      leads to that property; beyond the sibling links of that list
      nothing in memory differs; the log has the refused request and
      the call of the error hook.
    - When the new parent has a children property, the result is [ctx];
      [ctx] has left the list of its old parent and is the head of the
      list of the new one; its parent reference leads to the children
      property of the new parent, and [tal_parent] reads the new parent;
      [TAL_NOTIFY_STEAL] is dispatched on [ctx] with [new_parent] as
      info, to every notifier of [ctx] with that bit in its mask, in
      chain order (the dispatch is skipped when the counter says there
      is none); nothing else differs.
    - When a children property is created for the new parent in fresh
      memory, the same holds, the new list holding [ctx] alone. *)
Theorem tal_steal_rollback_and_reparent :
  (find_property fuel newpar CHILDREN s = Ok NULL s → refused s →
   error_aborts s = false →
   find_property fuel p0 CHILDREN s = Ok c0 s →
     ∃ s', tal_steal_ passive fuel new_parent ctx s = Ok NULL s' ∧
       s' = set_heap (λ _, heap s') (after_refusal s) ∧
       reparented (heap s) (heap s') t c0 ∧
       child_list (heap s') c0 (t :: ks1 ++ ks2) ∧
       (∀ q, q ∉ (c0 + offsetof_children) :: ks1 ++ t :: ks2 →
             node_at (heap s') q = node_at (heap s) q) ∧
       parent_of t s' = Ok p0 s') ∧
  (∀ c1 nx1 hd1 L1,
     find_property fuel newpar CHILDREN s = Ok c1 s → c1 ≠ 0 →
     ignore_destroying_bit c1 = c1 →
     heap s !! c1 = Some (Children nx1 newpar hd1) →
     child_list (heap s) c1 L1 →
     ∃ s', tal_steal_ passive fuel new_parent ctx s = Ok ctx s' ∧
       s' = set_heap (λ _, heap s')
              (add_trace (if notifiers s =? 0 then []
                          else fired t TAL_NOTIFY_STEAL new_parent lt) s) ∧
       reparented (heap s) (heap s') t c1 ∧
       child_list (heap s') c1
         (t :: (if decide (c1 = c0) then ks1 ++ ks2 else L1)) ∧
       (c1 ≠ c0 → child_list (heap s') c0 (ks1 ++ ks2)) ∧
       (∀ q, q ∉ (c0 + offsetof_children) :: (c1 + offsetof_children)
                 :: ks1 ++ t :: ks2 ++ L1 →
             node_at (heap s') q = node_at (heap s) q) ∧
       parent_of t s' = Ok newpar s') ∧
  (∀ a rest hn,
     find_property fuel newpar CHILDREN s = Ok NULL s →
     newpar ≠ 0 → heap s !! newpar = Some (Hdr hn) →
     backend s = a :: rest → a ≠ 0 → ignore_destroying_bit a = a →
     heap s !! a = None → heap s !! (a + offsetof_children) = None →
     node_at (heap s) a = None →
     ∃ s', tal_steal_ passive fuel new_parent ctx s = Ok ctx s' ∧
       s' = set_heap (λ _, heap s')
              (add_trace (if notifiers s =? 0 then []
                          else fired t TAL_NOTIFY_STEAL new_parent lt)
                 (with_children newpar hn a rest s)) ∧
       reparented (heap (with_children newpar hn a rest s)) (heap s') t a ∧
       child_list (heap s') a [t] ∧
       child_list (heap s') c0 (ks1 ++ ks2) ∧
       (∀ q, q ∉ (c0 + offsetof_children) :: (a + offsetof_children)
                 :: ks1 ++ t :: ks2 →
             node_at (heap s') q = node_at (heap s) q) ∧
       parent_of t s' = Ok newpar s').
Proof.
  split; [|split].
  - apply steal_rolls_back.
  - apply steal_moves_to_list.
  - apply steal_moves_to_new_list.
Qed.

End StealLists.

(** * Checking the invariants on a given heap *)

Lemma links_closed_check hp :
  map_Forall (λ k _, closed_at hp k = true
                     ∧ closed_at hp (k + offsetof_children) = true) hp →
  links_closed hp.
Proof.
  intros HF q n Hn.
  assert (Hc : closed_at hp q = true).
  { unfold node_at in Hn.
    destruct (hp !! q) as [o|] eqn:Hq.
    - by destruct (HF _ _ Hq).
    - destruct (hp !! (q - offsetof_children)) as [o|] eqn:Hq'; [|done].
      destruct (HF _ _ Hq') as [_ H].
      by replace (q - offsetof_children + offsetof_children) with q in H by lia. }
  unfold closed_at in Hc. rewrite Hn in Hc.
  apply andb_true_iff in Hc as [H1 H2].
  split; by eapply bool_decide_eq_true_1.
Qed.




Lemma notifiers_ok_check s :
  map_Forall (λ k o, match o with
                     | Notifier _ types _ =>
                         bool_decide
                           (Z.land types (Z.lnot NOTIFY_IS_DESTRUCTOR) ≠ 0
                            ∧ blocks s !! k = Some sizeof_notifier
                            ∧ map_Forall (λ b sz, ¬ (b < k < b + sz)) (blocks s))
                     | _ => true
                     end = true) (heap s) →
  notifiers_ok s.
Proof.
  intros HF.
  assert (H : ∀ k nx types fn, heap s !! k = Some (Notifier nx types fn) →
              Z.land types (Z.lnot NOTIFY_IS_DESTRUCTOR) ≠ 0
              ∧ blocks s !! k = Some sizeof_notifier
              ∧ map_Forall (λ b sz, ¬ (b < k < b + sz)) (blocks s)).
  { intros k nx types fn Hk. specialize (HF _ _ Hk).
    by apply bool_decide_eq_true_1 in HF. }
  repeat split.
  - intros k nx types fn Hk. by destruct (H _ _ _ _ Hk).
  - intros k nx types fn Hk. by destruct (H _ _ _ _ Hk) as (_ & ? & _).
  - intros b sz k nx types fn Hb Hk. destruct (H _ _ _ _ Hk) as (_ & _ & H').
    by apply (H' _ _ Hb).
Qed.

Lemma backend_fresh_check s :
  Forall (λ a, heap s !! a = None) (backend s) → backend_fresh s.
Proof. intros HF a Ha. rewrite Forall_forall in HF. by apply HF. Qed.

Lemma range_free_check (hp : gmap Z object) a n :
  map_Forall (λ k _, ¬ (a ≤ k < a + n)) hp →
  ∀ k, a ≤ k < a + n → hp !! k = None.
Proof.
  intros HF k Hk. destruct (hp !! k) as [o|] eqn:E; [|done].
  by destruct (HF _ _ E).
Qed.

Lemma alone_check s q sz :
  blocks s !! q = Some sz → 0 < sz →
  map_Forall (λ k _, q ≤ k < q + sz → k = q) (heap s) →
  alone s q.
Proof.
  intros Hb Hsz HF. exists sz. split; [done|]. split; [done|].
  intros k Hk [o Ho]. by apply (HF _ _ Ho).
Qed.

Lemma linked_b_sound hp x y : linked_b hp x y = true → linked hp x y.
Proof.
  unfold linked_b, linked.
  destruct (node_at hp x) as [nx|]; [|done].
  destruct (node_at hp y) as [ny|]; [|done].
  intros H. apply andb_prop in H as [H1 H2].
  exists nx, ny. split; [done|]. split; [done|]. lia.
Qed.

Lemma path_b_sound hp qs : path_b hp qs = true → path hp qs.
Proof.
  induction qs as [|x [|y r] IH]; [done|done|].
  cbn [path_b path]. intros H. apply andb_prop in H as [H1 H2].
  split; [by apply linked_b_sound|by apply IH].
Qed.

Lemma child_list_check hp c ks : child_list_b hp c ks = true → child_list hp c ks.
Proof.
  unfold child_list_b. intros H.
  apply andb_prop in H as [H H5]. apply andb_prop in H as [H H4].
  apply andb_prop in H as [H H3]. apply andb_prop in H as [H1 H2].
  split; [|split; [|split; [|split]]].
  - destruct (hp !! c) as [[]|]; try done. eauto.
  - by apply bool_decide_eq_true in H2.
  - apply Forall_forall. intros k Hk.
    rewrite forallb_forall in H3. specialize (H3 k).
    destruct (hp !! k) as [[]|]; eauto; discriminate H3;
      by apply list_elem_of_In.
  - by apply bool_decide_eq_true in H4.
  - by apply path_b_sound.
Qed.

Ltac by_check := by apply (bool_decide_unpack _); vm_compute.
Ltac run := vm_compute; reflexivity.
Ltac neq := vm_compute; discriminate.

(** * The theorems on example programs *)

Lemma tal_add_notifier_no_birth_event_witness :
  ∃ s', tal_add_notifier_ passive 10 1032 TAL_NOTIFY_ADD_NOTIFIER 777
          listened_node = Ok true s'
        ∧ trace s' = trace listened_node
                     ++ [EvAlloc 32 3000; EvNotify 555 1032 128 777].
Proof.
  eexists. split.
  - refine (proj2 (proj2 (proj2
      (tal_add_notifier_no_birth_event 10 1032 TAL_NOTIFY_ADD_NOTIFIER 777
         listened_node (TalHdr (ListNode 120 120) 2000 96)
         [(2000, Notifier 0 128 555)] 0 3000 [4000; 5000; 6000]
         _ _ _ _ _ _ _)))).
    + neq.
    + run.
    + simpl. split; [reflexivity|]. split; [neq|]. split; [run|].
      split; [reflexivity|by left].
    + simpl. lia.
    + run.
    + neq.
    + run.
  - run.
Defined.

Lemma notifier_ops_keep_counter_exact_witness :
  counter_exact
    (state_of (run_notifier_op 10 (OpDelNotifier 1032 555) listened_node)).
Proof.
  apply (notifier_ops_keep_counter_exact 10 (OpDelNotifier 1032 555)
           listened_node true).
  - exact I.
  - apply notifiers_ok_check. by_check.
  - apply backend_fresh_check. by_check.
  - run.
  - run.
  - run.
Defined.

Lemma tal_steal_rollback_and_reparent_witness :
  (∃ s', tal_steal_ passive 10 2032 1032 (set_backend [] two_nodes)
         = Ok NULL s' ∧ child_list (heap s') 96 [1000; 2000] ∧
         parent_of 1000 s' = Ok 64 s') ∧
  (∃ s', tal_steal_ passive 10 0 2032 parent_and_child = Ok 2032 s' ∧
         child_list (heap s') 96 [2000; 1000] ∧ child_list (heap s') 3000 [] ∧
         parent_of 2000 s' = Ok 64 s') ∧
  (∃ s', tal_steal_ passive 10 2032 1032 two_nodes = Ok 1032 s' ∧
         child_list (heap s') 3000 [1000] ∧ child_list (heap s') 96 [2000] ∧
         parent_of 1000 s' = Ok 2000 s').
Proof.
  split; [|split].
  - destruct (proj1 (tal_steal_rollback_and_reparent 10 2032 1032
              (set_backend [] two_nodes) (TalHdr (ListNode 120 2000) 0 96)
              [] 0 2000 64 0 (ListNode 2000 1000) [2000] []
              ltac:(neq) ltac:(neq) ltac:(run)
              ltac:(split; [reflexivity|by left]) ltac:(simpl; lia)
              ltac:(run) ltac:(neq) ltac:(run)
              ltac:(apply child_list_check; run))
              ltac:(run) ltac:(by left) ltac:(run) ltac:(run))
      as (s' & Hs & _ & _ & Hk & _ & Hp).
    exists s'. split; [exact Hs|]. split; [exact Hk|exact Hp].
  - destruct (proj1 (proj2 (tal_steal_rollback_and_reparent 10 0 2032
              parent_and_child (TalHdr (ListNode 3024 3024) 0 3000)
              [] 0 64 1000 0 (ListNode 2000 2000) [] []
              ltac:(neq) ltac:(neq) ltac:(run)
              ltac:(split; [reflexivity|by left]) ltac:(simpl; lia)
              ltac:(run) ltac:(neq) ltac:(run)
              ltac:(apply child_list_check; run)))
              96 0 (ListNode 1000 1000) [1000]
              ltac:(run) ltac:(neq) ltac:(run) ltac:(run)
              ltac:(apply child_list_check; run))
      as (s' & Hs & _ & _ & Hk & Hk0 & _ & Hp).
    exists s'. split; [exact Hs|]. split; [exact Hk|].
    split; [apply Hk0; neq|exact Hp].
  - destruct (proj2 (proj2 (tal_steal_rollback_and_reparent 10 2032 1032
              two_nodes (TalHdr (ListNode 120 2000) 0 96)
              [] 0 2000 64 0 (ListNode 2000 1000) [2000] []
              ltac:(neq) ltac:(neq) ltac:(run)
              ltac:(split; [reflexivity|by left]) ltac:(simpl; lia)
              ltac:(run) ltac:(neq) ltac:(run)
              ltac:(apply child_list_check; run)))
              3000 [4000; 5000; 6000] (TalHdr (ListNode 1000 120) 0 96)
              ltac:(run) ltac:(neq) ltac:(run)
              ltac:(run) ltac:(neq) ltac:(run)
              ltac:(run) ltac:(run) ltac:(run))
      as (s' & Hs & _ & _ & Hk & Hk0 & _ & Hp).
    exists s'. split; [exact Hs|]. split; [exact Hk|].
    split; [exact Hk0|exact Hp].
Defined.



(** C3.  [tal_free] does not keep the counter: [del_tree] releases the
    notifier properties of the nodes it destroys without touching
    [notifiers].  After [tal_add_notifier_(a, TAL_NOTIFY_STEAL, fn)] on a
    fresh node the counter is 1 and exact; after [tal_free(a)] no notifier
    is left, whichever way it is counted, and the counter is still 1.
    The sibling path [tal_del_notifier_], run instead, brings it back to 0. *)
Lemma tal_free_leaves_counter_behind :
  counter_exact
    (state_of (tal_add_notifier_ passive 10 1032 TAL_NOTIFY_STEAL 777 one_node))
  ∧ (∃ s', (let* _ := tal_add_notifier_ passive 10 1032 TAL_NOTIFY_STEAL 777 in
            tal_free passive 10 1032) one_node = Ok NULL s'
           ∧ notifiers s' = 1
           ∧ live_count non_destructor s' = 0%nat
           ∧ live_count not_exactly_free s' = 0%nat
           ∧ ¬ counter_exact s')
  ∧ (∃ s', (let* _ := tal_add_notifier_ passive 10 1032 TAL_NOTIFY_STEAL 777 in
            tal_del_notifier_ passive 10 1032 777) one_node = Ok true s'
           ∧ notifiers s' = 0
           ∧ counter_exact s').
Proof.
  split; [run|]. split.
  - eexists. split; [run|]. repeat split; try run.
    vm_compute. discriminate.
  - eexists. split; [run|]. split; run.
Qed.

Lemma tal_resize_sets_count_witness :
  (∃ s', tal_resize_ passive 10 1032 4 20 arr_node = Ok (true, 2032) s' ∧
         tal_count 10 2032 s' = Ok 20 s') ∧
  (∃ s', tal_resize_ passive 10 1032 4 20 (set_backend [1000] arr_node)
         = Ok (true, 1032) s' ∧
         tal_count 10 1032 s' = Ok 20 s') ∧
  (∃ s', tal_resize_ passive 10 1032 4 20 listened_arr = Ok (true, 3032) s' ∧
         tal_count 10 3032 s' = Ok 20 s').
Proof.
  split; [|split].
  - refine (tal_resize_sets_count 10 1032 4 20 arr_node
              (TalHdr (ListNode 120 120) 1072 96) [(1072, Length 0 10)] 0
              (PropOf 1000) 1072 0 10 96 2000 [3000; 4000; 5000; 6000]
              _ _ _ _ _ _ _ _ _ _ _ _ _ _ _).
    + neq.
    + run.
    + run.
    + simpl. split; [reflexivity|]. split; [neq|]. split; [run|].
      split; [reflexivity|by left].
    + apply NoDup_cons. split; [apply not_elem_of_nil|apply NoDup_nil_2].
    + simpl; lia.
    + run.
    + by vm_compute.
    + by vm_compute.
    + by vm_compute.
    + run.
    + by vm_compute.
    + intros k Hin [o Ho]. revert k o Ho Hin.
      change (map_Forall (λ k (_ : object),
                1032 - sizeof_tal_hdr ≤ k < 1032 - sizeof_tal_hdr + 96 →
                k = 1032 - sizeof_tal_hdr ∨ k = 1072) (heap arr_node)).
      by_check.
    + change (map_Forall (λ k o,
                ¬ (1032 - sizeof_tal_hdr ≤ k < 1032 - sizeof_tal_hdr + 96) →
                k + sizeof_obj o ≤ 2000
                ∨ 2000 + (sizeof_tal_hdr + 4 * 20 + extra_for_length (4 * 20))
                  ≤ k) (heap arr_node)).
      by_check.
    + intros _. split; [eexists; run|]. split; [neq|].
      split; [eexists; run|neq].
  - refine (tal_resize_sets_count 10 1032 4 20 (set_backend [1000] arr_node)
              (TalHdr (ListNode 120 120) 1072 96) [(1072, Length 0 10)] 0
              (PropOf 1000) 1072 0 10 96 1000 []
              _ _ _ _ _ _ _ _ _ _ _ _ _ _ _).
    + neq.
    + run.
    + run.
    + simpl. split; [reflexivity|]. split; [neq|]. split; [run|].
      split; [reflexivity|by left].
    + apply NoDup_cons. split; [apply not_elem_of_nil|apply NoDup_nil_2].
    + simpl; lia.
    + run.
    + by vm_compute.
    + by vm_compute.
    + by vm_compute.
    + run.
    + by vm_compute.
    + intros k Hin [o Ho]. revert k o Ho Hin.
      change (map_Forall (λ k (_ : object),
                1032 - sizeof_tal_hdr ≤ k < 1032 - sizeof_tal_hdr + 96 →
                k = 1032 - sizeof_tal_hdr ∨ k = 1072)
                (heap (set_backend [1000] arr_node))).
      by_check.
    + change (map_Forall (λ k o,
                ¬ (1032 - sizeof_tal_hdr ≤ k < 1032 - sizeof_tal_hdr + 96) →
                k + sizeof_obj o ≤ 1000
                ∨ 1000 + (sizeof_tal_hdr + 4 * 20 + extra_for_length (4 * 20))
                  ≤ k) (heap (set_backend [1000] arr_node))).
      by_check.
    + intros Hne. by destruct Hne.
  - refine (tal_resize_sets_count 10 1032 4 20 listened_arr
              (TalHdr (ListNode 120 120) 2000 96)
              [(2000, Notifier 1072 8 555); (1072, Length 0 10)] 0
              (NextOf 2000) 1072 0 10 96 3000 [4000; 5000; 6000]
              _ _ _ _ _ _ _ _ _ _ _ _ _ _ _).
    + neq.
    + run.
    + run.
    + simpl. split; [reflexivity|]. split; [neq|]. split; [run|].
      split; [reflexivity|]. split; [neq|]. split; [run|].
      split; [reflexivity|by left].
    + apply (bool_decide_unpack _). by vm_compute.
    + simpl; lia.
    + run.
    + by vm_compute.
    + by vm_compute.
    + by vm_compute.
    + run.
    + by vm_compute.
    + intros k Hin [o Ho]. revert k o Ho Hin.
      change (map_Forall (λ k (_ : object),
                1032 - sizeof_tal_hdr ≤ k < 1032 - sizeof_tal_hdr + 96 →
                k = 1032 - sizeof_tal_hdr ∨ k = 1072) (heap listened_arr)).
      by_check.
    + change (map_Forall (λ k o,
                ¬ (1032 - sizeof_tal_hdr ≤ k < 1032 - sizeof_tal_hdr + 96) →
                k + sizeof_obj o ≤ 3000
                ∨ 3000 + (sizeof_tal_hdr + 4 * 20 + extra_for_length (4 * 20))
                  ≤ k) (heap listened_arr)).
      by_check.
    + intros _. split; [eexists; run|]. split; [neq|].
      split; [eexists; run|neq].
Defined.

Lemma tal_alloc_arr_size_check_witness :
  tal_alloc_arr_ passive 10 NULL 0 1 false true 0 (init_state [1000] 0 false)
  = Undef ∧
  tal_alloc_arr_ passive 10 NULL 8 (2 ^ 61) false true 0
    (init_state [1000] 0 false)
  = Ok NULL (log (EvError "allocation size overflow")
               (init_state [1000] 0 false)).
Proof.
  split.
  - refine (proj1 (proj2 (proj2
      (tal_alloc_arr_size_check passive 10 NULL 0 1 false true 0
         (init_state [1000] 0 false) _) _))).
    + by vm_compute.
    + neq.
  - refine (eq_trans (proj2 (proj1
      (tal_alloc_arr_size_check passive 10 NULL 8 (2 ^ 61) false true 0
         (init_state [1000] 0 false) _) _) _) _).
    + by vm_compute.
    + by vm_compute.
    + by vm_compute.
    + reflexivity.
Defined.

Lemma tal_expand_needs_length_witness :
  tal_expand_ passive 10 1032 0 4 5 one_node = Undef ∧
  find_property 10 1000 LENGTH arr_node = Ok 1072 arr_node.
Proof.
  split.
  - refine (proj1 (proj2
      (tal_expand_needs_length passive 10 1032 0 4 5 one_node
         (TalHdr (ListNode 120 120) 0 96) [] 0 _ _ _ _)) _).
    + neq.
    + run.
    + simpl. split; [reflexivity|by left].
    + simpl; lia.
    + reflexivity.
  - refine (proj1
      (tal_expand_needs_length passive 10 1032 0 4 5 arr_node
         (TalHdr (ListNode 120 120) 1072 96) [(1072, Length 0 10)] 0
         _ _ _ _)).
    + neq.
    + run.
    + simpl. split; [reflexivity|]. split; [neq|]. split; [run|].
      split; [reflexivity|by left].
    + simpl; lia.
Defined.

Lemma set_destroying_bit_round_trip_witness :
  ∃ s' h',
    set_destroying_bit 1000 one_node = Ok tt s' ∧
    heap s' = <[1000 := Hdr h']> (heap one_node) ∧
    hlist h' = ListNode 120 120 ∧ prop h' = 0 ∧
    get_destroying_bit (parent_child h') = true ∧
    ignore_destroying_bit (parent_child h') = 96 ∧
    ignore_destroying_bit 96 = 96.
Proof.
  refine (set_destroying_bit_round_trip 1000 (TalHdr (ListNode 120 120) 0 96)
            one_node _ _ _ _).
  - neq.
  - run.
  - by vm_compute.
  - run.
Defined.

Lemma tal_free_releases_subtree_witness :
  ∃ s',
    tal_free passive 10 3032 watched_parent = Ok NULL s' ∧
    errno s' = errno watched_parent ∧
    (∀ k, k ∈ [3000; 5000] → heap s' !! k = None) ∧
    (∀ k, k ∉ [3000; 5000] →
          erase_links <$> heap s' !! k
          = erase_links <$> heap watched_parent !! k) ∧
    (∀ k, k ∉ [3000; 5000] → blocks s' !! k = blocks watched_parent !! k) ∧
    trace s' = trace watched_parent
               ++ [EvNotify 555 1032 TAL_NOTIFY_DEL_CHILD 3032]
               ++ [EvDestroy 777 3032; EvRelease 5000; EvRelease 3000] ∧
    same_env watched_parent s'.
Proof.
  refine (tal_free_releases_subtree 10 3032 watched_parent 4000
            (Node 3000 [(5000, Notifier 0 513 777)] 0 [])
            2000 1000 (ListNode 3000 3000)
            (TalHdr (ListNode 120 120) 4000 96)
            [(4000, Children 2000 1000 (ListNode 3000 3000));
             (2000, Notifier 0 64 555)] 0
            _ _ _ _ _ _ _ _ _ _ _ _).
  - reflexivity.
  - apply repr_b_sound. run.
  - by_check.
  - simpl. lia.
  - by vm_compute.
  - neq.
  - run.
  - neq.
  - run.
  - simpl. split; [reflexivity|]. split; [neq|]. split; [run|].
    split; [reflexivity|]. split; [neq|]. split; [run|].
    split; [reflexivity|by left].
  - simpl. lia.
  - intros h Hh. assert (h = TalHdr (ListNode 4024 4024) 5000 4000) as ->.
    { vm_compute in Hh. by injection Hh as <-. }
    simpl. split; right; (split; [run|]); (split; [by_check|]);
      (split; [by_check|]); eexists _, _, _; run.
Defined.

Lemma tal_free_with_reentrant_destructors_witness :
  ∃ s',
    tal_free (reentrant (frees 1032) 10 1) 10 1032 unwatched_parent = Ok NULL s' ∧
    errno s' = errno unwatched_parent ∧
    (∀ k, k ∈ [1000; 3000; 2000; 4000] → heap s' !! k = None) ∧
    (∀ k, k ∉ [1000; 3000; 2000; 4000] →
          blocks s' !! k = blocks unwatched_parent !! k) ∧
    trace s' = trace unwatched_parent
               ++ [EvDestroy 777 2032; EvRelease 4000; EvRelease 2000;
                   EvRelease 3000; EvRelease 1000] ∧
    NoDup [4000; 2000; 3000; 1000].
Proof.
  refine (tal_free_with_reentrant_destructors (frees 1032) 9 0 10 1032
            unwatched_parent 96
            (Node 1000 [(3000, Children 0 1000 (ListNode 2000 2000))] 0
               [Node 2000 [(4000, Notifier 0 513 777)] 0 []])
            _ _ _ _ _ _ _).
  - reflexivity.
  - apply repr_b_sound. run.
  - by_check.
  - simpl. lia.
  - run.
  - simpl. split.
    + intros q nx types fn Hin.
      apply list_elem_of_singleton in Hin. discriminate.
    + split; [|done]. split; [|done].
      intros q nx types fn Hin _.
      apply list_elem_of_singleton in Hin. injection Hin as -> -> -> ->.
      simpl. exists 1000. split; [by_check|reflexivity].
  - intros h Hh. assert (h = TalHdr (ListNode 120 120) 3000 96) as ->.
    { vm_compute in Hh. by injection Hh as <-. }
    simpl. split; right; (split; [run|]); (split; [by_check|]);
      (split; [by_check|]); eexists _, _, _; run.
Defined.

Lemma tal_free_while_being_destroyed_witness :
  tal_free passive 1 2032 flagged_sibling
  = Ok NULL (state_of (list_del 2000 flagged_sibling)) ∧
  node_at (heap (state_of (list_del 2000 flagged_sibling))) 120
  ≠ node_at (heap flagged_sibling) 120 ∧
  tal_free passive 1 1032 half_destroyed = Ok NULL half_destroyed.
Proof.
  split; [|split].
  - refine (proj1 (tal_free_while_being_destroyed passive 0 2000
                     flagged_sibling) _ _ _ _).
    + split; [lia|]. exists (TalHdr (ListNode 1000 120) 0 97).
      split; [run|]. split; [run|]. by left.
    + run.
    + run.
  - neq.
  - refine (proj2 (tal_free_while_being_destroyed passive 0 1000
                     half_destroyed) _ _).
    + split; [lia|]. exists (TalHdr (ListNode 120 120) 0 97).
      split; [run|]. split; [run|]. split; [by left|].
      split; eexists; (split; [run|reflexivity]).
    + run.
Defined.

Lemma tal_alloc_backend_refuses_witness :
  tal_alloc_ passive 10 1032 8 false 0 (set_backend [] one_node)
  = Ok NULL (add_trace [EvAlloc 40 NULL; EvError "allocation failed"]
               (set_backend [] one_node)).
Proof.
  exact (tal_alloc_backend_refuses passive 10 1032 8 false 0
           (set_backend [] one_node) 1000 ltac:(run) ltac:(by left)).
Defined.

Lemma tal_alloc_gives_header_back_witness :
  let s := set_backend [2000; 0; 3000] one_node in
  ∃ s',
    tal_alloc_ passive 10 1032 8 false 0 s = Ok NULL s' ∧
    heap s' = heap s ∧ blocks s' = blocks s ∧ backend s' = [3000] ∧
    trace s' = trace s ++ [EvAlloc 40 2000; EvAtexit; EvAlloc 40 NULL;
                           EvError "allocation failed"; EvRelease 2000].
Proof.
  refine (tal_alloc_gives_header_back passive 10 1032 8 false 0
            (set_backend [2000; 0; 3000] one_node) 1000 2000 [0; 3000]
            _ _ _ _ _ _ _ _ _).
  - run.
  - run.
  - reflexivity.
  - neq.
  - right. by exists [3000].
  - run.
  - neq.
  - apply range_free_check. by_check.
  - run.
Defined.

Lemma tal_alloc_size_wraps_witness :
  allocate (wrap (sizeof_tal_hdr + (SIZE_MOD - 8))) one_node
  = Ok 2000 (set_blocks <[2000 := 24]>
               (log (EvAlloc 24 2000)
                  (set_backend [3000; 4000; 5000; 6000] one_node))) ∧
  24 < sizeof_tal_hdr ∧
  tal_alloc_ passive 10 1032 (SIZE_MOD - 8) false 0 one_node = Undef.
Proof.
  refine (tal_alloc_size_wraps passive 10 1032 (SIZE_MOD - 8) false 0
            one_node 1000 2000 [3000; 4000; 5000; 6000] _ _ _ _ _).
  - run.
  - split; [neq|run].
  - run.
  - neq.
  - change (map_Forall (λ b sz, ¬ (b ≤ 2000 ∧ 2000 + sizeof_tal_hdr ≤ b + sz))
              (blocks one_node)).
    by_check.
Defined.

Lemma tal_alloc_links_new_child_witness :
  let s := with_strings parent_and_child in
  ∃ s',
    tal_alloc_ passive 10 1032 8 false 7000 s = Ok 4032 s' ∧
    tal_parent 4032 s' = Ok 1032 s' ∧
    tal_first 10 1032 s' = Ok 4032 s' ∧
    tal_name 10 4032 s' = Ok 7000 s' ∧
    trace s' = trace s ++ [EvAlloc 40 4000] ∧
    blocks s' = <[4000 := 40]> (blocks s) ∧
    (∀ k, k ≠ 4000 → erase_links <$> heap s' !! k = erase_links <$> heap s !! k).
Proof.
  refine (tal_alloc_links_new_child 10 1032 8 false 7000
            (with_strings parent_and_child) 1000
            (TalHdr (ListNode 120 120) 3000 96)
            [(3000, Children 0 1000 (ListNode 2000 2000))] 0
            (PropOf 1000) 3000 0 (ListNode 2000 2000) 4000 [5000; 6000]
            _ _ _ _ _ _ _ _ _ _ _ _ _ _ _ _).
  - right. split; [neq|]. split; [run|neq].
  - neq.
  - run.
  - simpl. split; [reflexivity|]. split; [neq|]. split; [run|].
    split; [reflexivity|by left].
  - simpl. lia.
  - run.
  - by vm_compute.
  - run.
  - run.
  - apply links_closed_check. by_check.
  - run.
  - reflexivity.
  - neq.
  - run.
  - run.
  - right. exists "point"%string. split; [run|neq].
Defined.

Lemma tal_alloc_arr_keeps_count_witness :
  let s := parent_and_child in
  ∃ s',
    tal_alloc_arr_ passive 10 1032 4 10 false true 0 s = Ok 4032 s' ∧
    tal_count 10 4032 s' = Ok 10 s' ∧
    tal_parent 4032 s' = Ok 1032 s' ∧
    blocks s' = <[4000 := 96]> (blocks s) ∧
    trace s' = trace s ++ [EvAlloc 96 4000].
Proof.
  refine (tal_alloc_arr_keeps_count 10 1032 4 10 false true 0
            parent_and_child 1000
            (TalHdr (ListNode 120 120) 3000 96)
            [(3000, Children 0 1000 (ListNode 2000 2000))] 0
            (PropOf 1000) 3000 0 (ListNode 2000 2000) 4000 [5000; 6000]
            _ _ _ _ _ _ _ _ _ _ _ _ _ _ _ _ _ _ _).
  - right. split; [neq|]. split; [run|neq].
  - neq.
  - run.
  - simpl. split; [reflexivity|]. split; [neq|]. split; [run|].
    split; [reflexivity|by left].
  - simpl. lia.
  - lia.
  - run.
  - by vm_compute.
  - run.
  - run.
  - apply links_closed_check. by_check.
  - by vm_compute.
  - by vm_compute.
  - run.
  - run.
  - reflexivity.
  - apply range_free_check. by_check.
  - run.
  - by left.
Defined.

Lemma tal_set_name_copies_witness :
  ∃ s',
    tal_set_name_ passive 10 1032 7100 false copied_name = Ok true s' ∧
    tal_name 10 1032 s' = Ok 3016 s' ∧
    load_string 3016 s' = Ok "line"%string s' ∧
    3016 ≠ 7100 ∧
    heap s' !! 7100 = Some (Str "line") ∧
    trace s' = trace copied_name ++ [EvRelease 2000] ++ [EvAlloc 21 3000] ++ [].
Proof.
  refine (tal_set_name_copies 10 1032 7100 false copied_name
            (TalHdr (ListNode 120 120) 2000 96) [(2000, Name 0 "point")] 0
            "line" 3000 [4000; 5000; 6000] _ _ _ _ _ _ _ _ _ _ _ _).
  - neq.
  - run.
  - simpl. split; [reflexivity|]. split; [neq|]. split; [run|].
    split; [reflexivity|by left].
  - simpl. lia.
  - intros loc q o [= _ <- _]. apply (alone_check _ _ 22); [run|reflexivity|by_check].
  - neq.
  - run.
  - by left.
  - run.
  - run.
  - reflexivity.
  - apply range_free_check. by_check.
Defined.

Lemma tal_set_name_keeps_literal_witness :
  ∃ s',
    tal_set_name_ passive 10 1032 7100 true copied_name = Ok true s' ∧
    tal_name 10 1032 s' = Ok 7100 s' ∧
    backend s' = backend copied_name ∧
    (∀ k, k ∉ [2000] → blocks s' !! k = blocks copied_name !! k) ∧
    trace s' = trace copied_name ++ [EvRelease 2000] ++ [].
Proof.
  refine (tal_set_name_keeps_literal 10 1032 7100 copied_name
            (TalHdr (ListNode 120 120) 2000 96) [(2000, Name 0 "point")] 0
            "line" _ _ _ _ _ _ _ _ _).
  - neq.
  - run.
  - simpl. split; [reflexivity|]. split; [neq|]. split; [run|].
    split; [reflexivity|by left].
  - simpl. lia.
  - vm_compute. lia.
  - intros loc q o [= _ <- _]. apply (alone_check _ _ 22); [run|reflexivity|by_check].
  - neq.
  - run.
  - neq.
Defined.

Lemma tal_set_name_loses_old_name_witness :
  let s := set_backend [] copied_name in
  ∃ s',
    tal_set_name_ passive 10 1032 7100 false s = Ok false s' ∧
    tal_name 10 1032 s' = Ok NULL s' ∧
    trace s' = trace s ++ [EvRelease 2000]
               ++ [EvAlloc 21 NULL; EvError "allocation failed"].
Proof.
  refine (tal_set_name_loses_old_name 10 1032 7100 false
            (set_backend [] copied_name)
            (TalHdr (ListNode 120 120) 2000 96) [(2000, Name 0 "point")] 0
            "line" _ _ _ _ _ _ _ _ _ _ _ _).
  - neq.
  - run.
  - simpl. split; [reflexivity|]. split; [neq|]. split; [run|].
    split; [reflexivity|by left].
  - simpl. lia.
  - vm_compute. lia.
  - intros loc q o [= _ <- _]. apply (alone_check _ _ 22); [run|reflexivity|by_check].
  - neq.
  - run.
  - by left.
  - run.
  - by left.
  - run.
Defined.

Lemma tal_set_name_own_name_undefined_witness :
  tal_name 10 1032 copied_name = Ok 2016 copied_name ∧
  tal_set_name_ passive 10 1032 2016 false copied_name = Undef.
Proof.
  refine (tal_set_name_own_name_undefined passive 10 1032 false copied_name
            (TalHdr (ListNode 120 120) 2000 96) [(2000, Name 0 "point")] 0
            (PropOf 1000) 2000 0 "point" 22 _ _ _ _ _ _ _ _).
  - neq.
  - run.
  - simpl. split; [reflexivity|]. split; [neq|]. split; [run|].
    split; [reflexivity|by left].
  - simpl. lia.
  - run.
  - run.
  - run.
  - intros k Hk [o Ho]. revert k o Ho Hk.
    change (map_Forall (λ k _, 2000 ≤ k < 2000 + 22 → k = 2000)
              (heap copied_name)).
    by_check.
Defined.

Lemma tal_del_notifier_not_installed_witness :
  tal_del_notifier_ passive 10 1032 777 listened_node = Ok false listened_node.
Proof.
  refine (tal_del_notifier_not_installed passive 10 1032 777 listened_node
            (TalHdr (ListNode 120 120) 2000 96) [(2000, Notifier 0 128 555)] 0
            _ _ _ _ _).
  - neq.
  - run.
  - simpl. split; [reflexivity|]. split; [neq|]. split; [run|].
    split; [reflexivity|by left].
  - simpl. lia.
  - intros q nx types Hin. apply list_elem_of_singleton in Hin. discriminate.
Defined.

Lemma tal_del_notifier_removes_latest_witness :
  ∃ s' h',
    tal_del_notifier_ passive 10 1032 555 two_listeners = Ok true s' ∧
    heap s' !! 1000 = Some (Hdr h') ∧
    chain (heap s') (prop h') [(3000, Notifier 0 513 777)] 0 ∧
    heap s' !! 2000 = None ∧ blocks s' = delete 2000 (blocks two_listeners) ∧
    (∀ k, k ∈ [] → heap s' !! k = heap two_listeners !! k) ∧
    trace s' = trace two_listeners ++ [EvRelease 2000] ++ [] ∧
    notifiers s' = 0.
Proof.
  refine (tal_del_notifier_removes_latest 10 1032 555 two_listeners
            (TalHdr (ListNode 120 120) 3000 96)
            [(3000, Notifier 2000 513 777)] 2000 0 128 [] 0
            _ _ _ _ _ _ _).
  - neq.
  - run.
  - simpl. split; [reflexivity|]. split; [neq|]. split; [run|].
    split; [reflexivity|]. split; [neq|]. split; [run|].
    split; [reflexivity|by left].
  - simpl. lia.
  - intros q nx types Hin. apply list_elem_of_singleton in Hin. discriminate.
  - apply (alone_check _ _ 32); [run|reflexivity|by_check].
  - neq.
Defined.

Lemma destructor_add_then_del_witness :
  ∃ s1 s',
    tal_add_destructor_ 1032 777 one_node = Ok true s1 ∧
    trace s1 = trace one_node ++ [EvAlloc 32 2000] ∧
    tal_del_destructor_ passive 10 1032 777 s1 = Ok true s' ∧
    heap s' = heap one_node ∧ blocks s' = blocks one_node ∧
    notifiers s' = notifiers one_node ∧
    trace s' = trace one_node ++ [EvAlloc 32 2000; EvRelease 2000] ++ [].
Proof.
  refine (destructor_add_then_del 10 1032 777 one_node
            (TalHdr (ListNode 120 120) 0 96) [] 0 2000 [3000; 4000; 5000; 6000]
            _ _ _ _ _ _ _ _).
  - neq.
  - run.
  - split; [reflexivity|by left].
  - simpl. lia.
  - run.
  - neq.
  - apply range_free_check. by_check.
  - run.
Defined.

Lemma tal_resize_backend_refuses_witness :
  let s := set_backend [] arr_node in
  tal_resize_ passive 10 1032 4 20 s
  = Ok (false, 1032)
      (add_trace [EvRealloc 1000 136 NULL; EvError "Reallocation failure"] s).
Proof.
  exact (tal_resize_backend_refuses passive 10 1032 4 20
           (set_backend [] arr_node)
           (TalHdr (ListNode 120 120) 1072 96) [(1072, Length 0 10)] 0 96
           ltac:(neq) ltac:(run)
           ltac:(simpl; split; [reflexivity|]; split; [neq|]; split; [run|];
                 split; [reflexivity|by left])
           ltac:(simpl; lia) ltac:(by vm_compute) ltac:(by vm_compute)
           ltac:(run) ltac:(run) ltac:(by left)).
Defined.

Lemma tal_expand_count_overflow_witness :
  tal_expand_ passive 10 1032 7000 4 (SIZE_MOD - 5) arr_node
  = Ok (false, 1032) (log (EvError "dup size overflow") arr_node).
Proof.
  exact (tal_expand_count_overflow passive 10 1032 7000 4 (SIZE_MOD - 5)
           arr_node
           (TalHdr (ListNode 120 120) 1072 96) [(1072, Length 0 10)] 0
           (PropOf 1000) 1072 0 10
           ltac:(neq) ltac:(run)
           ltac:(simpl; split; [reflexivity|]; split; [neq|]; split; [run|];
                 split; [reflexivity|by left])
           ltac:(simpl; lia) ltac:(run) ltac:(by vm_compute)
           ltac:(by vm_compute) ltac:(neq)
           ltac:(vm_compute; apply not_elem_of_nil)).
Defined.

Lemma tal_dup_checks_sizes_witness :
  tal_dup_ passive 10 1032 7000 4 3 2 true 0 one_node
  = tal_alloc_arr_ passive 10 1032 4 5 false true 0 one_node ∧
  tal_dup_ passive 10 1032 7000 4 3 (SIZE_MOD - 2) true 0 one_node
  = (do* call_error "dup size overflow" in ret NULL) one_node.
Proof.
  split.
  - exact (tal_dup_checks_sizes passive 10 1032 7000 4 3 2 true 0 one_node
             ltac:(by vm_compute) ltac:(by vm_compute) ltac:(by vm_compute)
             ltac:(vm_compute; apply not_elem_of_nil)).
  - exact (tal_dup_checks_sizes passive 10 1032 7000 4 3 (SIZE_MOD - 2) true 0
             one_node
             ltac:(by vm_compute) ltac:(by vm_compute) ltac:(by vm_compute)
             ltac:(vm_compute; apply not_elem_of_nil)).
Defined.

Lemma extra_for_length_aligns_witness :
  sizeof_length ≤ extra_for_length 13 < sizeof_length + alignof_length ∧
  (13 + extra_for_length 13 - sizeof_length) mod alignof_length = 0.
Proof.
  apply (extra_for_length_aligns 13); [lia|run].
Defined.

Lemma tal_next_walks_the_tree_witness :
  tal_first 10 1032 family = Ok 4032 family ∧
  tal_next 10 1032 4032 family = Ok 2032 family ∧
  tal_next 10 1032 2032 family = Ok 5032 family ∧
  tal_next 10 1032 5032 family = Ok NULL family.
Proof.
  destruct (tal_next_walks_the_tree 10 1032 1000 family
              (TalHdr (ListNode 120 120) 3000 96)
              [(3000, Children 0 1000 (ListNode 4000 2000))] 0
              (PropOf 1000) 3000 0 (ListNode 4000 2000)
              [Node 4000 [] 0 [];
               Node 2000 [(6000, Children 0 2000 (ListNode 5000 5000))] 0
                 [Node 5000 [] 0 []]])
    as [Hfirst Hnext].
  - right. split; [neq|]. split; [run|neq].
  - neq.
  - run.
  - simpl. split; [reflexivity|]. split; [neq|]. split; [run|].
    split; [reflexivity|by left].
  - simpl. lia.
  - run.
  - by vm_compute.
  - apply lists_b_sound. run.
  - constructor; [apply repr_b_sound; run|].
    constructor; [apply repr_b_sound; run|]. constructor.
  - constructor; [exact I|]. constructor; [|constructor].
    simpl. split; [by vm_compute|]. split; [eexists _, _; run|]. done.
  - by_check.
  - constructor; [simpl; lia|]. constructor; [simpl; lia|]. constructor.
  - split; [exact Hfirst|].
    split; [exact (Hnext [] 4000 [2000; 5000] eq_refl)|].
    split; [exact (Hnext [4000] 2000 [5000] eq_refl)|].
    exact (Hnext [4000; 2000] 5000 [] eq_refl).
Defined.
